(* ===== verification/_CoqProject ===== *)
-Q . S2P
Prelude.v
Layout.v
Function.v
Bitmap.v
Lock.v
Algorithm.v
Pmm.v
Smp.v
Buddy.v
CString.v
HashMap.v
Drivers.v
Keyboard.v
Printf.v
Vector.v
Storage.v
List.v
Vfs.v
Descriptors.v
Tmpfs.v
Tree.v
Mkfs.v
Session.v
Paging.v
AddressSpace.v
Spaces.v
Demand.v
Initramfs.v
Archive.v
Machine.v
Interrupts.v
Cpu.v
Elf.v
Program.v
Timers.v
Sched.v
Traps.v
Processes.v
Calls.v
Spawn.v
Launch.v
Reachable.v
Acpi.v
Framebuffer.v
Squares.v
Terminal.v
Boot.v
Syscall.v
User.v
TestProgram.v
Console.v
Kernel.v
Report.v
Ubsan.v
System.v
FirstProgram.v
Structures.v
Limine.v
