(* ===== verification/Prelude.v ===== *)
(** * A model of FishOS and its verification

    FishOS is a small kernel for the PC, in C++, with a test program that runs
    on it.  This library translates its code into executable definitions and
    proves what each part is for.  Paths below are relative to src/src of the
    repository unless they start with userspace.

    ** The system

    The boot loader enters [_start] (kernel.cpp).  It brings up the physical
    page allocator (mem/pmm.cpp), the interrupt table (cpu/interrupts), the
    kernel's page tables (mem/vmm.cpp), the terminal (gfx) and the kernel heap
    (mem/allocator.cpp), which is backed by page faults; then the other
    processors (cpu/cpu.cpp), the firmware's tables (acpi/tables.cpp), the file
    system (fs), the timers and the scheduler (sched).  The first kernel thread
    unpacks an archive into the file system, loads the ELF file /bin/test
    (userland/elf.cpp) into a new address space and schedules it.  The program
    talks to the kernel by system calls (cpu/syscall), most of them on file
    descriptors (fs/vfs.cpp), and by page faults on what it got from mmap.

    ** How the code is modelled

    A function that may fail is a function into [outcome]: [Ret] a result,
    [Panic] for the code's panics, [Fault] for an access outside what the model
    knows to be there (a null pointer, an index past the end, an uninitialised
    or unmapped place), [Diverge] for a loop that does not end.  State is passed
    explicitly, one record for the variables of a component.  Integers are [Z]
    with [wrap w] wherever the code's width matters.  Objects reached by pointer
    are finite maps from addresses ([gmap]); buffers are lists with bounds.
    Loops are structural, bounded by [for_range], or have fuel: then a theorem
    says which fuel is enough, or the function that starts the loop computes it
    ([inner_fuel] of Pmm: one unit per page left; [path_loop]: one per
    character; [vprintf]: one per character of the format; [load_loop]: one per
    512 bytes of the archive; [num_digits]: 64 rounds for 64 bits; [turns] of
    Framebuffer: one more than a 16 bit counter has values), and theorems about such
    loops state that they return.  Where the code does hang ([free_pages],
    [size_required] above 2^63, [fill_rect] past row 65535, unknown conversions
    of printf, an empty entry in the MADT), a theorem shows it for every fuel or
    the model diverges.
    What is outside src/ is a parameter: the device registers and ports (class
    [Machine]), the font, the memory the boot loader and the firmware fill, the
    addresses [new] returns.

    ** The files and what their theorems show

    - Prelude: integers, outcomes, arrays indexed by integers, loops; the
      tactics [ored] (computes the monad) and [inv_ret] (inverts returns).
    - klib: Bitmap, Algorithm, CString, HashMap (an open-addressing table
      refines a finite map under insert and erase), Printf ([vprintf] prints
      what a reference semantics of formats prescribes), Vector, List (intrusive
      lists as pointers, with the invariant [ring]), Function (a copy of a
      [klib::Function] calls what the original did).
    - Lock: klib/lock.hpp alone and with any number of processors interleaved
      access by access (it refines an atomic lock; a stuck lock panics), and the
      guards of static variables in klib/cppruntime.cpp (constructed once).
      Smp: any function under a LockGuard on several processors (class
      [Routine]) answers as if called one at a time; for [alloc_pages], that no
      page is given twice.
    - Pmm: the bitmap allocator: what init marks, that alloc_pages takes runs of
      free pages and fails only where the code's two scans cannot see a run.
    - Buddy: the heap: blocks chained by size, the invariant [inv]; malloc,
      free and realloc against the blocks a caller holds; live blocks disjoint.
      Storage: vectors whose buffers are blocks of that heap.
    - Paging: page tables as 512-word pages; [translate] is the processor's
      walk; map_page, page faults, mmap.  The allocator is the class
      [PageAllocator], whose laws Pmm's allocator is proved to have.
      AddressSpace: what vmm::init maps, sharing of the kernel's half and
      isolation.  Demand: loads and stores through tables and faults are those
      of a flat zeroed memory.
    - Vfs, Descriptors, Tmpfs, Tree, Mkfs: nodes by address, any file system as
      a record [FileSystem] with the laws of the class [FileContents], which tmpfs
      satisfies; path resolution against walking the tree; descriptors;
      creation; getcwd.  Drivers: the table of file systems by name, whose array
      its first use by value frees.  Session: in a well-typed state any sequence
      of the system calls on files that its predicate [sane] admits returns and
      leaves a well-typed state, on any heap (class [Heap]) that grants files up
      to a limit.  Creating nodes is right as long as [new] gives memory that
      reads zero ([junk_zero]: the constructor of Node leaves a field unset).
    - Initramfs, Archive: loading an archive equals creating its members in
      order, and makes exactly the tree of files it describes.
      Elf, Program: the loader; what the program sees of each of its segments:
      [image], exactly what the loader reads, and [elf_image], what the file
      means; they agree for a [well_placed] segment, and examples show how they
      differ for others.
    - Machine, Interrupts, Traps, Timers, Acpi, Cpu: registers, segments, the
      IDT and APICs, exceptions and page faults of kernel and user tasks, the
      MADT against the list of its entries, stacks of the processors.
    - Sched: tasks and the timer interrupt that switches them, round robin.
      Squares: the two drawing tasks.
    - Spaces: many address spaces in one memory that share the kernel's half:
      what map_page, page faults and new address spaces do to all of them.
      Processes: scheduler, traps, page maps, mmap and the kernel's accesses to
      program memory as the events of one machine that runs any number of
      programs; its invariant [system_ok] and that every event keeps it; programs
      do not notice each other.  Calls: read, pread and getcwd store through the
      running program's tables byte by byte; they are runs of that machine, and
      what read gives is what the program finds.  Spawn: new tasks and programs
      join such a machine.  Launch: new_user_task on a file that is a program
      returns one whose memory shows the file and a stack.  Reachable: every
      state from the return of vmm::init on satisfies the invariant: no memory is
      shared, the machine goes on.  Three hypotheses are the programs' duty and
      not checked by the code (examples show what happens otherwise): a program
      asks mmap for less than is left of its half, it gives system calls buffers
      in its half (both in [possible]), and its file's segments lie in the lower
      half ([program_fits]).
    - Keyboard, Framebuffer, Terminal, Console: scan codes to lines; drawing; a
      terminal shows the last lines of its text; printf reaches it and the port.
    - Syscall, User, TestProgram: a call made by the program's stubs reaches the
      kernel's handler with its arguments; the program's library; the test
      program over the handlers, a whole session by evaluation.
    - Boot, Kernel, System: [_start] to the heap; panic's report; the first
      thread, from an archive to a scheduled program and the reset after its
      end; the rest of [_start] on what the first half left, whose tasks get
      their turns, and the whole boot of a small PC by evaluation.  FirstProgram:
      in any reachable state [kernel_thread] leads from an archive to a task on
      the program in it, by the theorems of Archive, Tree and Launch.
    - Layout, Structures, Limine: how the compiler lays out structures; that the
      offsets in the models of the readers of firmware tables, program files and
      archives are those of the declarations; the answers of the boot loader
      read from memory.
    - Report, Ubsan: the lock of the console, what an exception prints, the C++
      runtime's handlers; each report of undefined behaviour and its panic.

    Each theorem numbered C<n> is a property of the code; a lemma named like a
    property with [_witness] applies it to a concrete state.  Examples show
    concrete runs, among them runs in which the code does not do what it means
    to (a missing file of a page's size, a heap that misses its last block...).

    ** What is not modelled

    - Log lines, and the locks around the functions of other components than
      those in Smp and Report: their models are of one processor at a time.
    - Destructors and [delete] where they only release memory; [new] is granted
      in klib/vector.hpp, klib/hashmap.hpp and fs, and its addresses are fresh.
    - The effect of the freed table of file systems on what takes its memory:
      Drivers shows its use after the free, the other files call tmpfs directly.
    - The other processors while the first boots: each runs [init] of Cpu, in any
      order but one after the other, and halts; that two at once race for one
      entry of the shared segment table is shown by an example only
      ([task_registers_race] of Cpu).
    - The machine of Processes has one processor.  The system calls on files are
      those of Vfs; what they do to program memory is in Calls for the three that
      store there (the others only load), and to descriptors the event [Files].
      Whether they end is Session's theorem, not the machine's.  Stacks are not
      part of a task's state.
    - What the heap answers when a file grows depends on the size only (class
      [Heap] of Tmpfs); files other than Session use one that always grants.
    - Assembler: the context switch stubs, memcpy and friends (their effect is
      in CString), [cli], [hlt], [pause]; the system call entry is in Syscall.
    - The requests of limine.hpp (vendored) that the kernel does not make, the
      linker script and the build. *)
From stdpp Require Export base numbers list gmap.
From Stdlib Require Export ZArith Lia Bool.

#[export] Set Default Goal Selector "!".
Open Scope Z_scope.

Declare Scope fish_scope.
Delimit Scope fish_scope with fish.

(** ** Machine integers *)
Definition wrap (w x : Z) : Z := x mod 2 ^ w.
Abbreviation u8 := (wrap 8).
Abbreviation u16 := (wrap 16).
Abbreviation u32 := (wrap 32).
Abbreviation u64 := (wrap 64).

Lemma wrap_small w x : 0 <= x < 2 ^ w -> wrap w x = x.
Proof. apply Z.mod_small. Qed.

Lemma wrap_range w x : 0 <= w -> 0 <= wrap w x < 2 ^ w.
Proof. intros. apply Z.mod_pos_bound. apply Z.pow_pos_nonneg; lia. Qed.

Lemma wrap_testbit w x i : 0 <= w -> 0 <= i ->
  Z.testbit (wrap w x) i = bool_decide (i < w) && Z.testbit x i.
Proof.
  intros Hw Hi. unfold wrap. case_bool_decide.
  - by rewrite Z.mod_pow2_bits_low.
  - rewrite Z.mod_pow2_bits_high by lia. done.
Qed.

(** ** Outcomes *)
Inductive outcome (A : Type) : Type :=
| Ret (a : A)
| Panic
| Fault
| Diverge.
Arguments Ret {A} a.
Arguments Panic {A}.
Arguments Fault {A}.
Arguments Diverge {A}.

#[export] Instance outcome_ret : MRet outcome := @Ret.
#[export] Instance outcome_bind : MBind outcome := fun A B f m =>
  match m with
  | Ret a => f a
  | Panic => Panic
  | Fault => Fault
  | Diverge => Diverge
  end.

Definition of_option {A} (o : option A) : outcome A :=
  match o with Some a => Ret a | None => Fault end.

Definition zlookup {A} (l : list A) (i : Z) : option A :=
  if bool_decide (0 <= i) then l !! Z.to_nat i else None.
Definition zinsert {A} (i : Z) (x : A) (l : list A) : list A :=
  <[Z.to_nat i := x]> l.
Notation "l .[ i ]" := (zlookup l i) (at level 2, i at level 200, left associativity) : fish_scope.

(** ** Reasoning about outcomes *)
Lemma bind_Ret {A B} (m : outcome A) (f : A -> outcome B) b :
  (m ≫= f) = Ret b <-> exists a, m = Ret a /\ f a = Ret b.
Proof.
  destruct m as [a| | |]; cbn; split; intros H; try (destruct H as (?&?&?)); try discriminate.
  - by exists a.
  - congruence.
Qed.

Lemma bind_assoc {A B C} (m : outcome A) (f : A -> outcome B) (g : B -> outcome C) :
  (m ≫= f) ≫= g = m ≫= (fun x => f x ≫= g).
Proof. by destruct m. Qed.

Lemma bind_ret_r {A} (m : outcome A) : m ≫= Ret = m.
Proof. by destruct m. Qed.

Lemma bind_ext {A B} (m m' : outcome A) (f g : A -> outcome B) :
  m = m' -> (forall a, f a = g a) -> m ≫= f = m' ≫= g.
Proof. intros -> H. destruct m'; [apply H|done..]. Qed.

Lemma of_option_Ret {A} (o : option A) a : of_option o = Ret a <-> o = Some a.
Proof. destruct o; cbn; split; congruence. Qed.

(** What a concrete call returned. *)
Definition result {A} (d : A) (m : outcome A) : A := match m with Ret a => a | _ => d end.
Definition returns {A} (m : outcome A) : bool := match m with Ret _ => true | _ => false end.

Lemma result_spec {A} (d : A) (m : outcome A) : returns m = true -> m = Ret (result d m).
Proof. by destruct m. Qed.

(** [ored] computes the monad's plumbing and nothing else. *)
Ltac ored := cbn [mbind outcome_bind mret outcome_ret of_option].

(** [inv_ret] breaks a hypothesis saying that a sequence of calls returned
    into one equation per call. *)
Ltac inv_ret :=
  repeat match goal with
  | H : (_ ≫= _) = Ret _ |- _ =>
      apply bind_Ret in H; let a := fresh "r" in let E := fresh "E" in
      destruct H as (a & E & H)
  | H : of_option _ = Ret _ |- _ => apply of_option_Ret in H
  | H : Ret _ = Ret _ |- _ => injection H; clear H; intros; subst
  | H : mret _ = Ret _ |- _ => injection H; clear H; intros; subst
  | H : Panic = Ret _ |- _ => discriminate H
  | H : Fault = Ret _ |- _ => discriminate H
  | H : Diverge = Ret _ |- _ => discriminate H
  end.

(** ** Arrays indexed by machine integers *)
Section arrays.
Context {A : Type}.
Implicit Types (l : list A) (i j : Z).

Lemma zlookup_Some_range l i x : zlookup l i = Some x -> 0 <= i < Z.of_nat (length l).
Proof.
  unfold zlookup. case_bool_decide; [|done].
  intros Hl%lookup_lt_Some. lia.
Qed.

Lemma zlookup_is_Some l i : 0 <= i < Z.of_nat (length l) -> exists x, zlookup l i = Some x.
Proof.
  intros. unfold zlookup. rewrite bool_decide_true by lia.
  apply lookup_lt_is_Some_2. lia.
Qed.

Lemma zlookup_None l i : ~ (0 <= i < Z.of_nat (length l)) -> zlookup l i = None.
Proof.
  intros. unfold zlookup. case_bool_decide; [|done].
  apply lookup_ge_None_2. lia.
Qed.

Lemma length_zinsert l i x : length (zinsert i x l) = length l.
Proof. apply length_insert. Qed.

Lemma zlookup_zinsert_eq l i x :
  0 <= i < Z.of_nat (length l) -> zlookup (zinsert i x l) i = Some x.
Proof.
  intros. unfold zlookup, zinsert. rewrite bool_decide_true by lia.
  apply list_lookup_insert_eq. lia.
Qed.

Lemma zlookup_zinsert_ne l i j x :
  0 <= i -> i <> j -> zlookup (zinsert i x l) j = zlookup l j.
Proof.
  intros. unfold zlookup, zinsert. case_bool_decide; [|done].
  apply list_lookup_insert_ne. lia.
Qed.

(** Reading and writing one element, on the list cut at that element. *)
Lemma zlookup_split l i x :
  zlookup l i = Some x ->
  exists l1 l2, l = l1 ++ x :: l2 /\ forall y, zinsert i y l = l1 ++ y :: l2.
Proof.
  intros H. pose proof (zlookup_Some_range _ _ _ H) as Hr.
  unfold zlookup in H. rewrite bool_decide_true in H by lia.
  pose proof (take_drop_middle _ _ _ H) as E.
  exists (take (Z.to_nat i) l), (drop (S (Z.to_nat i)) l). split; [done|].
  intros y. unfold zinsert. rewrite <- E at 1. rewrite insert_app_r_alt by (rewrite length_take; lia).
  rewrite length_take. by replace (Z.to_nat i - Z.to_nat i `min` length l)%nat with 0%nat by lia.
Qed.

Lemma elem_of_zlookup l x : x ∈ l -> exists i, zlookup l i = Some x.
Proof.
  intros [i Hi]%list_elem_of_lookup. exists (Z.of_nat i). unfold zlookup.
  rewrite bool_decide_true by lia. by rewrite Nat2Z.id.
Qed.

Lemma zlookup_elem_of l i x : zlookup l i = Some x -> x ∈ l.
Proof. unfold zlookup. case_bool_decide; [|done]. apply list_elem_of_lookup_2. Qed.

Lemma zlookup_ext l1 l2 : (forall i, 0 <= i -> zlookup l1 i = zlookup l2 i) -> l1 = l2.
Proof.
  intros H. apply list_eq. intros i. specialize (H (Z.of_nat i)). unfold zlookup in H.
  rewrite bool_decide_true, Nat2Z.id in H by lia. apply H. lia.
Qed.

Lemma zlookup_fmap {B} (f : A -> B) l i : zlookup (f <$> l) i = f <$> zlookup l i.
Proof. unfold zlookup. case_bool_decide; [|done]. apply list_lookup_fmap. Qed.

Lemma zlookup_lt_Some l i : 0 <= i < Z.of_nat (length l) <-> is_Some (zlookup l i).
Proof.
  split.
  - intros (x & Hx)%zlookup_is_Some. by exists x.
  - intros [x Hx]. by eapply zlookup_Some_range.
Qed.
End arrays.

(** [for_range n lo body s] runs [body] for [lo, lo+1, ..., lo+n-1]: the
    counting loops of the source, [n] being the trip count. *)
Section for_range.
Context {S : Type}.

Fixpoint for_range (n : nat) (lo : Z) (body : Z -> S -> outcome S) (s : S) : outcome S :=
  match n with
  | O => Ret s
  | Datatypes.S n' => s' ← body lo s; for_range n' (lo + 1) body s'
  end.

Lemma for_range_inv (P : Z -> S -> Prop) n lo body s :
  P lo s ->
  (forall i s, lo <= i < lo + Z.of_nat n -> P i s ->
     exists s', body i s = Ret s' /\ P (i + 1) s') ->
  exists s', for_range n lo body s = Ret s' /\ P (lo + Z.of_nat n) s'.
Proof.
  revert lo s. induction n as [|n IH]; intros lo s HP Hstep; cbn [for_range].
  - exists s. split; [done|]. by rewrite Z.add_0_r.
  - destruct (Hstep lo s) as (s1 & -> & HP1); [lia|done|]. simpl.
    destruct (IH (lo + 1) s1 HP1) as (s2 & -> & HP2).
    + intros i t Hi. apply Hstep. lia.
    + exists s2. split; [done|].
      by replace (lo + Z.of_nat (Datatypes.S n)) with (lo + 1 + Z.of_nat n) by lia.
Qed.

(** The same for a loop known to return. *)
Lemma for_range_ret (P : Z -> S -> Prop) n lo body s s' :
  P lo s -> (forall i s s', lo <= i < lo + Z.of_nat n -> P i s -> body i s = Ret s' -> P (i + 1) s') ->
  for_range n lo body s = Ret s' -> P (lo + Z.of_nat n) s'.
Proof.
  revert lo s. induction n as [|n IH]; intros lo s HP Hstep; cbn [for_range].
  - intros [= <-]. by rewrite Z.add_0_r.
  - intros (s1 & H1 & H2)%bind_Ret. replace (lo + Z.of_nat (Datatypes.S n)) with (lo + 1 + Z.of_nat n) by lia.
    apply (IH (lo + 1) s1); [apply (Hstep lo s); [lia|done|done]| |done]. intros i t t' Hi. apply Hstep. lia.
Qed.

Lemma for_range_app n1 n2 lo body s :
  for_range (n1 + n2) lo body s =
  (s1 ← for_range n1 lo body s; for_range n2 (lo + Z.of_nat n1) body s1).
Proof.
  revert lo s. induction n1 as [|n1 IH]; intros lo s.
  - simpl. by rewrite Z.add_0_r.
  - change (Datatypes.S n1 + n2)%nat with (Datatypes.S (n1 + n2)). cbn [for_range].
    destruct (body lo s) as [s1| | |]; cbn; [|done..].
    rewrite IH.
    by replace (lo + Z.of_nat (Datatypes.S n1)) with (lo + 1 + Z.of_nat n1) by lia.
Qed.
End for_range.

(** ** Numbers in memory, the low byte first *)
Fixpoint bytes_of (n : nat) (w : Z) : list Z :=
  match n with O => [] | S n => w mod 256 :: bytes_of n (w / 256) end.
Fixpoint number (bs : list Z) : Z :=
  match bs with [] => 0 | b :: bs => b + 256 * number bs end.

(** The [n] bytes of a structure from its offset [o] on, as a number. *)
Definition field (o n : nat) (bs : list Z) : Z := number (take n (drop o bs)).

Definition byte (b : Z) : Prop := 0 <= b < 256.

Lemma bytes_of_number bs : Forall byte bs -> bytes_of (List.length bs) (number bs) = bs.
Proof.
  induction 1 as [|b bs Hb _ IH]; [done|]. cbn. unfold byte in Hb.
  replace (b + 256 * number bs) with (b + number bs * 256) by lia.
  rewrite Z.mod_add, Z.mod_small, Z.div_add, Z.div_small, Z.add_0_l, IH by lia. done.
Qed.

Lemma length_bytes_of n w : length (bytes_of n w) = n.
Proof. revert w. induction n as [|n IH]; intros w; [done|]. cbn. by rewrite IH. Qed.

Lemma number_bytes_of n w : 0 <= w < 256 ^ Z.of_nat n -> number (bytes_of n w) = w.
Proof.
  revert w. induction n as [|n IH]; intros w Hw; [cbn in *; lia|]. cbn [bytes_of number].
  rewrite Nat2Z.inj_succ, Z.pow_succ_r in Hw by lia. rewrite IH.
  - pose proof (Z.div_mod w 256 ltac:(lia)). lia.
  - split; [apply Z.div_pos; lia|apply Z.div_lt_upper_bound; lia].
Qed.

(** ** The hint database *)
Create HintDb fish.
Create Rewrite HintDb fish.
#[export] Hint Rewrite @length_zinsert : fish.
#[export] Hint Resolve wrap_range wrap_small zlookup_zinsert_eq : fish.
