(* ===== verification/Layout.v ===== *)
(** * Structures in memory

    How the compiler lays out the structures that the kernel shares with the
    hardware, the firmware, the boot loader and the assembler: a member begins
    at the next multiple of its alignment, or where the one before it ends when
    the structure is packed; a derived structure continues its base. *)
From S2P Require Import Prelude.
From stdpp Require Import strings.
Local Open Scope Z_scope.

(** [Int n] is an integer, enumeration or pointer of [n] bytes, aligned to its size. *)
Inductive ctype :=
| Int (n : Z)
| Arr (t : ctype) (n : Z)
| Struct (packed : bool) (fs : list (string * ctype)).

Definition round_up (a o : Z) : Z := (o + a - 1) / a * a.

Fixpoint align_of (t : ctype) : Z :=
  match t with
  | Int n => n
  | Arr t _ => align_of t
  | Struct packed fs =>
      if packed then 1
      else (fix go fs : Z := match fs with [] => 1 | (_, t) :: fs => Z.max (align_of t) (go fs) end) fs
  end.

(** Where a member begins when the ones before it end at [o]. *)
Definition begins (packed : bool) (o : Z) (t : ctype) : Z := if packed then o else round_up (align_of t) o.

Fixpoint size_of (t : ctype) : Z :=
  match t with
  | Int n => n
  | Arr t n => size_of t * n
  | Struct packed fs =>
      round_up (align_of t)
        ((fix go o fs : Z := match fs with [] => o | (_, t) :: fs => go (begins packed o t + size_of t) fs end) 0 fs)
  end.

(** The members with their offsets, from [o] on, and where the last one ends. *)
Fixpoint members (packed : bool) (o : Z) (fs : list (string * ctype)) : list (string * Z * ctype) :=
  match fs with
  | [] => []
  | (nm, t) :: fs => let o := begins packed o t in (nm, o, t) :: members packed (o + size_of t) fs
  end.
Fixpoint ends (packed : bool) (o : Z) (fs : list (string * ctype)) : Z :=
  match fs with [] => o | (_, t) :: fs => ends packed (begins packed o t + size_of t) fs end.

Definition members_of (t : ctype) : list (string * Z * ctype) :=
  match t with Struct packed fs => members packed 0 fs | _ => [] end.

Definition find_member (nm : string) (ms : list (string * Z * ctype)) : option (Z * ctype) :=
  match List.find (fun m => String.eqb m.1.1 nm) ms with Some (_, o, t) => Some (o, t) | None => None end.

(** [offsetof] along a path of names, and the member there. *)
Fixpoint member_at (t : ctype) (path : list string) : option (Z * ctype) :=
  match path with
  | [] => Some (0, t)
  | nm :: path => '(o, t) ← find_member nm (members_of t); '(o', t) ← member_at t path; Some (o + o', t)
  end.
Definition offset_of (t : ctype) (path : list string) : Z := match member_at t path with Some (o, _) => o | None => -1 end.

(** [struct D : B] with the members [fs]. *)
Definition derive (base : ctype) (fs : list (string * ctype)) : ctype :=
  match base with Struct packed fs0 => Struct packed (fs0 ++ fs) | t => t end.

(** Members of one type declared together. *)
Definition each (t : ctype) (nms : list string) : list (string * ctype) := (fun nm => (nm, t)) <$> nms.

Abbreviation U8 := (Int 1).
Abbreviation U16 := (Int 2).
Abbreviation U32 := (Int 4).
Abbreviation U64 := (Int 8).
Abbreviation Ptr := (Int 8).
Abbreviation Bool := (Int 1).
Abbreviation CEnum := (Int 4).
Abbreviation Chars n := (Arr (Int 1) n).

(** ** Members do not overlap *)
Fixpoint sized (t : ctype) : bool :=
  match t with
  | Int n => 0 <? n
  | Arr t n => sized t && (0 <=? n)
  | Struct _ fs => (fix go fs : bool := match fs with [] => true | (_, t) :: fs => sized t && go fs end) fs
  end.

Definition all_sized (fs : list (string * ctype)) : Prop := Forall (fun f => sized f.2 = true) fs.

Lemma round_up_spec a o : 0 < a -> o <= round_up a o < o + a /\ round_up a o mod a = 0.
Proof.
  intros Ha. unfold round_up. pose proof (Z.div_mod (o + a - 1) a ltac:(lia)). pose proof (Z.mod_pos_bound (o + a - 1) a Ha).
  split; [nia|]. apply Z.mod_mul. lia.
Qed.

Lemma ctype_induction (P : ctype -> Prop) :
  (forall n, P (Int n)) -> (forall t n, P t -> P (Arr t n)) ->
  (forall packed fs, Forall (fun f => P f.2) fs -> P (Struct packed fs)) -> forall t, P t.
Proof.
  intros HI HA HS. fix IH 1. intros [n|t n|packed fs]; [apply HI|by apply HA|]. apply HS. induction fs as [|[nm t] fs IHfs]; constructor; [apply IH|done].
Qed.

Lemma sized_struct packed fs : sized (Struct packed fs) = true <-> all_sized fs.
Proof.
  unfold all_sized. cbn [sized]. induction fs as [|[nm t] fs IH]; [by split; [constructor|]|]. rewrite andb_true_iff, IH, Forall_cons. done.
Qed.

Lemma align_struct fs :
  align_of (Struct false fs) = foldr (fun f a => Z.max (align_of f.2) a) 1 fs.
Proof. cbn [align_of]. induction fs as [|[nm t] fs IH]; [done|]. cbn [foldr snd]. by rewrite <- IH. Qed.

Lemma size_struct packed fs : size_of (Struct packed fs) = round_up (align_of (Struct packed fs)) (ends packed 0 fs).
Proof.
  cbn [size_of]. f_equal. generalize 0. induction fs as [|[nm t] fs IH]; intros o; [done|]. cbn [ends]. apply IH.
Qed.

Lemma sized_spec t : sized t = true -> 0 < align_of t /\ 0 <= size_of t.
Proof.
  induction t as [n|t n IH|packed fs IH] using ctype_induction.
  - cbn. lia.
  - cbn. intros [Ht Hn]%andb_true_iff. destruct (IH Ht). split; [done|]. nia.
  - intros Hfs. apply sized_struct in Hfs.
    assert (0 < align_of (Struct packed fs)) as Ha.
    { destruct packed; [cbn; lia|]. rewrite align_struct. clear IH Hfs. induction fs as [|f fs IHfs]; cbn [foldr]; lia. }
    split; [done|]. rewrite size_struct. assert (forall o, 0 <= o -> 0 <= ends packed o fs) as He.
    { clear Ha. induction fs as [|[nm t] fs IHfs]; intros o Ho; cbn [ends]; [done|].
      apply Forall_cons in IH as [IHt IH], Hfs as [Ht Hfs]. destruct (IHt Ht) as [Hat Hst]. cbn [snd] in *. apply IHfs; [done|done|].
      unfold begins. pose proof (round_up_spec (align_of t) o Hat). destruct packed; lia. }
    pose proof (round_up_spec (align_of (Struct packed fs)) (ends packed 0 fs) Ha). specialize (He 0 ltac:(lia)). lia.
Qed.

Lemma begins_spec packed o t : sized t = true -> o <= begins packed o t.
Proof. intros Ht. destruct (sized_spec t Ht) as [Ha _]. unfold begins. pose proof (round_up_spec (align_of t) o Ha). destruct packed; lia. Qed.

Lemma ends_above packed fs : forall o, all_sized fs -> o <= ends packed o fs.
Proof.
  induction fs as [|[nm t] fs IH]; intros o Hfs; cbn [ends]; [done|]. apply Forall_cons in Hfs as [Ht Hfs]. cbn [snd] in Ht.
  specialize (IH (begins packed o t + size_of t) Hfs). pose proof (begins_spec packed o t Ht). destruct (sized_spec t Ht). lia.
Qed.

Lemma members_range packed fs : forall o, all_sized fs ->
  Forall (fun m => o <= m.1.2 /\ m.1.2 + size_of m.2 <= ends packed o fs) (members packed o fs).
Proof.
  induction fs as [|[nm t] fs IH]; intros o Hfs; cbn [members ends]; [constructor|]. apply Forall_cons in Hfs as [Ht Hfs]. cbn [snd] in Ht.
  pose proof (begins_spec packed o t Ht). destruct (sized_spec t Ht). constructor; cbn [fst snd].
  - split; [done|]. by apply ends_above.
  - eapply Forall_impl; [by apply IH|]. intros m [? ?]. lia.
Qed.

(** In a structure each member lies behind the ones before it and inside the
    whole, and where the structure is not packed it is aligned. *)
Lemma members_apart packed fs :
  all_sized fs ->
  ForallOrdPairs (fun m1 m2 => m1.1.2 + size_of m1.2 <= m2.1.2) (members_of (Struct packed fs)) /\
  Forall (fun m => 0 <= m.1.2 /\ m.1.2 + size_of m.2 <= size_of (Struct packed fs) /\
    (packed = false -> m.1.2 mod align_of m.2 = 0)) (members_of (Struct packed fs)).
Proof.
  intros Hfs. cbn [members_of]. split.
  - generalize 0. induction fs as [|[nm t] fs IH]; intros o; cbn [members]; constructor; apply Forall_cons in Hfs as [Ht Hfs].
    + eapply Forall_impl; [by apply members_range|]. cbn. intros m [H1 _]. done.
    + by apply IH.
  - assert (ends packed 0 fs <= size_of (Struct packed fs)) as Hend.
    { rewrite size_struct. destruct (sized_spec (Struct packed fs)) as [Ha _]; [by apply sized_struct|].
      pose proof (round_up_spec _ (ends packed 0 fs) Ha). lia. }
    assert (forall o, Forall (fun m : string * Z * ctype => packed = false -> m.1.2 mod align_of m.2 = 0) (members packed o fs)) as Hal.
    { clear Hend. induction fs as [|[nm t] fs IH]; intros o; cbn [members]; constructor; apply Forall_cons in Hfs as [Ht Hfs].
      - cbn [fst snd]. intros ->. destruct (sized_spec t Ht) as [Ha _]. exact (proj2 (round_up_spec (align_of t) o Ha)).
      - by apply IH. }
    specialize (Hal 0).
    pose proof (members_range packed fs 0 Hfs) as Hr. rewrite Forall_forall in *. intros m Hm.
    destruct (Hr m Hm). specialize (Hal m Hm). split; [done|]. split; [lia|done].
Qed.

(** ** Objects *)

(** The bytes of an object of integers [vs], with zeros between them. *)
Fixpoint object_from (packed : bool) (o : Z) (fs : list (string * ctype)) (vs : list Z) : list Z :=
  match fs, vs with
  | (_, t) :: fs, v :: vs =>
      let b := begins packed o t in
      replicate (Z.to_nat (b - o)) 0 ++ bytes_of (Z.to_nat (size_of t)) v ++ object_from packed (b + size_of t) fs vs
  | _, _ => []
  end.
Definition object (t : ctype) (vs : list Z) : list Z :=
  match t with Struct packed fs => object_from packed 0 fs vs | _ => [] end.

(** The bytes of a member come after those of the ones before it. *)
Lemma object_member packed fs vs : forall o i nm b t v,
  all_sized fs -> length vs = length fs -> members packed o fs !! i = Some (nm, b, t) -> vs !! i = Some v ->
  exists bs1 bs2, object_from packed o fs vs = bs1 ++ bytes_of (Z.to_nat (size_of t)) v ++ bs2 /\ Z.of_nat (length bs1) = b - o.
Proof.
  revert vs. induction fs as [|[nm0 t0] fs IH]; intros [|v0 vs] o i nm b t v Hfs Hl Hm Hv; try done.
  apply Forall_cons in Hfs as [Ht Hfs]. cbn [snd] in Ht. pose proof (begins_spec packed o t0 Ht) as Hb. destruct (sized_spec t0 Ht) as [_ Hs].
  cbn [members object_from] in *. destruct i as [|i]; cbn in Hm, Hv.
  - injection Hm as <- <- <-. injection Hv as <-. eexists _, _. split; [done|]. rewrite length_replicate. lia.
  - destruct (IH vs (begins packed o t0 + size_of t0) i nm b t v Hfs) as (bs1 & bs2 & E & Hlen); [by injection Hl|done|done|].
    rewrite E. exists (replicate (Z.to_nat (begins packed o t0 - o)) 0 ++ bytes_of (Z.to_nat (size_of t0)) v0 ++ bs1), bs2.
    split; [by rewrite <- !app_assoc|]. rewrite !length_app, length_replicate, length_bytes_of. lia.
Qed.
