(* ===== verification/Function.v ===== *)
(** * klib/functional.hpp: functions as values

    A [Function] holds the address of a wrapper made by [new], whose one method
    calls the wrapped function; [live] are the wrappers that were not deleted.
    No other file of the kernel uses the class. *)
From S2P Require Import Prelude.

Section Function.
Context {Args R S : Type}.

(** What a wrapped function does. *)
Abbreviation F := (Args -> S -> outcome (R * S)).

Record wrappers := mkWrappers { live : gmap Z F; next_address : Z }.

(** [new CallableWrapper<F>(f)] and [delete callable]. *)
Definition new_wrapper (f : F) (h : wrappers) : Z * wrappers :=
  (next_address h, mkWrappers (<[next_address h := f]> (live h)) (next_address h + 1)).
Definition delete_wrapper (p : Z) (h : wrappers) : outcome wrappers :=
  _ ← of_option (live h !! p); Ret (mkWrappers (delete p (live h)) (next_address h)).
Definition delete_if (callable : Z) (h : wrappers) : outcome wrappers :=
  if negb (callable =? 0) then delete_wrapper callable h else Ret h.

(** The constructor from a function, the destructor, and the assignments of a
    function, of another [Function] and of null. *)
Definition Function_new (f : F) (h : wrappers) : Z * wrappers := new_wrapper f h.
Definition Function_delete (callable : Z) (h : wrappers) : outcome wrappers := delete_if callable h.
Definition assign_function (callable : Z) (f : F) (h : wrappers) : outcome (Z * wrappers) :=
  h ← delete_if callable h; Ret (new_wrapper f h).
Definition assign_swap (callable other : Z) : Z * Z := (other, callable).
Definition assign_null (callable : Z) (h : wrappers) : outcome (Z * wrappers) :=
  h ← delete_if callable h; Ret (callable, h).

Definition invoke (callable : Z) (args : Args) (h : wrappers) (s : S) : outcome (R * S) :=
  if callable =? 0 then Panic else f ← of_option (live h !! callable); f args s.
Definition to_bool (callable : Z) : bool := negb (callable =? 0).

(** ** Functions are values *)

(** What a program does with its variables. *)
Inductive op := Make (x : Z) (f : F) | Drop (x : Z) | Assign (x : Z) (f : F) | Swap (x y : Z).

(** The objects of the variables in scope, and the wrappers. *)
Record program := mkProgram { vars : gmap Z Z; heap : wrappers }.

Definition exec (o : op) (s : program) : outcome program :=
  match o with
  | Make x f => let '(p, h) := Function_new f (heap s) in Ret (mkProgram (<[x := p]> (vars s)) h)
  | Drop x =>
      p ← of_option (vars s !! x); h ← Function_delete p (heap s); Ret (mkProgram (delete x (vars s)) h)
  | Assign x f =>
      p ← of_option (vars s !! x);
      '(p, h) ← assign_function p f (heap s); Ret (mkProgram (<[x := p]> (vars s)) h)
  | Swap x y =>
      p ← of_option (vars s !! x); q ← of_option (vars s !! y);
      let '(p, q) := assign_swap p q in Ret (mkProgram (<[y := q]> (<[x := p]> (vars s))) (heap s))
  end.

(** The same on a map from variables to functions. *)
Definition allowed (o : op) (m : gmap Z F) : Prop :=
  match o with
  | Make x _ => m !! x = None
  | Drop x | Assign x _ => is_Some (m !! x)
  | Swap x y => x <> y /\ is_Some (m !! x) /\ is_Some (m !! y)
  end.
Definition meaning (o : op) (m : gmap Z F) : gmap Z F :=
  match o with
  | Make x f | Assign x f => <[x := f]> m
  | Drop x => delete x m
  | Swap x y =>
      match m !! x, m !! y with Some f, Some g => <[y := f]> (<[x := g]> m) | _, _ => m end
  end.

(** Every variable owns a wrapper of its own, with its function, and there is
    no other wrapper. *)
Record owns (s : program) (m : gmap Z F) : Prop := {
  ow_fresh p : is_Some (live (heap s) !! p) -> 0 < p < next_address (heap s);
  ow_next : 0 < next_address (heap s);
  ow_value x : (p ← vars s !! x; live (heap s) !! p) = m !! x;
  ow_live x p : vars s !! x = Some p -> is_Some (live (heap s) !! p);
  ow_alone x y p : vars s !! x = Some p -> vars s !! y = Some p -> x = y;
  ow_no_leak p : is_Some (live (heap s) !! p) -> exists x, vars s !! x = Some p
}.

Lemma owns_var s m x f :
  owns s m -> m !! x = Some f -> exists p, vars s !! x = Some p /\ live (heap s) !! p = Some f /\ p <> 0.
Proof.
  intros Ho Hx. pose proof (ow_value _ _ Ho x) as E. rewrite Hx in E.
  destruct (vars s !! x) as [p|]; [|done]. exists p. split; [done|]. split; [done|].
  cbn in E. destruct (ow_fresh _ _ Ho p); [by eexists|lia].
Qed.

Lemma drop_keeps s m x p :
  owns s m -> vars s !! x = Some p ->
  owns (mkProgram (delete x (vars s)) (mkWrappers (delete p (live (heap s))) (next_address (heap s)))) (delete x m).
Proof.
  intros [H1 H2 H3 H4 H5 H6] Hx. split; cbn [vars heap live next_address].
  - intros q [f [_ Hq]%lookup_delete_Some]. apply H1. by exists f.
  - done.
  - intros y. destruct (decide (x = y)) as [<-|Hy]; [by rewrite !lookup_delete_eq|].
    rewrite !lookup_delete_ne, <- H3 by done. destruct (vars s !! y) as [q|] eqn:Eq; [|done]. cbn.
    rewrite lookup_delete_ne; [done|]. intros ->. by apply Hy, (H5 x y q).
  - intros y q [Hy Hq]%lookup_delete_Some. rewrite lookup_delete_ne; [by apply (H4 y)|]. intros ->. by apply Hy, (H5 x y q).
  - intros y z q [_ Hy]%lookup_delete_Some [_ Hz]%lookup_delete_Some. by apply (H5 y z q).
  - intros q [f [Hq Hf]%lookup_delete_Some]. destruct (H6 q) as [y Hy]; [by exists f|]. exists y.
    rewrite lookup_delete_ne; [done|]. intros ->. congruence.
Qed.

Lemma make_keeps s m x f :
  owns s m -> m !! x = None ->
  owns (mkProgram (<[x := next_address (heap s)]> (vars s)) (new_wrapper f (heap s)).2) (<[x := f]> m).
Proof.
  intros [H1 H2 H3 H4 H5 H6] Hx. set (p := next_address (heap s)).
  assert (live (heap s) !! p = None) as Hp.
  { apply eq_None_not_Some. intros [_ Hlt]%H1. unfold p in Hlt. lia. }
  assert (vars s !! x = None) as Hv.
  { pose proof (H3 x) as E. rewrite Hx in E. destruct (vars s !! x) as [q|] eqn:Eq; [|done].
    cbn in E. destruct (H4 x q Eq) as [g Hg]. congruence. }
  assert (forall y q, vars s !! y = Some q -> q <> p) as Hq.
  { intros y q Hy ->. destruct (H4 y p Hy) as [g Hg]. congruence. }
  split; cbn [vars heap new_wrapper snd live next_address]; fold p.
  - intros q. destruct (decide (p = q)) as [<-|Hne]; [unfold p in *; lia|].
    rewrite lookup_insert_ne by done. intros Hl. apply H1 in Hl. unfold p in *. lia.
  - unfold p in *. lia.
  - intros y. destruct (decide (x = y)) as [<-|Hy]; [rewrite !lookup_insert_eq; cbn; by rewrite lookup_insert_eq|].
    rewrite !(lookup_insert_ne _ x y) by done. rewrite <- H3. destruct (vars s !! y) as [q|] eqn:Eq; [|done]. cbn.
    rewrite lookup_insert_ne; [done|]. by apply not_eq_sym, (Hq y).
  - intros y q [[<- <-]|[_ Hy]]%lookup_insert_Some; [by rewrite lookup_insert_eq|].
    rewrite lookup_insert_ne; [by apply (H4 y)|]. by apply not_eq_sym, (Hq y).
  - intros y z q [[<- <-]|[Hy Hy']]%lookup_insert_Some [[<- ?]|[Hz Hz']]%lookup_insert_Some; try done.
    + by destruct (Hq z p Hz').
    + subst q. by destruct (Hq y p Hy').
    + by apply (H5 y z q).
  - intros q [g [[<- _]|[_ Hg]]%lookup_insert_Some]; [exists x; apply lookup_insert_eq|].
    destruct (H6 q) as [y Hy]; [by exists g|]. exists y. rewrite lookup_insert_ne; [done|]. congruence.
Qed.

Lemma swap_keeps s m x y p q f g :
  owns s m -> x <> y -> vars s !! x = Some p -> vars s !! y = Some q -> m !! x = Some f -> m !! y = Some g ->
  owns (mkProgram (<[y := p]> (<[x := q]> (vars s))) (heap s)) (<[y := f]> (<[x := g]> m)).
Proof.
  intros [H1 H2 H3 H4 H5 H6] Hxy Hx Hy Hf Hg.
  assert (live (heap s) !! p = Some f /\ live (heap s) !! q = Some g) as [Hp Hq].
  { pose proof (H3 x) as Ex. pose proof (H3 y) as Ey. rewrite Hx in Ex. rewrite Hy in Ey. cbn in Ex, Ey. split; congruence. }
  assert (p <> q) as Hpq by (intros ->; by apply Hxy, (H5 x y q)).
  set (v := <[y := p]> (<[x := q]> (vars s))).
  assert (v !! x = Some q /\ v !! y = Some p /\ forall z, z <> x -> z <> y -> v !! z = vars s !! z) as (Vx & Vy & Vz).
  { unfold v. rewrite lookup_insert_ne, !lookup_insert_eq by done. split; [done|]. split; [done|].
    intros z Hzx Hzy. by rewrite !lookup_insert_ne by done. }
  assert (forall z r, v !! z = Some r -> z = x /\ r = q \/ z = y /\ r = p \/ z <> x /\ z <> y /\ vars s !! z = Some r) as Hv.
  { intros z r Hz. destruct (decide (z = x)) as [->|]; [left; split; congruence|].
    destruct (decide (z = y)) as [->|]; [right; left; split; congruence|]. right; right. by rewrite Vz in Hz. }
  split; cbn [vars heap]; fold v; [exact H1|exact H2| | | |].
  - intros z. destruct (decide (z = y)) as [->|]; [rewrite Vy, lookup_insert_eq; done|].
    rewrite (lookup_insert_ne _ y) by done. destruct (decide (z = x)) as [->|]; [rewrite Vx, lookup_insert_eq; done|].
    rewrite lookup_insert_ne, Vz by done. apply H3.
  - intros z r [(-> & ->)|[(-> & ->)|(_ & _ & Hz)]]%Hv; [by exists g|by exists f|by apply (H4 z)].
  - intros z z' r [(-> & ->)|[(-> & ->)|(Nx & Ny & Hz)]]%Hv [(-> & E)|[(-> & E)|(Nx' & Ny' & Hz')]]%Hv; try done.
    + by destruct Ny'; apply (H5 z' y q).
    + by destruct Nx'; apply (H5 z' x p).
    + subst r. by destruct Ny; apply (H5 z y q).
    + subst r. by destruct Nx; apply (H5 z x p).
    + by apply (H5 z z' r).
  - intros r Hr. destruct (H6 r Hr) as [z Hz]. destruct (decide (z = x)) as [->|]; [exists y; congruence|].
    destruct (decide (z = y)) as [->|]; [exists x; congruence|]. exists z. by rewrite Vz.
Qed.

(** Each operation does to the objects what it means for the variables: no
    wrapper is lost, used after its end or deleted twice. *)
Lemma exec_meaning o s m : owns s m -> allowed o m -> exists s', exec o s = Ret s' /\ owns s' (meaning o m).
Proof.
  intros Ho Ha. destruct o as [x f|x|x f|x y]; cbn [allowed exec meaning] in *.
  - eexists. split; [done|]. by apply make_keeps.
  - destruct Ha as [g Hg]. destruct (owns_var _ _ _ _ Ho Hg) as (p & Hp & Hl & Hne). rewrite Hp. ored.
    unfold Function_delete, delete_if, delete_wrapper. rewrite (proj2 (Z.eqb_neq _ _) Hne), Hl. ored.
    eexists. split; [done|]. by apply drop_keeps.
  - destruct Ha as [g Hg]. destruct (owns_var _ _ _ _ Ho Hg) as (p & Hp & Hl & Hne). rewrite Hp. ored.
    unfold assign_function, delete_if, delete_wrapper. rewrite (proj2 (Z.eqb_neq _ _) Hne), Hl. ored.
    eexists. split; [done|]. rewrite <- (insert_delete_eq (vars s)), <- (insert_delete_eq m).
    apply (make_keeps _ _ x f (drop_keeps s m x p Ho Hp)). apply lookup_delete_eq.
  - destruct Ha as (Hxy & [f Hf] & [g Hg]). destruct (owns_var _ _ _ _ Ho Hf) as (p & Hp & _). destruct (owns_var _ _ _ _ Ho Hg) as (q & Hq & _).
    rewrite Hp, Hq, Hf, Hg. ored. eexists. split; [done|]. by apply swap_keeps.
Qed.

(** Calling a variable's [Function] runs the function it holds. *)
Lemma invoke_runs s m x f :
  owns s m -> m !! x = Some f ->
  exists p, vars s !! x = Some p /\ to_bool p = true /\ forall args t, invoke p args (heap s) t = f args t.
Proof.
  intros Ho Hf. destruct (owns_var _ _ _ _ Ho Hf) as (p & Hp & Hl & Hne). exists p. split; [done|].
  unfold to_bool, invoke. rewrite (proj2 (Z.eqb_neq _ _) Hne), Hl. done.
Qed.

(** Programs of any length. *)
Fixpoint exec_all (os : list op) (s : program) : outcome program :=
  match os with [] => Ret s | o :: os => s ← exec o s; exec_all os s end.
Fixpoint allowed_all (os : list op) (m : gmap Z F) : Prop :=
  match os with [] => True | o :: os => allowed o m /\ allowed_all os (meaning o m) end.

Lemma owns_nothing : owns (mkProgram ∅ (mkWrappers ∅ 1)) ∅.
Proof.
  split; cbn [vars heap live next_address]; try done.
  - intros p [f Hf]. by rewrite lookup_empty in Hf.
  - intros p [f Hf]. by rewrite lookup_empty in Hf.
Qed.

Lemma exec_all_meaning os s m :
  owns s m -> allowed_all os m ->
  exists s', exec_all os s = Ret s' /\ owns s' (foldl (fun m o => meaning o m) m os).
Proof.
  revert s m. induction os as [|o os IH]; intros s m Ho; cbn [allowed_all exec_all foldl]; [intros _; by exists s|].
  intros [Ha Hall]. destruct (exec_meaning o s m Ho Ha) as (s' & -> & Ho'). ored. by apply IH.
Qed.

(** A program that keeps to its variables runs, and its objects hold the
    functions a map from variables to functions would. *)
Theorem functions_are_values os :
  allowed_all os ∅ ->
  exists s, exec_all os (mkProgram ∅ (mkWrappers ∅ 1)) = Ret s /\ owns s (foldl (fun m o => meaning o m) ∅ os).
Proof. apply exec_all_meaning, owns_nothing. Qed.
End Function.

(** Assigning null deletes the wrapper and keeps its address: the object is
    still true, calling it uses the wrapper after its end, and its destructor
    deletes it again. *)
Example null_is_not_stored :
  let '(p, h) := Function_new (fun n s => Ret (n + 1, s)) (mkWrappers ∅ 1) in
  match assign_null p h with
  | Ret (p, h) => to_bool p = true /\ invoke p 1 h tt = Fault /\ Function_delete p h = Fault
  | _ => False
  end.
Proof. vm_compute. done. Qed.
