(* ===== verification/Bitmap.v ===== *)
(** * klib::Bitmap (klib/bitmap.hpp)

    A bitmap is a pointer and a size in bits.  [m_addr] is the pointer's
    value, [m_buffer] the bytes that may be reached through it; an access
    outside them is a [Fault]. *)
From S2P Require Import Prelude.

Record Bitmap := mkBitmap { m_addr : Z; m_buffer : list Z; m_size : Z }.

(** ** Operations *)

Definition get (b : Bitmap) (index : Z) : outcome bool :=
  byte ← of_option (zlookup (m_buffer b) (index / 8));
  Ret (negb (Z.land (Z.shiftr byte (index mod 8)) 1 =? 0)).

Definition store (b : Bitmap) (d byte : Z) : Bitmap :=
  mkBitmap (m_addr b) (zinsert d byte (m_buffer b)) (m_size b).

Definition set (b : Bitmap) (index : Z) (value : bool) : outcome Bitmap :=
  let d := index / 8 in
  let r := index mod 8 in
  byte ← of_option (zlookup (m_buffer b) d);
  let b := store b d (u8 (Z.land byte (Z.lnot (Z.shiftl 1 r)))) in
  byte ← of_option (zlookup (m_buffer b) d);
  Ret (store b d (u8 (Z.lor byte (Z.shiftl (Z.b2z value) r)))).

(** [memset(m_buffer, v, n)] *)
Definition memset (b : Bitmap) (v : Z) (n : Z) : outcome Bitmap :=
  if n <=? Z.of_nat (length (m_buffer b)) then
    Ret (mkBitmap (m_addr b)
           (replicate (Z.to_nat n) v ++ drop (Z.to_nat n) (m_buffer b)) (m_size b))
  else Fault.

(** [fill] ignores its argument, as the code does. *)
Definition fill (b : Bitmap) (value : bool) : outcome Bitmap :=
  b ← memset b (u8 (Z.lnot 0)) (m_size b / 8);
  for_range (Z.to_nat (m_size b mod 8)) 0
    (fun i b => set b (m_size b - i) true) b.

(** ** The bits a bitmap holds *)

Definition bit (b : Bitmap) (i : Z) : bool :=
  match zlookup (m_buffer b) (i / 8) with
  | Some byte => Z.testbit byte (i mod 8)
  | None => false
  end.

(** [covers b n]: the buffer has room for bits [0 .. n-1]. *)
Definition covers (b : Bitmap) (n : Z) : Prop := n <= 8 * Z.of_nat (length (m_buffer b)).

Lemma index_in_buffer b i n : covers b n -> 0 <= i < n ->
  0 <= i / 8 < Z.of_nat (length (m_buffer b)).
Proof. unfold covers. intros. split; [apply Z.div_pos|apply Z.div_lt_upper_bound]; lia. Qed.

Lemma land1_testbit x r : 0 <= r -> negb (Z.land (Z.shiftr x r) 1 =? 0) = Z.testbit x r.
Proof.
  intros. change 1 with (Z.ones 1). rewrite Z.land_ones by lia. change (2 ^ 1) with 2.
  rewrite <- (Z.add_0_l r) at 2. rewrite <- Z.shiftr_spec, Z.bit0_eqb by lia.
  pose proof (Z.mod_pos_bound (Z.shiftr x r) 2).
  destruct (Z.eqb_spec (Z.shiftr x r mod 2) 0), (Z.eqb_spec (Z.shiftr x r mod 2) 1); done || lia.
Qed.

Lemma get_bit b i n : covers b n -> 0 <= i < n -> get b i = Ret (bit b i).
Proof.
  intros Hc Hi. destruct (zlookup_is_Some (m_buffer b) (i / 8)) as [x Hx].
  { by eapply index_in_buffer. }
  unfold get, bit. rewrite Hx. cbn. rewrite land1_testbit; [done|].
  apply Z.mod_pos_bound. lia.
Qed.

(** The byte [set] leaves behind, bit by bit. *)
Lemma set_byte_testbit x r v k : 0 <= r < 8 -> 0 <= k < 8 ->
  Z.testbit (u8 (Z.lor (u8 (Z.land x (Z.lnot (Z.shiftl 1 r)))) (Z.shiftl (Z.b2z v) r))) k
  = if bool_decide (k = r) then v else Z.testbit x k.
Proof.
  intros Hr Hk. rewrite wrap_testbit, bool_decide_true, andb_true_l by lia.
  rewrite Z.lor_spec, wrap_testbit, bool_decide_true, andb_true_l by lia.
  rewrite Z.land_spec, Z.lnot_spec, !Z.shiftl_spec by lia.
  case_bool_decide.
  - subst k. rewrite Z.sub_diag. cbn. rewrite andb_false_r. by destruct v.
  - destruct (Z.ltb_spec k r).
    + rewrite !(Z.testbit_neg_r _ (k - r)) by lia. cbn. by rewrite andb_true_r, orb_false_r.
    + rewrite (Z.bits_above_log2 1), (Z.bits_above_log2 (Z.b2z v)) by (destruct v; cbn; lia).
      cbn. by rewrite andb_true_r, orb_false_r.
Qed.

(** [updates b b' dom v]: [b'] is [b] with the bits of [dom] set to [v];
    pointer, size and buffer length are those of [b]. *)
Definition updates (b b' : Bitmap) (dom : Z -> bool) (v : bool) : Prop :=
  m_addr b' = m_addr b /\ m_size b' = m_size b /\
  length (m_buffer b') = length (m_buffer b) /\
  forall j, 0 <= j -> bit b' j = if dom j then v else bit b j.

Lemma updates_none b d v : (forall j, d j = false) -> updates b b d v.
Proof. intros Hd. split_and!; try done. intros j _. by rewrite Hd. Qed.

Lemma updates_trans b b1 b2 d1 d2 d v :
  updates b b1 d1 v -> updates b1 b2 d2 v ->
  (forall j, 0 <= j -> d j = d1 j || d2 j) -> updates b b2 d v.
Proof.
  intros (?&?&?&Hb1) (?&?&?&Hb2) Hd. split_and!; try congruence.
  intros j Hj. rewrite Hb2, Hb1, Hd by done. by destruct (d1 j), (d2 j).
Qed.

Lemma updates_covers b b' d v n : updates b b' d v -> covers b n -> covers b' n.
Proof. unfold covers. intros (_&_&->&_). done. Qed.

(** [set] returns on every index of the buffer and changes exactly the bit it
    is given. *)
Lemma set_spec b i v n : covers b n -> 0 <= i < n ->
  exists b', set b i v = Ret b' /\ updates b b' (fun j => bool_decide (j = i)) v.
Proof.
  intros Hc Hi. pose proof (index_in_buffer b i n Hc Hi) as Hd.
  destruct (zlookup_is_Some (m_buffer b) (i / 8) Hd) as [x Hx].
  eexists. unfold set. rewrite Hx. cbn. rewrite zlookup_zinsert_eq by done. cbn.
  split; [done|]. unfold updates, store; cbn. rewrite !length_zinsert. split_and!; try done.
  intros j Hj. unfold bit; cbn.
  assert (Hr : 0 <= i mod 8 < 8) by (apply Z.mod_pos_bound; lia).
  assert (Hk : 0 <= j mod 8 < 8) by (apply Z.mod_pos_bound; lia).
  destruct (decide (j / 8 = i / 8)) as [He|He].
  - rewrite He, zlookup_zinsert_eq by (by rewrite length_zinsert).
    rewrite set_byte_testbit by done. rewrite Hx.
    case_bool_decide; case_bool_decide; try done; exfalso.
    + assert (j = i); [|done]. rewrite (Z.div_mod j 8), (Z.div_mod i 8) by lia. lia.
    + subst. done.
  - rewrite !zlookup_zinsert_ne by (done || lia).
    case_bool_decide; [subst; done|done].
Qed.

(** A loop that sets the bits [lo .. lo+k-1]. *)
Lemma set_range_spec b lo k v n : covers b n -> 0 <= lo -> lo + Z.of_nat k <= n ->
  exists b', for_range k lo (fun i b => set b i v) b = Ret b' /\
    updates b b' (fun j => (lo <=? j) && (j <? lo + Z.of_nat k)) v.
Proof.
  intros Hc Hlo Hn.
  destruct (for_range_inv (fun i b' => updates b b' (fun j => (lo <=? j) && (j <? i)) v)
    k lo (fun i b => set b i v) b) as (b' & ? & ?).
  - apply updates_none. intros j. lia.
  - intros i b1 Hi Hu. destruct (set_spec b1 i v n) as (b2 & -> & Hu2).
    + by eapply updates_covers.
    + lia.
    + exists b2. split; [done|]. eapply updates_trans; [done..|].
      intros j _. cbn beta. case_bool_decide; lia.
  - by exists b'.
Qed.

Lemma memset_spec b v n : 0 <= n <= Z.of_nat (length (m_buffer b)) ->
  exists b', memset b v n = Ret b' /\ m_addr b' = m_addr b /\ m_size b' = m_size b /\
    length (m_buffer b') = length (m_buffer b) /\
    forall j, 0 <= j ->
      bit b' j = if j <? 8 * n then Z.testbit v (j mod 8) else bit b j.
Proof.
  intros Hn. unfold memset. destruct (Z.leb_spec n (Z.of_nat (length (m_buffer b)))); [|lia].
  eexists. split; [done|]. cbn. split_and!; try done.
  { rewrite length_app, length_replicate, length_drop. lia. }
  intros j Hj. unfold bit, zlookup; cbn.
  assert (0 <= j / 8) by (apply Z.div_pos; lia). rewrite bool_decide_true by done.
  destruct (Z.ltb_spec j (8 * n)).
  - assert (j / 8 < n) by (apply Z.div_lt_upper_bound; lia).
    rewrite lookup_app_l by (rewrite length_replicate; lia).
    rewrite lookup_replicate_2 by lia. done.
  - assert (n <= j / 8) by (apply Z.div_le_lower_bound; lia).
    rewrite lookup_app_r by (rewrite length_replicate; lia).
    rewrite length_replicate, lookup_drop.
    by replace (Z.to_nat n + (Z.to_nat (j / 8) - Z.to_nat n))%nat with (Z.to_nat (j / 8)) by lia.
Qed.

(** ** [fill] *)

(** [fill] sets every bit up to and including bit [m_size], whatever its
    argument, except bit [8 * (m_size / 8)]: that one keeps its old value. *)
Definition filled (b : Bitmap) (j : Z) : bool :=
  (j <=? m_size b) && negb (j =? 8 * (m_size b / 8)).

Lemma fill_spec b value : 0 <= m_size b -> covers b (m_size b) ->
  exists b', fill b value = Ret b' /\ updates b b' (filled b) true.
Proof.
  unfold covers. intros Hs Hc. set (len := 8 * Z.of_nat (length (m_buffer b))) in *.
  pose proof (Z.div_mod (m_size b) 8 ltac:(lia)) as Hdm.
  pose proof (Z.mod_pos_bound (m_size b) 8 ltac:(lia)) as Hm.
  destruct (memset_spec b (u8 (Z.lnot 0)) (m_size b / 8)) as (b1 & Hb1 & Ha1 & Hs1 & Hl1 & Hbit1).
  { lia. }
  unfold fill. rewrite Hb1. ored.
  assert (Hc1 : covers b1 len) by (unfold covers; lia).
  destruct (for_range_inv
    (fun i b' => updates b1 b' (fun j => (m_size b - i <? j) && (j <=? m_size b)) true)
    (Z.to_nat (m_size b1 mod 8)) 0 (fun i b => set b (m_size b - i) true) b1)
    as (b2 & Hb2 & Hu2).
  - apply updates_none. intros j. lia.
  - intros i b' Hi Hu. pose proof Hu as (Ha & Hs' & Hl & _).
    destruct (set_spec b' (m_size b' - i) true len) as (b3 & -> & Hu3).
    + unfold covers; lia.
    + rewrite Hs', Hs1 in *. lia.
    + exists b3. split; [done|]. eapply updates_trans; [done..|].
      intros j _. cbn beta. rewrite Hs', Hs1. case_bool_decide; lia.
  - exists b2. split; [done|]. destruct Hu2 as (Ha2 & Hs2 & Hl2 & Hbit2).
    split_and!; try congruence. intros j Hj.
    rewrite Hbit2, Hbit1 by done. unfold filled. rewrite Hs1 in *.
    change (u8 (Z.lnot 0)) with (Z.ones 8).
    rewrite Z.ones_spec_low by (pose proof (Z.mod_pos_bound j 8); lia).
    repeat match goal with |- context [Z.ltb ?a ?b] => destruct (Z.ltb_spec a b)
      | |- context [Z.leb ?a ?b] => destruct (Z.leb_spec a b)
      | |- context [Z.eqb ?a ?b] => destruct (Z.eqb_spec a b) end; cbn; done || lia.
Qed.
