(* ===== verification/Lock.v ===== *)
(** * klib/lock.hpp and the guards of klib/cppruntime.cpp: spinlocks

    A processor in [lock] and [unlock] goes through the points of [pc], one
    access to the shared words at a time; [advance] is what it does next, and a
    step of the machine advances any one processor.  The lock so interleaved
    implements an atomic one, [atomic_step].  On that the guards of static
    variables are modelled, again step by step.  The waiting processor's [pause]
    is left out. *)
From stdpp Require Import relations functions.
From S2P Require Import Prelude.

(** ** One processor alone *)

(** [flag] is the processor's interrupt flag. *)
Record Spinlock := mkSpinlock { locked : bool; spins : Z }.

Definition spin_limit : Z := 10000000.

Fixpoint lock_loop (fuel : nat) (l : Spinlock) : outcome Spinlock :=
  match fuel with
  | O => Diverge
  | S fuel =>
      if locked l then
        let i := u32 (spins l + 1) in
        if i =? spin_limit then Panic else lock_loop fuel (mkSpinlock true i)
      else Ret (mkSpinlock true (spins l))
  end.

(** [lock] clears the interrupt flag, [unlock] sets it. *)
Definition lock (fuel : nat) (l : Spinlock) (flag : bool) : outcome (Spinlock * bool) :=
  l ← lock_loop fuel l; Ret (l, false).
Definition unlock (l : Spinlock) (flag : bool) : Spinlock * bool := (mkSpinlock false 0, true).

(** [LockGuard guard(l); body] *)
Definition guarded {S A : Type} (fuel : nat) (body : S -> outcome (A * S)) (l : Spinlock) (flag : bool) (s : S) :
    outcome (A * S * Spinlock * bool) :=
  '(l, _) ← lock fuel l flag;
  '(a, s) ← body s;
  let '(l, flag) := unlock l false in
  Ret (a, s, l, flag).

Lemma lock_loop_taken n i :
  lock_loop (S n) (mkSpinlock true i) =
  if u32 (i + 1) =? spin_limit then Panic else lock_loop n (mkSpinlock true (u32 (i + 1))).
Proof. done. Qed.

Lemma lock_loop_spins n i :
  0 <= i -> i + Z.of_nat n + 1 = spin_limit -> lock_loop (S n) (mkSpinlock true i) = Panic.
Proof.
  assert (Hw : spin_limit < 2 ^ 32) by done. revert i.
  induction n as [|n IH]; intros i Hi Hn; rewrite lock_loop_taken; rewrite wrap_small by lia.
  - replace (i + 1) with spin_limit by lia. by rewrite Z.eqb_refl.
  - rewrite (proj2 (Z.eqb_neq _ _)) by lia. apply IH; lia.
Qed.

(** A lock that stays taken is noticed: with nobody else to release it,
    [lock] does not spin for ever but panics, after as many attempts as are left
    of the ten million its counter allows; a free lock is taken at once, and
    interrupts are off either way. *)
Theorem lock_never_hangs l flag n :
  0 <= spins l < spin_limit -> n = Z.to_nat (spin_limit - spins l) ->
  lock n l flag = if locked l then Panic else Ret (mkSpinlock true (spins l), false).
Proof.
  intros Hs ->. destruct l as [[] i]; cbn [locked spins] in *; unfold lock.
  - destruct (Z.to_nat (spin_limit - i)) as [|n] eqn:En; [lia|]. rewrite lock_loop_spins; [done|lia|lia].
  - destruct (Z.to_nat (spin_limit - i)) as [|n] eqn:En; [lia|]. done.
Qed.

(** ** Several processors *)
Inductive pc := Outside | Trying | Failed | Counting (v : Z) | Holding | Releasing | Panicked.

Record machine := mkMachine { word : bool; counter : Z; at_pc : Z -> pc; interrupts : Z -> bool }.

Definition go (c : Z) (p : pc) (m : machine) : machine :=
  mkMachine (word m) (counter m) (<[c := p]> (at_pc m)) (interrupts m).
Definition set_interrupts (c : Z) (b : bool) (m : machine) : machine :=
  mkMachine (word m) (counter m) (at_pc m) (<[c := b]> (interrupts m)).

(** What processor [c] does next: [cli]; the test-and-set; reading the counter;
    writing it back and comparing it; clearing it; clearing the word and [sti]. *)
Definition advance (c : Z) (m : machine) : option machine :=
  match at_pc m c with
  | Outside => Some (set_interrupts c false (go c Trying m))
  | Trying =>
      Some (if word m then go c Failed m
            else go c Holding (mkMachine true (counter m) (at_pc m) (interrupts m)))
  | Failed => Some (go c (Counting (counter m)) m)
  | Counting v =>
      let v := u32 (v + 1) in
      Some (go c (if v =? spin_limit then Panicked else Trying)
              (mkMachine (word m) v (at_pc m) (interrupts m)))
  | Holding => Some (go c Releasing (mkMachine (word m) 0 (at_pc m) (interrupts m)))
  | Releasing =>
      Some (set_interrupts c true (go c Outside (mkMachine false (counter m) (at_pc m) (interrupts m))))
  | Panicked => None
  end.

Inductive step : machine -> machine -> Prop :=
| step_cpu c m m' : advance c m = Some m' -> step m m'.

Definition unlocked : machine := mkMachine false 0 (fun _ => Outside) (fun _ => true).

(** The lock as its users see it: free, or held by a processor. *)
Inductive atomic_step : option Z -> option Z -> Prop :=
| acquire c : atomic_step None (Some c)
| release c : atomic_step (Some c) None.

Definition inside (p : pc) : bool := match p with Holding | Releasing => true | _ => false end.

(** The holder is the one processor between its test-and-set and its clearing
    of the word, and it has interrupts off. *)
Record held_by (m : machine) (h : option Z) : Prop := {
  hb_word : word m = bool_decide (is_Some h);
  hb_inside c : inside (at_pc m c) = true <-> h = Some c;
  hb_flag c : at_pc m c <> Outside -> interrupts m c = false }.

Lemma held_by_unlocked : held_by unlocked None.
Proof. split; [done|split; done|done]. Qed.

(** The rules keep the invariant when a processor moves outside the lock, takes
    it, or gives it up. *)
Lemma held_by_move m h c p w n i :
  held_by m h -> inside (at_pc m c) = false -> inside p = false -> w = word m ->
  (p <> Outside -> i c = false) -> (forall c', c' <> c -> i c' = interrupts m c') ->
  held_by (mkMachine w n (<[c := p]> (at_pc m)) i) h.
Proof.
  intros [Hw Hi Hf] Hc Hp -> Hic Hother. split; cbn; [done| |].
  - intros c'. destruct (decide (c' = c)) as [->|Hne].
    + rewrite fn_lookup_insert, Hp. rewrite <- Hi. by rewrite Hc.
    + rewrite fn_lookup_insert_ne by done. apply Hi.
  - intros c'. destruct (decide (c' = c)) as [->|Hne].
    + rewrite fn_lookup_insert. done.
    + rewrite fn_lookup_insert_ne by done. intros Hout. rewrite Hother by done. by apply Hf.
Qed.

Lemma step_simulates m m' h :
  step m m' -> held_by m h -> exists h', rtc atomic_step h h' /\ held_by m' h'.
Proof.
  intros [c m0 m1 Ha] Hh. unfold advance in Ha.
  destruct (at_pc m0 c) as [| | |v| | |] eqn:Ec; [..|done]; injection Ha as <-.
  - exists h. split; [constructor|]. apply (held_by_move m0); try done.
    + by rewrite Ec.
    + intros _. cbn. by rewrite fn_lookup_insert.
    + intros c' Hne. cbn. by rewrite fn_lookup_insert_ne.
  - destruct (word m0) eqn:Ew.
    + exists h. split; [constructor|]. apply (held_by_move m0); try done; [by rewrite Ec|].
      intros _. apply (hb_flag _ _ Hh). by rewrite Ec.
    + assert (h = None) as ->.
      { destruct h; [|done]. pose proof (hb_word _ _ Hh) as Hw. by rewrite Ew in Hw. }
      exists (Some c). split; [apply rtc_once; constructor|]. destruct Hh as [Hw Hi Hf]. split; cbn; [done| |].
      * intros c'. destruct (decide (c' = c)) as [->|Hne]; [by rewrite fn_lookup_insert|].
        rewrite fn_lookup_insert_ne by done. rewrite Hi. split; congruence.
      * intros c'. destruct (decide (c' = c)) as [->|Hne].
        -- intros _. apply Hf. by rewrite Ec.
        -- rewrite fn_lookup_insert_ne by done. apply Hf.
  - exists h. split; [constructor|]. apply (held_by_move m0); try done; [by rewrite Ec|].
    intros _. apply (hb_flag _ _ Hh). by rewrite Ec.
  - exists h. split; [constructor|]. apply (held_by_move m0); try done; [by rewrite Ec|by case_match|].
    intros _. apply (hb_flag _ _ Hh). by rewrite Ec.
  - exists h. split; [constructor|]. destruct Hh as [Hw Hi Hf]. split; cbn; [done| |].
    + intros c'. destruct (decide (c' = c)) as [->|Hne].
      * rewrite fn_lookup_insert. rewrite <- Hi. by rewrite Ec.
      * by rewrite fn_lookup_insert_ne.
    + intros c'. destruct (decide (c' = c)) as [->|Hne].
      * intros _. apply Hf. by rewrite Ec.
      * rewrite fn_lookup_insert_ne by done. apply Hf.
  - destruct Hh as [Hw Hi Hf]. assert (h = Some c) as -> by (apply Hi; by rewrite Ec).
    exists None. split; [apply rtc_once; constructor|]. split; cbn; [done| |].
    + intros c'. destruct (decide (c' = c)) as [->|Hne]; [by rewrite fn_lookup_insert|].
      rewrite fn_lookup_insert_ne, Hi by done. split; congruence.
    + intros c'. destruct (decide (c' = c)) as [->|Hne]; [by rewrite fn_lookup_insert|].
      rewrite !fn_lookup_insert_ne by done. apply Hf.
Qed.

(** C15. However the processors interleave inside [lock] and [unlock], the lock
    behaves as an atomic one: there is a sequence of acquisitions and releases
    that leads to a holder such that the lock word is set exactly when there is
    one, the processors between their test-and-set and their clearing of the
    word are exactly that holder, so never two, and no processor inside the
    functions can be interrupted. *)
Theorem lock_refines_atomic m :
  rtc step unlocked m -> exists h, rtc atomic_step None h /\ held_by m h.
Proof.
  intros Hm. assert (Hgen : forall m0 h0, rtc step m0 m -> rtc atomic_step None h0 -> held_by m0 h0 ->
    exists h, rtc atomic_step None h /\ held_by m h).
  { clear Hm. intros m0 h0 Hm. revert h0. induction Hm as [m|m0 m1 m2 Hstep _ IH]; intros h0 Ha Hh; [by exists h0|].
    destruct (step_simulates _ _ _ Hstep Hh) as (h1 & Ha1 & Hh1). apply (IH h1); [by etrans|done]. }
  by apply (Hgen unlocked None), held_by_unlocked.
Qed.

(** A schedule is the processors in the order in which they advance. *)
Fixpoint run (schedule : list Z) (m : machine) : option machine :=
  match schedule with
  | [] => Some m
  | c :: schedule => m ← advance c m; run schedule m
  end.

Lemma run_steps schedule m m' : run schedule m = Some m' -> rtc step m m'.
Proof.
  revert m. induction schedule as [|c schedule IH]; intros m; cbn [run].
  - intros [= ->]. constructor.
  - destruct (advance c m) as [m1|] eqn:E; cbn; [|done]. intros H. eapply rtc_l; [by econstructor|by apply IH].
Qed.

(** ** Static variables: the guards of cppruntime.cpp

    [guard_state] has the guard word, the holder of [static_init_lock], where
    each processor is in the compiler's [if (acquire(g)) { construct; release(g); } use],
    how often the constructor has begun and whether it has finished. *)
Inductive guard_pc := Arriving | Waiting | Deciding | Constructing | Constructed | Unlocking | Using | Stopped.

Record guard_state := mkGuard {
  g : Z; holder : option Z; at_guard : Z -> guard_pc; begun : nat; built : bool }.

Definition guard_in_use (x : Z) : bool := negb (Z.land x 2 =? 0).
Definition guard_initialized (x : Z) : bool := negb (Z.land x 1 =? 0).
Definition set_guard_in_use (x : Z) : Z := Z.lor x 2.
Definition set_guard_initialized (x : Z) : Z := Z.lor x 1.

Definition guard_go (c : Z) (p : guard_pc) (s : guard_state) : guard_state :=
  mkGuard (g s) (holder s) (<[c := p]> (at_guard s)) (begun s) (built s).
Definition guard_unlock (s : guard_state) : guard_state :=
  mkGuard (g s) None (at_guard s) (begun s) (built s).

(** [__cxa_guard_acquire] up to [Constructing] or [Using], the constructor, and
    [__cxa_guard_release].  A processor that finds the lock taken waits. *)
Definition guard_advance (c : Z) (s : guard_state) : option guard_state :=
  match at_guard s c with
  | Arriving => Some (guard_go c (if negb (g s =? 0) then Using else Waiting) s)
  | Waiting =>
      match holder s with
      | Some _ => None
      | None => Some (guard_go c Deciding (mkGuard (g s) (Some c) (at_guard s) (begun s) (built s)))
      end
  | Deciding =>
      Some (if guard_initialized (g s) then guard_go c Using (guard_unlock s)
            else if guard_in_use (g s) then guard_go c Stopped s
            else guard_go c Constructing
                   (mkGuard (set_guard_in_use (g s)) (holder s) (at_guard s) (Datatypes.S (begun s)) (built s)))
  | Constructing => Some (guard_go c Constructed (mkGuard (g s) (holder s) (at_guard s) (begun s) true))
  | Constructed =>
      Some (guard_go c Unlocking (mkGuard (set_guard_initialized (g s)) (holder s) (at_guard s) (begun s) (built s)))
  | Unlocking => Some (guard_go c Using (guard_unlock s))
  | Using | Stopped => None
  end.

Inductive guard_step : guard_state -> guard_state -> Prop :=
| guard_cpu c s s' : guard_advance c s = Some s' -> guard_step s s'.

Definition unguarded : guard_state := mkGuard 0 None (fun _ => Arriving) 0 false.

Definition in_lock (p : guard_pc) : bool :=
  match p with Deciding | Constructing | Constructed | Unlocking => true | _ => false end.

(** The guard word says how far the holder has come. *)
Definition guard_phase (s : guard_state) : Prop :=
  match holder s with
  | None => (g s = 0 /\ begun s = 0%nat /\ built s = false) \/ (g s = 3 /\ begun s = 1%nat /\ built s = true)
  | Some c =>
      match at_guard s c with
      | Deciding => (g s = 0 /\ begun s = 0%nat /\ built s = false) \/ (g s = 3 /\ begun s = 1%nat /\ built s = true)
      | Constructing => g s = 2 /\ begun s = 1%nat /\ built s = false
      | Constructed => g s = 2 /\ begun s = 1%nat /\ built s = true
      | Unlocking => g s = 3 /\ begun s = 1%nat /\ built s = true
      | _ => False
      end
  end.

Record guard_ok (s : guard_state) : Prop := {
  go_phase : guard_phase s;
  go_inside c : in_lock (at_guard s c) = true <-> holder s = Some c;
  go_stopped c : at_guard s c <> Stopped }.

Lemma guard_move s c p x h b o :
  guard_ok s -> p <> Stopped ->
  (forall c', (if decide (c' = c) then in_lock p else in_lock (at_guard s c')) = true <-> h = Some c') ->
  guard_phase (mkGuard x h (<[c := p]> (at_guard s)) b o) ->
  guard_ok (mkGuard x h (<[c := p]> (at_guard s)) b o).
Proof.
  intros [_ Hi Hs] Hp Hh Hph. split; [done| |]; cbn; intros c'; pose proof (Hh c') as Hc.
  - destruct (decide (c' = c)) as [->|Hne]; [by rewrite fn_lookup_insert|by rewrite fn_lookup_insert_ne].
  - destruct (decide (c' = c)) as [->|Hne]; [by rewrite fn_lookup_insert|by rewrite fn_lookup_insert_ne].
Qed.

(** A processor outside the lock moves to another point outside. *)
Lemma guard_stroll s c p :
  guard_ok s -> in_lock (at_guard s c) = false -> in_lock p = false -> p <> Stopped -> guard_ok (guard_go c p s).
Proof.
  intros Hok Hc Hp Hst. unfold guard_go. apply guard_move; try done.
  - intros c'. rewrite <- (go_inside _ Hok c'). case_decide as E; [subst; by rewrite Hc, Hp|done].
  - pose proof (go_phase _ Hok) as Hph. unfold guard_phase in *. cbn. destruct (holder s) as [c'|] eqn:Eh; [|done].
    rewrite fn_lookup_insert_ne; [done|]. intros ->. apply (go_inside _ Hok) in Eh. by rewrite Eh in Hc.
Qed.

(** The holder moves on inside the lock. *)
Lemma guard_holder_moves s c p x b o :
  guard_ok s -> in_lock (at_guard s c) = true -> in_lock p = true -> p <> Stopped ->
  (match p with
   | Deciding => (x = 0 /\ b = 0%nat /\ o = false) \/ (x = 3 /\ b = 1%nat /\ o = true)
   | Constructing => x = 2 /\ b = 1%nat /\ o = false
   | Constructed => x = 2 /\ b = 1%nat /\ o = true
   | _ => x = 3 /\ b = 1%nat /\ o = true
   end) ->
  guard_ok (guard_go c p (mkGuard x (holder s) (at_guard s) b o)).
Proof.
  intros Hok Hc Hp Hst Hx. pose proof (proj1 (go_inside _ Hok c) Hc) as Hh. unfold guard_go. cbn. apply guard_move; try done.
  - intros c'. rewrite <- (go_inside _ Hok c'). case_decide as E; [subst; by rewrite Hc, Hp|done].
  - unfold guard_phase. cbn. rewrite Hh, fn_lookup_insert. by destruct p.
Qed.

(** The holder leaves. *)
Lemma guard_leaves s c :
  guard_ok s -> in_lock (at_guard s c) = true ->
  (g s = 0 /\ begun s = 0%nat /\ built s = false) \/ (g s = 3 /\ begun s = 1%nat /\ built s = true) ->
  guard_ok (guard_go c Using (guard_unlock s)).
Proof.
  intros Hok Hc Hx. pose proof (proj1 (go_inside _ Hok c) Hc) as Hh. unfold guard_go, guard_unlock. cbn.
  apply guard_move; try done.
  intros c'. case_decide as E; [done|]. rewrite (go_inside _ Hok c'), Hh. split; congruence.
Qed.

Lemma guard_advance_ok c s s' : guard_advance c s = Some s' -> guard_ok s -> guard_ok s'.
Proof.
  intros Ha Hok. pose proof (go_phase _ Hok) as Hph. unfold guard_advance in Ha.
  assert (Hin : in_lock (at_guard s c) = true -> holder s = Some c) by apply (go_inside _ Hok).
  destruct (at_guard s c) eqn:Ec; try discriminate Ha.
  - injection Ha as <-. apply guard_stroll; [done|by rewrite Ec|by case_match|by case_match].
  - destruct (holder s) eqn:Eh; [done|]. injection Ha as <-. unfold guard_go. cbn. apply guard_move; try done.
    + intros c'. pose proof (go_inside _ Hok c') as Hc'. rewrite Eh in Hc'.
      case_decide as E; [subst; cbn; split; congruence|]. rewrite Hc'. split; congruence.
    + unfold guard_phase in *. cbn. rewrite fn_lookup_insert. by rewrite Eh in Hph.
  - unfold guard_phase in Hph. rewrite (Hin eq_refl), Ec in Hph.
    destruct Hph as [(Hg & Hb & Ho)|(Hg & Hb & Ho)]; rewrite Hg in Ha; cbn in Ha; injection Ha as <-.
    + rewrite Hb. apply guard_holder_moves; [done|by rewrite Ec|done|done|by rewrite ?Ho].
    + apply guard_leaves; [done|by rewrite Ec|tauto].
  - injection Ha as <-. unfold guard_phase in Hph. rewrite (Hin eq_refl), Ec in Hph.
    apply guard_holder_moves; [done|by rewrite Ec|done|done|tauto].
  - injection Ha as <-. unfold guard_phase in Hph. rewrite (Hin eq_refl), Ec in Hph. destruct Hph as (Hg & Hb & Ho).
    apply guard_holder_moves; [done|by rewrite Ec|done|done|by rewrite Hg].
  - injection Ha as <-. unfold guard_phase in Hph. rewrite (Hin eq_refl), Ec in Hph.
    apply guard_leaves; [done|by rewrite Ec|tauto].
Qed.

(** C34. A static variable is constructed once: however the processors that
    arrive at it interleave, the constructor begins at most once, the guard says
    initialised only after it has finished, and the panic for a guard in use is
    never reached. *)
Theorem static_constructed_once s :
  rtc guard_step unguarded s ->
  (begun s <= 1)%nat /\ (guard_initialized (g s) = true -> built s = true) /\ forall c, at_guard s c <> Stopped.
Proof.
  intros Hs. assert (Hok : guard_ok s).
  { assert (H0 : guard_ok unguarded) by (split; [by left|done|done]). revert H0.
    induction Hs as [s|s s1 s2 [c s3 s4 Ha] _ IH]; [done|]. intros H0. by apply IH, (guard_advance_ok c s3). }
  pose proof (go_phase _ Hok) as Hph. unfold guard_phase in Hph.
  assert ((begun s <= 1)%nat /\ (g s = 0 \/ g s = 2 \/ (g s = 3 /\ built s = true))) as [Hb Hg]
    by (destruct (holder s); repeat case_match; intuition lia).
  split; [done|]. split; [|by apply go_stopped]. destruct Hg as [->|[->|[-> ->]]]; done.
Qed.

Fixpoint guard_run (schedule : list Z) (s : guard_state) : option guard_state :=
  match schedule with
  | [] => Some s
  | c :: schedule => s ← guard_advance c s; guard_run schedule s
  end.

Lemma guard_run_steps schedule s s' : guard_run schedule s = Some s' -> rtc guard_step s s'.
Proof.
  revert s. induction schedule as [|c schedule IH]; intros s; cbn [guard_run].
  - intros [= ->]. constructor.
  - destruct (guard_advance c s) as [s1|] eqn:E; cbn; [|done]. intros H. eapply rtc_l; [by econstructor|by apply IH].
Qed.

(** ** Concrete runs *)
Lemma lock_never_hangs_witness :
  lock 3 (mkSpinlock true 9999997) true = Panic /\ lock 3 (mkSpinlock false 9999997) true = Ret (mkSpinlock true 9999997, false).
Proof.
  split.
  - apply (lock_never_hangs (mkSpinlock true 9999997) true 3); cbn; [unfold spin_limit; lia|reflexivity].
  - apply (lock_never_hangs (mkSpinlock false 9999997) true 3); cbn; [unfold spin_limit; lia|reflexivity].
Defined.

(** Processor 1 takes the lock, 2 spins once and takes it after the release. *)
Definition handover : list Z := [1; 2; 1; 2; 2; 1; 1; 2; 2].

Lemma lock_refines_atomic_witness :
  exists m h, run handover unlocked = Some m /\ at_pc m 2 = Holding /\ at_pc m 1 = Outside /\
    rtc atomic_step None h /\ held_by m h.
Proof.
  destruct (run handover unlocked) as [m|] eqn:E; [|vm_compute in E; discriminate E].
  destruct (lock_refines_atomic m (run_steps _ _ _ E)) as (h & Ha & Hh).
  exists m, h. split; [reflexivity|]. vm_compute in E. injection E as <-.
  split; [vm_compute; reflexivity|]. split; [vm_compute; reflexivity|]. split; [exact Ha|exact Hh].
Defined.

(** Two processors arrive, the second waits for the constructor. *)
Definition both_arrive : list Z := [1; 2; 1; 1; 1; 1; 1; 2; 2].

Lemma static_constructed_once_witness :
  exists s, guard_run both_arrive unguarded = Some s /\ at_guard s 1 = Using /\ at_guard s 2 = Using /\ (begun s <= 1)%nat.
Proof.
  destruct (guard_run both_arrive unguarded) as [s|] eqn:E; [|vm_compute in E; discriminate E].
  destruct (static_constructed_once s (guard_run_steps _ _ _ E)) as (Hb & _ & _).
  exists s. split; [reflexivity|]. split; [|split; [|exact Hb]];
    vm_compute in E; injection E as <-; vm_compute; reflexivity.
Defined.

(** The first test of the guard is for any bit: a processor that arrives while
    another constructs goes on to use what is not built yet. *)
Example used_before_built :
  match guard_run [1; 1; 1; 2] unguarded with
  | Some s => (at_guard s 1, at_guard s 2, built s)
  | None => (Arriving, Arriving, true)
  end = (Constructing, Using, false).
Proof. vm_compute. reflexivity. Qed.

(** [unlock] sets the interrupt flag whatever it was: releasing an inner lock
    lets interrupts in while the outer one is still held, as when
    [handle_page_fault] allocates a page. *)
Example inner_unlock_enables_interrupts :
  match lock 1 (mkSpinlock false 0) true with
  | Ret (outer, flag) =>
      match guarded 1 (fun s : unit => Ret (tt, s)) (mkSpinlock false 0) flag tt with
      | Ret (_, _, inner, flag) => (locked outer, locked inner, flag)
      | _ => (false, false, false)
      end
  | _ => (false, false, false)
  end = (true, false, true).
Proof. vm_compute. reflexivity. Qed.
