(* ===== verification/Algorithm.v ===== *)
(** * klib/algorithm.hpp

    [klib::min], [klib::max] and [klib::align_up] on 64-bit unsigned
    integers. *)
From S2P Require Import Prelude.

Definition min (a b : Z) : Z := if b <? a then b else a.
Definition max (a b : Z) : Z := if a <? b then b else a.

Definition align_up (alignment i : Z) : Z :=
  if negb (i mod alignment =? 0) then u64 ((i / alignment + 1) * alignment) else i.

(** The result is the least multiple of [alignment] not below [i], as long
    as that multiple is a 64-bit integer. *)
Lemma align_up_spec al i : 0 < al -> 0 <= i -> i + al <= 2 ^ 64 ->
  i <= align_up al i < i + al /\ align_up al i mod al = 0.
Proof.
  intros Ha Hi Hb. unfold align_up.
  pose proof (Z.div_mod i al ltac:(lia)). pose proof (Z.mod_pos_bound i al Ha).
  destruct (Z.eqb_spec (i mod al) 0) as [He|Hne]; cbn [negb]; [lia|].
  destruct (decide ((i / al + 1) * al = 2 ^ 64)) as [E|E].
  - exfalso. nia.
  - rewrite wrap_small by nia. split; [nia|]. apply Z.mod_mul. lia.
Qed.

Lemma align_up_le al i m : 0 < al -> 0 <= i -> m mod al = 0 -> i <= m -> m < 2 ^ 64 ->
  align_up al i <= m.
Proof.
  intros Ha Hi Hm Him Hb. unfold align_up.
  pose proof (Z.div_mod i al ltac:(lia)). pose proof (Z.mod_pos_bound i al Ha).
  pose proof (Z.div_mod m al ltac:(lia)).
  destruct (Z.eqb_spec (i mod al) 0); cbn [negb]; [lia|].
  assert (i / al < m / al) by nia. assert ((i / al + 1) * al <= m) by nia.
  rewrite wrap_small by nia. done.
Qed.

Lemma align_up_id al i : i mod al = 0 -> align_up al i = i.
Proof. intros H. unfold align_up. by rewrite H. Qed.
