(* ===== verification/Pmm.v ===== *)
(** * mem/pmm.cpp: the physical page allocator

    One bit per physical page, set when the page is taken.  [inner_alloc]
    scans from [page_bitmap_index] for a run of clear bits, [alloc_pages]
    scans twice, [free_pages] is the loop of the source with its condition
    as written. *)
From S2P Require Import Prelude Algorithm.
From S2P Require Bitmap.
Import Bitmap (Bitmap, mkBitmap, m_addr, m_buffer, m_size, bit, covers, updates).

(** ** State *)

(** limine_memmap_entry, handed over by the boot loader. *)
Record limine_memmap_entry := mkEntry { base : Z; len : Z; type : Z }.
Definition LIMINE_MEMMAP_USABLE : Z := 0.
Definition usable (e : limine_memmap_entry) : bool := type e =? LIMINE_MEMMAP_USABLE.

(** The file's static variables. *)
Record pmm := mkPmm {
  page_bitmap : Bitmap;
  page_bitmap_index : Z;
  last_usable_mem : Z;
  total_usable_size : Z;
  total_allocated : Z }.

Definition set_bitmap (b : Bitmap) (s : pmm) : pmm :=
  mkPmm b (page_bitmap_index s) (last_usable_mem s) (total_usable_size s) (total_allocated s).
Definition set_index (i : Z) (s : pmm) : pmm :=
  mkPmm (page_bitmap s) i (last_usable_mem s) (total_usable_size s) (total_allocated s).
Definition set_usable (t : Z) (s : pmm) : pmm :=
  mkPmm (page_bitmap s) (page_bitmap_index s) (last_usable_mem s) t (total_allocated s).
Definition set_allocated (t : Z) (s : pmm) : pmm :=
  mkPmm (page_bitmap s) (page_bitmap_index s) (last_usable_mem s) (total_usable_size s) t.

(** Static storage before [init]: everything zero. *)
Definition boot : pmm := mkPmm (mkBitmap 0 [] 0) 0 0 0 0.

(** ** init *)
Section init.
(** [ram e]: the bytes that memory map entry [e] holds when [init] starts. *)
Context (hhdm : Z) (ram : limine_memmap_entry -> list Z).

(** First loop: the end of the highest usable entry. *)
Definition find_last_usable (last : Z) (es : list limine_memmap_entry) : Z :=
  fold_left (fun last e =>
    let new_usable_mem := u64 (base e + len e) in
    if (last <? new_usable_mem) && usable e then new_usable_mem else last) es last.

(** Second loop: the first usable entry large enough hosts the bitmap;
    without one the buffer stays the null pointer. *)
Definition place_bitmap (size : Z) (es : list limine_memmap_entry) : Bitmap :=
  match List.find (fun e => usable e && (size / 8 <=? len e)) es with
  | Some e => mkBitmap (u64 (base e + hhdm)) (ram e) size
  | None => mkBitmap 0 [] size
  end.

Definition page_start (e : limine_memmap_entry) : Z :=
  if base e mod 0x1000 =? 0 then base e / 0x1000 else base e / 0x1000 + 1.
Definition page_end (e : limine_memmap_entry) : Z :=
  let n := base e / 0x1000 + len e / 0x1000 in
  if len e mod 0x1000 =? 0 then n else u64 (n - 1).

(** Third loop, one entry. *)
Definition free_entry (e : limine_memmap_entry) (s : pmm) : outcome pmm :=
  if usable e then
    for_range (Z.to_nat (page_end e - page_start e)) (page_start e)
      (fun i s =>
         b ← Bitmap.set (page_bitmap s) i false;
         Ret (set_usable (u64 (total_usable_size s + 0x1000)) (set_bitmap b s))) s
  else Ret s.

Fixpoint free_entries (es : list limine_memmap_entry) (s : pmm) : outcome pmm :=
  match es with
  | [] => Ret s
  | e :: es => s ← free_entry e s; free_entries es s
  end.

(** Last loop: the pages of the bitmap itself. *)
Definition self_index (b : Bitmap) : Z := u64 (m_addr b - hhdm) / 0x1000.
Definition self_pages (b : Bitmap) : Z := align_up 0x1000 (m_size b / 8) / 0x1000.

Definition reserve_self (s : pmm) : outcome pmm :=
  for_range (Z.to_nat (self_pages (page_bitmap s))) (self_index (page_bitmap s))
    (fun i s =>
       b ← Bitmap.set (page_bitmap s) i true;
       Ret (set_usable (u64 (total_usable_size s - 0x1000)) (set_bitmap b s))) s.

Definition init (es : list limine_memmap_entry) (s : pmm) : outcome pmm :=
  let last := find_last_usable (last_usable_mem s) es in
  b ← Bitmap.fill (place_bitmap (last / 0x1000) es) true;
  s ← free_entries es (mkPmm b (page_bitmap_index s) last (total_usable_size s) (total_allocated s));
  reserve_self s.
End init.

(** ** Allocation *)

Fixpoint inner_loop (fuel : nat) (num_pages limit : Z) (pages : Z) (s : pmm) : outcome (Z * pmm) :=
  match fuel with
  | O => Diverge
  | S fuel =>
      if page_bitmap_index s <? limit then
        taken ← Bitmap.get (page_bitmap s) (page_bitmap_index s);
        let s := set_index (page_bitmap_index s + 1) s in
        if negb taken then
          let pages := pages + 1 in
          if pages =? num_pages then
            let beginning := page_bitmap_index s - num_pages in
            b ← for_range (Z.to_nat (page_bitmap_index s - beginning)) beginning
                  (fun i b => Bitmap.set b i true) (page_bitmap s);
            Ret (u64 (beginning * 0x1000), set_bitmap b s)
          else inner_loop fuel num_pages limit pages s
        else inner_loop fuel num_pages limit 0 s
      else Ret (0, s)
  end.

(** Every iteration moves the index one page closer to the limit. *)
Definition inner_fuel (limit : Z) (s : pmm) : nat :=
  S (Z.to_nat (limit - page_bitmap_index s)).

Definition inner_alloc (num_pages limit : Z) (s : pmm) : outcome (Z * pmm) :=
  inner_loop (inner_fuel limit s) num_pages limit 0 s.

Definition alloc_pages (num_pages : Z) (s : pmm) : outcome (Z * pmm) :=
  let last := page_bitmap_index s in
  '(result, s) ← inner_alloc num_pages (m_size (page_bitmap s)) s;
  '(result, s) ← (if result =? 0 then
                    '(result, s) ← inner_alloc num_pages last (set_index 0 s);
                    if result =? 0 then Panic else Ret (result, s)
                  else Ret (result, s));
  Ret (result, set_allocated (u64 (total_allocated s + num_pages * 0x1000)) s).

(** ** Release *)

Fixpoint free_loop (fuel : nat) (num_pages i : Z) (b : Bitmap) : outcome Bitmap :=
  match fuel with
  | O => Diverge
  | S fuel =>
      if i <? u64 (num_pages + i) then
        b ← Bitmap.set b i false;
        free_loop fuel num_pages (u64 (i + 1)) b
      else Ret b
  end.

Definition free_pages (fuel : nat) (phy num_pages : Z) (s : pmm) : outcome pmm :=
  let i := phy / 0x1000 in
  let s := if i <? page_bitmap_index s then set_index i s else s in
  b ← free_loop fuel num_pages i (page_bitmap s);
  Ret (set_allocated (u64 (total_allocated s - num_pages * 0x1000)) (set_bitmap b s)).

Definition get_total_allocated (s : pmm) : Z := total_allocated s.

(** ** Invariant and runs of free pages *)

Definition wf (s : pmm) : Prop :=
  covers (page_bitmap s) (m_size (page_bitmap s)) /\
  0 <= page_bitmap_index s <= m_size (page_bitmap s) /\
  m_size (page_bitmap s) * 0x1000 < 2 ^ 64.

Definition run (b : Bitmap) (p n : Z) : Prop :=
  forall i, p <= i < p + n -> bit b i = false.

(** [span p n]: the pages of a run, as a set of bits. *)
Definition span (p n : Z) (j : Z) : bool := (p <=? j) && (j <? p + n).

Lemma run_snoc b p n : run b p n -> bit b (p + n) = false -> run b p (n + 1).
Proof.
  intros Hr Hb i Hi. destruct (decide (i = p + n)) as [->|]; [done|]. apply Hr. lia.
Qed.

(** What a scan of the pages [lo .. limit-1] finds: the first run of [n] clear
    bits that lies in them, now taken, or nothing. *)
Inductive scan_result (s : pmm) (lo limit n : Z) : outcome (Z * pmm) -> Prop :=
| scan_found p b :
    lo <= p -> p + n <= limit -> run (page_bitmap s) p n ->
    (forall q, lo <= q < p -> ~ run (page_bitmap s) q n) ->
    updates (page_bitmap s) b (span p n) true ->
    scan_result s lo limit n (Ret (u64 (p * 0x1000), set_bitmap b (set_index (p + n) s)))
| scan_none :
    (forall p, lo <= p -> p + n <= limit -> ~ run (page_bitmap s) p n) ->
    scan_result s lo limit n (Ret (0, set_index (Z.max limit (page_bitmap_index s)) s)).

Lemma scan_result_index s k lo limit n r :
  k <= limit -> page_bitmap_index s <= limit ->
  scan_result (set_index k s) lo limit n r -> scan_result s lo limit n r.
Proof.
  intros Hk Hi. destruct 1 as [p b ????? | Hno].
  - exact (scan_found s lo limit n p b ltac:(done) ltac:(done) ltac:(done) ltac:(done) ltac:(done)).
  - pose proof (scan_none s lo limit n Hno) as Hr.
    rewrite Z.max_l in Hr by lia. cbn. rewrite Z.max_l by lia. exact Hr.
Qed.

Lemma inner_loop_spec n limit lo fuel pages s :
  covers (page_bitmap s) limit -> 0 <= lo -> 0 <= pages < n ->
  lo <= page_bitmap_index s - pages ->
  (Z.to_nat (limit - page_bitmap_index s) < fuel)%nat ->
  run (page_bitmap s) (page_bitmap_index s - pages) pages ->
  (forall p, lo <= p < page_bitmap_index s - pages -> ~ run (page_bitmap s) p n) ->
  scan_result s lo limit n (inner_loop fuel n limit pages s).
Proof.
  revert pages s. induction fuel as [|fuel IH]; intros pages s Hc Hlo Hp Hidx Hf Hrun Hno; [lia|].
  cbn [inner_loop]. destruct (Z.ltb_spec (page_bitmap_index s) limit) as [Hlt|Hge].
  - rewrite (Bitmap.get_bit _ _ limit) by (done || lia). ored.
    destruct (bit (page_bitmap s) (page_bitmap_index s)) eqn:Hbit; cbn [negb].
    + (* the page is taken *)
      apply (scan_result_index s (page_bitmap_index s + 1)); [lia..|].
      apply IH; cbn; try (done || lia).
      * intros i Hi. lia.
      * intros p Hp1 Hr. destruct (decide (p < page_bitmap_index s - pages)).
        -- by apply (Hno p); [lia|].
        -- rewrite Hr in Hbit by lia. done.
    + destruct (Z.eqb_spec (pages + 1) n) as [Hn|Hn].
      * (* the run is complete *)
        cbn. replace (page_bitmap_index s + 1 - n) with (page_bitmap_index s - pages) by lia.
        set (p := page_bitmap_index s - pages).
        destruct (Bitmap.set_range_spec (page_bitmap s) p
          (Z.to_nat (page_bitmap_index s + 1 - p)) true limit) as (b & -> & Hu); [done|lia..|].
        ored. replace (page_bitmap_index s + 1) with (p + n) by lia.
        apply scan_found; [lia|lia| |apply Hno|].
        -- rewrite <- Hn. apply run_snoc; [done|].
           by replace (p + pages) with (page_bitmap_index s) by lia.
        -- replace (Z.of_nat (Z.to_nat (page_bitmap_index s + 1 - p))) with n in Hu by lia. done.
      * apply (scan_result_index s (page_bitmap_index s + 1)); [lia..|].
        apply IH; cbn; try (done || lia).
        -- replace (page_bitmap_index s + 1 - (pages + 1)) with (page_bitmap_index s - pages) by lia.
           apply run_snoc; [done|].
           by replace (page_bitmap_index s - pages + pages) with (page_bitmap_index s) by lia.
        -- intros p Hp1. apply Hno. lia.
  - replace s with (set_index (Z.max limit (page_bitmap_index s)) s) at 2.
    + apply scan_none. intros p Hp1 Hp2. destruct (decide (p < page_bitmap_index s - pages)).
      * apply Hno. lia.
      * lia.
    + rewrite Z.max_r by lia. by destruct s.
Qed.

(** A whole scan starts with no page counted. *)
Lemma inner_alloc_spec n limit s :
  covers (page_bitmap s) limit -> 0 < n -> 0 <= page_bitmap_index s ->
  scan_result s (page_bitmap_index s) limit n (inner_alloc n limit s).
Proof.
  intros. apply inner_loop_spec; try (done || lia).
  - unfold inner_fuel. lia.
  - intros i Hi. lia.
Qed.

(** ** What alloc_pages returns *)

(** [n] pages from [p] on went from free to taken, nothing else changed but
    the scan position and the byte count. *)
Definition took (s s' : pmm) (p n : Z) : Prop :=
  run (page_bitmap s) p n /\
  updates (page_bitmap s) (page_bitmap s') (span p n) true /\
  total_allocated s' = u64 (total_allocated s + n * 0x1000).

Inductive alloc_result (s : pmm) (n : Z) : outcome (Z * pmm) -> Prop :=
| alloc_found p s' :
    0 < p -> p + n <= m_size (page_bitmap s) -> took s s' p n -> wf s' ->
    alloc_result s n (Ret (p * 0x1000, s'))
| alloc_panic :
    (forall p, 0 <= p -> run (page_bitmap s) p n ->
       p < page_bitmap_index s < p + n \/ m_size (page_bitmap s) < p + n) ->
    alloc_result s n Panic.

Lemma scan_took s k lo limit n r :
  wf s -> 0 <= lo -> 0 < n -> limit <= m_size (page_bitmap s) ->
  bit (page_bitmap s) 0 = true -> scan_result (set_index k s) lo limit n r ->
  (exists p b, r = Ret (p * 0x1000, set_bitmap b (set_index (p + n) s)) /\ 0 < p /\
     p + n <= limit /\ run (page_bitmap s) p n /\ (forall q, lo <= q < p -> ~ run (page_bitmap s) q n) /\
     updates (page_bitmap s) b (span p n) true) \/
  (r = Ret (0, set_index (Z.max limit k) s) /\
     forall p, lo <= p -> p + n <= limit -> ~ run (page_bitmap s) p n).
Proof.
  intros (Hc & Hi & Hm) Hlo Hn Hl H0. destruct 1 as [p b Hp1 Hp2 Hr Hfst Hu | Hno]; cbn in *.
  - left. exists p, b. assert (p <> 0). { intros ->. rewrite Hr in H0 by lia. done. }
    rewrite wrap_small by lia. by split_and!; [|lia|..].
  - right. done.
Qed.

Lemma wf_found s b p n : wf s -> 0 < n -> 0 < p -> p + n <= m_size (page_bitmap s) ->
  updates (page_bitmap s) b (span p n) true -> forall t,
  wf (set_allocated t (set_bitmap b (set_index (p + n) s))).
Proof.
  intros (Hc & Hi & Hm) ??? Hu t. pose proof Hu as (_ & Hs & _ & _).
  unfold wf; cbn. rewrite Hs. split_and!; try lia. by eapply Bitmap.updates_covers.
Qed.

Lemma alloc_pages_result s n :
  wf s -> 0 < n -> bit (page_bitmap s) 0 = true -> alloc_result s n (alloc_pages n s).
Proof.
  intros Hwf Hn H0. pose proof Hwf as (Hc & Hi & Hm). unfold alloc_pages.
  assert (Hcl : forall l, l <= m_size (page_bitmap s) -> covers (page_bitmap s) l).
  { unfold covers in *. lia. }
  pose proof (inner_alloc_spec n (m_size (page_bitmap s)) s Hc Hn ltac:(lia)) as H1.
  replace s with (set_index (page_bitmap_index s) s) in H1 at 1 by (by destruct s).
  apply scan_took in H1 as [(p & b & -> & ? & ? & ? & _ & ?) | (-> & Hno1)]; try (done || lia); ored.
  { rewrite (proj2 (Z.eqb_neq _ _)) by lia. ored.
    apply alloc_found; [lia..|by split_and!|by apply wf_found]. }
  cbn [Z.eqb]. ored.
  set (s1 := set_index 0 (set_index _ s)).
  pose proof (inner_alloc_spec n (page_bitmap_index s) s1 (Hcl (page_bitmap_index s) ltac:(lia)) Hn ltac:(cbn; lia)) as H2.
  change s1 with (set_index 0 s) in H2 at 1.
  apply scan_took in H2 as [(p & b & -> & ? & ? & ? & _ & ?) | (-> & Hno2)]; try (done || lia); ored.
  - rewrite (proj2 (Z.eqb_neq _ _)) by lia. ored.
    apply alloc_found; [lia..|by split_and!|apply wf_found; done || lia].
  - cbn. apply alloc_panic. intros p Hp Hr.
    destruct (decide (m_size (page_bitmap s) < p + n)); [by right|left].
    destruct (decide (page_bitmap_index s <= p)); [by destruct (Hno1 p); [lia..|]|].
    destruct (decide (p + n <= page_bitmap_index s)); [by destruct (Hno2 p); [cbn; lia..|]|lia].
Qed.

(**  [alloc_pages] hands out physical memory nobody else has: on success the
    [n] pages at the returned address lie inside the bitmap, were all free
    before the call and are all taken after it, every other page keeps its
    state, the byte count grows by [n] pages and the invariant survives. *)
Theorem alloc_pages_takes_free_pages s n phy s' :
  wf s -> 0 < n -> bit (page_bitmap s) 0 = true ->
  alloc_pages n s = Ret (phy, s') ->
  exists p, phy = p * 0x1000 /\ 0 < p /\ p + n <= m_size (page_bitmap s) /\
    took s s' p n /\ wf s'.
Proof.
  intros Hwf Hn H0 E. pose proof (alloc_pages_result s n Hwf Hn H0) as H.
  rewrite E in H. inversion H; subst. by exists p.
Qed.

(** C36.  [alloc_pages] always comes back with a verdict, and it reports memory
    as exhausted only when every run of [n] free pages straddles the scan
    position: a run on either side of it is found. *)
Theorem alloc_pages_complete s n :
  wf s -> 0 < n -> bit (page_bitmap s) 0 = true ->
  (exists phy s', alloc_pages n s = Ret (phy, s')) \/
  (alloc_pages n s = Panic /\
   forall p, 0 <= p -> p + n <= m_size (page_bitmap s) -> run (page_bitmap s) p n ->
     p < page_bitmap_index s < p + n).
Proof.
  intros Hwf Hn H0. destruct (alloc_pages_result s n Hwf Hn H0) as [p s' | Hno].
  - left. by exists (p * 0x1000), s'.
  - right. split; [done|]. intros p Hp Hs Hr. destruct (Hno p Hp Hr); [done|lia].
Qed.

(** [k] free pages in a row, none of them behind the scan position. *)
Definition room (s : pmm) (k : Z) : Prop :=
  exists p, page_bitmap_index s <= p /\ p + k <= m_size (page_bitmap s) /\ run (page_bitmap s) p k.

(** The first scan takes the first run, and leaves the rest of the room. *)
Lemma alloc_pages_room s n k :
  wf s -> 0 < n -> 0 <= k -> bit (page_bitmap s) 0 = true -> room s (n + k) ->
  exists p s', alloc_pages n s = Ret (p * 0x1000, s') /\ room s' k.
Proof.
  intros Hwf Hn Hk H0 (q & Hq & Hqs & Hr). pose proof Hwf as (Hc & Hi & Hm). unfold alloc_pages.
  pose proof (inner_alloc_spec n (m_size (page_bitmap s)) s Hc Hn ltac:(lia)) as H1.
  replace s with (set_index (page_bitmap_index s) s) in H1 at 1 by (by destruct s).
  assert (run (page_bitmap s) q n) as Hrn by (intros i ?; apply Hr; lia).
  apply scan_took in H1 as [(p & b & -> & Hp & Hps & _ & Hfst & Hu) | (_ & Hno)]; try (done || lia).
  2: { by destruct (Hno q ltac:(lia) ltac:(lia)). }
  ored. rewrite (proj2 (Z.eqb_neq _ _)) by lia. ored. eexists p, _. split; [done|].
  assert (p <= q) by (destruct (Z.le_gt_cases p q); [done|by destruct (Hfst q)]).
  destruct Hu as (_ & Hs & _ & Hbits). exists (Z.max q (p + n)). cbn. rewrite Hs. split; [lia|]. split; [lia|].
  intros i Hin. rewrite Hbits by lia. unfold span. rewrite (proj2 (Z.ltb_ge i (p + n))), andb_false_r by lia. apply Hr. lia.
Qed.

(** ** free_pages does not return *)

Lemma set_out_of_range b i v : 8 * Z.of_nat (length (m_buffer b)) <= i -> Bitmap.set b i v = Fault.
Proof.
  intros Hi. unfold Bitmap.set. rewrite zlookup_None; [done|].
  assert (Z.of_nat (length (m_buffer b)) <= i / 8) by (apply Z.div_le_lower_bound; lia). lia.
Qed.

(** The loop's bound moves with its counter, so it only stops by running off
    the bitmap. *)
Lemma free_loop_runs_off n fuel i b :
  0 < n -> 0 <= i -> i + n < 2 ^ 64 ->
  8 * Z.of_nat (length (m_buffer b)) + n < 2 ^ 64 ->
  free_loop fuel n i b = Diverge \/ free_loop fuel n i b = Fault.
Proof.
  intros Hn. revert i b. induction fuel as [|fuel IH]; intros i b Hi Hin Hb; cbn [free_loop]; [by left|].
  rewrite wrap_small by lia. destruct (Z.ltb_spec i (n + i)); [|lia].
  destruct (decide (8 * Z.of_nat (length (m_buffer b)) <= i)).
  { right. by rewrite set_out_of_range. }
  destruct (Bitmap.set_spec b i false (8 * Z.of_nat (length (m_buffer b)))) as (b' & -> & Hu).
  { unfold covers. lia. } { lia. }
  destruct Hu as (_ & _ & Hl & _). ored. rewrite wrap_small by lia. apply IH; rewrite ?Hl; lia.
Qed.

Lemma free_loop_faults n fuel i b :
  0 < n -> 0 <= i -> i + n < 2 ^ 64 ->
  8 * Z.of_nat (length (m_buffer b)) + n < 2 ^ 64 ->
  (Z.to_nat (8 * Z.of_nat (length (m_buffer b)) - i) < fuel)%nat ->
  free_loop fuel n i b = Fault.
Proof.
  intros Hn. revert i b. induction fuel as [|fuel IH]; intros i b Hi Hin Hb Hf; [lia|]. cbn [free_loop].
  rewrite wrap_small by lia. destruct (Z.ltb_spec i (n + i)); [|lia].
  destruct (decide (8 * Z.of_nat (length (m_buffer b)) <= i)); [by rewrite set_out_of_range|].
  destruct (Bitmap.set_spec b i false (8 * Z.of_nat (length (m_buffer b)))) as (b' & -> & Hu).
  { unfold covers. lia. } { lia. }
  destruct Hu as (_ & _ & Hl & _). ored. rewrite wrap_small by lia. apply IH; rewrite ?Hl; lia.
Qed.

(**  [free_pages] never returns when it is asked to free anything: its
    loop condition [i < num_pages + i] cannot become false, so the loop clears
    bit after bit until it leaves the bitmap's memory. *)
Theorem free_pages_never_returns s phy n :
  0 < n < 2 ^ 63 -> 0 <= phy < 2 ^ 64 ->
  8 * Z.of_nat (length (m_buffer (page_bitmap s))) < 2 ^ 63 ->
  (forall fuel s', free_pages fuel phy n s <> Ret s') /\
  (exists fuel, free_pages fuel phy n s = Fault).
Proof.
  intros Hn Hp Hb.
  assert (Hi : 0 <= phy / 0x1000 < 2 ^ 52).
  { split; [apply Z.div_pos; lia|]. apply Z.div_lt_upper_bound; [lia|]. lia. }
  assert (Hpb : forall b : bool, page_bitmap (if b then set_index (phy / 0x1000) s else s) = page_bitmap s)
    by (by intros []).
  split.
  - intros fuel s' E. unfold free_pages in E. inv_ret. rewrite Hpb in E0.
    destruct (free_loop_runs_off n fuel (phy / 0x1000) (page_bitmap s)); [lia..|congruence|congruence].
  - eexists. unfold free_pages. rewrite Hpb.
    rewrite free_loop_faults; [done|lia..|]. apply Nat.lt_succ_diag_r.
Qed.

(** ** init marks exactly the usable pages free *)

Definition entry_ok (e : limine_memmap_entry) : Prop :=
  usable e = true -> 0 <= base e /\ 0 <= len e /\ base e mod 0x1000 = 0 /\
    len e mod 0x1000 = 0 /\ base e + len e < 2 ^ 64.

Definition page_of (e : limine_memmap_entry) (j : Z) : bool :=
  usable e && (base e <=? j * 0x1000) && ((j + 1) * 0x1000 <=? base e + len e).

Definition in_usable (es : list limine_memmap_entry) (j : Z) : bool := existsb (fun e => page_of e j) es.

(** The pages of entry [e] that the bitmap of [size] bits is charged for. *)
Definition in_bitmap (e : limine_memmap_entry) (size j : Z) : bool :=
  (base e <=? j * 0x1000) && (j * 0x1000 <? base e + align_up 0x1000 (size / 8)).

Lemma page_of_range e j : entry_ok e -> usable e = true ->
  page_of e j = span (page_start e) (page_end e - page_start e) j.
Proof.
  intros He Hu. destruct (He Hu) as (?&?&Hb&Hl&?).
  unfold page_of, span, page_start, page_end. rewrite Hu, Hb, Hl. cbn [andb Z.eqb].
  pose proof (Z.div_mod (base e) 0x1000 ltac:(lia)). pose proof (Z.div_mod (len e) 0x1000 ltac:(lia)).
  lia.
Qed.

Lemma find_last_usable_bound es acc e :
  Forall entry_ok es -> e ∈ es -> usable e = true ->
  base e + len e <= fold_left (fun last e =>
      let new_usable_mem := u64 (base e + len e) in
      if (last <? new_usable_mem) && usable e then new_usable_mem else last) es acc.
Proof.
  set (f := fun (last : Z) e => _).
  assert (Hmono : forall es acc, acc <= fold_left f es acc).
  { clear. induction es as [|e es IH]; intros acc; cbn; [lia|].
    etransitivity; [|apply IH]. unfold f at 1. cbn. case_match; lia. }
  revert acc. induction es as [|e' es IH]; intros acc Hok Hin Hu; [by apply not_elem_of_nil in Hin|].
  apply Forall_cons in Hok as [Hok1 Hok2]. cbn. apply elem_of_cons in Hin as [<-|Hin]; [|by apply IH].
  etransitivity; [|apply Hmono]. destruct (Hok1 Hu) as (?&?&_&_&?).
  unfold f. cbn. rewrite Hu, wrap_small, andb_true_r by lia. case_match; lia.
Qed.

Lemma find_last_usable_lt es : 0 <= find_last_usable 0 es < 2 ^ 64.
Proof.
  unfold find_last_usable. set (f := fun (last : Z) e => _).
  assert (Hf : forall acc, 0 <= acc < 2 ^ 64 -> 0 <= fold_left f es acc < 2 ^ 64); [|by apply Hf].
  induction es as [|e es IH]; intros acc Hacc; cbn; [done|].
  apply IH. unfold f. case_match; [|done]. by apply wrap_range.
Qed.

(** The two page loops of [init]: bits change, and so does the size count. *)
Lemma set_pages_spec s lo k v n (f : Z -> Z) :
  covers (page_bitmap s) n -> 0 <= lo -> lo + Z.of_nat k <= n ->
  exists s', for_range k lo (fun i s =>
      b ← Bitmap.set (page_bitmap s) i v;
      Ret (set_usable (f (total_usable_size s)) (set_bitmap b s))) s = Ret s' /\
    updates (page_bitmap s) (page_bitmap s') (span lo (Z.of_nat k)) v.
Proof.
  intros Hc Hlo Hn.
  destruct (for_range_inv
    (fun i s' => updates (page_bitmap s) (page_bitmap s') (span lo (i - lo)) v) k lo
    (fun i s => b ← Bitmap.set (page_bitmap s) i v;
      Ret (set_usable (f (total_usable_size s)) (set_bitmap b s))) s) as (s' & ? & Hu).
  - apply Bitmap.updates_none. unfold span. lia.
  - intros i s1 Hi Hu.
    destruct (Bitmap.set_spec (page_bitmap s1) i v n) as (b2 & -> & Hu2); [by eapply Bitmap.updates_covers|lia|].
    ored. eexists. split; [done|]. cbn. eapply Bitmap.updates_trans; [done..|].
    intros j _. unfold span. case_bool_decide; lia.
  - exists s'. split; [done|]. by replace (lo + Z.of_nat k - lo) with (Z.of_nat k) in Hu by lia.
Qed.

Lemma free_entries_spec es s n :
  covers (page_bitmap s) n -> Forall entry_ok es ->
  (forall e, e ∈ es -> usable e = true -> base e + len e <= n * 0x1000) ->
  exists s', free_entries es s = Ret s' /\ updates (page_bitmap s) (page_bitmap s') (in_usable es) false.
Proof.
  revert s. induction es as [|e es IH]; intros s Hc Hok Hn; cbn [free_entries].
  { exists s. split; [done|]. by apply Bitmap.updates_none. }
  apply Forall_cons in Hok as [He Hok].
  assert (Hes : forall e', e' ∈ es -> usable e' = true -> base e' + len e' <= n * 0x1000).
  { intros e' ?. apply Hn. set_solver. }
  unfold free_entry. destruct (usable e) eqn:Hu; ored.
  - destruct (He Hu) as (?&?&Hb&Hl&?).
    pose proof (Hn e ltac:(set_solver) Hu) as He_n.
    pose proof (Z.div_mod (base e) 0x1000 ltac:(lia)). pose proof (Z.div_mod (len e) 0x1000 ltac:(lia)).
    pose proof (page_of_range e) as Hpage.
    assert (Hse : page_start e = base e / 0x1000 /\ page_end e = base e / 0x1000 + len e / 0x1000).
    { unfold page_start, page_end. by rewrite Hb, Hl. }
    destruct (set_pages_spec s (page_start e) (Z.to_nat (page_end e - page_start e)) false n
      (fun t => u64 (t + 0x1000))) as (s1 & -> & Hu1); [done|lia..|]. ored.
    destruct (IH s1) as (s2 & -> & Hu2); [by eapply Bitmap.updates_covers|done..|].
    exists s2. split; [done|]. eapply Bitmap.updates_trans; [done..|].
    intros j _. cbn. rewrite Hpage by done. f_equal. f_equal. lia.
  - destruct (IH s) as (s2 & -> & Hu2); [done..|]. exists s2. split; [done|].
    destruct Hu2 as (?&?&?&Hbits). split_and!; try done. intros j Hj.
    rewrite Hbits by done. cbn. unfold page_of at 1. by rewrite Hu.
Qed.

Lemma span_pages b a j : b mod 0x1000 = 0 -> a mod 0x1000 = 0 -> 0 <= a ->
  span (b / 0x1000) (Z.of_nat (Z.to_nat (a / 0x1000))) j =
  (b <=? j * 0x1000) && (j * 0x1000 <? b + a).
Proof.
  intros Hb Ha Hp. pose proof (Z.div_mod b 0x1000 ltac:(lia)) as Eb.
  pose proof (Z.div_mod a 0x1000 ltac:(lia)) as Ea.
  pose proof (Z.div_pos a 0x1000 Hp ltac:(lia)). rewrite Hb in Eb. rewrite Ha in Ea.
  rewrite Z2Nat.id by lia. unfold span.
  apply eq_true_iff_eq. rewrite !andb_true_iff, !Z.leb_le, !Z.ltb_lt. lia.
Qed.

Lemma self_index_base hhdm e l size : 0 <= base e < 2 ^ 64 -> base e mod 0x1000 = 0 ->
  self_index hhdm (mkBitmap (u64 (base e + hhdm)) l size) = base e / 0x1000.
Proof.
  intros Hb Hm. unfold self_index; cbn. f_equal. unfold wrap.
  rewrite Zminus_mod_idemp_l. replace (base e + hhdm - hhdm) with (base e) by lia.
  by apply Z.mod_small.
Qed.

Section init_spec.
Context (hhdm : Z) (ram : limine_memmap_entry -> list Z).
Context (es : list limine_memmap_entry) (host : limine_memmap_entry).
Let last := find_last_usable 0 es.
Let size := last / 0x1000.

(** The boot loader's map is well formed, [host] is the entry the bitmap goes
    to, and its memory has room for one bit per page. *)
Hypothesis map_ok : Forall entry_ok es.
Hypothesis host_found :
  List.find (fun e => usable e && (size / 8 <=? len e)) es = Some host.
Hypothesis host_ram : Z.of_nat (length (ram host)) = len host.
Hypothesis host_room : size <= 8 * len host.

Lemma host_facts : host ∈ es /\ usable host = true /\ size / 8 <= len host /\
  0 <= base host /\ base host mod 0x1000 = 0 /\ len host mod 0x1000 = 0 /\
  base host + len host < 2 ^ 64 /\ base host + len host <= last /\ 0 <= size < 2 ^ 52.
Proof.
  destruct (find_some _ _ host_found) as [Hin%list_elem_of_In [Hu Hs]%andb_prop].
  rewrite Forall_forall in map_ok. destruct (map_ok host Hin Hu) as (?&?&?&?&?).
  assert (base host + len host <= last).
  { apply find_last_usable_bound; [by apply Forall_forall|done..]. }
  pose proof (find_last_usable_lt es). split_and!; try (done || lia).
  - apply Z.div_pos; lia.
  - apply Z.div_lt_upper_bound; lia.
Qed.

Lemma usable_below_last e : e ∈ es -> usable e = true -> base e + len e <= size * 0x1000.
Proof.
  intros Hin Hu. pose proof (find_last_usable_bound es 0 e map_ok Hin Hu) as Hb.
  rewrite Forall_forall in map_ok. destruct (map_ok e Hin Hu) as (?&?&Hbm&Hlm&?).
  fold (find_last_usable 0 es) in Hb. fold last in Hb.
  assert (Hm : (base e + len e) mod 0x1000 = 0) by (by rewrite Z.add_mod, Hbm, Hlm by lia).
  pose proof (Z.div_mod (base e + len e) 0x1000 ltac:(lia)).
  pose proof (Z.div_le_mono (base e + len e) last 0x1000 ltac:(lia) Hb). unfold size. lia.
Qed.

Lemma init_updates : exists s b0 b1 b2,
  init hhdm ram es boot = Ret s /\
  b0 = place_bitmap hhdm ram size es /\ m_size b0 = size /\
  updates b0 b1 (Bitmap.filled b0) true /\ updates b1 b2 (in_usable es) false /\
  updates b2 (page_bitmap s) (in_bitmap host size) true.
Proof.
  destruct host_facts as (Hin & Hu & Hroom & Hb0 & Hbm & Hlm & Hend & Hlast & Hsize).
  unfold init. change (find_last_usable (last_usable_mem boot) es) with last. fold size.
  assert (Hplace : place_bitmap hhdm ram size es = mkBitmap (u64 (base host + hhdm)) (ram host) size).
  { unfold place_bitmap. by rewrite host_found. }
  set (b0 := place_bitmap hhdm ram size es) in *.
  destruct (Bitmap.fill_spec b0 true) as (b1 & -> & Hu1).
  { rewrite Hplace; cbn. lia. } { rewrite Hplace. unfold covers; cbn. lia. }
  ored. set (s1 := mkPmm b1 _ _ _ _).
  assert (Hc1 : covers (page_bitmap s1) size).
  { cbn. eapply Bitmap.updates_covers; [done|]. rewrite Hplace. unfold covers; cbn. lia. }
  destruct (free_entries_spec es s1 size Hc1 map_ok usable_below_last) as (s2 & -> & Hu2). ored.
  assert (Hs2 : page_bitmap s2 = mkBitmap (u64 (base host + hhdm)) (m_buffer (page_bitmap s2)) size).
  { destruct Hu1 as (Ha1&Hz1&_), Hu2 as (Ha2&Hz2&_). cbn in Ha2, Hz2.
    destruct (page_bitmap s2) as [a l z]; cbn in *. by rewrite Ha2, Ha1, Hz2, Hz1, Hplace. }
  unfold reserve_self. rewrite Hs2, self_index_base by (lia || done).
  unfold self_pages; cbn [m_size].
  pose proof (Z.div_pos size 8 ltac:(lia) ltac:(lia)).
  pose proof (Z.div_lt_upper_bound size 8 (2 ^ 52) ltac:(lia) ltac:(lia)).
  pose proof (align_up_le 0x1000 (size / 8) (len host) ltac:(lia) ltac:(lia) Hlm Hroom ltac:(lia)).
  destruct (align_up_spec 0x1000 (size / 8)) as (? & Ham); [lia..|].
  pose proof (Z.div_mod (align_up 0x1000 (size / 8)) 0x1000 ltac:(lia)).
  pose proof (Z.div_mod (base host) 0x1000 ltac:(lia)).
  pose proof (usable_below_last host Hin Hu).
  destruct (set_pages_spec s2 (base host / 0x1000)
    (Z.to_nat (align_up 0x1000 (size / 8) / 0x1000)) true size (fun t => u64 (t - 0x1000)))
    as (s3 & -> & Hu3); [by eapply Bitmap.updates_covers|lia|lia|].
  exists s3, b0, b1, (page_bitmap s2). split_and!; try done; [by rewrite Hplace|].
  destruct Hu3 as (?&?&?&Hbits). split_and!; try done. intros j Hj. rewrite Hbits by done.
  by rewrite span_pages by (done || lia).
Qed.

(** C37. After [init], on a well-formed memory map one entry of which has room
    for the bitmap, every page of a usable entry that does not hold the bitmap is
    free, and every free page is one of those, but for one: [fill] leaves the bit
    of page [8 * (m_size / 8)] as the RAM held it, and that page may be free
    without being usable (example [init_lets_a_reserved_page_out]). *)
Theorem init_marks_usable_pages : exists s,
  init hhdm ram es boot = Ret s /\ m_size (page_bitmap s) = size /\
  forall j, 0 <= j < size ->
    (in_usable es j && negb (in_bitmap host size j) = true -> bit (page_bitmap s) j = false) /\
    (j <> 8 * (size / 8) -> bit (page_bitmap s) j = false ->
       in_usable es j && negb (in_bitmap host size j) = true).
Proof.
  destruct init_updates as (s & b0 & b1 & b2 & E & _ & Hs0 & Hu1 & Hu2 & Hu3).
  destruct Hu1 as (_&Hz1&_&H1), Hu2 as (_&Hz2&_&H2), Hu3 as (_&Hz3&_&H3).
  exists s. split_and!; [done|congruence|]. intros j Hj.
  rewrite H3, H2, H1 by lia. unfold Bitmap.filled. rewrite Hs0.
  destruct (in_bitmap host size j), (in_usable es j); cbn; try done.
  split; [done|]. intros Hne. rewrite (proj2 (Z.eqb_neq _ _) Hne).
  by rewrite (proj2 (Z.leb_le _ _)) by lia.
Qed.
End init_spec.

(** ** Concrete states *)

(** 16 pages; page 0, pages 4 to 7 and pages 10 to 15 are taken. *)
Definition sample : pmm := mkPmm (mkBitmap 0x8000 [0xF1; 0xFC] 16) 4 0x10000 0x5000 0.

Lemma sample_wf : wf sample.
Proof. unfold wf, covers; cbn. lia. Qed.

Lemma alloc_pages_takes_free_pages_witness :
  exists p, 0x8000 = p * 0x1000 /\ 0 < p /\ p + 2 <= 16 /\
    took sample (mkPmm (mkBitmap 0x8000 [0xF1; 0xFF] 16) 10 0x10000 0x5000 0x2000) p 2 /\
    wf (mkPmm (mkBitmap 0x8000 [0xF1; 0xFF] 16) 10 0x10000 0x5000 0x2000).
Proof.
  apply (alloc_pages_takes_free_pages sample 2).
  - exact sample_wf.
  - lia.
  - reflexivity.
  - vm_compute. reflexivity.
Defined.

Lemma alloc_pages_complete_witness :
  (exists phy s', alloc_pages 3 sample = Ret (phy, s')) \/
  (alloc_pages 3 sample = Panic /\
   forall p, 0 <= p -> p + 3 <= 16 -> run (page_bitmap sample) p 3 -> p < 4 < p + 3).
Proof.
  apply (alloc_pages_complete sample 3).
  - exact sample_wf.
  - lia.
  - reflexivity.
Defined.

Lemma free_pages_never_returns_witness :
  (forall fuel s', free_pages fuel 0x1000 1 sample <> Ret s') /\
  (exists fuel, free_pages fuel 0x1000 1 sample = Fault).
Proof. apply (free_pages_never_returns sample 0x1000 1); cbn; lia. Defined.

(** With the scan position inside the only free run the allocator panics
    although enough memory is free. *)
Example alloc_pages_misses_a_straddling_run :
  let s := mkPmm (mkBitmap 0x8000 [0x7F; 0xFE] 16) 8 0x10000 0 0 in
  run (page_bitmap s) 7 2 /\ alloc_pages 2 s = Panic.
Proof.
  split; [|by vm_compute]. intros i Hi.
  assert (i = 7 \/ i = 8) as [->| ->] by lia; reflexivity.
Qed.

(** A free run that starts at page 0 is taken and then reported as a failure. *)
Example alloc_pages_loses_page_zero :
  alloc_pages 1 (mkPmm (mkBitmap 0x8000 [0xFE] 8) 0 0x8000 0x1000 0) = Panic.
Proof. by vm_compute. Qed.

(** A memory map with two usable regions; its RAM is all zeros. *)
Definition small_map : list limine_memmap_entry :=
  [mkEntry 0x0 0x1000 1; mkEntry 0x1000 0x1000 0; mkEntry 0x2000 0x7000 1; mkEntry 0x9000 0x1000 0].
Definition zero_ram (e : limine_memmap_entry) : list Z := replicate (Z.to_nat (len e)) 0.

Lemma init_marks_usable_pages_witness : exists s,
  init 0xFFFF800000000000 zero_ram small_map boot = Ret s /\ m_size (page_bitmap s) = 10 /\
  forall j, 0 <= j < 10 ->
    (in_usable small_map j && negb (in_bitmap (mkEntry 0x1000 0x1000 0) 10 j) = true ->
       bit (page_bitmap s) j = false) /\
    (j <> 8 -> bit (page_bitmap s) j = false ->
       in_usable small_map j && negb (in_bitmap (mkEntry 0x1000 0x1000 0) 10 j) = true).
Proof.
  apply (init_marks_usable_pages 0xFFFF800000000000 zero_ram small_map (mkEntry 0x1000 0x1000 0)).
  - repeat constructor; intros Hu; try discriminate Hu; cbn; lia.
  - reflexivity.
  - vm_compute. reflexivity.
  - vm_compute. intros H. discriminate H.
Defined.

(** The bit [fill] forgets: with zeroed RAM the first page the allocator hands
    out, 0x8000, lies in no usable entry. *)
Example init_lets_a_reserved_page_out :
  (s ← init 0xFFFF800000000000 zero_ram small_map boot; '(phy, _) ← alloc_pages 1 s; Ret phy)
    = Ret 0x8000 /\ in_usable small_map 8 = false.
Proof. by vm_compute. Qed.
