(* ===== verification/Smp.v ===== *)
(** * What the spinlocks of other components promise: LockGuard around a function

    Any number of processors call a function whose body runs under a
    [LockGuard] (klib/lock.hpp), and are interleaved turn by turn: the accesses
    inside [lock] and [unlock] are those of file Lock's machine, the body is cut
    into the turns of its loops.  First for any such function, then for
    [alloc_pages] of mem/pmm.cpp, one turn being one page looked at. *)
From stdpp Require Import relations functions.
From S2P Require Import Prelude Bitmap Lock Pmm.

(** ** A function under a lock

    Requests [Q], places in the body [P], the data [X] the lock is for.  The
    body is at its end where [ended] has the result. *)
Class Routine (Q P X : Type) := {
  begin : P;
  turn : Q -> P -> X -> outcome (P * X);
  ended : P -> option Z;
  asks : Q -> Prop }.

Section smp.
Context {Q P X : Type} `{Routine Q P X}.

(** [doing]: the request of each processor and the place it is at in the body;
    [served]: who was answered what, the latest first. *)
Record smp := mkSmp {
  bus : Lock.machine; shared : X; doing : Z -> option (Q * P); served : list (Z * Q * Z) }.

Definition set_bus (m : Lock.machine) (s : smp) : smp := mkSmp m (shared s) (doing s) (served s).
Definition spinning (p : pc) : bool := match p with Trying | Failed | Counting _ => true | _ => false end.

Inductive smp_step : smp -> smp -> Prop :=
| smp_call c q m s :
    at_pc (bus s) c = Outside -> asks q -> advance c (bus s) = Some m ->
    smp_step s (mkSmp m (shared s) (<[c := Some (q, begin)]> (doing s)) (served s))
| smp_spin c m s :
    spinning (at_pc (bus s) c) = true -> advance c (bus s) = Some m -> smp_step s (set_bus m s)
| smp_work c q p p' x s :
    at_pc (bus s) c = Holding -> doing s c = Some (q, p) -> turn q p (shared s) = Ret (p', x) ->
    smp_step s (mkSmp (bus s) x (<[c := Some (q, p')]> (doing s)) (served s))
| smp_return c q p r m s :
    at_pc (bus s) c = Holding -> doing s c = Some (q, p) -> ended p = Some r -> advance c (bus s) = Some m ->
    smp_step s (mkSmp m (shared s) (<[c := None]> (doing s)) ((c, q, r) :: served s))
| smp_release c m s :
    at_pc (bus s) c = Releasing -> advance c (bus s) = Some m -> smp_step s (set_bus m s).

Definition smp_start (x : X) : smp := mkSmp unlocked x (fun _ => None) [].

(** One processor alone. *)
Definition turns (q : Q) (a b : P * X) : Prop := turn q a.1 a.2 = Ret b.

(** The requests served one after the other, each body as a whole. *)
Inductive one_by_one (x : X) : list (Z * Q * Z) -> X -> Prop :=
| served_none : one_by_one x [] x
| served_next l x1 c q p r x2 :
    one_by_one x l x1 -> asks q -> rtc (turns q) (begin, x1) (p, x2) -> ended p = Some r ->
    one_by_one x ((c, q, r) :: l) x2.

(** Where a processor is, [x1] being the data when the lock was last free. *)
Definition place_ok (x1 : X) (s : smp) (c : Z) : Prop :=
  match at_pc (bus s) c with
  | Trying | Failed | Counting _ => exists q, doing s c = Some (q, begin) /\ asks q
  | Holding => exists q p, doing s c = Some (q, p) /\ asks q /\ rtc (turns q) (begin, x1) (p, shared s)
  | _ => True
  end.

Record smp_inv (x : X) (s : smp) (x1 : X) : Prop := {
  si_lock : exists h, held_by (bus s) h;
  si_served : one_by_one x (served s) x1;
  si_place c : place_ok x1 s c;
  si_free : (forall c, at_pc (bus s) c <> Holding) -> shared s = x1 }.

Lemma advance_pc c m m' : advance c m = Some m' -> exists p, at_pc m' = <[c := p]> (at_pc m).
Proof.
  unfold advance. destruct (at_pc m c); [..|done]; intros [= <-]; try by eexists.
  destruct (word m); by eexists.
Qed.

Lemma advance_held c m m' h : advance c m = Some m' -> held_by m h -> exists h', held_by m' h'.
Proof. intros Ha Hh. destruct (step_simulates m m' h) as (h' & _ & ?); [by econstructor|done|by exists h']. Qed.

Lemma one_holder m h c c' : held_by m h -> at_pc m c = Holding -> inside (at_pc m c') = true -> c' = c.
Proof.
  intros Hh Hc Hc'. apply (hb_inside _ _ Hh) in Hc'. assert (h = Some c) as E by (apply (hb_inside _ _ Hh); by rewrite Hc).
  congruence.
Qed.

(** The other processors do not notice a move of [c] that leaves the data alone. *)
Lemma place_other x1 s c m d l c' :
  (exists p, at_pc m = <[c := p]> (at_pc (bus s))) -> (forall i, i <> c -> d i = doing s i) -> c' <> c ->
  place_ok x1 s c' -> place_ok x1 (mkSmp m (shared s) d l) c'.
Proof.
  intros (p & Em) Hd Hne. unfold place_ok. cbn. by rewrite Em, fn_lookup_insert_ne, Hd by done.
Qed.

Lemma call_keeps x s x1 c q m :
  at_pc (bus s) c = Outside -> asks q -> advance c (bus s) = Some m -> smp_inv x s x1 ->
  smp_inv x (mkSmp m (shared s) (<[c := Some (q, begin)]> (doing s)) (served s)) x1.
Proof.
  intros Ec Hq Ha [[h Hh] Hs Hp Hf]. pose proof (advance_pc _ _ _ Ha) as Hm.
  assert (at_pc m c = Trying) as Em.
  { unfold advance in Ha. rewrite Ec in Ha. injection Ha as <-. cbn. apply fn_lookup_insert. }
  split; [by eapply advance_held|done| |]; cbn.
  - intros c'. destruct (decide (c' = c)) as [->|Hne].
    + unfold place_ok. cbn. rewrite Em, fn_lookup_insert. by exists q.
    + apply (place_other _ _ c); [done|intros i Hi; by rewrite fn_lookup_insert_ne|done|apply Hp].
  - intros Hno. apply Hf. intros c' Hc'. destruct Hm as [p Hm]. apply (Hno c'). rewrite Hm, fn_lookup_insert_ne; [done|].
    intros ->. congruence.
Qed.

Lemma spin_keeps x s x1 c m :
  spinning (at_pc (bus s) c) = true -> advance c (bus s) = Some m -> smp_inv x s x1 -> smp_inv x (set_bus m s) x1.
Proof.
  intros Ec Ha [[h Hh] Hs Hp Hf]. pose proof (advance_pc _ _ _ Ha) as Hm. pose proof (Hp c) as Hc.
  assert (exists q, doing s c = Some (q, begin) /\ asks q) as (q & Ed & Hq)
    by (unfold place_ok in Hc; by destruct (at_pc (bus s) c)).
  assert (at_pc m c = Holding -> shared s = x1) as Hnew.
  { intros Em. apply Hf. intros c' Hc'. unfold advance in Ha.
    assert (at_pc (bus s) c = Trying /\ word (bus s) = false) as [Et Ew].
    { destruct (at_pc (bus s) c) eqn:Et; try done; [|injection Ha as <-; cbn in Em; rewrite fn_lookup_insert in Em; done|
        injection Ha as <-; cbn in Em; rewrite fn_lookup_insert in Em; by case_match].
      destruct (word (bus s)) eqn:Ew; [|done]. injection Ha as <-. cbn in Em. by rewrite fn_lookup_insert in Em. }
    assert (h = Some c') as -> by (apply (hb_inside _ _ Hh); by rewrite Hc').
    pose proof (hb_word _ _ Hh) as Hw. by rewrite Ew in Hw. }
  split; [by eapply advance_held|done| |].
  - intros c'. destruct (decide (c' = c)) as [->|Hne]; [|by apply (place_other _ _ c)].
    unfold place_ok. cbn. destruct (at_pc m c) eqn:Em; try done; [by exists q..|].
    exists q, begin. split; [done|]. split; [done|]. by rewrite Hnew.
  - cbn. intros Hno. destruct Hm as [p Hm]. apply Hf. intros c' Hc'.
    destruct (decide (c' = c)) as [->|Hne]; [by rewrite Hc' in Ec|]. apply (Hno c'). by rewrite Hm, fn_lookup_insert_ne.
Qed.

Lemma work_keeps x s x1 c q p p' y :
  at_pc (bus s) c = Holding -> doing s c = Some (q, p) -> turn q p (shared s) = Ret (p', y) -> smp_inv x s x1 ->
  smp_inv x (mkSmp (bus s) y (<[c := Some (q, p')]> (doing s)) (served s)) x1.
Proof.
  intros Ec Ed Et [[h Hh] Hs Hp Hf]. split; [by exists h|done| |]; cbn.
  - intros c'. destruct (decide (c' = c)) as [->|Hne].
    + pose proof (Hp c) as Hc. unfold place_ok in *. rewrite Ec in Hc. cbn. rewrite Ec, fn_lookup_insert.
      destruct Hc as (q1 & p1 & Ed1 & Hq1 & Hr). rewrite Ed in Ed1. injection Ed1 as <- <-.
      exists q, p'. split; [done|]. split; [done|]. by eapply rtc_r.
    + pose proof (Hp c') as Hc. unfold place_ok in *. cbn. rewrite fn_lookup_insert_ne by done.
      destruct (at_pc (bus s) c') eqn:Ec'; try done. by rewrite (one_holder _ _ _ _ Hh Ec ltac:(by rewrite Ec')) in Hne.
  - intros Hno. by destruct (Hno c).
Qed.

Lemma return_keeps x s x1 c q p r m :
  at_pc (bus s) c = Holding -> doing s c = Some (q, p) -> ended p = Some r -> advance c (bus s) = Some m ->
  smp_inv x s x1 -> smp_inv x (mkSmp m (shared s) (<[c := None]> (doing s)) ((c, q, r) :: served s)) (shared s).
Proof.
  intros Ec Ed Er Ha [[h Hh] Hs Hp Hf]. pose proof (advance_pc _ _ _ Ha) as Hm.
  assert (at_pc m c = Releasing) as Em.
  { unfold advance in Ha. rewrite Ec in Ha. injection Ha as <-. cbn. apply fn_lookup_insert. }
  pose proof (Hp c) as Hc. unfold place_ok in Hc. rewrite Ec in Hc. destruct Hc as (q1 & p1 & Ed1 & Hq1 & Hr).
  rewrite Ed in Ed1. injection Ed1 as <- <-.
  split; [by eapply advance_held|by eapply served_next| |done]. cbn.
  intros c'. destruct (decide (c' = c)) as [->|Hne].
  - unfold place_ok. cbn. by rewrite Em.
  - apply (place_other _ _ c); [done|intros i Hi; by rewrite fn_lookup_insert_ne|done|].
    pose proof (Hp c') as Hc. unfold place_ok in *. destruct (at_pc (bus s) c') eqn:Ec'; try done.
    by rewrite (one_holder _ _ _ _ Hh Ec ltac:(by rewrite Ec')) in Hne.
Qed.

Lemma release_keeps x s x1 c m :
  at_pc (bus s) c = Releasing -> advance c (bus s) = Some m -> smp_inv x s x1 -> smp_inv x (set_bus m s) x1.
Proof.
  intros Ec Ha [[h Hh] Hs Hp Hf]. pose proof (advance_pc _ _ _ Ha) as Hm.
  assert (at_pc m c = Outside) as Em.
  { unfold advance in Ha. rewrite Ec in Ha. injection Ha as <-. cbn. apply fn_lookup_insert. }
  split; [by eapply advance_held|done| |].
  - intros c'. destruct (decide (c' = c)) as [->|Hne]; [|by apply (place_other _ _ c)].
    unfold place_ok. cbn. by rewrite Em.
  - cbn. intros Hno. apply Hf. intros c' Hc'. destruct (decide (c' = c)) as [->|Hne]; [congruence|].
    destruct Hm as [p Hm]. apply (Hno c'). by rewrite Hm, fn_lookup_insert_ne.
Qed.

Lemma smp_step_keeps x s s' x1 : smp_step s s' -> smp_inv x s x1 -> exists x2, smp_inv x s' x2.
Proof.
  destruct 1 as [c q m s|c m s|c q p p' y s|c q p r m s|c m s]; intros Hinv.
  - exists x1. by apply call_keeps.
  - exists x1. by eapply spin_keeps.
  - exists x1. by eapply work_keeps.
  - exists (shared s). by eapply return_keeps.
  - exists x1. by eapply release_keeps.
Qed.

Lemma smp_inv_start x : smp_inv x (smp_start x) x.
Proof.
  split; [exists None; apply held_by_unlocked|constructor| |done]. intros c. done.
Qed.

(** Whatever the interleaving, the answers given are those of the requests
    served one after the other, and between two of them the data is what these
    left. *)
Lemma smp_linearizes x s :
  rtc smp_step (smp_start x) s ->
  exists x1, one_by_one x (served s) x1 /\ ((forall c, at_pc (bus s) c <> Holding) -> shared s = x1).
Proof.
  intros Hs. assert (exists x1, smp_inv x s x1) as [x1 []]; [|by exists x1].
  assert (forall a, rtc smp_step a s -> forall x1, smp_inv x a x1 -> exists x2, smp_inv x s x2) as Hgen.
  { clear Hs. induction 1 as [|a b s' Hab _ IH]; intros x1 Hx1; [by exists x1|].
    destruct (smp_step_keeps x a b x1 Hab Hx1) as [x2 Hx2]. by apply (IH x2). }
  apply (Hgen _ Hs x), smp_inv_start.
Qed.
End smp.
Arguments smp : clear implicits.

(** ** alloc_pages, turn by turn *)

(** Before the scan position is read; in the first or second scan; at the end. *)
Inductive scanning := Asked | Scanning (second : bool) (last count : Z) | Granted (phy : Z).

(** What [alloc_pages] does with a scan's result. *)
Definition scanned (n : Z) (second : bool) (last result : Z) (s : pmm) : outcome (scanning * pmm) :=
  if result =? 0 then if second then Panic else Ret (Scanning true last 0, set_index 0 s)
  else Ret (Granted result, set_allocated (u64 (total_allocated s + n * 0x1000)) s).

(** One turn of the loop of [inner_alloc]. *)
Definition scan_turn (n : Z) (p : scanning) (s : pmm) : outcome (scanning * pmm) :=
  match p with
  | Asked => Ret (Scanning false (page_bitmap_index s) 0, s)
  | Scanning second last count =>
      if page_bitmap_index s <? (if second : bool then last else m_size (page_bitmap s)) then
        taken ← Bitmap.get (page_bitmap s) (page_bitmap_index s);
        let s := set_index (page_bitmap_index s + 1) s in
        if negb taken then
          if count + 1 =? n then
            let beginning := page_bitmap_index s - n in
            b ← for_range (Z.to_nat (page_bitmap_index s - beginning)) beginning
                  (fun i b => Bitmap.set b i true) (page_bitmap s);
            scanned n second last (u64 (beginning * 0x1000)) (set_bitmap b s)
          else Ret (Scanning second last (count + 1), s)
        else Ret (Scanning second last 0, s)
      else scanned n second last 0 s
  | Granted _ => Fault
  end.

#[export] Instance alloc_routine : Routine Z scanning pmm := {
  begin := Asked;
  turn := scan_turn;
  ended := fun p => match p with Granted phy => Some phy | _ => None end;
  asks := fun n => 0 < n }.

(** The turns of a scan lead to where its result is looked at. *)
Lemma inner_turns n second last fuel : forall limit count s res s',
  limit = (if second : bool then last else m_size (page_bitmap s)) ->
  inner_loop fuel n limit count s = Ret (res, s') ->
  exists p t, rtc (turns n) (Scanning second last count, s) (p, t) /\ turn n p t = scanned n second last res s'.
Proof.
  induction fuel as [|fuel IH]; intros limit count s res s' -> Hi; [done|]. cbn [inner_loop] in Hi.
  destruct (page_bitmap_index s <? _) eqn:El.
  - apply bind_Ret in Hi as (taken & Eg & Hi).
    assert (forall k, inner_loop fuel n (if second then last else m_size (page_bitmap s)) k (set_index (page_bitmap_index s + 1) s) = Ret (res, s') ->
      turn n (Scanning second last count) s = Ret (Scanning second last k, set_index (page_bitmap_index s + 1) s) ->
      exists p t, rtc (turns n) (Scanning second last count, s) (p, t) /\ turn n p t = scanned n second last res s') as Hnext.
    { intros k Hk Ht. destruct (IH _ k (set_index (page_bitmap_index s + 1) s) res s' eq_refl Hk) as (p & t & Hr & E).
      exists p, t. split; [by eapply rtc_l|done]. }
    destruct taken; cbn [negb] in Hi; [|destruct (count + 1 =? n) eqn:En].
    + apply (Hnext 0 Hi). cbn. by rewrite El, Eg.
    + apply bind_Ret in Hi as (b & Eb & [= <- <-]). eexists _, _. split; [constructor|].
      cbn. rewrite El, Eg. ored. cbn [negb]. rewrite En. cbn in Eb. by rewrite Eb.
    + apply (Hnext (count + 1) Hi). cbn. rewrite El, Eg. ored. cbn [negb]. by rewrite En.
  - injection Hi as <- <-. eexists _, _. split; [constructor|]. cbn. by rewrite El.
Qed.

(** A scan never panics itself. *)
Lemma inner_loop_no_panic fuel n limit : forall count s, inner_loop fuel n limit count s <> Panic.
Proof.
  assert (forall k i b, for_range k i (fun i b => Bitmap.set b i true) b <> Panic) as Hset.
  { induction k as [|k IHk]; intros i b; cbn [for_range]; [done|]. unfold Bitmap.set.
    destruct (zlookup _ _); ored; [|done]. destruct (zlookup _ _); ored; [apply IHk|done]. }
  induction fuel as [|fuel IH]; intros count s; cbn [inner_loop]; [done|]. destruct (_ <? _); [|done].
  unfold Bitmap.get. destruct (zlookup _ _); ored; [|done]. destruct (negb _); [|apply IH].
  destruct (_ =? _); [|apply IH]. pose proof (Hset (Z.to_nat (page_bitmap_index (set_index (page_bitmap_index s + 1) s) -
    (page_bitmap_index (set_index (page_bitmap_index s + 1) s) - n)))
    (page_bitmap_index (set_index (page_bitmap_index s + 1) s) - n) (page_bitmap (set_index (page_bitmap_index s + 1) s))) as Hb.
  destruct (for_range _ _ _ _); ored; done.
Qed.

(** The turns of [alloc_pages] end as the whole does. *)
Lemma alloc_turns n s :
  match alloc_pages n s with
  | Ret (phy, s') => rtc (turns n) (Asked, s) (Granted phy, s')
  | Panic => exists p t, rtc (turns n) (Asked, s) (p, t) /\ turn n p t = Panic
  | _ => True
  end.
Proof.
  unfold alloc_pages, inner_alloc.
  destruct (inner_loop _ n (m_size (page_bitmap s)) 0 s) as [[r1 s1]| | |] eqn:E1; ored; [|by apply inner_loop_no_panic in E1|done..].
  destruct (inner_turns n false (page_bitmap_index s) _ _ 0 s r1 s1 eq_refl E1) as (p1 & t1 & Hr1 & Ht1).
  assert (rtc (turns n) (Asked, s) (p1, t1)) as Hr by (by eapply rtc_l).
  unfold scanned in Ht1. destruct (r1 =? 0); ored; [|by eapply rtc_r].
  destruct (inner_loop _ n (page_bitmap_index s) 0 (set_index 0 s1)) as [[r2 s2]| | |] eqn:E2; ored; [|by apply inner_loop_no_panic in E2|done..].
  destruct (inner_turns n true (page_bitmap_index s) _ _ 0 (set_index 0 s1) r2 s2 eq_refl E2) as (p2 & t2 & Hr2 & Ht2).
  assert (rtc (turns n) (Asked, s) (p2, t2)) as Hr' by (etrans; [exact Hr|]; by eapply rtc_l).
  unfold scanned in Ht2. destruct (r2 =? 0); ored; [by exists p2, t2|]. by eapply rtc_r.
Qed.

(** Turns are deterministic: what cannot go on is where all of them lead. *)
Lemma turns_end n a b z : rtc (turns n) a b -> rtc (turns n) a z -> (forall y, ~ turns n z y) -> rtc (turns n) b z.
Proof.
  intros Hb Hz Hend. revert Hz. induction Hb as [a|a a' b Ha _ IH]; intros Hz; [done|].
  inversion Hz as [|? a1 ? Ha1 Hz1]; subst; [by destruct (Hend a')|].
  apply IH. unfold turns in Ha, Ha1. rewrite Ha in Ha1. by injection Ha1 as ->.
Qed.

Lemma granted_is_alloc n s phy s' :
  wf s -> bit (page_bitmap s) 0 = true -> 0 < n -> rtc (turns n) (Asked, s) (Granted phy, s') -> alloc_pages n s = Ret (phy, s').
Proof.
  intros Hwf H0 Hn Hr. pose proof (alloc_pages_result s n Hwf Hn H0) as Hres. pose proof (alloc_turns n s) as Ht.
  destruct (alloc_pages n s) as [[phy1 s1]| | |]; [| |inversion Hres..].
  - apply (turns_end n _ _ _ Hr) in Ht; [|by intros [] ?]. inversion Ht as [|? ? ? Hx]; [done|]. by unfold turns in Hx.
  - destruct Ht as (p & t & Hpt & E). assert (rtc (turns n) (Granted phy, s') (p, t)) as Hx.
    { apply (turns_end n _ _ _ Hr Hpt). intros y Hy. unfold turns in Hy. cbn [fst snd] in Hy. congruence. }
    inversion Hx as [|? ? ? Hy]; subst; [done|by unfold turns in Hy].
Qed.

(** ** Pages for several processors *)

(** The same requests, in the order in which they were served, by one processor. *)
Fixpoint replay (l : list (Z * Z * Z)) (s : pmm) : outcome pmm :=
  match l with
  | [] => Ret s
  | (_, n, phy) :: l => s ← replay l s; '(r, s) ← alloc_pages n s; if r =? phy then Ret s else Fault
  end.

Definition apart (a b : Z * Z * Z) : Prop :=
  let '(_, n, p) := a in let '(_, m, q) := b in p + n * 0x1000 <= q \/ q + m * 0x1000 <= p.

(** The pages were free in [s0] and are taken in [s]. *)
Definition granted_in (s0 s : pmm) (a : Z * Z * Z) : Prop :=
  let '(_, n, phy) := a in
  exists p, phy = p * 0x1000 /\ 0 < n /\ 0 < p /\ p + n <= m_size (page_bitmap s0) /\
    forall j, p <= j < p + n -> bit (page_bitmap s0) j = false /\ bit (page_bitmap s) j = true.

Record grants (s0 : pmm) (l : list (Z * Z * Z)) (s : pmm) : Prop := {
  gr_wf : wf s /\ bit (page_bitmap s) 0 = true;
  gr_replay : replay l s0 = Ret s;
  gr_size : m_size (page_bitmap s) = m_size (page_bitmap s0);
  gr_bits j : 0 <= j -> bit (page_bitmap s0) j = true -> bit (page_bitmap s) j = true;
  gr_granted : Forall (granted_in s0 s) l;
  gr_apart : ForallOrdPairs apart l }.

Lemma one_more_grant s0 l s c n phy s' :
  grants s0 l s -> 0 < n -> alloc_pages n s = Ret (phy, s') -> grants s0 ((c, n, phy) :: l) s'.
Proof.
  intros [[Hwf H0] Hre Hsz Hbits Hgr Hap] Hn Ea. pose proof (alloc_pages_result s n Hwf Hn H0) as Hres. rewrite Ea in Hres.
  inversion Hres as [p s1 Hp Hps Htook Hwf' Ep|]; subst phy s1. destruct Htook as (Hrun & (_ & Hz & _ & Hb) & _).
  assert (forall j, 0 <= j -> bit (page_bitmap s) j = true -> bit (page_bitmap s') j = true) as Hmono.
  { intros j Hj Hs. rewrite Hb by done. by destruct (span p n j). }
  split.
  - split; [done|]. by apply Hmono.
  - cbn [replay]. rewrite Hre. ored. rewrite Ea. ored. by rewrite Z.eqb_refl.
  - congruence.
  - intros j Hj H1. apply Hmono; [done|]. by apply Hbits.
  - constructor.
    + exists p. split_and!; try done; [congruence|]. intros j Hj. split.
      * pose proof (Hrun j Hj) as Hf. destruct (bit (page_bitmap s0) j) eqn:E; [|done]. rewrite Hbits in Hf by (lia || done). done.
      * rewrite Hb by lia. unfold span. by rewrite (proj2 (Z.leb_le _ _)), (proj2 (Z.ltb_lt _ _)) by lia.
    + eapply Forall_impl; [exact Hgr|]. intros [[c' m] q] (k & -> & ? & ? & ? & Hk). exists k. split_and!; try done.
      intros j Hj. split; [by apply Hk|]. apply Hmono; [lia|by apply Hk].
  - constructor; [|done]. eapply Forall_impl; [exact Hgr|]. intros [[c' m] q] (k & -> & Hm & ? & ? & Hk). cbn.
    destruct (Z.le_gt_cases (p + n) k); [left; lia|]. destruct (Z.le_gt_cases (k + m) p); [right; lia|].
    exfalso. pose proof (Hrun (Z.max p k) ltac:(lia)). destruct (Hk (Z.max p k) ltac:(lia)). congruence.
Qed.

Lemma one_by_one_grants s0 l s :
  wf s0 -> bit (page_bitmap s0) 0 = true -> one_by_one s0 l s -> grants s0 l s.
Proof.
  intros Hwf H0. induction 1 as [|l s c n p r s' _ IH Hn Hr Hend]; [by split; try constructor|].
  destruct p as [| |phy]; [done..|]. injection Hend as ->. destruct (gr_wf _ _ _ IH) as [Hwf' H0'].
  apply one_more_grant with s; [done|done|]. by apply granted_is_alloc.
Qed.

(** C17. No page is given twice, however many processors call [alloc_pages] at
    once and however their accesses interleave: the spinlock makes the calls
    take effect one after the other, so that one processor serving the same
    requests in that order gives the same answers and, while nobody holds the
    lock, leaves the same allocator; the runs given are apart from each other,
    inside memory, and were free at the start. *)
Theorem pages_are_given_once s0 st :
  wf s0 -> bit (page_bitmap s0) 0 = true -> rtc smp_step (smp_start s0) st ->
  exists s, replay (served st) s0 = Ret s /\ ((forall c, at_pc (bus st) c <> Holding) -> shared st = s) /\
    ForallOrdPairs apart (served st) /\ Forall (granted_in s0 s) (served st).
Proof.
  intros Hwf H0 Hst. destruct (smp_linearizes s0 st Hst) as (s & Hone & Hfree).
  destruct (one_by_one_grants s0 _ s Hwf H0 Hone) as [_ Hre _ _ Hgr Hap]. exists s. split_and!; done.
Qed.

(** ** Two processors, one access at a time *)

(** A schedule: who moves, and what it asks for when it makes a call. *)
Definition move (c n : Z) (s : smp Z scanning pmm) : option (smp Z scanning pmm) :=
  match at_pc (bus s) c with
  | Outside =>
      if 0 <? n then m ← advance c (bus s); Some (mkSmp m (shared s) (<[c := Some (n, Asked)]> (doing s)) (served s)) else None
  | Holding =>
      d ← doing s c;
      match d with
      | (q, Granted phy) => m ← advance c (bus s); Some (mkSmp m (shared s) (<[c := None]> (doing s)) ((c, q, phy) :: served s))
      | (q, p) =>
          match scan_turn q p (shared s) with
          | Ret (p, x) => Some (mkSmp (bus s) x (<[c := Some (q, p)]> (doing s)) (served s))
          | _ => None
          end
      end
  | _ => m ← advance c (bus s); Some (set_bus m s)
  end.

Fixpoint moves (l : list (Z * Z)) (s : smp Z scanning pmm) : option (smp Z scanning pmm) :=
  match l with [] => Some s | (c, n) :: l => s ← move c n s; moves l s end.

Lemma move_step c n s s' : move c n s = Some s' -> smp_step s s'.
Proof.
  unfold move. destruct (at_pc (bus s) c) eqn:Ec.
  - destruct (Z.ltb_spec 0 n); [|done]. destruct (advance c (bus s)) eqn:Ea; cbn; [|done]. intros [= <-]. exact (smp_call c n m s Ec H Ea).
  - destruct (advance c (bus s)) eqn:Ea; cbn; [|done]. intros [= <-]. apply smp_spin with c; [by rewrite Ec|done].
  - destruct (advance c (bus s)) eqn:Ea; cbn; [|done]. intros [= <-]. apply smp_spin with c; [by rewrite Ec|done].
  - destruct (advance c (bus s)) eqn:Ea; cbn; [|done]. intros [= <-]. apply smp_spin with c; [by rewrite Ec|done].
  - destruct (doing s c) as [[q p]|] eqn:Ed; cbn; [|done]. destruct p as [| |phy].
    + destruct (scan_turn q Asked (shared s)) as [[p x]| | |] eqn:Et; [|done..]. intros [= <-]. by eapply smp_work.
    + destruct (scan_turn q _ (shared s)) as [[p x]| | |] eqn:Et; [|done..]. intros [= <-]. by eapply smp_work.
    + destruct (advance c (bus s)) eqn:Ea; cbn; [|done]. intros [= <-]. by eapply smp_return.
  - destruct (advance c (bus s)) eqn:Ea; cbn; [|done]. intros [= <-]. by apply smp_release with c.
  - destruct (advance c (bus s)) eqn:Ea; cbn; [|done]. intros [= <-]. unfold advance in Ea. by rewrite Ec in Ea.
Qed.

Lemma moves_steps l : forall s s', moves l s = Some s' -> rtc smp_step s s'.
Proof.
  induction l as [|[c n] l IH]; intros s s'; cbn [moves]; [by intros [= <-]|].
  destruct (move c n s) as [s1|] eqn:E; cbn; [|done]. intros Hm. eapply rtc_l; [by eapply move_step|by apply IH].
Qed.

Definition frames16 : pmm := mkPmm (mkBitmap 0 [1; 0] 16) 0 0x10000 0xF000 0.

(** Both call; the first asks for two pages, the second for three and spins
    until the first is through. *)
Definition two_calls : list (Z * Z) :=
  [(1, 2); (2, 3); (1, 0); (2, 0); (1, 0); (2, 0); (2, 0); (1, 0); (1, 0); (2, 0); (1, 0)] ++
  replicate 2 (1, 0) ++ replicate 9 (2, 0).

Lemma pages_are_given_once_witness :
  exists st s, moves two_calls (smp_start frames16) = Some st /\ served st = [(2, 3, 0x3000); (1, 2, 0x1000)] /\
    replay (served st) frames16 = Ret s /\ ForallOrdPairs apart (served st) /\ Forall (granted_in frames16 s) (served st).
Proof.
  destruct (moves two_calls (smp_start frames16)) as [st|] eqn:E; [|vm_compute in E; discriminate E].
  destruct (pages_are_given_once frames16 st) as (s & H1 & _ & H3 & H4).
  - split_and!; vm_compute; try reflexivity; discriminate.
  - reflexivity.
  - exact (moves_steps _ _ _ E).
  - exists st, s. split; [reflexivity|]. split; [|split; [exact H1|split; [exact H3|exact H4]]].
    assert (served <$> moves two_calls (smp_start frames16) = Some [(2, 3, 0x3000); (1, 2, 0x1000)]) as Hs by (vm_compute; reflexivity).
    rewrite E in Hs. injection Hs as ->. reflexivity.
Defined.
