(* ===== verification/Buddy.v ===== *)
(** * mem/allocator.{hpp,cpp}: the kernel heap

    The heap is a chain of blocks laid end to end between [head] and [tail].
    [hdrs] holds the block headers by address (a stale header stays in the
    map, as it stays in memory), [data] the bytes behind them.  A block
    pointer is its address; the null pointer is 0. *)
From S2P Require Import Prelude.

(** ** Sizes *)

Definition alignment : Z := 16.
Definition sizeof_Block : Z := 16.

Definition align (i : Z) : Z :=
  if negb (i mod alignment =? 0) then u64 ((i / alignment + 1) * alignment) else i.

Fixpoint size_required_loop (fuel : nat) (size actual_size : Z) : outcome Z :=
  match fuel with
  | O => Diverge
  | S fuel =>
      if actual_size <? size then size_required_loop fuel size (u64 (actual_size * 2))
      else Ret actual_size
  end.

(** 59 doublings take 16 to 2^63; a larger size is never reached, for the next
    doubling gives 0 and 0 stays 0: [Diverge]. *)
Definition size_required (size : Z) : outcome Z := size_required_loop 64 (align size) alignment.

(** ** State *)

Record Block := mkBlock { size : Z; is_free : bool }.

Record heap := mkHeap {
  head : Z;
  tail : Z;
  hdrs : gmap Z Block;
  data : gmap Z Z }.

Definition set_hdrs (m : gmap Z Block) (h : heap) : heap := mkHeap (head h) (tail h) m (data h).

(** Header writes.  A field that is not written keeps its value, so writing a
    single field needs the header to be there. *)
Definition put_block (a : Z) (b : Block) (h : heap) : heap := set_hdrs (<[a := b]> (hdrs h)) h.

Definition block_at (a : Z) (h : heap) : outcome Block := of_option (hdrs h !! a).

Definition block_data (a : Z) : Z := u64 (a + sizeof_Block).

Definition next (a : Z) (h : heap) : outcome Z :=
  b ← block_at a h; n ← size_required (size b); Ret (u64 (a + n)).

(** ** Splitting *)

Fixpoint split_loop (fuel : nat) (sz block current_actual_size : Z) (h : heap)
    : outcome (Z * Z * heap) :=
  match fuel with
  | O => Diverge
  | S fuel =>
      if sz <? current_actual_size then
        let current_actual_size := current_actual_size / 2 in
        b ← block_at block h;
        let h := put_block block (mkBlock current_actual_size (is_free b)) h in
        block ← next block h;
        let h := put_block block (mkBlock current_actual_size true) h in
        split_loop fuel sz block current_actual_size h
      else Ret (block, current_actual_size, h)
  end.

Definition split_until (this sz : Z) (h : heap) : outcome (Z * heap) :=
  if sz =? 0 then Ret (0, h) else
  b ← block_at this h;
  current_actual_size ← size_required (size b);
  '(block, current_actual_size, h) ← split_loop 65 sz this current_actual_size h;
  if sz <=? current_actual_size then Ret (block, h) else Ret (0, h).

Definition init (base sz : Z) (h : heap) : outcome heap :=
  let h := put_block base (mkBlock sz true) h in
  t ← next base h;
  Ret (mkHeap base t (hdrs h) (data h)).

(** ** find_best *)

Record walk := mkWalk { best : Z; block : Z; buddy : Z }.

(** The tail of two branches: [block = buddy->next(); if (block < tail) buddy = block->next();] *)
Definition skip_pair (w : walk) (h : heap) : outcome walk :=
  block ← next (buddy w) h;
  if block <? tail h then
    buddy ← next block h; Ret (mkWalk (best w) block buddy)
  else Ret (mkWalk (best w) block (buddy w)).

Definition step_right (w : walk) (h : heap) : outcome walk :=
  n ← next (buddy w) h; Ret (mkWalk (best w) (buddy w) n).

Definition find_step (sz : Z) (w : walk) (h : heap) : outcome (walk * heap) :=
  b ← block_at (block w) h;
  d ← block_at (buddy w) h;
  if is_free b && is_free d && (size b =? size d) then
    let b := mkBlock (u64 (size b * 2)) (is_free b) in
    let h := put_block (block w) b h in
    better ← (if sz <=? size b then
                if best w =? 0 then Ret true
                else c ← block_at (best w) h; Ret (size b <=? size c)
              else Ret false);
    w ← skip_pair (mkWalk (if (better : bool) then block w else best w) (block w) (buddy w)) h;
    Ret (w, h)
  else
    actual_best_size ← (if best w =? 0 then Ret 0
                        else c ← block_at (best w) h; size_required (size c));
    let best1 := if is_free b && (sz <=? size b) && ((best w =? 0) || (size b <=? actual_best_size))
                 then block w else best w in
    let best2 := if is_free d && (sz <=? size d) && ((best1 =? 0) || (size d <? actual_best_size))
                 then buddy w else best1 in
    rb ← size_required (size b);
    rd ← size_required (size d);
    let w := mkWalk best2 (block w) (buddy w) in
    w ← (if rb <=? rd then skip_pair w h else step_right w h);
    Ret (w, h).

Fixpoint find_loop (fuel : nat) (sz : Z) (w : walk) (h : heap) : outcome (walk * heap) :=
  match fuel with
  | O => Diverge
  | S fuel =>
      if (block w <? tail h) && (buddy w <? tail h) then
        '(w, h) ← find_step sz w h; find_loop fuel sz w h
      else Ret (w, h)
  end.

(** Every iteration moves [block] right by at least one 16-byte granule. *)
Definition walk_fuel (h : heap) : nat := S (Z.to_nat ((tail h - head h) / 16)).

Definition find_best (sz : Z) (h : heap) : outcome (Z * heap) :=
  n ← next (head h) h;
  b ← block_at (head h) h;
  if (n =? tail h) && is_free b then split_until (head h) sz h else
  '(w, h) ← find_loop (walk_fuel h) sz (mkWalk 0 (head h) n) h;
  if best w =? 0 then Ret (0, h) else split_until (best w) sz h.

(** ** coalescence *)

(** One iteration of the inner loop; the flag is [no_coalescence]. *)
Definition coalesce_step (flag : bool) (w : walk) (h : heap) : outcome (bool * walk * heap) :=
  b ← block_at (block w) h;
  d ← block_at (buddy w) h;
  if is_free b && is_free d && (size b =? size d) then
    let h := put_block (block w) (mkBlock (u64 (size b * 2)) (is_free b)) h in
    blk ← next (block w) h;
    if blk <? tail h then
      bud ← next blk h; Ret (false, mkWalk 0 blk bud, h)
    else Ret (flag, mkWalk 0 blk (buddy w), h)
  else
    rb ← size_required (size b);
    rd ← size_required (size d);
    w ← (if rb <? rd then step_right w h else skip_pair w h);
    Ret (flag, w, h).

Fixpoint coalesce_loop (fuel : nat) (flag : bool) (w : walk) (h : heap) : outcome (bool * heap) :=
  match fuel with
  | O => Diverge
  | S fuel =>
      if (block w <? tail h) && (buddy w <? tail h) then
        '(flag, w, h) ← coalesce_step flag w h; coalesce_loop fuel flag w h
      else Ret (flag, h)
  end.

Fixpoint coalescence_loop (fuel : nat) (h : heap) : outcome heap :=
  match fuel with
  | O => Diverge
  | S fuel =>
      n ← next (head h) h;
      '(no_coalescence, h) ← coalesce_loop (walk_fuel h) true (mkWalk 0 (head h) n) h;
      if (no_coalescence : bool) then Ret h else coalescence_loop fuel h
  end.

(** Every round but the last merges two blocks. *)
Definition coalescence (h : heap) : outcome heap := coalescence_loop (walk_fuel h) h.

(** ** malloc, free, realloc *)

(** [find_best], then once more after a [coalescence]. *)
Definition find_retry (actual_size : Z) (h : heap) : outcome (Z * heap) :=
  '(found, h) ← find_best actual_size h;
  if found =? 0 then h ← coalescence h; find_best actual_size h else Ret (found, h).

Definition malloc (sz : Z) (h : heap) : outcome (Z * heap) :=
  if negb (sz =? 0) then
    actual_size ← size_required (u64 (sz + sizeof_Block));
    '(found, h) ← find_retry actual_size h;
    if negb (found =? 0) then
      Ret (block_data found, put_block found (mkBlock (u64 (sz + sizeof_Block)) false) h)
    else Ret (0, h)
  else Ret (0, h).

Definition free (ptr : Z) (h : heap) : outcome heap :=
  if negb (ptr =? 0) then
    if ptr <? head h then Ret h else
    if tail h <=? ptr then Ret h else
    let blk := ptr - sizeof_Block in
    b ← block_at blk h;
    r ← size_required (size b);
    Ret (put_block blk (mkBlock r true) h)
  else Ret h.

(** [memcpy]: the bytes move one by one; a header the copy runs over is gone. *)
Fixpoint copy_bytes (n : nat) (dst src : Z) (d : gmap Z Z) : gmap Z Z :=
  match n with
  | O => d
  | S n => copy_bytes n (dst + 1) (src + 1) (partial_alter (fun _ => d !! src) dst d)
  end.

Definition memcpy (dst src n : Z) (h : heap) : heap :=
  mkHeap (head h) (tail h)
    (filter (fun p : Z * Block => p.1 + sizeof_Block <= dst \/ dst + n <= p.1) (hdrs h))
    (copy_bytes (Z.to_nat n) dst src (data h)).

Definition realloc (ptr sz : Z) (h : heap) : outcome (Z * heap) :=
  if ptr =? 0 then malloc sz h else
  if sz =? 0 then h ← free ptr h; Ret (0, h) else
  if ptr <? head h then Ret (0, h) else
  if tail h <=? ptr then Ret (0, h) else
  let old_block := ptr - sizeof_Block in
  b ← block_at old_block h;
  let old_size := size b in
  actual_new_size ← size_required (u64 (sz + sizeof_Block));
  r ← size_required old_size;
  if r =? actual_new_size then
    Ret (block_data old_block, put_block old_block (mkBlock (u64 (sz + sizeof_Block)) (is_free b)) h)
  else
    '(found, h) ← find_retry actual_new_size h;
    if negb (found =? 0) then
      let h := put_block found (mkBlock (u64 (sz + sizeof_Block)) false) h in
      let h := memcpy (block_data found) ptr (u64 (old_size - sizeof_Block)) h in
      b ← block_at old_block h;
      Ret (block_data found, put_block old_block (mkBlock (size b) true) h)
    else Ret (0, h).

(** ** The size function *)

(** The power of two [size_required] computes. *)
Definition req (s : Z) : Z := 2 ^ Z.max 4 (Z.log2_up s).

Lemma req_pos s : 0 < req s.
Proof. apply Z.pow_pos_nonneg; lia. Qed.

Lemma req_ge_16 s : 16 <= req s.
Proof. unfold req. change 16 with (2 ^ 4). apply Z.pow_le_mono_r; lia. Qed.

Lemma req_ge s : s <= req s.
Proof.
  destruct (decide (s <= 1)); [pose proof (req_ge_16 s); lia|].
  unfold req. etransitivity; [apply (Z.log2_up_spec s); lia|]. apply Z.pow_le_mono_r; lia.
Qed.

Lemma req_pow k : 4 <= k -> req (2 ^ k) = 2 ^ k.
Proof. intros. unfold req. rewrite Z.log2_up_pow2 by lia. by rewrite Z.max_r by lia. Qed.

Lemma req_is_pow s : exists k, 4 <= k /\ req s = 2 ^ k.
Proof. exists (Z.max 4 (Z.log2_up s)). split; [lia|done]. Qed.

Lemma req_req s : req (req s) = req s.
Proof. destruct (req_is_pow s) as (k & ? & ->). by apply req_pow. Qed.

Lemma req_double s : 16 < s -> req (s * 2) = req s * 2.
Proof.
  intros Hs. unfold req. rewrite (Z.mul_comm s 2), Z.log2_up_double by lia.
  assert (Z.log2_up 16 <= Z.log2_up s) as Hl by (apply Z.log2_up_le_mono; lia).
  change (Z.log2_up 16) with 4 in Hl.
  rewrite !Z.max_r by lia. rewrite Z.pow_succ_r by lia. lia.
Qed.

Lemma req_gt_32 s : 16 < s -> 32 <= req s.
Proof.
  intros. unfold req. change 32 with (2 ^ 5). apply Z.pow_le_mono_r; [lia|].
  assert (Z.log2_up 17 <= Z.log2_up s) as Hl by (apply Z.log2_up_le_mono; lia).
  change (Z.log2_up 17) with 5 in Hl. lia.
Qed.

Lemma align_le_pow s k : 0 <= s <= 2 ^ 63 -> 4 <= k -> align s <= 2 ^ k <-> s <= 2 ^ k.
Proof.
  intros Hs Hk. unfold align, alignment.
  pose proof (Z.div_mod s 16 ltac:(lia)). pose proof (Z.mod_pos_bound s 16 ltac:(lia)).
  destruct (Z.eqb_spec (s mod 16) 0); cbn [negb]; [done|].
  rewrite wrap_small by lia.
  assert (2 ^ k = 16 * 2 ^ (k - 4)) as ->.
  { change 16 with (2 ^ 4). rewrite <- Z.pow_add_r by lia. f_equal. lia. }
  lia.
Qed.

Lemma size_required_loop_spec s fuel k : 0 <= s <= 2 ^ 63 -> 4 <= k <= 63 ->
  (Z.to_nat (64 - k) <= fuel)%nat -> (k = 4 \/ 2 ^ (k - 1) < s) ->
  size_required_loop fuel (align s) (2 ^ k) = Ret (req s).
Proof.
  intros Hs. revert k. induction fuel as [|fuel IH]; intros k Hk Hf Hlow; [lia|].
  cbn [size_required_loop]. destruct (Z.ltb_spec (2 ^ k) (align s)) as [Hlt|Hge].
  - pose proof (align_le_pow s k Hs ltac:(lia)) as Ha.
    assert (Hk63 : 2 ^ k < 2 ^ 63) by lia. apply Z.pow_lt_mono_r_iff in Hk63; [|lia..].
    replace (2 ^ k * 2) with (2 ^ (k + 1)) by (rewrite Z.pow_add_r by lia; lia).
    rewrite wrap_small; [|split; [apply Z.pow_nonneg; lia|apply Z.pow_lt_mono_r; lia]].
    apply IH; [lia..|]. right. replace (k + 1 - 1) with k by lia. lia.
  - apply (align_le_pow s k Hs ltac:(lia)) in Hge. f_equal. unfold req. f_equal.
    destruct (decide (s <= 1)).
    { rewrite Z.log2_up_eqn0 by lia. destruct Hlow as [->|Hlow]; [done|].
      pose proof (Z.pow_le_mono_r 2 3 (k - 1)). lia. }
    pose proof (proj1 (Z.log2_up_le_pow2 s k ltac:(lia)) Hge).
    destruct Hlow as [->|Hlow]; [lia|].
    apply (Z.log2_up_lt_pow2 s (k - 1)) in Hlow; lia.
Qed.

(** Up to 2^63 the size of a block is the power of two [req]. *)
Lemma size_required_spec s : 0 <= s <= 2 ^ 63 -> size_required s = Ret (req s).
Proof.
  intros Hs. unfold size_required, alignment. change 16 with (2 ^ 4).
  apply size_required_loop_spec; [done|lia|lia|by left].
Qed.

(** Beyond it the loop has no end, however often it is run. *)
Lemma size_required_hangs s fuel : 2 ^ 63 < s <= 2 ^ 64 - 16 -> size_required_loop fuel (align s) alignment = Diverge.
Proof.
  intros Hs. assert (2 ^ 63 < align s) as Ha.
  { unfold align, alignment. destruct (Z.eqb_spec (s mod 16) 0) as [E|E]; cbn [negb]; [lia|].
    pose proof (Z.div_mod s 16 ltac:(lia)). pose proof (Z.mod_pos_bound s 16 ltac:(lia)).
    rewrite wrap_small by (split; [lia|]; assert (s / 16 < 2 ^ 60 - 1) by (apply Z.div_lt_upper_bound; lia); lia). lia. }
  assert (forall fuel a, a = 0 \/ (exists k, 0 <= k <= 63 /\ a = 2 ^ k) -> size_required_loop fuel (align s) a = Diverge) as H.
  { clear fuel. induction fuel as [|fuel IH]; intros a Hc; [done|]. cbn [size_required_loop].
    assert (0 <= a <= 2 ^ 63) as Hr.
    { destruct Hc as [->|(k & Hk & ->)]; [lia|]. split; [apply Z.pow_nonneg; lia|apply Z.pow_le_mono_r; lia]. }
    rewrite (proj2 (Z.ltb_lt _ _)) by lia. apply IH. destruct Hc as [->|(k & Hk & ->)]; [by left|].
    destruct (decide (k = 63)) as [->|]; [by left|]. right. exists (k + 1). split; [lia|].
    rewrite Z.pow_add_r by lia. change (2 ^ 1) with 2. apply wrap_small. split; [lia|].
    assert (2 ^ k <= 2 ^ 62) by (apply Z.pow_le_mono_r; lia). lia. }
  apply H. right. by exists 4.
Qed.

(** ** The chain of blocks *)

(** [tiles m a l t]: the blocks of [l] lie end to end from [a] to [t], each
    with its header in [m]. *)
Fixpoint tiles (m : gmap Z Block) (a : Z) (l : list (Z * Block)) (t : Z) : Prop :=
  match l with
  | [] => a = t
  | (x, b) :: l => x = a /\ m !! a = Some b /\ 16 < size b /\ tiles m (a + req (size b)) l t
  end.

Definition used (l : list (Z * Block)) : list (Z * Block) :=
  List.filter (fun p => negb (is_free p.2)) l.

Lemma used_app l1 l2 : used (l1 ++ l2) = used l1 ++ used l2.
Proof. apply List.filter_app. Qed.

Lemma tiles_app m a l1 l2 t :
  tiles m a (l1 ++ l2) t <-> exists c, tiles m a l1 c /\ tiles m c l2 t.
Proof.
  revert a. induction l1 as [|[x b] l1 IH]; intros a; cbn.
  - split; [by exists a|]. by intros (c & -> & ?).
  - rewrite IH. split; [intros (?&?&?&c&?&?)|intros (c&(?&?&?&?)&?)]; eauto 10.
Qed.

Lemma tiles_length m a l t : tiles m a l t -> a + 32 * Z.of_nat (length l) <= t.
Proof.
  revert a. induction l as [|[x b] l IH]; intros a; cbn [tiles length]; [lia|].
  intros (_&_&Hs&H). apply IH in H. pose proof (req_gt_32 _ Hs). lia.
Qed.

Lemma tiles_in m a l t x b : tiles m a l t -> (x, b) ∈ l ->
  m !! x = Some b /\ 16 < size b /\ a <= x /\ x + req (size b) <= t.
Proof.
  revert a. induction l as [|[y c] l IH]; intros a H Hin; [set_solver|].
  destruct H as (->&Hm&Hs&H). pose proof (tiles_length _ _ _ _ H). pose proof (req_pos (size c)).
  apply elem_of_cons in Hin as [[= -> ->]|Hin]; [by split_and!; [|..|lia|lia]|].
  destruct (IH _ H Hin) as (?&?&?&?). split_and!; done || lia.
Qed.

Lemma tiles_put m a l t x b : tiles m a l t -> x < a \/ t <= x -> tiles (<[x := b]> m) a l t.
Proof.
  revert a. induction l as [|[y c] l IH]; intros a H Hx; cbn in *; [done|].
  destruct H as (->&Hm&Hs&H). pose proof (req_pos (size c)). pose proof (tiles_length _ _ _ _ H).
  split_and!; [done| |done|].
  - rewrite lookup_insert_ne by lia. done.
  - apply IH; [done|]. lia.
Qed.

(** Opening a chain at one of its blocks. *)
Lemma tiles_middle m a la x b lb t : tiles m a (la ++ (x, b) :: lb) t <->
  tiles m a la x /\ m !! x = Some b /\ 16 < size b /\ tiles m (x + req (size b)) lb t.
Proof.
  rewrite tiles_app. cbn. split; [by intros (c & ? & -> & ?)|]. intros (?&?&?&?). by exists x.
Qed.

(** Two different blocks of a chain share no byte. *)
Lemma tiles_disjoint m a l t x b y c : tiles m a l t -> (x, b) ∈ l -> (y, c) ∈ l -> x <> y ->
  x + req (size b) <= y \/ y + req (size c) <= x.
Proof.
  intros H (la & lb & ->)%list_elem_of_split Hy Hne. apply tiles_middle in H as (H1 & _ & _ & H2).
  apply elem_of_app in Hy as [Hy|Hy].
  - right. by destruct (tiles_in _ _ _ _ _ _ H1 Hy) as (_&_&_&?).
  - apply elem_of_cons in Hy as [[= -> ->]|Hy]; [done|].
    left. by destruct (tiles_in _ _ _ _ _ _ H2 Hy) as (_&_&?&_).
Qed.

Lemma tiles_NoDup m a l t : tiles m a l t -> NoDup l.*1.
Proof.
  revert a. induction l as [|[x b] l IH]; intros a; cbn; [constructor|].
  intros (->&_&Hs&H). constructor; [|by eapply IH].
  intros ([y c] & -> & Hin)%list_elem_of_fmap. cbn in H.
  destruct (tiles_in _ _ _ _ _ _ H Hin) as (_&_&Hy&_). cbn in Hy. pose proof (req_pos (size b)). lia.
Qed.

(** The heap invariant: bounds that keep every address and size below 2^63,
    and a chain of blocks from [head] to [tail]. *)
Definition bounds (h : heap) : Prop :=
  0 < head h /\ tail h < 2 ^ 64 /\ tail h - head h <= 2 ^ 62.

Definition inv (h : heap) (l : list (Z * Block)) : Prop :=
  bounds h /\ head h < tail h /\ tiles (hdrs h) (head h) l (tail h).

(** The parts of the state an operation on headers leaves alone. *)
Definition framed (h h' : heap) : Prop :=
  head h' = head h /\ tail h' = tail h /\ data h' = data h.

Lemma framed_refl h : framed h h.
Proof. done. Qed.
Lemma framed_trans h1 h2 h3 : framed h1 h2 -> framed h2 h3 -> framed h1 h3.
Proof. intros (?&?&?) (?&?&?). split_and!; congruence. Qed.
Lemma framed_bounds h h' : framed h h' -> bounds h -> bounds h'.
Proof. unfold framed, bounds. intros (->&->&_). done. Qed.
Lemma framed_put a b h : framed h (put_block a b h).
Proof. done. Qed.

#[export] Hint Resolve framed_refl framed_put : fish.

Lemma next_spec h a l x b : bounds h -> head h <= a -> tiles (hdrs h) a l (tail h) -> (x, b) ∈ l ->
  block_at x h = Ret b /\ size_required (size b) = Ret (req (size b)) /\
  next x h = Ret (x + req (size b)).
Proof.
  intros (Hh & Ht & Hsz) Ha H Hin. destruct (tiles_in _ _ _ _ _ _ H Hin) as (Hm & Hs & Hx & Hend).
  pose proof (req_ge (size b)). pose proof (req_pos (size b)).
  unfold next, block_at. rewrite Hm. ored. rewrite size_required_spec by lia. ored.
  by rewrite wrap_small by lia.
Qed.

Lemma inv_next h l x b : inv h l -> (x, b) ∈ l ->
  block_at x h = Ret b /\ size_required (size b) = Ret (req (size b)) /\
  next x h = Ret (x + req (size b)).
Proof. intros (Hb & _ & H) Hin. eapply next_spec; eauto. lia. Qed.

(** ** Walking the chain *)

(** The walk has the blocks [l1] behind it and [l2] ahead: [block] is the
    first block of [l2] and [buddy] the one after. *)
Definition at_walk (h : heap) (l1 l2 : list (Z * Block)) (w : walk) : Prop :=
  tiles (hdrs h) (head h) l1 (block w) /\ tiles (hdrs h) (block w) l2 (tail h) /\
  match l2 with [] => True | (x, b) :: _ => buddy w = x + req (size b) end.

Lemma at_walk_inv h l1 l2 w : bounds h -> head h < tail h -> at_walk h l1 l2 w -> inv h (l1 ++ l2).
Proof. intros Hb Ht (H1 & H2 & _). split_and!; [done..|]. apply tiles_app. by exists (block w). Qed.

Lemma at_walk_start h l w : inv h l -> block w = head h -> next (head h) h = Ret (buddy w) ->
  at_walk h [] l w.
Proof.
  intros Hi Hb Hn. pose proof Hi as (Hbd & Hlt & Ht). unfold at_walk. rewrite Hb. split_and!; [done..|].
  destruct l as [|[x b] l]; [done|]. pose proof Ht as (-> & _).
  destruct (inv_next h _ (head h) b Hi ltac:(set_solver)) as (_&_&E). congruence.
Qed.

(** With both pointers inside the heap there are two blocks ahead. *)
Lemma at_walk_two h l1 l2 w : at_walk h l1 l2 w -> block w < tail h -> buddy w < tail h ->
  exists b d l3, l2 = (block w, b) :: (buddy w, d) :: l3.
Proof.
  intros (_ & H2 & Hbud) Hb Hd. destruct l2 as [|[x b] l2]; cbn in H2; [lia|].
  destruct H2 as (-> & _ & _ & H2). rewrite <- Hbud in H2.
  destruct l2 as [|[y d] l3]; cbn in H2; [lia|]. destruct H2 as (-> & _). eauto.
Qed.

Lemma skip_pair_spec h l1 l3 w z : bounds h -> tiles (hdrs h) (head h) l1 z ->
  tiles (hdrs h) z l3 (tail h) -> next (buddy w) h = Ret z ->
  exists w', skip_pair w h = Ret w' /\ best w' = best w /\ block w' = z /\ at_walk h l1 l3 w'.
Proof.
  intros Hb H1 H3 Hn. unfold skip_pair. rewrite Hn. ored.
  pose proof (tiles_length _ _ _ _ H1) as Hl1.
  destruct (Z.ltb_spec z (tail h)) as [Hlt|Hge].
  - destruct l3 as [|[x b] l3]; [cbn in H3; lia|]. pose proof H3 as (-> & _).
    destruct (next_spec h z ((z, b) :: l3) z b) as (_ & _ & ->); [done|lia|done|set_solver|].
    ored. eexists. split_and!; [done..|]. split_and!; done.
  - eexists. split_and!; [done..|]. split_and!; [done..|].
    destruct l3 as [|[x b] l3]; [done|]. pose proof (tiles_length _ _ _ _ H3) as Hl. cbn [length] in Hl. lia.
Qed.

Section one_step.
Context (h : heap) (l1 l3 : list (Z * Block)) (w : walk) (b d : Block).
Hypothesis Hbounds : bounds h.
Hypothesis Hwalk : at_walk h l1 ((block w, b) :: (buddy w, d) :: l3) w.

Lemma walk_inv : inv h (l1 ++ (block w, b) :: (buddy w, d) :: l3).
Proof.
  eapply at_walk_inv; [done| |done]. destruct Hwalk as (H1 & H2 & _).
  pose proof (tiles_length _ _ _ _ H1). pose proof (tiles_length _ _ _ _ H2) as Hl. cbn [length] in Hl. lia.
Qed.

Lemma walk_block : block_at (block w) h = Ret b /\ size_required (size b) = Ret (req (size b)) /\
  next (block w) h = Ret (buddy w).
Proof.
  destruct (inv_next h _ (block w) b walk_inv ltac:(set_solver)) as (?&?&?).
  destruct Hwalk as (_ & _ & ->). done.
Qed.

Lemma walk_buddy : block_at (buddy w) h = Ret d /\ size_required (size d) = Ret (req (size d)) /\
  next (buddy w) h = Ret (buddy w + req (size d)).
Proof. apply (inv_next h _ (buddy w) d walk_inv). set_solver. Qed.

Lemma walk_sizes : 16 < size b /\ 16 < size d /\ buddy w = block w + req (size b).
Proof. destruct Hwalk as (_ & (_&_&?&_&_&?&_) & ?). done. Qed.

Lemma walk_rest : tiles (hdrs h) (buddy w + req (size d)) l3 (tail h).
Proof. destruct Hwalk as (_ & (_&_&_&_&_&_&?) & ->). done. Qed.

(** [block = buddy->next()] *)
Lemma walk_skip best0 : exists w', skip_pair (mkWalk best0 (block w) (buddy w)) h = Ret w' /\
  best w' = best0 /\ block w' = buddy w + req (size d) /\
  at_walk h (l1 ++ [(block w, b); (buddy w, d)]) l3 w'.
Proof.
  destruct walk_buddy as (_&_&Hn). apply skip_pair_spec; [done| |exact walk_rest|done].
  destruct Hwalk as (H1 & H2 & Hbud).
  apply tiles_app. exists (block w). split; [done|].
  destruct H2 as (_&Hm1&Hs1&_&Hm2&Hs2&_). cbn. rewrite <- Hbud in *. by split_and!.
Qed.

(** [block = buddy; buddy = buddy->next()] *)
Lemma walk_right best0 : exists w', step_right (mkWalk best0 (block w) (buddy w)) h = Ret w' /\
  best w' = best0 /\ block w' = buddy w /\ at_walk h (l1 ++ [(block w, b)]) ((buddy w, d) :: l3) w'.
Proof.
  destruct walk_buddy as (_&_&Hn). unfold step_right; cbn. rewrite Hn. ored.
  eexists. split_and!; [done..|]. destruct Hwalk as (H1 & H2 & Hbud). split_and!; [| |done].
  - apply tiles_app. exists (block w). split; [done|]. destruct H2 as (_&Hm1&Hs1&_). cbn. by rewrite <- Hbud.
  - destruct H2 as (_&_&_&H2). by rewrite <- Hbud in H2.
Qed.

(** Merging two free buddies: the chain stays a chain, with one block less. *)
Lemma walk_merge (Hsz : size b = size d) :
  let b' := mkBlock (u64 (size b * 2)) (is_free b) in
  let h' := put_block (block w) b' h in
  size b' = size b * 2 /\ next (buddy w) h' = Ret (buddy w + req (size d)) /\
  next (block w) h' = Ret (buddy w + req (size d)) /\
  tiles (hdrs h') (head h) (l1 ++ [(block w, b')]) (buddy w + req (size d)) /\
  tiles (hdrs h') (buddy w + req (size d)) l3 (tail h).
Proof.
  intros b' h'. pose proof walk_sizes as (Hs1 & Hs2 & Hbud).
  pose proof walk_rest as H3. pose proof walk_buddy as (Hd & Hrd & Hn).
  destruct Hwalk as (H1 & _ & _). destruct Hbounds as (?&?&?).
  pose proof (tiles_length _ _ _ _ H1). pose proof (tiles_length _ _ _ _ H3).
  pose proof (req_ge (size b)). pose proof (req_pos (size b)). pose proof (req_pos (size d)). pose proof (req_double (size b) Hs1) as Hreq.
  assert (Hb' : size b' = size b * 2).
  { cbn. apply wrap_small. rewrite <- Hsz in *. lia. }
  assert (Hend : buddy w + req (size d) = block w + req (size b')).
  { rewrite Hb', Hreq, <- Hsz, Hbud. lia. }
  assert (Ht : tiles (hdrs h') (head h) (l1 ++ [(block w, b')]) (buddy w + req (size d))).
  { apply tiles_middle. unfold h'; cbn [hdrs put_block set_hdrs]. rewrite lookup_insert_eq.
    split_and!; [apply tiles_put; [done|lia]|done|lia|]. cbn [tiles]. lia. }
  split_and!; [done| | |done|].
  - unfold next, block_at in *. unfold h'; cbn [hdrs put_block set_hdrs].
    rewrite lookup_insert_ne by lia. done.
  - rewrite Hend. unfold next, block_at. unfold h'; cbn [hdrs put_block set_hdrs].
    rewrite lookup_insert_eq. ored. rewrite size_required_spec by (rewrite <- Hsz in *; lia). ored.
    by rewrite <- Hend, wrap_small by lia.
  - apply tiles_put; [done|]. lia.
Qed.
End one_step.

(** ** find_best keeps the chain *)

(** The candidate is null or a free block of the chain, large enough and not
    right of [block]. *)
Definition best_ok (sz : Z) (l : list (Z * Block)) (w : walk) : Prop :=
  best w = 0 \/
  exists c, (best w, c) ∈ l /\ is_free c = true /\ sz <= size c /\ best w <= block w.

(** One turn of a walk: the chain changes by merging free blocks only, and
    [block] moves right. *)
Definition walked (h h' : heap) (l1 l2 l1' l2' : list (Z * Block)) (w w' : walk) : Prop :=
  framed h h' /\ at_walk h' l1' l2' w' /\ used (l1' ++ l2') = used (l1 ++ l2) /\
  block w + 16 <= block w'.

Lemma best_ok_pos h l sz w : inv h l -> best_ok sz l w -> best w <> 0 ->
  exists c, (best w, c) ∈ l /\ is_free c = true /\ sz <= size c /\ best w <= block w /\
    block_at (best w) h = Ret c /\ size_required (size c) = Ret (req (size c)).
Proof.
  intros Hi [?|(c & Hin & Hf & Hs & Hle)] Hne; [done|].
  destruct (inv_next h l _ c Hi Hin) as (?&?&_). by exists c.
Qed.

Lemma best_ok_block sz l w b w' : (block w, b) ∈ l -> is_free b = true -> sz <= size b ->
  best w' = block w -> block w <= block w' -> best_ok sz l w'.
Proof. intros ??? E ?. right. exists b. rewrite E. by split_and!. Qed.

Lemma best_ok_keep sz l w w' : best_ok sz l w -> best w' = best w -> block w <= block w' ->
  best_ok sz l w'.
Proof. intros [?|(c&?&?&?&?)] Hb Hle; [left; congruence|right]. exists c. rewrite Hb. split_and!; done || lia. Qed.

(** Merging [block] with its buddy cannot lose the candidate: it is never the
    buddy. *)
Lemma best_ok_merge sz l1 l3 x b y d b' w : x < y ->
  best_ok sz (l1 ++ (x, b) :: (y, d) :: l3) w -> block w = x ->
  is_free b' = true -> size b <= size b' -> NoDup (l1 ++ (x, b) :: (y, d) :: l3).*1 ->
  best_ok sz ((l1 ++ [(x, b')]) ++ l3) w.
Proof.
  intros Hxy [?|(c & Hin & Hf & Hs & Hle)] Hx Hf' Hs' Hnd; [by left|right].
  rewrite Hx in Hle.
  apply elem_of_app in Hin as [Hin|Hin].
  { exists c. rewrite Hx. split_and!; [set_solver|done..]. }
  apply elem_of_cons in Hin as [[= E E']|Hin].
  { subst c. exists b'. rewrite E, Hx. split_and!; [set_solver|done|lia|lia]. }
  apply elem_of_cons in Hin as [[= E E']|Hin]; [lia|].
  exists c. rewrite Hx. split_and!; [set_solver|done..].
Qed.

Lemma find_step_merge sz h l1 l3 w b d :
  bounds h -> at_walk h l1 ((block w, b) :: (buddy w, d) :: l3) w -> is_free b = true ->
  is_free d = true -> size b = size d ->
  best_ok sz (l1 ++ (block w, b) :: (buddy w, d) :: l3) w ->
  exists w' h' l1' l2', find_step sz w h = Ret (w', h') /\
    walked h h' l1 ((block w, b) :: (buddy w, d) :: l3) l1' l2' w w' /\
    best_ok sz (l1' ++ l2') w'.
Proof.
  intros Hb Hw Hfb Hfd Hsz Hbest.
  destruct (walk_block h l1 l3 w b d Hb Hw) as (Eb & _ & _).
  destruct (walk_buddy h l1 l3 w b d Hb Hw) as (Ed & _ & _).
  destruct (walk_merge h l1 l3 w b d Hb Hw Hsz) as (Hsb' & Hn & _ & Ht1 & Ht3).
  destruct (walk_sizes h l1 l3 w b d Hw) as (Hs1 & Hs2 & Hbud).
  pose proof (walk_inv h l1 l3 w b d Hb Hw) as Hinv.
  unfold find_step. rewrite Eb, Ed. ored. rewrite Hfb, Hfd, (proj2 (Z.eqb_eq _ _) Hsz). cbn [andb].
  rewrite Hfb in *. set (b' := mkBlock (u64 (size b * 2)) true) in *.
  set (h' := put_block (block w) b' h) in *.
  pose proof (req_pos (size b)). pose proof (req_pos (size d)).
  assert (Hi' : inv h' ((l1 ++ [(block w, b')]) ++ l3)).
  { destruct Hinv as (_ & Hlt & _). split_and!; [done|done|]. apply tiles_app. eauto. }
  assert (Hbest' : best_ok sz ((l1 ++ [(block w, b')]) ++ l3) w).
  { eapply best_ok_merge; try done; [lia|rewrite Hsb'; lia|]. destruct Hinv as (_&_&Ht). by eapply tiles_NoDup. }
  assert (exists better : bool, (if sz <=? size b' then
      if best w =? 0 then Ret true else c ← block_at (best w) h'; Ret (size b' <=? size c)
      else Ret false) = Ret better /\ (better = true -> sz <= size b')) as (better & -> & Hbetter).
  { destruct (Z.leb_spec sz (size b')); [|by exists false]. destruct (Z.eqb_spec (best w) 0); [by exists true|].
    destruct (best_ok_pos h' _ sz w Hi' Hbest') as (c & _ & _ & _ & _ & -> & _); [done|]. ored. eauto. }
  ored. set (best1 := if better then block w else best w).
  destruct (skip_pair_spec h' (l1 ++ [(block w, b')]) l3 (mkWalk best1 (block w) (buddy w))
    (buddy w + req (size d))) as (w' & -> & Hbw & Hblk & Hw'); [done..|]. ored.
  exists w', h', (l1 ++ [(block w, b')]), l3. split; [done|]. split.
  - split_and!; [done..| |].
    + rewrite !used_app. cbn. rewrite Hfb, Hfd. cbn. by rewrite app_nil_r.
    + rewrite Hblk. pose proof (req_ge_16 (size b)). lia.
  - cbn in Hbw. unfold best1 in Hbw. destruct better.
    + eapply (best_ok_block _ _ w b'); [set_solver|done|by apply Hbetter|done|]. rewrite Hblk. lia.
    + eapply best_ok_keep; [done..|]. rewrite Hblk. lia.
Qed.

(** The two comparisons that may move the candidate. *)
Lemma best_ok_choose sz l w b d w' (g1 g2 : bool) :
  (block w, b) ∈ l -> (buddy w, d) ∈ l -> block w <= buddy w -> best_ok sz l w ->
  let best1 := if is_free b && (sz <=? size b) && g1 then block w else best w in
  let best2 := if is_free d && (sz <=? size d) && g2 then buddy w else best1 in
  best w' = best2 -> buddy w <= block w' -> best_ok sz l w'.
Proof.
  intros Hb Hd Hle Hok best1 best2 E Hw. unfold best2, best1 in E.
  destruct (is_free d && (sz <=? size d) && g2) eqn:Ed.
  { apply andb_prop in Ed as [[? ?%Z.leb_le]%andb_prop _]. right. exists d. rewrite E. by split_and!. }
  destruct (is_free b && (sz <=? size b) && g1) eqn:Eb.
  { apply andb_prop in Eb as [[? ?%Z.leb_le]%andb_prop _]. right. exists b. rewrite E. split_and!; done || lia. }
  eapply best_ok_keep; [done..|]. lia.
Qed.

Lemma find_step_spec sz h l1 l2 w :
  bounds h -> at_walk h l1 l2 w -> block w < tail h -> buddy w < tail h -> best_ok sz (l1 ++ l2) w ->
  exists w' h' l1' l2', find_step sz w h = Ret (w', h') /\
    walked h h' l1 l2 l1' l2' w w' /\ best_ok sz (l1' ++ l2') w'.
Proof.
  intros Hb Hw Hlt1 Hlt2 Hbest. destruct (at_walk_two h l1 l2 w Hw Hlt1 Hlt2) as (b & d & l3 & ->).
  destruct (is_free b && is_free d && (size b =? size d)) eqn:Em.
  { apply andb_prop in Em as [[? ?]%andb_prop ?%Z.eqb_eq]. by eapply find_step_merge. }
  destruct (walk_block h l1 l3 w b d Hb Hw) as (Eb & Erb & _).
  destruct (walk_buddy h l1 l3 w b d Hb Hw) as (Ed & Erd & _).
  destruct (walk_sizes h l1 l3 w b d Hw) as (Hs1 & Hs2 & Hbud).
  pose proof (walk_inv h l1 l3 w b d Hb Hw) as Hinv.
  pose proof (req_ge_16 (size b)). pose proof (req_pos (size d)).
  unfold find_step. rewrite Eb, Ed. ored. rewrite Em.
  assert (exists n, (if best w =? 0 then Ret 0 else c ← block_at (best w) h; size_required (size c))
    = Ret n) as (actual & ->).
  { destruct (Z.eqb_spec (best w) 0); [by exists 0|].
    destruct (best_ok_pos h _ sz w Hinv Hbest) as (c & _ & _ & _ & _ & -> & E); [done|]. ored. eauto. }
  ored. rewrite Erb, Erd. ored.
  set (best1 := if is_free b && (sz <=? size b) && _ then block w else best w).
  set (best2 := if is_free d && (sz <=? size d) && _ then buddy w else best1).
  set (l := l1 ++ (block w, b) :: (buddy w, d) :: l3) in *.
  assert (Hchoose : forall w', best w' = best2 -> buddy w <= block w' -> best_ok sz l w').
  { intros w' E Hle. eapply (best_ok_choose sz l w b d); [set_solver|set_solver|lia|done|exact E|done]. }
  destruct (req (size b) <=? req (size d)).
  - destruct (walk_skip h l1 l3 w b d Hb Hw best2) as (w' & -> & Hbw & Hblk & Hw'). ored.
    exists w', h, (l1 ++ [(block w, b); (buddy w, d)]), l3. rewrite <- app_assoc. cbn [app].
    unfold walked.
    split_and!; try done; [by rewrite <- app_assoc|lia|]. apply Hchoose; [done|lia].
  - destruct (walk_right h l1 l3 w b d Hb Hw best2) as (w' & -> & Hbw & Hblk & Hw'). ored.
    exists w', h, (l1 ++ [(block w, b)]), ((buddy w, d) :: l3). rewrite <- app_assoc. cbn [app].
    unfold walked.
    split_and!; try done; [by rewrite <- app_assoc|lia|]. apply Hchoose; [done|lia].
Qed.

Lemma granules_left a a' t : a + 16 <= a' -> a' < t ->
  (Z.to_nat ((t - a') / 16) < Z.to_nat ((t - a) / 16))%nat.
Proof.
  intros H Ht. assert ((t - a') / 16 + 1 <= (t - a) / 16).
  { apply Z.div_le_lower_bound; [lia|]. pose proof (Z.mul_div_le (t - a') 16). lia. }
  assert (0 <= (t - a') / 16) by (apply Z.div_pos; lia). lia.
Qed.

Lemma find_loop_spec sz fuel h l1 l2 w :
  bounds h -> head h < tail h -> at_walk h l1 l2 w -> best_ok sz (l1 ++ l2) w ->
  (Z.to_nat ((tail h - block w) / 16) < fuel)%nat ->
  exists w' h' l', find_loop fuel sz w h = Ret (w', h') /\ framed h h' /\ inv h' l' /\
    used l' = used (l1 ++ l2) /\ best_ok sz l' w'.
Proof.
  revert h l1 l2 w. induction fuel as [|fuel IH]; intros h l1 l2 w Hb Ht Hw Hbest Hf; [lia|].
  cbn [find_loop]. destruct (Z.ltb_spec (block w) (tail h)) as [Hlt1|]; cbn [andb];
    [destruct (Z.ltb_spec (buddy w) (tail h)) as [Hlt2|]|].
  - destruct (find_step_spec sz h l1 l2 w) as (w1 & h1 & l1' & l2' & -> & (Hfr & Hw1 & Hu & Hadv) & Hb1); [done..|].
    ored. pose proof Hfr as (Hh1 & Ht1 & _).
    destruct (IH h1 l1' l2' w1) as (w' & h' & l' & E & Hfr' & Hi' & Hu' & Hb').
    + by eapply framed_bounds.
    + by rewrite Hh1, Ht1.
    + done.
    + done.
    + rewrite Ht1. destruct (decide (block w1 < tail h)).
      * pose proof (granules_left (block w) (block w1) (tail h)). lia.
      * assert ((tail h - block w1) / 16 <= 0) by (apply Z.div_le_upper_bound; lia).
        assert (16 <= tail h - block w \/ tail h - block w < 16) as [?|?] by lia.
        -- assert (1 <= (tail h - block w) / 16) by (apply Z.div_le_lower_bound; lia). lia.
        -- destruct fuel; [|lia]. exfalso.
           destruct Hw1 as (Hw1 & Hw2 & _). apply tiles_length in Hw2. rewrite Ht1 in Hw2. lia.
    + exists w', h', l'. split_and!; try done; [by eapply framed_trans|congruence].
  - exists w, h, (l1 ++ l2). split_and!; try done. by eapply at_walk_inv.
  - exists w, h, (l1 ++ l2). split_and!; try done. by eapply at_walk_inv.
Qed.

(** Halving a free block over and over leaves a run of free halves and, last,
    a free block of exactly the size asked for. *)
Lemma split_loop_spec fuel h la x b lb j k :
  bounds h -> tiles (hdrs h) (head h) (la ++ (x, b) :: lb) (tail h) -> is_free b = true ->
  req (size b) = 2 ^ j -> 5 <= k <= j -> j <= 62 -> (Z.to_nat (j - k) < fuel)%nat ->
  exists r br lx h', split_loop fuel (2 ^ k) x (2 ^ j) h = Ret (r, 2 ^ k, h') /\ framed h h' /\
    tiles (hdrs h') (head h) (la ++ lx ++ (r, br) :: lb) (tail h) /\
    used lx = [] /\ is_free br = true /\ req (size br) = 2 ^ k.
Proof.
  revert h la x b j. induction fuel as [|fuel IH]; intros h la x b j Hb Ht Hf Hreq Hk Hj Hfuel; [lia|].
  cbn [split_loop]. destruct (decide (k = j)) as [<-|Hne].
  { rewrite Z.ltb_irrefl. exists x, b, [], h. by split_and!. }
  assert (Hpow : 2 ^ j = 2 ^ (j - 1) * 2).
  { replace (2 ^ j) with (2 ^ (j - 1 + 1)) by (f_equal; lia). rewrite Z.pow_add_r by lia. lia. }
  assert (Hhalf : 2 ^ j / 2 = 2 ^ (j - 1)) by (rewrite Hpow; apply Z.div_mul; lia).
  assert (Hlt : 2 ^ k < 2 ^ j) by (apply Z.pow_lt_mono_r; lia).
  assert (H16 : 16 < 2 ^ (j - 1)).
  { pose proof (Z.pow_le_mono_r 2 5 (j - 1)). lia. }
  rewrite (proj2 (Z.ltb_lt _ _) Hlt), Hhalf.
  apply tiles_middle in Ht as (Hla & Hm & Hs & Hlb). rewrite Hreq in Hlb.
  set (cur := 2 ^ (j - 1)) in *. set (b1 := mkBlock cur true). set (y := x + cur).
  assert (Hrc : req cur = cur) by (apply req_pow; lia).
  pose proof (tiles_length _ _ _ _ Hla). pose proof (tiles_length _ _ _ _ Hlb). pose proof Hb as (?&?&?).
  unfold block_at. rewrite Hm. ored. rewrite Hf. fold b1.
  assert (Hn : next x (put_block x b1 h) = Ret y).
  { unfold next, block_at; cbn [hdrs put_block set_hdrs]. rewrite lookup_insert_eq. ored.
    change (size b1) with cur. rewrite size_required_spec by lia. ored. rewrite Hrc. by rewrite wrap_small by (unfold y; lia). }
  rewrite Hn. ored.
  destruct (IH (put_block y b1 (put_block x b1 h)) (la ++ [(x, b1)]) y b1 (j - 1))
    as (r & br & lx & h' & E & Hfr & Ht' & Hux & Hfbr & Hreqbr); try (done || lia).
  - cbn. rewrite <- app_assoc. apply tiles_middle. rewrite lookup_insert_ne, lookup_insert_eq by (unfold y; lia).
    cbn [size b1]. rewrite Hrc. split_and!; [|done|done|cbn].
    + apply tiles_put; [apply tiles_put; [done|lia]|unfold y; lia].
    + rewrite lookup_insert_eq, Hrc. split_and!; try done.
      replace (x + cur + cur) with (x + 2 ^ j) by lia.
      apply tiles_put; [apply tiles_put; [done|lia]|unfold y; lia].
  - fold cur in E. rewrite E. exists r, br, ((x, b1) :: lx), h'. split_and!; try done.
    cbn in Ht'. rewrite <- app_assoc in Ht'. done.
Qed.

Lemma split_until_spec h la x b lb k :
  bounds h -> tiles (hdrs h) (head h) (la ++ (x, b) :: lb) (tail h) -> is_free b = true ->
  5 <= k -> 2 ^ k <= req (size b) ->
  exists r br lx h', split_until x (2 ^ k) h = Ret (r, h') /\ framed h h' /\
    tiles (hdrs h') (head h) (la ++ lx ++ (r, br) :: lb) (tail h) /\
    used lx = [] /\ is_free br = true /\ req (size br) = 2 ^ k.
Proof.
  intros Hb Ht Hf Hk Hsz. unfold split_until.
  assert (0 < 2 ^ k) by (apply Z.pow_pos_nonneg; lia). rewrite (proj2 (Z.eqb_neq _ _)) by lia.
  destruct (next_spec h (head h) _ x b Hb ltac:(lia) Ht ltac:(set_solver)) as (-> & E & _). ored. rewrite E. ored.
  destruct (tiles_in _ _ _ _ x b Ht ltac:(set_solver)) as (_ & _ & Hx & Hend). pose proof Hb as (?&?&?).
  destruct (req_is_pow (size b)) as (j & Hj & Hreq). rewrite Hreq in Hsz.
  assert (k <= j) by (apply (Z.pow_le_mono_r_iff 2); lia).
  assert (j <= 62) by (apply (Z.pow_le_mono_r_iff 2); lia).
  rewrite Hreq in *.
  destruct (split_loop_spec 65 h la x b lb j k) as (r & br & lx & h' & -> & Hrest); try (done || lia).
  ored. rewrite Z.leb_refl. by exists r, br, lx, h'.
Qed.

(** A block the search hands back: free, in the chain and of the size asked
    for; or null. *)
Definition found_ok (k : Z) (l : list (Z * Block)) (r : Z) : Prop :=
  r = 0 \/ exists la br lb, l = la ++ (r, br) :: lb /\ is_free br = true /\ req (size br) = 2 ^ k.

Lemma split_found h l x b k : inv h l -> (x, b) ∈ l -> is_free b = true -> 5 <= k -> 2 ^ k <= req (size b) ->
  exists r h' l', split_until x (2 ^ k) h = Ret (r, h') /\ framed h h' /\ inv h' l' /\
    used l' = used l /\ r <> 0 /\ found_ok k l' r.
Proof.
  intros (Hb & Hlt & Ht) Hin Hf Hk Hsz. apply list_elem_of_split in Hin as (la & lb & ->).
  destruct (split_until_spec h la x b lb k Hb Ht Hf Hk Hsz) as (r & br & lx & h' & E & Hfr & Ht' & Hu & Hfbr & Hreq).
  pose proof Hfr as (Hh' & Htl' & _).
  exists r, h', (la ++ lx ++ (r, br) :: lb). split_and!; try done.
  - split_and!; [by eapply framed_bounds|lia|by rewrite Hh', Htl'].
  - rewrite !used_app, Hu. cbn. by rewrite Hf, Hfbr.
  - destruct (tiles_in _ _ _ _ r br Ht' ltac:(set_solver)) as (_ & _ & ? & _). destruct Hb. lia.
  - right. exists (la ++ lx), br, lb. by rewrite <- app_assoc.
Qed.

Lemma split_too_big h l x b k : inv h l -> (x, b) ∈ l -> 5 <= k -> req (size b) < 2 ^ k ->
  split_until x (2 ^ k) h = Ret (0, h).
Proof.
  intros Hi Hin Hk Hsz. pose proof (req_pos (size b)). unfold split_until.
  rewrite (proj2 (Z.eqb_neq _ _)) by lia.
  destruct (inv_next h l x b Hi Hin) as (-> & E & _). ored. rewrite E. ored. cbn [split_loop].
  rewrite (proj2 (Z.ltb_ge _ _)) by lia. ored. by rewrite (proj2 (Z.leb_gt _ _)) by lia.
Qed.

Lemma find_best_spec h l k : inv h l -> 5 <= k ->
  exists r h' l', find_best (2 ^ k) h = Ret (r, h') /\ framed h h' /\ inv h' l' /\
    used l' = used l /\ found_ok k l' r.
Proof.
  intros Hi Hk. pose proof Hi as (Hb & Hlt & Ht). unfold find_best.
  destruct l as [|[x b] l]; [cbn in Ht; lia|]. pose proof Ht as (-> & _ & Hs & Htl).
  destruct (inv_next h _ (head h) b Hi ltac:(set_solver)) as (Eb & Erb & En).
  rewrite En. ored. rewrite Eb. ored.
  destruct ((head h + req (size b) =? tail h) && is_free b) eqn:Eone.
  - apply andb_prop in Eone as [?%Z.eqb_eq Hf]. destruct (decide (2 ^ k <= req (size b))).
    + destruct (split_found h _ (head h) b k Hi ltac:(set_solver) Hf Hk)
        as (r & h' & l' & ? & ? & ? & ? & _ & ?); [done|]. by exists r, h', l'.
    + rewrite (split_too_big h _ (head h) b k Hi) by (set_solver || lia).
      eexists _, _, _. split_and!; [done..|]. by left.
  - destruct (find_loop_spec (2 ^ k) (walk_fuel h) h [] ((head h, b) :: l)
      (mkWalk 0 (head h) (head h + req (size b)))) as (w & h' & l' & -> & Hfr & Hi' & Hu & Hbest);
      [done|done|by apply at_walk_start|by left|unfold walk_fuel; cbn; lia|]. ored.
    destruct (Z.eqb_spec (best w) 0).
    { exists 0, h', l'. split_and!; try done. by left. }
    destruct Hbest as [?|(c & Hin & Hf & Hs' & _)]; [done|]. pose proof (req_ge (size c)).
    destruct (split_found h' l' (best w) c k Hi' Hin Hf Hk ltac:(lia))
      as (r & h2 & l2 & -> & Hfr2 & Hi2 & Hu2 & _ & Hok).
    exists r, h2, l2. split_and!; try done; [by eapply framed_trans|by rewrite Hu2, Hu].
Qed.

(** ** coalescence keeps the chain *)

Lemma coalesce_step_spec flag h l1 l2 w :
  bounds h -> at_walk h l1 l2 w -> block w < tail h -> buddy w < tail h ->
  exists flag' w' h' l1' l2', coalesce_step flag w h = Ret (flag', w', h') /\
    walked h h' l1 l2 l1' l2' w w' /\
    (length (l1' ++ l2') <= length (l1 ++ l2))%nat /\
    (flag' = false -> flag = false \/ (length (l1' ++ l2') < length (l1 ++ l2))%nat).
Proof.
  intros Hb Hw Hlt1 Hlt2. destruct (at_walk_two h l1 l2 w Hw Hlt1 Hlt2) as (b & d & l3 & ->).
  destruct (walk_block h l1 l3 w b d Hb Hw) as (Eb & Erb & _).
  destruct (walk_buddy h l1 l3 w b d Hb Hw) as (Ed & Erd & _).
  destruct (walk_sizes h l1 l3 w b d Hw) as (Hs1 & Hs2 & Hbud).
  pose proof (req_ge_16 (size b)). pose proof (req_ge_16 (size d)).
  unfold coalesce_step. rewrite Eb, Ed. ored.
  destruct (is_free b && is_free d && (size b =? size d)) eqn:Em.
  - apply andb_prop in Em as [[Hfb Hfd]%andb_prop Hsz%Z.eqb_eq].
    destruct (walk_merge h l1 l3 w b d Hb Hw Hsz) as (Hsb' & _ & Hn & Ht1 & Ht3).
    rewrite Hn. ored. rewrite Hfb in *. set (b' := mkBlock _ true) in *. set (h' := put_block _ _ h) in *.
    set (z := buddy w + req (size d)) in *.
    assert (Hused : used ((l1 ++ [(block w, b')]) ++ l3) = used (l1 ++ (block w, b) :: (buddy w, d) :: l3)).
    { rewrite !used_app. cbn. rewrite Hfb, Hfd. cbn. by rewrite app_nil_r. }
    assert (Hlen : (length ((l1 ++ [(block w, b')]) ++ l3) <
      length (l1 ++ (block w, b) :: (buddy w, d) :: l3))%nat) by (rewrite !length_app; cbn; lia).
    pose proof (tiles_length _ _ _ _ Ht1).
    destruct (Z.ltb_spec z (tail h')) as [Hz|Hz].
    + destruct l3 as [|[y c] l3]; [cbn in Ht3; unfold h' in Hz; cbn in Hz; lia|]. pose proof Ht3 as (-> & _).
      destruct (next_spec h' z ((z, c) :: l3) z c) as (_ & _ & ->); [done|unfold h'; cbn; lia|done|set_solver|].
      ored. eexists _, _, _, (l1 ++ [(block w, b')]), ((z, c) :: l3).
      split; [done|]. split_and!; [|lia|by right]. unfold walked. split_and!; try done. unfold z; cbn; lia.
    + eexists _, _, _, (l1 ++ [(block w, b')]), l3.
      split; [done|]. split_and!; [|lia|by left]. unfold walked. split_and!; try done; [|unfold z; cbn; lia].
      split_and!; [done..|]. destruct l3 as [|[y c] l3]; [done|].
      pose proof (tiles_length _ _ _ _ Ht3) as Hl. cbn [length] in Hl. unfold h' in Hz; cbn in Hz. lia.
  - rewrite Erb, Erd. ored.
    replace (step_right w h) with (step_right (mkWalk (best w) (block w) (buddy w)) h) by (by destruct w).
    replace (skip_pair w h) with (skip_pair (mkWalk (best w) (block w) (buddy w)) h) by (by destruct w).
    destruct (req (size b) <? req (size d)).
    + destruct (walk_right h l1 l3 w b d Hb Hw (best w)) as (w' & -> & _ & Hblk & Hw'). ored.
      eexists _, _, _, (l1 ++ [(block w, b)]), ((buddy w, d) :: l3). unfold walked.
      rewrite <- app_assoc. split_and!; try done; [lia|by left].
    + destruct (walk_skip h l1 l3 w b d Hb Hw (best w)) as (w' & -> & _ & Hblk & Hw'). ored.
      eexists _, _, _, (l1 ++ [(block w, b); (buddy w, d)]), l3. unfold walked.
      rewrite <- app_assoc. split_and!; try done; [lia|by left].
Qed.

Lemma walk_measure h h1 l1 l2 w w1 fuel :
  framed h h1 -> at_walk h1 l1 l2 w1 -> block w + 16 <= block w1 -> block w < tail h ->
  (Z.to_nat ((tail h - block w) / 16) < S fuel)%nat ->
  (Z.to_nat ((tail h1 - block w1) / 16) < fuel)%nat.
Proof.
  intros (_ & Ht & _) (_ & Hw & _) Hadv Hlt Hf. rewrite Ht in *. apply tiles_length in Hw.
  destruct (decide (block w1 < tail h)).
  - pose proof (granules_left (block w) (block w1) (tail h)). lia.
  - replace (block w1) with (tail h) in * by lia. rewrite Z.sub_diag. change (0 / 16) with 0.
    assert (1 <= (tail h - block w) / 16) by (apply Z.div_le_lower_bound; lia). lia.
Qed.

Lemma coalesce_loop_spec fuel flag h l1 l2 w :
  bounds h -> head h < tail h -> at_walk h l1 l2 w ->
  (Z.to_nat ((tail h - block w) / 16) < fuel)%nat ->
  exists flag' h' l', coalesce_loop fuel flag w h = Ret (flag', h') /\ framed h h' /\ inv h' l' /\
    used l' = used (l1 ++ l2) /\ (length l' <= length (l1 ++ l2))%nat /\
    (flag' = false -> flag = false \/ (length l' < length (l1 ++ l2))%nat).
Proof.
  revert flag h l1 l2 w. induction fuel as [|fuel IH]; intros flag h l1 l2 w Hb Ht Hw Hf; [lia|].
  cbn [coalesce_loop]. destruct (Z.ltb_spec (block w) (tail h)) as [Hlt1|]; cbn [andb];
    [destruct (Z.ltb_spec (buddy w) (tail h)) as [Hlt2|]|].
  - destruct (coalesce_step_spec flag h l1 l2 w) as
      (flag1 & w1 & h1 & l1' & l2' & -> & (Hfr & Hw1 & Hu & Hadv) & Hlen & Hflag); [done..|].
    ored. pose proof Hfr as (Hh1 & Ht1 & _).
    destruct (IH flag1 h1 l1' l2' w1) as (flag' & h' & l' & E & Hfr' & Hi' & Hu' & Hlen' & Hflag').
    + by eapply framed_bounds.
    + by rewrite Hh1, Ht1.
    + done.
    + by eapply walk_measure.
    + exists flag', h', l'. split_and!; try done; [by eapply framed_trans|congruence|lia|].
      intros ?. destruct Hflag' as [->|]; [done| |right; lia]. destruct Hflag; [done|by left|right; lia].
  - exists flag, h, (l1 ++ l2). split_and!; try done; [by eapply at_walk_inv|by left].
  - exists flag, h, (l1 ++ l2). split_and!; try done; [by eapply at_walk_inv|by left].
Qed.

Lemma coalescence_loop_spec fuel h l : inv h l -> (length l < fuel)%nat ->
  exists h' l', coalescence_loop fuel h = Ret h' /\ framed h h' /\ inv h' l' /\ used l' = used l.
Proof.
  revert h l. induction fuel as [|fuel IH]; intros h l Hi Hf; [lia|]. cbn [coalescence_loop].
  pose proof Hi as (Hb & Hlt & Ht). destruct l as [|[x b] l]; [cbn in Ht; lia|]. pose proof Ht as (-> & _).
  destruct (inv_next h _ (head h) b Hi ltac:(set_solver)) as (_ & _ & En). rewrite En. ored.
  destruct (coalesce_loop_spec (walk_fuel h) true h [] ((head h, b) :: l)
    (mkWalk 0 (head h) (head h + req (size b)))) as (flag & h' & l' & -> & Hfr & Hi' & Hu & Hlen & Hflag);
    [done|done|by apply at_walk_start|unfold walk_fuel; cbn; lia|]. ored.
  destruct flag; [by exists h', l'|]. destruct Hflag as [?|Hlt']; [done..|].
  destruct (IH h' l' Hi' ltac:(cbn in *; lia)) as (h2 & l2 & -> & Hfr2 & Hi2 & Hu2).
  exists h2, l2. split_and!; try done; [by eapply framed_trans|by rewrite Hu2, Hu].
Qed.

Lemma coalescence_spec h l : inv h l ->
  exists h' l', coalescence h = Ret h' /\ framed h h' /\ inv h' l' /\ used l' = used l.
Proof.
  intros Hi. apply coalescence_loop_spec with (l := l); [done|]. unfold walk_fuel.
  destruct Hi as (_ & _ & Ht). apply tiles_length in Ht.
  assert (Z.of_nat (length l) <= (tail h - head h) / 16) by (apply Z.div_le_lower_bound; lia). lia.
Qed.

Lemma find_retry_spec h l k : inv h l -> 5 <= k ->
  exists r h' l', find_retry (2 ^ k) h = Ret (r, h') /\ framed h h' /\ inv h' l' /\
    used l' = used l /\ found_ok k l' r.
Proof.
  intros Hi Hk. unfold find_retry.
  destruct (find_best_spec h l k Hi Hk) as (r & h1 & l1 & -> & Hfr1 & Hi1 & Hu1 & Hok). ored.
  destruct (Z.eqb_spec r 0); [|by exists r, h1, l1].
  destruct (coalescence_spec h1 l1 Hi1) as (h2 & l2 & -> & Hfr2 & Hi2 & Hu2). ored.
  destruct (find_best_spec h2 l2 k Hi2 Hk) as (r3 & h3 & l3 & -> & Hfr3 & Hi3 & Hu3 & Hok3).
  exists r3, h3, l3. split_and!; try done; [|by rewrite Hu3, Hu2, Hu1].
  eapply framed_trans; [done|by eapply framed_trans].
Qed.

(** ** malloc, free and realloc on the chain *)

(** Rewriting one header without changing the room its block takes. *)
Lemma tiles_replace m a la x b b' lb t : tiles m a (la ++ (x, b) :: lb) t ->
  16 < size b' -> req (size b') = req (size b) ->
  tiles (<[x := b']> m) a (la ++ (x, b') :: lb) t.
Proof.
  intros (H1 & Hm & Hs & H2)%tiles_middle Hs' Hreq. pose proof (req_pos (size b)).
  apply tiles_middle. rewrite lookup_insert_eq, Hreq.
  split_and!; [apply tiles_put; [done|lia]|done|done|apply tiles_put; [done|lia]].
Qed.

Lemma inv_replace h la x b b' lb : inv h (la ++ (x, b) :: lb) -> 16 < size b' ->
  req (size b') = req (size b) -> inv (put_block x b' h) (la ++ (x, b') :: lb).
Proof. intros (Hb & Hlt & Ht) Hs Hr. split_and!; [done..|]. by apply (tiles_replace _ _ _ _ b). Qed.

Lemma used_middle la x b lb : used (la ++ (x, b) :: lb) ≡ₚ
  (if is_free b then [] else [(x, b)]) ++ used (la ++ lb).
Proof.
  rewrite !used_app. cbn. destruct (is_free b); cbn; [done|].
  by rewrite Permutation_middle.
Qed.

Lemma used_in l x b : (x, b) ∈ used l <-> (x, b) ∈ l /\ is_free b = false.
Proof.
  unfold used. rewrite !list_elem_of_In, filter_In. cbn. rewrite negb_true_iff. done.
Qed.

Lemma inv_block_bounds h l x b : inv h l -> (x, b) ∈ l ->
  0 < x /\ x + req (size b) < 2 ^ 64 /\ head h <= x /\ x + req (size b) <= tail h /\
  16 < size b <= 2 ^ 62 /\ block_data x = x + 16.
Proof.
  intros ((?&?&?) & _ & Ht) Hin. destruct (tiles_in _ _ _ _ _ _ Ht Hin) as (_&?&?&?).
  pose proof (req_ge (size b)). pose proof (req_gt_32 (size b)). unfold block_data, sizeof_Block.
  rewrite wrap_small by lia. split_and!; lia.
Qed.

Lemma malloc_spec h l n : inv h l -> 0 < n <= 2 ^ 63 - 16 ->
  exists p h' l', malloc n h = Ret (p, h') /\ framed h h' /\ inv h' l' /\
    ((p = 0 /\ used l' = used l) \/
     (p <> 0 /\ used l' ≡ₚ (p - 16, mkBlock (n + 16) false) :: used l)).
Proof.
  intros Hi Hn. unfold malloc, sizeof_Block. rewrite (proj2 (Z.eqb_neq _ _)) by lia. cbn [negb].
  rewrite wrap_small, size_required_spec by lia. ored.
  destruct (req_is_pow (n + 16)) as (k & Hk & Hreq). pose proof (req_gt_32 (n + 16) ltac:(lia)).
  assert (5 <= k) by (apply (Z.pow_le_mono_r_iff 2); lia). rewrite Hreq.
  destruct (find_retry_spec h l k Hi) as (r & h1 & l1 & -> & Hfr & Hi1 & Hu & Hok); [done|]. ored.
  destruct Hok as [->|(la & br & lb & -> & Hf & Hr)].
  { cbn [Z.eqb negb]. exists 0, h1, l1. split_and!; try done. by left. }
  destruct (inv_block_bounds h1 _ r br Hi1 ltac:(set_solver)) as (? & ? & ? & ? & ? & Hd).
  rewrite (proj2 (Z.eqb_neq _ _)) by lia. cbn [negb]. rewrite Hd.
  eexists _, _, (la ++ (r, mkBlock (n + 16) false) :: lb). split_and!; [done|done| |right; split; [lia|]].
  - eapply inv_replace; [done|cbn; lia|cbn; congruence].
  - rewrite <- Hu, !used_middle, Hf. cbn. by replace (r + 16 - 16) with r by lia.
Qed.

(** C7.  [malloc] for every size but the last 31: up to 2^63-16 it returns, the
    chain of blocks survives, the bytes of the heap and all live blocks stay as
    they were, and a non-null result is the payload of one new live block of the
    size asked for; a larger size is never answered, for the loop of
    [size_required] has no end on it. *)
Theorem malloc_adds_one_block h l n : inv h l -> 0 <= n <= 2 ^ 64 - 32 ->
  if n <=? 2 ^ 63 - 16 then
    exists p h' l', malloc n h = Ret (p, h') /\ framed h h' /\ inv h' l' /\
      ((p = 0 /\ used l' = used l) \/
       (p <> 0 /\ 0 < n /\ used l' ≡ₚ (p - 16, mkBlock (n + 16) false) :: used l))
  else malloc n h = Diverge /\ forall fuel, size_required_loop fuel (align (u64 (n + sizeof_Block))) alignment = Diverge.
Proof.
  intros Hi Hn. destruct (Z.leb_spec n (2 ^ 63 - 16)) as [Hle|Hgt].
  - destruct (decide (n = 0)) as [->|]; [exists 0, h, l; split_and!; try done; by left|].
    destruct (malloc_spec h l n Hi ltac:(lia)) as (p & h' & l' & E & Hf & Hi' & Hc). exists p, h', l'.
    split_and!; try done. destruct Hc as [?|[? ?]]; [by left|right]. split_and!; (done || lia).
  - assert (forall fuel, size_required_loop fuel (align (u64 (n + sizeof_Block))) alignment = Diverge) as Hd.
    { intros fuel. unfold sizeof_Block. rewrite wrap_small by lia. apply size_required_hangs. lia. }
    split; [|done]. unfold malloc, size_required. rewrite (proj2 (Z.eqb_neq _ _)) by lia. cbn [negb]. by rewrite Hd.
Qed.

(**  Live blocks never overlap: the bytes of two of them, headers included,
    are disjoint and inside the heap. *)
Theorem live_blocks_disjoint h l x b y c : inv h l -> (x, b) ∈ used l -> (y, c) ∈ used l -> x <> y ->
  (x + size b <= y \/ y + size c <= x) /\ head h <= x /\ x + size b <= tail h.
Proof.
  intros Hi [Hx _]%used_in [Hy _]%used_in Hne.
  destruct (inv_block_bounds h l x b Hi Hx) as (_&_&?&?&_).
  destruct Hi as (_ & _ & Ht). pose proof (tiles_disjoint _ _ _ _ _ _ _ _ Ht Hx Hy Hne).
  pose proof (req_ge (size b)). pose proof (req_ge (size c)). lia.
Qed.

Lemma free_spec h l p b : inv h l -> (p - 16, b) ∈ used l ->
  exists h' l', free p h = Ret h' /\ framed h h' /\ inv h' l' /\
    used l ≡ₚ (p - 16, b) :: used l'.
Proof.
  intros Hi [Hin Hf]%used_in. destruct (inv_block_bounds h l _ b Hi Hin) as (? & ? & ? & ? & ? & _).
  destruct (inv_next h l _ b Hi Hin) as (Eb & Er & _). pose proof (req_gt_32 (size b)).
  unfold free, sizeof_Block. rewrite (proj2 (Z.eqb_neq _ _)) by lia. cbn [negb].
  rewrite (proj2 (Z.ltb_ge p (head h))), (proj2 (Z.leb_gt (tail h) p)) by lia.
  rewrite Eb. ored. rewrite Er. ored.
  apply list_elem_of_split in Hin as (la & lb & ->).
  eexists _, (la ++ (p - 16, mkBlock (req (size b)) true) :: lb). split_and!; [done|done| |].
  - eapply inv_replace; [done|cbn; lia|cbn; apply req_req].
  - rewrite !used_middle, Hf. done.
Qed.

(** C35.  [free] of a live block returns, takes exactly that block out of the
    live ones and keeps the chain. *)
Theorem free_removes_the_block h l p b : inv h l -> (p - 16, b) ∈ used l ->
  exists h' l', free p h = Ret h' /\ framed h h' /\ inv h' l' /\
    used l ≡ₚ (p - 16, b) :: used l'.
Proof. apply free_spec. Qed.

Lemma init_spec base sz h : 0 < base -> 16 < sz -> req sz <= 2 ^ 62 -> base + req sz < 2 ^ 64 ->
  let h' := mkHeap base (base + req sz) (<[base := mkBlock sz true]> (hdrs h)) (data h) in
  init base sz h = Ret h' /\ inv h' [(base, mkBlock sz true)].
Proof.
  intros Hbase Hsz Hr Hend h'. pose proof (req_ge sz). pose proof (req_pos sz). split.
  - unfold init, next, block_at; cbn [hdrs put_block set_hdrs]. rewrite lookup_insert_eq. ored.
    cbn [size]. rewrite size_required_spec by lia. ored. by rewrite wrap_small by lia.
  - unfold inv, bounds, h'; cbn. split_and!; try done; try lia. by rewrite lookup_insert_eq.
Qed.

Lemma malloc_fresh base sz h0 : 0 < base -> 16 < sz -> req sz <= 2 ^ 62 ->
  base + req sz < 2 ^ 64 ->
  exists h l, init base sz h0 = Ret h /\ inv h l /\ used l = [] /\
    forall n, 0 < n -> n + 16 <= req sz ->
      exists p h', malloc n h = Ret (p, h') /\ p <> 0 /\ head h <= p /\ p + n <= tail h.
Proof.
  intros Hbase Hsz Hr Hend. destruct (init_spec base sz h0 Hbase Hsz Hr Hend) as (E & Hi).
  eexists _, _. split; [exact E|]. split; [exact Hi|]. split; [done|]. intros n Hn Hfit.
  unfold malloc, sizeof_Block. rewrite (proj2 (Z.eqb_neq _ _)) by lia. cbn [negb].
  rewrite wrap_small, size_required_spec by lia. ored.
  destruct (req_is_pow (n + 16)) as (k & Hk & Hreq). pose proof (req_gt_32 (n + 16) ltac:(lia)).
  assert (5 <= k) by (apply (Z.pow_le_mono_r_iff 2); lia).
  assert (Hle : 2 ^ k <= req sz).
  { rewrite <- Hreq. destruct (req_is_pow sz) as (j & Hj & Ej). rewrite Ej in *.
    assert (Z.log2_up (n + 16) <= j) by (apply Z.log2_up_le_pow2; lia).
    unfold req. apply Z.pow_le_mono_r; lia. }
  rewrite Hreq. unfold find_retry, find_best. cbn [head].
  destruct (inv_next _ _ base (mkBlock sz true) Hi ltac:(set_solver)) as (Eb & _ & En).
  rewrite En. ored. rewrite Eb. ored. cbn [tail size is_free]. rewrite Z.eqb_refl. cbn [andb].
  destruct (split_found _ _ base (mkBlock sz true) k Hi ltac:(set_solver) eq_refl ltac:(done) Hle)
    as (r & h' & l' & -> & Hfr & Hi' & _ & Hne & Hok). ored.
  rewrite (proj2 (Z.eqb_neq _ _) Hne). ored. rewrite (proj2 (Z.eqb_neq _ _) Hne). cbn [negb].
  destruct Hok as [?|(la & br & lb & -> & Hf & Hbr)]; [done|].
  destruct (inv_block_bounds h' _ r br Hi' ltac:(set_solver)) as (? & ? & ? & ? & ? & ->).
  pose proof (req_ge (n + 16)). destruct Hfr as (Hh' & Ht' & _). cbn [head tail] in *.
  eexists _, _. split_and!; [done|lia|lia|lia].
Qed.

(**  [init] sets up an empty heap, and on it [malloc] succeeds for every
    request that fits together with its header. *)
Theorem malloc_succeeds_on_a_fresh_heap base sz h0 : 0 < base -> 16 < sz -> req sz <= 2 ^ 62 ->
  base + req sz < 2 ^ 64 ->
  exists h l, init base sz h0 = Ret h /\ inv h l /\ used l = [] /\
    forall n, 0 < n -> n + 16 <= req sz ->
      exists p h', malloc n h = Ret (p, h') /\ p <> 0 /\ head h <= p /\ p + n <= tail h.
Proof. apply malloc_fresh. Qed.

(** ** realloc *)

Lemma copy_bytes_other n dst src d a : a < dst \/ dst + Z.of_nat n <= a ->
  copy_bytes n dst src d !! a = d !! a.
Proof.
  revert dst src d. induction n as [|n IH]; intros dst src d Ha; cbn [copy_bytes]; [done|].
  rewrite IH by lia. apply lookup_partial_alter_ne. lia.
Qed.

Lemma copy_bytes_copied n dst src d i : (dst + Z.of_nat n <= src \/ src + Z.of_nat n <= dst) ->
  0 <= i < Z.of_nat n -> copy_bytes n dst src d !! (dst + i) = d !! (src + i).
Proof.
  revert dst src d i. induction n as [|n IH]; intros dst src d i Hd Hi; [lia|]. cbn [copy_bytes].
  destruct (decide (i = 0)) as [->|].
  - rewrite copy_bytes_other by lia. by rewrite !Z.add_0_r, lookup_partial_alter_eq.
  - replace (dst + i) with (dst + 1 + (i - 1)) by lia. rewrite IH by lia.
    replace (src + 1 + (i - 1)) with (src + i) by lia. apply lookup_partial_alter_ne. lia.
Qed.

(** Writing [n] bytes at [a] inside the payload of [r] meets no header of the chain. *)
Lemma tiles_overwrite h l r c a n d : inv h l -> (r, c) ∈ l -> r + 16 <= a -> 0 <= n -> a + n <= r + req (size c) ->
  inv (mkHeap (head h) (tail h) (filter (fun p : Z * Block => p.1 + sizeof_Block <= a \/ a + n <= p.1) (hdrs h)) d) l.
Proof.
  intros (Hb & Hlt & Ht) Hin Ha Hn Hfit. split_and!; [done..|]. cbn [head tail hdrs].
  assert (Hkeep : forall x b, (x, b) ∈ l ->
    filter (fun p : Z * Block => p.1 + sizeof_Block <= a \/ a + n <= p.1) (hdrs h) !! x = hdrs h !! x).
  { intros x b Hx. pose proof (tiles_in _ _ _ _ _ _ Ht Hx) as (Hm & ? & _). rewrite Hm.
    apply map_lookup_filter_Some. split; [done|]. cbn. unfold sizeof_Block.
    destruct (decide (x = r)) as [->|Hne]; [lia|].
    pose proof (req_gt_32 (size b)).
    destruct (tiles_disjoint _ _ _ _ _ _ _ _ Ht Hx Hin Hne); lia. }
  revert Ht Hkeep. generalize (head h) as t. clear. induction l as [|[x b] l IH]; intros t Ht Hkeep; cbn in *; [done|].
  destruct Ht as (-> & Hm & Hs & Ht). split_and!; [done| |done|].
  - rewrite (Hkeep t b) by set_solver. done.
  - apply IH; [done|]. intros y c' Hy. apply (Hkeep y c'). set_solver.
Qed.

Lemma tiles_memcpy h l r c src n : inv h l -> (r, c) ∈ l -> 0 <= n -> 16 + n <= req (size c) ->
  inv (memcpy (r + 16) src n h) l.
Proof. intros Hi Hin Hn Hfit. apply (tiles_overwrite h l r c); (done || lia). Qed.

(** [n] bytes moved from [p] to [q], everything else as it was. *)
Definition moved (d d' : gmap Z Z) (p q n : Z) : Prop :=
  (forall i, 0 <= i < n -> d' !! (q + i) = d !! (p + i)) /\
  (forall a, a < q \/ q + n <= a -> d' !! a = d !! a).

Lemma moved_refl d p n : moved d d p p n.
Proof. done. Qed.

Lemma copy_moved n dst src d : (dst + Z.of_nat n <= src \/ src + Z.of_nat n <= dst) ->
  moved d (copy_bytes n dst src d) src dst (Z.of_nat n).
Proof. intros Hd. split; [intros; by apply copy_bytes_copied|intros; by apply copy_bytes_other]. Qed.

(** The copying half of [realloc]: [r] is the free block found for the new
    size, [o] the old one. *)
Lemma realloc_move h l r c o b n : inv h l -> (r, c) ∈ l -> is_free c = true ->
  req (size c) = req (n + 16) -> (o, b) ∈ used l -> size b <= n + 16 -> 0 < n ->
  let h1 := memcpy (r + 16) (o + 16) (size b - 16) (put_block r (mkBlock (n + 16) false) h) in
  exists l', block_at o h1 = Ret b /\ inv (put_block o (mkBlock (size b) true) h1) l' /\
    (exists u, used l ≡ₚ (o, b) :: u /\ used l' ≡ₚ (r, mkBlock (n + 16) false) :: u) /\
    moved (data h) (data h1) (o + 16) (r + 16) (size b - 16).
Proof.
  intros Hi Hr Hfc Hreq Hu Hsz Hn h1. pose proof Hu as [Ho Hfb]%used_in.
  assert (Hne : o <> r).
  { intros ->. destruct Hi as (_ & _ & Ht).
    destruct (tiles_in _ _ _ _ _ _ Ht Ho) as (E1 & _), (tiles_in _ _ _ _ _ _ Ht Hr) as (E2 & _). congruence. }
  pose proof (req_ge (n + 16)). set (c' := mkBlock (n + 16) false) in *.
  apply list_elem_of_split in Hr as (la & lb & ->).
  rewrite used_middle, Hfc in Hu. cbn [app] in Hu. apply elem_of_Permutation in Hu as (u & Hu).
  assert (Hi1 : inv h1 (la ++ (r, c') :: lb)).
  { apply (tiles_memcpy _ _ _ c'); [eapply inv_replace; [done|cbn; lia|by cbn]|set_solver| |cbn; lia].
    destruct Hi as (_&_&Ht). destruct (tiles_in _ _ _ _ _ _ Ht Ho) as (_&?&_). lia. }
  assert (Ho1 : (o, b) ∈ la ++ (r, c') :: lb) by set_solver.
  pose proof (used_middle la r c' lb) as Hperm. cbn [is_free c' app] in Hperm. rewrite Hu in Hperm.
  destruct (inv_next h1 _ o b Hi1 Ho1) as (Eb & _ & _).
  destruct (inv_block_bounds h1 _ o b Hi1 Ho1) as (_&_&_&_&?&_).
  assert (Hd : r + req (n + 16) <= o \/ o + req (size b) <= r).
  { destruct Hi1 as (_ & _ & Ht).
    destruct (tiles_disjoint _ _ _ _ o b r c' Ht Ho1 ltac:(set_solver) Hne); [by right|by left]. }
  pose proof (req_ge (size b)).
  clear Hi Ho. apply list_elem_of_split in Ho1 as (lc & ld & Hl). rewrite Hl in *.
  exists (lc ++ (o, mkBlock (size b) true) :: ld). split_and!; [done|eapply inv_replace; [done|cbn; lia|done]| |].
  - exists u. split; [by rewrite used_middle, Hfc|].
    rewrite used_middle in Hperm |- *. cbn [is_free app]. rewrite Hfb in Hperm. cbn [app] in Hperm.
    apply (Permutation_cons_inv (a := (o, b))). rewrite Hperm. by constructor.
  - unfold h1, memcpy; cbn [data put_block set_hdrs].
    rewrite <- (Z2Nat.id (size b - 16)) at 2 by lia. apply copy_moved. lia.
Qed.

Lemma realloc_spec h l p b n : inv h l -> (p - 16, b) ∈ used l -> 0 < n <= 2 ^ 62 ->
  size b <= n + 16 ->
  exists q h' l', realloc p n h = Ret (q, h') /\ inv h' l' /\ (head h' = head h /\ tail h' = tail h) /\
    ((q = 0 /\ used l' = used l /\ data h' = data h) \/
     (q <> 0 /\ (exists u, used l ≡ₚ (p - 16, b) :: u /\
                           used l' ≡ₚ (q - 16, mkBlock (n + 16) false) :: u) /\
      moved (data h) (data h') p q (size b - 16))).
Proof.
  intros Hi Hu Hn Hgrow. pose proof Hu as [Hin Hf]%used_in.
  destruct (inv_block_bounds h l _ b Hi Hin) as (? & ? & ? & ? & ? & Hd).
  destruct (inv_next h l _ b Hi Hin) as (Eb & Er & _). pose proof (req_gt_32 (size b)).
  unfold realloc. replace (p - sizeof_Block) with (p - 16) by done.
  rewrite !(proj2 (Z.eqb_neq _ _)) by lia.
  rewrite (proj2 (Z.ltb_ge p (head h))), (proj2 (Z.leb_gt (tail h) p)) by lia.
  rewrite Eb. ored. unfold sizeof_Block. rewrite (wrap_small _ (n + 16)), (size_required_spec (n + 16)) by lia. ored.
  rewrite Er. ored. destruct (Z.eqb_spec (req (size b)) (req (n + 16))) as [Heq|Hneq].
  - apply list_elem_of_split in Hin as (la & lb & ->). rewrite Hd, Hf.
    eexists _, _, (la ++ (p - 16, mkBlock (n + 16) false) :: lb). split_and!; [done| |done|done|right].
    + eapply inv_replace; [done|cbn; lia|by cbn].
    + replace (p - 16 + 16) with p by lia. split_and!; [lia| |apply moved_refl].
      exists (used (la ++ lb)). split; rewrite used_middle; [by rewrite Hf|done].
  - destruct (req_is_pow (n + 16)) as (k & Hk & Hreq). pose proof (req_gt_32 (n + 16) ltac:(lia)).
    assert (5 <= k) by (apply (Z.pow_le_mono_r_iff 2); lia). rewrite Hreq.
    destruct (find_retry_spec h l k Hi) as (r & h1 & l1 & -> & Hfr & Hi1 & Hu1 & Hok); [done|]. ored.
    pose proof Hfr as (Hhead & Htail & Hdata). rewrite <- Hu1 in Hu.
    destruct Hok as [->|(la & br & lb & El & Hfr' & Hr)].
    { cbn [Z.eqb negb]. exists 0, h1, l1. split_and!; try done. by left. }
    assert (Hr1 : (r, br) ∈ l1) by (rewrite El; set_solver).
    destruct (inv_block_bounds h1 _ r br Hi1 Hr1) as (? & ? & ? & ? & ? & Hdr).
    rewrite (proj2 (Z.eqb_neq r 0)) by lia. cbn [negb]. rewrite Hdr, (wrap_small _ (size b - 16)) by lia.
    destruct (realloc_move h1 l1 r br (p - 16) b n Hi1 Hr1 Hfr') as (l2 & Eo & Hi2 & (u & Hu2 & Hu3) & Hm);
      [congruence|done|done|lia|]. replace (p - 16 + 16) with p in * by lia.
    rewrite Eo. ored. eexists _, _, l2. split_and!; [done|done|done|done|right].
    split_and!; [lia| |by rewrite <- Hdata]. exists u. rewrite <- Hu1.
    by replace (r + 16 - 16) with r by lia.
Qed.

(** C25.  Growing a live block with [realloc] either fails and leaves it alone
    or moves it: the old block leaves the live ones, a block of the new size
    joins them, every old payload byte is found at the same offset of the new
    one, and no other byte of the heap changes. *)
Theorem realloc_grows h l p b n : inv h l -> (p - 16, b) ∈ used l -> 0 < n <= 2 ^ 62 ->
  size b <= n + 16 ->
  exists q h' l', realloc p n h = Ret (q, h') /\ inv h' l' /\
    ((q = 0 /\ used l' = used l /\ data h' = data h) \/
     (q <> 0 /\ (exists u, used l ≡ₚ (p - 16, b) :: u /\
                           used l' ≡ₚ (q - 16, mkBlock (n + 16) false) :: u) /\
      moved (data h) (data h') p q (size b - 16))).
Proof.
  intros Hi Hu Hn Hgrow. destruct (realloc_spec h l p b n Hi Hu Hn Hgrow) as (q & h' & l' & E & Hi' & _ & Hc).
  by exists q, h', l'.
Qed.

(** ** Concrete heaps *)

Definition fresh (base sz : Z) : heap :=
  mkHeap base (base + sz) {[ base := mkBlock sz true ]} ∅.

Lemma fresh_inv : inv (fresh 0x1000 256) [(0x1000, mkBlock 256 true)].
Proof. split_and!; [unfold bounds; cbn; lia|cbn; lia|]. cbn. rewrite lookup_singleton_eq. split_and!; done. Qed.

Lemma malloc_adds_one_block_witness :
  (exists p h' l', malloc 40 (fresh 0x1000 256) = Ret (p, h') /\ framed (fresh 0x1000 256) h' /\ inv h' l' /\
    ((p = 0 /\ used l' = []) \/ (p <> 0 /\ 0 < 40 /\ used l' ≡ₚ [(p - 16, mkBlock 56 false)]))) /\
  malloc (2 ^ 63) (fresh 0x1000 256) = Diverge.
Proof.
  split.
  - apply (malloc_adds_one_block _ _ 40 fresh_inv). lia.
  - apply (malloc_adds_one_block _ _ (2 ^ 63) fresh_inv). lia.
Defined.

(** For the last sizes the sum with the header's size, or its rounding, wraps
    around: what is handed out lies behind the end of the heap. *)
Example malloc_of_almost_everything :
  match malloc (2 ^ 64 - 20) (fresh 0x1000 256) with Ret (p, _) => Some p | _ => None end = Some 0x1100.
Proof. vm_compute. reflexivity. Qed.

(** The heap after [malloc(40)] on 256 free bytes. *)
Definition one_live : heap :=
  mkHeap 0x1000 0x1100 {[ 0x1000 := mkBlock 128 true; 0x1080 := mkBlock 64 true; 0x10C0 := mkBlock 56 false ]} ∅.
Definition one_live_blocks : list (Z * Block) :=
  [(0x1000, mkBlock 128 true); (0x1080, mkBlock 64 true); (0x10C0, mkBlock 56 false)].

Example one_live_reached : malloc 40 (fresh 0x1000 256) = Ret (0x10D0, one_live).
Proof. vm_compute. reflexivity. Qed.

Lemma one_live_inv : inv one_live one_live_blocks.
Proof. split_and!; [unfold bounds; cbn; lia|cbn; lia|]. vm_compute. by split_and!. Qed.

(** Two live blocks, after another [malloc(10)]. *)
Definition two_live : heap :=
  mkHeap 0x1000 0x1100 {[ 0x1000 := mkBlock 128 true; 0x1080 := mkBlock 32 true;
    0x10A0 := mkBlock 26 false; 0x10C0 := mkBlock 56 false ]} ∅.
Definition two_live_blocks : list (Z * Block) :=
  [(0x1000, mkBlock 128 true); (0x1080, mkBlock 32 true); (0x10A0, mkBlock 26 false); (0x10C0, mkBlock 56 false)].

Lemma two_live_inv : inv two_live two_live_blocks.
Proof. split_and!; [unfold bounds; cbn; lia|cbn; lia|]. vm_compute. by split_and!. Qed.

Lemma live_blocks_disjoint_witness :
  (0x10A0 + 26 <= 0x10C0 \/ 0x10C0 + 56 <= 0x10A0) /\ 0x1000 <= 0x10A0 /\ 0x10A0 + 26 <= 0x1100.
Proof.
  apply (live_blocks_disjoint two_live two_live_blocks 0x10A0 (mkBlock 26 false) 0x10C0 (mkBlock 56 false)).
  - exact two_live_inv.
  - cbn. set_solver.
  - cbn. set_solver.
  - lia.
Defined.

Lemma free_removes_the_block_witness :
  exists h' l', free 0x10D0 one_live = Ret h' /\ framed one_live h' /\ inv h' l' /\
    used one_live_blocks ≡ₚ (0x10D0 - 16, mkBlock 56 false) :: used l'.
Proof. apply (free_removes_the_block _ one_live_blocks); [exact one_live_inv|cbn; set_solver]. Defined.

Lemma malloc_succeeds_on_a_fresh_heap_witness :
  exists h l, init 0xFFFFFFFFBFFFF000 0x40000000 (fresh 0 0) = Ret h /\ inv h l /\ used l = [] /\
    forall n, 0 < n -> n + 16 <= req 0x40000000 ->
      exists p h', malloc n h = Ret (p, h') /\ p <> 0 /\ head h <= p /\ p + n <= tail h.
Proof. apply malloc_succeeds_on_a_fresh_heap; vm_compute; congruence. Defined.

Lemma realloc_grows_witness :
  exists q h' l', realloc 0x10D0 100 one_live = Ret (q, h') /\ inv h' l' /\
    ((q = 0 /\ used l' = used one_live_blocks /\ data h' = data one_live) \/
     (q <> 0 /\ (exists u, used one_live_blocks ≡ₚ (0x10D0 - 16, mkBlock 56 false) :: u /\
                           used l' ≡ₚ (q - 16, mkBlock (100 + 16) false) :: u) /\
      moved (data one_live) (data h') 0x10D0 q (56 - 16))).
Proof.
  apply (realloc_grows one_live one_live_blocks 0x10D0 (mkBlock 56 false) 100).
  - exact one_live_inv.
  - cbn. set_solver.
  - lia.
  - cbn. lia.
Defined.

(** Shrinking a block copies its old size into the smaller one: the copy runs
    over the header of the next block. *)
Example realloc_shrink_overruns :
  ('(a, h) ← malloc 100 (fresh 0x1000 256); realloc a 10 h) = Fault.
Proof. vm_compute. reflexivity. Qed.

(** The search walks the blocks in pairs and never looks at a last block
    without a partner: 64 bytes are free, the request needs 64, and fails. *)
Example malloc_misses_the_last_block :
  ('(a, h) ← malloc 40 (fresh 0x1000 128); '(_, h) ← malloc 10 h; '(_, h) ← malloc 10 h;
   h ← free a h; '(p, h) ← malloc 40 h; Ret (p, hdrs h !! (a - 16))) = Ret (0, Some (mkBlock 64 true)).
Proof. vm_compute. reflexivity. Qed.

(** [coalescence] stops although two equal free buddies are left. *)
Example coalescence_leaves_buddies :
  let h := mkHeap 0x1000 0x1080 {[ 0x1000 := mkBlock 64 false; 0x1040 := mkBlock 32 true;
    0x1060 := mkBlock 32 true ]} ∅ in
  coalescence h = Ret h.
Proof. vm_compute. reflexivity. Qed.

(** Two free blocks that are not buddies of each other are merged. *)
Example find_best_merges_strangers :
  let h := mkHeap 0x1000 0x1100 {[ 0x1000 := mkBlock 32 false; 0x1020 := mkBlock 32 false;
    0x1040 := mkBlock 64 true; 0x1080 := mkBlock 64 true; 0x10C0 := mkBlock 64 false ]} ∅ in
  ('(_, h) ← find_best 0x1000 h; Ret (hdrs h !! 0x1040)) = Ret (Some (mkBlock 128 true)).
Proof. vm_compute. reflexivity. Qed.
