(* ===== verification/CString.v ===== *)
(** * klib/cstring.cpp and the memory routines of klib/mem.asm

    A [const char*] is the list of the characters before its terminator, as
    unsigned bytes; reading past the last one gives the terminating 0.  A
    character buffer that is written to is the list of its bytes. *)
From S2P Require Import Prelude.
From stdpp Require Export strings.
Open Scope Z_scope.

Abbreviation cstring := (list Z).

(** A string literal of the source. *)
Definition lit (s : string) : cstring :=
  map (fun a => Z.of_nat (Ascii.nat_of_ascii a)) (String.list_ascii_of_string s).

(** Strings proper: no embedded terminator, every character a byte. *)
Definition is_cstring (s : cstring) : bool := forallb (fun c => (0 <? c) && (c <? 256)) s.

(** [*s] *)
Definition deref (s : cstring) : Z := List.hd 0 s.

(** ** Comparing and searching *)

Fixpoint strlen (str : cstring) : Z :=
  match str with
  | [] => 0
  | c :: str => if c =? 0 then 0 else 1 + strlen str
  end.

Fixpoint strcmp (lhs rhs : cstring) : Z :=
  match lhs with
  | [] => 0 - deref rhs
  | c :: lhs' =>
      if negb (c =? 0) && (c =? deref rhs) then strcmp lhs' (List.tl rhs) else c - deref rhs
  end.

Fixpoint strncmp (lhs rhs : cstring) (count : nat) : Z :=
  match count with
  | O => 0
  | S n =>
      if negb (deref lhs =? 0) && (deref lhs =? deref rhs)
      then strncmp (List.tl lhs) (List.tl rhs) n
      else deref lhs - deref rhs
  end.

(** The result is the distance of the returned pointer from [str]. *)
Fixpoint strchr (str : cstring) (c : Z) : option Z :=
  match str with
  | [] => if 0 =? c then Some 0 else None
  | x :: str => if x =? c then Some 0 else if x =? 0 then None else Z.succ <$> strchr str c
  end.

(** ** Copying *)

(** [memcpy(dst + off, src, length src)] into the buffer [dst]. *)
Definition memcpy_at (dst : list Z) (off : Z) (src : list Z) : outcome (list Z) :=
  if (0 <=? off) && (off + Z.of_nat (length src) <=? Z.of_nat (length dst)) then
    Ret (take (Z.to_nat off) dst ++ src ++ drop (Z.to_nat off + length src) dst)
  else Fault.

Definition strcpy (dst : list Z) (off : Z) (src : cstring) : outcome (list Z) :=
  memcpy_at dst off (take (Z.to_nat (strlen src)) src ++ [0]).

Definition strcat (dst : list Z) (src : cstring) : outcome (list Z) := strcpy dst (strlen dst) src.

(** [strdup] with the allocation granted. *)
Definition strdup (src : cstring) : cstring := take (Z.to_nat (strlen src)) src.

(** [memcmp] of mem.asm: the difference of the first two bytes that differ, as
    a signed byte. *)
Definition i8 (x : Z) : Z := let y := u8 x in if y <? 128 then y else y - 256.

Fixpoint memcmp (lhs rhs : list Z) (size : nat) : Z :=
  match size with
  | O => 0
  | S n =>
      if deref lhs =? deref rhs then memcmp (List.tl lhs) (List.tl rhs) n
      else i8 (deref lhs - deref rhs)
  end.

(** ** Facts *)

Lemma is_cstring_cons c s : is_cstring (c :: s) = true -> 0 < c < 256 /\ is_cstring s = true.
Proof. cbn. intros [[?%Z.ltb_lt ?%Z.ltb_lt]%andb_prop ?]%andb_prop. done. Qed.

Lemma strlen_length s : is_cstring s = true -> strlen s = Z.of_nat (length s).
Proof.
  induction s as [|c s IH]; intros H; [done|]. apply is_cstring_cons in H as [? ?].
  cbn [strlen length]. rewrite (proj2 (Z.eqb_neq c 0)) by lia. rewrite IH by done. lia.
Qed.

Lemma strdup_id s : is_cstring s = true -> strdup s = s.
Proof. intros H. unfold strdup. rewrite strlen_length by done. rewrite Nat2Z.id. by apply firstn_all. Qed.

Lemma is_cstring_app a b : is_cstring (a ++ b) = is_cstring a && is_cstring b.
Proof. apply forallb_app. Qed.

Lemma is_cstring_take n s : is_cstring s = true -> is_cstring (take n s) = true.
Proof. rewrite <- (take_drop n s) at 1. rewrite is_cstring_app. by intros [? _]%andb_prop. Qed.

Lemma is_cstring_drop n s : is_cstring s = true -> is_cstring (drop n s) = true.
Proof. rewrite <- (take_drop n s) at 1. rewrite is_cstring_app. by intros [_ ?]%andb_prop. Qed.

Lemma deref_pos s : is_cstring s = true -> 0 <= deref s.
Proof. destruct s; [done|]. intros [? _]%is_cstring_cons. cbn. lia. Qed.

Lemma strcmp_refl a : strcmp a a = 0.
Proof.
  induction a as [|c a IH]; [done|]. cbn [strcmp deref List.hd List.tl].
  rewrite Z.eqb_refl, andb_true_r. destruct (c =? 0) eqn:E; cbn; [|done]. lia.
Qed.

Lemma strcmp_eq_0 a b :
  is_cstring a = true -> is_cstring b = true -> strcmp a b = 0 -> a = b.
Proof.
  revert b. induction a as [|c a IH]; intros b Ha Hb H.
  - destruct b as [|d b]; [done|]. apply is_cstring_cons in Hb as [? _]. cbn in H. lia.
  - apply is_cstring_cons in Ha as [Hc Ha]. cbn [strcmp] in H.
    destruct b as [|d b]; cbn [deref List.hd List.tl] in H.
    + rewrite (proj2 (Z.eqb_neq c 0)) in H by lia. cbn in H. lia.
    + apply is_cstring_cons in Hb as [Hd Hb]. rewrite (proj2 (Z.eqb_neq c 0)) in H by lia.
      cbn in H. destruct (Z.eqb_spec c d) as [->|]; [|lia]. f_equal. by apply IH.
Qed.

Lemma strcmp_zero a b :
  is_cstring a = true -> is_cstring b = true -> (strcmp a b =? 0) = bool_decide (a = b).
Proof.
  intros Ha Hb. case_bool_decide as H.
  - subst. by rewrite strcmp_refl.
  - apply Z.eqb_neq. intros E. by apply H, strcmp_eq_0.
Qed.

(** ** What the routines do *)

(** [strncmp] compares the first [count] characters: it answers 0 exactly
    when the two prefixes are the same string. *)
Theorem strncmp_compares_prefixes a b n :
  is_cstring a = true -> is_cstring b = true ->
  strncmp a b n = 0 <-> take n a = take n b.
Proof.
  revert a b. induction n as [|n IH]; intros a b Ha Hb; [done|]. cbn [strncmp].
  destruct a as [|c a], b as [|d b]; cbn [deref List.hd List.tl take].
  - done.
  - apply is_cstring_cons in Hb as [? _]. cbn. split; [lia|done].
  - apply is_cstring_cons in Ha as [? _].
    rewrite (proj2 (Z.eqb_neq c 0)) by lia. cbn. split; [lia|done].
  - apply is_cstring_cons in Ha as [? Ha]. apply is_cstring_cons in Hb as [? Hb].
    rewrite (proj2 (Z.eqb_neq c 0)) by lia. cbn. destruct (Z.eqb_spec c d) as [->|].
    + rewrite IH by done. split; [by intros ->|by intros [=]].
    + split; [lia|]. by intros [=].
Qed.

Lemma strchr_Some s c i :
  is_cstring s = true -> strchr s c = Some i ->
  exists p q, s ++ [0] = p ++ c :: q /\ (c ∉ p) /\ i = Z.of_nat (length p).
Proof.
  revert i. induction s as [|x s IH]; intros i Hs; cbn [strchr].
  - destruct (Z.eqb_spec 0 c) as [<-|]; [|done]. intros [= <-]. exists [], []. split; [done|].
    split; [apply not_elem_of_nil|done].
  - apply is_cstring_cons in Hs as [Hx Hs]. destruct (Z.eqb_spec x c) as [->|Hne].
    + intros [= <-]. exists [], (s ++ [0]). split; [done|]. split; [apply not_elem_of_nil|done].
    + rewrite (proj2 (Z.eqb_neq x 0)) by lia. intros (j & Hj & ->)%fmap_Some.
      destruct (IH j Hs Hj) as (p & q & Hpq & Hp & ->). exists (x :: p), q.
      split; [cbn; by rewrite Hpq|]. split; [|cbn; lia].
      rewrite not_elem_of_cons. split; [by intros ->|done].
Qed.

(** [strcat] writes its second string and the terminator over the
    terminator of the first, leaves the rest of the buffer alone and faults
    when the buffer is too small. *)
Theorem strcat_appends a rest b :
  is_cstring a = true -> is_cstring b = true ->
  strcat (a ++ 0 :: rest) b =
    if (length b <=? length rest)%nat
    then Ret (a ++ b ++ 0 :: drop (length b) rest) else Fault.
Proof.
  intros Ha Hb. unfold strcat, strcpy, memcpy_at.
  assert (strlen (a ++ 0 :: rest) = Z.of_nat (length a)) as ->.
  { clear -Ha. induction a as [|c a IH]; [done|]. apply is_cstring_cons in Ha as [? ?].
    cbn [app strlen length]. rewrite (proj2 (Z.eqb_neq c 0)) by lia. rewrite IH by done. lia. }
  rewrite (strlen_length b), Nat2Z.id by done. rewrite firstn_all.
  rewrite !length_app. cbn [length].
  rewrite (proj2 (Z.leb_le 0 (Z.of_nat (length a)))) by lia. cbn [andb].
  destruct (Nat.leb_spec (length b) (length rest)).
  - rewrite (proj2 (Z.leb_le _ _)) by lia. f_equal. rewrite Nat2Z.id.
    rewrite take_app_length, <- app_assoc. f_equal. f_equal. cbn.
    rewrite drop_app_ge by lia. f_equal.
    replace (length a + (length b + 1) - length a)%nat with (S (length b)) by lia. done.
  - by rewrite (proj2 (Z.leb_gt _ _)) by lia.
Qed.

(** ** Concrete inputs *)
Lemma strncmp_compares_prefixes_witness :
  strncmp (lit "SSDT") (lit "SSDU") 4 <> 0 /\ strncmp (lit "SSDT") (lit "SSD!") 3 = 0.
Proof.
  split.
  - intros H. by apply (strncmp_compares_prefixes (lit "SSDT") (lit "SSDU") 4 eq_refl eq_refl) in H.
  - by apply (strncmp_compares_prefixes (lit "SSDT") (lit "SSD!") 3 eq_refl eq_refl).
Defined.

Lemma strcat_appends_witness :
  strcat [97; 98; 0; 7; 7; 7] [99; 100] = Ret [97; 98; 99; 100; 0; 7].
Proof. exact (strcat_appends [97; 98] [7; 7; 7] [99; 100] eq_refl eq_refl). Defined.
