(* ===== verification/HashMap.v ===== *)
(** * klib/hashmap.hpp

    Open addressing with linear probing.  [m_array] is the list of its slots:
    a null pointer, the deleted mark, or an entry.  [strdup] copies every key,
    so an entry holds a string of its own.  Allocations are granted. *)
From S2P Require Import Prelude CString.

(** ** The hash *)

(** [*c], a signed [char], converted to [u32] *)
Definition char_u32 (c : Z) : Z := u32 (i8 c).

Definition hash_step (hash c : Z) : Z :=
  Z.lxor (u32 (u32 (Z.shiftl hash 5) + hash)) (char_u32 c).

Fixpoint hash_loop (str : cstring) (hash : Z) : Z :=
  match str with
  | [] => hash
  | c :: str => if c =? 0 then hash else hash_loop str (hash_step hash c)
  end.

Definition hash (str : cstring) : Z := hash_loop str 5381.

Section HashMap.
Context {V : Type}.

Inductive slot :=
| Null
| Deleted
| Full (key : cstring) (value : V).

Record HashMap := mkHashMap { m_array : list slot; m_capacity : Z; m_size : Z }.

Definition new (initial_capacity : Z) : HashMap :=
  mkHashMap (replicate (Z.to_nat initial_capacity) Null) initial_capacity 0.

Definition load_percentage (h : HashMap) : outcome Z :=
  if m_capacity h =? 0 then Fault else Ret (u64 (m_size h * 100) / m_capacity h).

(** The slot probed at step [i]. *)
Definition attempt (h : HashMap) (first_index i : Z) : Z :=
  u64 (i + first_index) mod m_capacity h.

Definition set_array (h : HashMap) (a : list slot) : HashMap :=
  mkHashMap a (m_capacity h) (m_size h).

(** The probing loop of [insert], [n] slots from the end. *)
Fixpoint place (n : nat) (i first_index : Z) (key : cstring) (value : V) (h : HashMap) :
    outcome HashMap :=
  match n with
  | O => Ret h
  | S n =>
      s ← of_option (zlookup (m_array h) (attempt h first_index i));
      match s with
      | Null =>
          Ret (set_array h (zinsert (attempt h first_index i) (Full (strdup key) value) (m_array h)))
      | _ => place n (i + 1) first_index key value h
      end
  end.

(** Slots reinserted by [grow], in order, [ins] being [insert]. *)
Fixpoint reinsert (ins : cstring -> V -> HashMap -> outcome HashMap) (old : list slot)
    (h : HashMap) : outcome HashMap :=
  match old with
  | [] => Ret h
  | Full key value :: old => h ← ins key value h; reinsert ins old h
  | _ :: old => reinsert ins old h
  end.

Definition grow (ins : cstring -> V -> HashMap -> outcome HashMap) (h : HashMap) :
    outcome HashMap :=
  let capacity := u64 (m_capacity h * 2) in
  reinsert ins (m_array h) (mkHashMap (replicate (Z.to_nat capacity) Null) capacity 0).

(** [insert] and [grow] call each other; [fuel] bounds the nesting. *)
Fixpoint insert_fuel (fuel : nat) (key : cstring) (value : V) (h : HashMap) : outcome HashMap :=
  match fuel with
  | O => Diverge
  | S fuel =>
      let h := mkHashMap (m_array h) (m_capacity h) (u64 (m_size h + 1)) in
      p ← load_percentage h;
      h ← (if 75 <=? p then grow (insert_fuel fuel) h else Ret h);
      place (Z.to_nat (m_capacity h)) 0 (hash key mod m_capacity h) key value h
  end.

(** Two levels are enough: [insert_grows_once] below. *)
Definition insert (key : cstring) (value : V) (h : HashMap) : outcome HashMap :=
  insert_fuel 2 key value h.

(** [strcmp(m_array[attempt]->key, key) == 0] on a slot that has an entry *)
Definition matches (key : cstring) (s : slot) : bool :=
  match s with Full k _ => strcmp k key =? 0 | _ => false end.

(** The index of the slot whose value [get] returns a pointer to. *)
Fixpoint get_loop (n : nat) (i first_index : Z) (key : cstring) (h : HashMap) :
    outcome (option Z) :=
  match n with
  | O => Ret None
  | S n =>
      s ← of_option (zlookup (m_array h) (attempt h first_index i));
      if (matches key s : bool) then Ret (Some (attempt h first_index i))
      else get_loop n (i + 1) first_index key h
  end.

Definition get_slot (key : cstring) (h : HashMap) : outcome (option Z) :=
  if m_capacity h =? 0 then Fault
  else get_loop (Z.to_nat (m_capacity h)) 0 (hash key mod m_capacity h) key h.

Definition slot_value (s : slot) : option V :=
  match s with Full _ v => Some v | _ => None end.

Definition get (key : cstring) (h : HashMap) : outcome (option V) :=
  r ← get_slot key h;
  match r with
  | Some i => s ← of_option (zlookup (m_array h) i); Ret (slot_value s)
  | None => Ret None
  end.

(** The loop of [erase] does not stop at the entry it deletes. *)
Definition erase_step (key : cstring) (first_index i : Z) (h : HashMap) : outcome HashMap :=
  s ← of_option (zlookup (m_array h) (attempt h first_index i));
  Ret (if matches key s then set_array h (zinsert (attempt h first_index i) Deleted (m_array h)) else h).

Definition erase (key : cstring) (h : HashMap) : outcome HashMap :=
  if m_capacity h =? 0 then Fault
  else for_range (Z.to_nat (m_capacity h)) 0 (erase_step key (hash key mod m_capacity h)) h.

(** [for_each(func)], [func] acting on a state [T] of the caller. *)
Fixpoint for_each_loop {T} (func : cstring -> V -> T -> outcome T) (a : list slot) (t : T) :
    outcome T :=
  match a with
  | [] => Ret t
  | Full k v :: a => t ← func k v t; for_each_loop func a t
  | _ :: a => for_each_loop func a t
  end.

Definition for_each {T} (func : cstring -> V -> T -> outcome T) (h : HashMap) (t : T) : outcome T :=
  for_each_loop func (m_array h) t.

(** ** The map it stands for *)

Definition entry (s : slot) : option (cstring * V) :=
  match s with Full k v => Some (k, v) | _ => None end.
Definition entries (h : HashMap) : list (cstring * V) := omap entry (m_array h).
Definition to_map (h : HashMap) : gmap cstring V := list_to_map (entries h).

Definition is_null (s : slot) : bool := match s with Null => true | _ => false end.
Definition occupied (a : list slot) : nat := length (filter (fun s => is_null s = false) a).

Definition key_ok (s : slot) : Prop :=
  match s with Full k _ => is_cstring k = true | _ => True end.

(** The table is well formed: as many slots as its capacity, at least one slot
    in use uncounted by [m_size], the load below the limit, keys strings. *)
Record wf (h : HashMap) : Prop := {
  wf_length : Z.of_nat (length (m_array h)) = m_capacity h;
  wf_capacity : 8 <= m_capacity h < 2 ^ 48;
  wf_size : 0 <= m_size h;
  wf_occupied : Z.of_nat (occupied (m_array h)) <= m_size h + 1;
  wf_load : m_size h * 100 < 75 * m_capacity h;
  wf_keys : Forall key_ok (m_array h)
}.


Implicit Types (h : HashMap) (a : list slot) (key : cstring).

(** ** Probing *)
Lemma attempt_eq h first i :
  m_capacity h < 2 ^ 48 -> 0 <= i < m_capacity h -> 0 <= first < m_capacity h ->
  attempt h first i = if first + i <? m_capacity h then first + i else first + i - m_capacity h.
Proof.
  intros. unfold attempt. rewrite wrap_small by lia.
  destruct (Z.ltb_spec (first + i) (m_capacity h)).
  - rewrite Z.mod_small by lia. lia.
  - rewrite <- (Z.mod_small (first + i - m_capacity h) (m_capacity h)) by lia.
    rewrite <- (Z_mod_plus_full (first + i - m_capacity h) 1). f_equal. lia.
Qed.

Lemma attempt_range h first i :
  m_capacity h < 2 ^ 48 -> 0 <= i < m_capacity h -> 0 <= first < m_capacity h ->
  0 <= attempt h first i < m_capacity h.
Proof. intros. rewrite attempt_eq by done. destruct (Z.ltb_spec (first + i) (m_capacity h)); lia. Qed.

Lemma attempt_covers h first j :
  m_capacity h < 2 ^ 48 -> 0 <= j < m_capacity h -> 0 <= first < m_capacity h ->
  exists i, 0 <= i < m_capacity h /\ attempt h first i = j.
Proof.
  intros. destruct (Z.le_gt_cases first j).
  - exists (j - first). split; [lia|]. rewrite attempt_eq by lia.
    destruct (Z.ltb_spec (first + (j - first)) (m_capacity h)); lia.
  - exists (j - first + m_capacity h). split; [lia|]. rewrite attempt_eq by lia.
    destruct (Z.ltb_spec (first + (j - first + m_capacity h)) (m_capacity h)); lia.
Qed.

Lemma first_range h key : 0 < m_capacity h -> 0 <= hash key mod m_capacity h < m_capacity h.
Proof. apply Z.mod_pos_bound. Qed.

(** ** Counting slots *)
Lemma occupied_app a1 a2 : occupied (a1 ++ a2) = (occupied a1 + occupied a2)%nat.
Proof. unfold occupied. by rewrite filter_app, length_app. Qed.

Lemma occupied_cons s a : occupied (s :: a) = ((if is_null s then 0 else 1) + occupied a)%nat.
Proof. unfold occupied. rewrite filter_cons. by destruct (is_null s). Qed.

Lemma occupied_replicate n : occupied (replicate n Null) = 0%nat.
Proof. induction n as [|n IH]; [done|]. by rewrite replicate_S, occupied_cons. Qed.

Lemma fulls_occupied a : (length (omap entry a) <= occupied a)%nat.
Proof. induction a as [|[| |k v] a IH]; rewrite ?occupied_cons; cbn in *; lia. Qed.

Lemma null_exists a : (occupied a < length a)%nat -> exists j, zlookup a j = Some Null.
Proof.
  intros H. apply elem_of_zlookup. induction a as [|s a IH]; [cbn in H; lia|].
  rewrite occupied_cons in H. destruct s; cbn in H; [left|right; apply IH; lia..].
Qed.

(** ** Inserting *)
Lemma place_spec h first key value n : forall i,
  m_capacity h < 2 ^ 48 -> Z.of_nat (length (m_array h)) = m_capacity h ->
  0 <= i -> i + Z.of_nat n = m_capacity h -> 0 <= first < m_capacity h ->
  (exists k, i <= k < m_capacity h /\ zlookup (m_array h) (attempt h first k) = Some Null) ->
  exists j, zlookup (m_array h) j = Some Null /\
    place n i first key value h
    = Ret (set_array h (zinsert j (Full (strdup key) value) (m_array h))).
Proof.
  induction n as [|n IH]; intros i Hc Hl Hi Hn Hf (k & Hk & HNull); [lia|]. cbn [place].
  destruct (zlookup_is_Some (m_array h) (attempt h first i)) as [s Hs].
  { rewrite Hl. apply attempt_range; lia. }
  rewrite Hs. ored.
  destruct s; [by eauto|..]; (apply IH; [lia..|]; exists k; split; [|done];
    destruct (decide (k = i)); [congruence|lia]).
Qed.

(** What one [insert] does to the table. *)
Record inserted (key : cstring) (value : V) (h h' : HashMap) : Prop := {
  ins_capacity : m_capacity h' = m_capacity h;
  ins_length : length (m_array h') = length (m_array h);
  ins_entries : entries h' ≡ₚ (key, value) :: entries h;
  ins_occupied : occupied (m_array h') = S (occupied (m_array h));
  ins_keys : Forall key_ok (m_array h) -> Forall key_ok (m_array h')
}.

Lemma place_inserts h key value :
  8 <= m_capacity h < 2 ^ 48 -> Z.of_nat (length (m_array h)) = m_capacity h ->
  (occupied (m_array h) < length (m_array h))%nat -> is_cstring key = true ->
  exists h', place (Z.to_nat (m_capacity h)) 0 (hash key mod m_capacity h) key value h = Ret h' /\
    m_size h' = m_size h /\ inserted key value h h'.
Proof.
  intros Hc Hl Ho Hk. pose proof (first_range h key ltac:(lia)) as Hf.
  destruct (place_spec h (hash key mod m_capacity h) key value (Z.to_nat (m_capacity h)) 0)
    as (j & Hj & ->); [lia..| |].
  { destruct (null_exists _ Ho) as [j Hj]. pose proof (zlookup_Some_range _ _ _ Hj).
    destruct (attempt_covers h (hash key mod m_capacity h) j) as (k & ? & Hkj); [lia..|].
    exists k. by rewrite Hkj. }
  eexists. split; [done|]. split; [done|].
  destruct (zlookup_split _ _ _ Hj) as (l1 & l2 & E & Hins). rewrite Hins.
  rewrite (strdup_id key Hk).
  split; unfold entries; cbn [set_array m_array m_capacity]; rewrite ?E; try done.
  - by rewrite !length_app.
  - rewrite !omap_app. cbn. by rewrite Permutation_middle.
  - rewrite !occupied_app, !occupied_cons. cbn. lia.
  - intros (?&_&?)%Forall_app_1 || (rewrite !Forall_app, !Forall_cons; cbn; tauto).
Qed.

Lemma load_lt h m :
  8 <= m_capacity h < 2 ^ 48 -> m_size h = m -> 0 <= m <= 2 ^ 50 ->
  load_percentage h = Ret (m * 100 / m_capacity h).
Proof.
  intros. unfold load_percentage. rewrite (proj2 (Z.eqb_neq _ _)) by lia. subst m.
  by rewrite wrap_small by lia.
Qed.

(** With room left, [insert] does not grow the table. *)
Lemma insert_no_grow fuel h key value :
  8 <= m_capacity h < 2 ^ 48 -> Z.of_nat (length (m_array h)) = m_capacity h ->
  0 <= m_size h -> Z.of_nat (occupied (m_array h)) <= m_size h + 1 ->
  (m_size h + 1) * 100 < 75 * m_capacity h -> is_cstring key = true ->
  exists h', insert_fuel (S fuel) key value h = Ret h' /\
    m_size h' = m_size h + 1 /\ inserted key value h h'.
Proof.
  intros Hc Hl Hs Ho Hload Hk. cbn [insert_fuel].
  rewrite (wrap_small 64 (m_size h + 1)) by lia.
  set (h1 := mkHashMap (m_array h) (m_capacity h) (m_size h + 1)).
  rewrite (load_lt h1 (m_size h + 1)) by (cbn; lia). ored.
  rewrite (proj2 (Z.leb_gt _ _)) by (apply Z.div_lt_upper_bound; cbn; lia). ored.
  destruct (place_inserts h1 key value) as (h' & Hp & Hs' & []); [cbn [h1 m_array m_capacity m_size]; lia..|done|].
  exists h'. split; [done|]. split; [done|]. by split.
Qed.

Lemma reinsert_spec fuel old : forall h,
  8 <= m_capacity h < 2 ^ 48 -> Z.of_nat (length (m_array h)) = m_capacity h ->
  0 <= m_size h -> Z.of_nat (occupied (m_array h)) = m_size h ->
  (m_size h + Z.of_nat (length (omap entry old))) * 100 < 75 * m_capacity h ->
  Forall key_ok old -> Forall key_ok (m_array h) ->
  exists h', reinsert (insert_fuel (S fuel)) old h = Ret h' /\
    m_capacity h' = m_capacity h /\ length (m_array h') = length (m_array h) /\
    m_size h' = m_size h + Z.of_nat (length (omap entry old)) /\
    Z.of_nat (occupied (m_array h')) = m_size h' /\
    entries h' ≡ₚ omap entry old ++ entries h /\ Forall key_ok (m_array h').
Proof.
  induction old as [|s old IH]; intros h Hc Hl Hs Ho Hload Hold Hkeys.
  - exists h. cbn. rewrite Z.add_0_r. done.
  - apply Forall_cons in Hold as [Hk Hold]. destruct s as [| |k v]; try by apply IH.
    cbn [reinsert]. cbn in Hload.
    destruct (insert_no_grow fuel h k v) as (h1 & Hins & Hs1 & [Hc1 Hl1 He1 Ho1 Hk1]); [lia..|done|].
    rewrite Hins. ored.
    destruct (IH h1) as (h' & -> & ? & ? & ? & ? & He & ?); [lia..|done|by apply Hk1|].
    exists h'. split; [done|]. cbn. split; [congruence|]. split; [congruence|]. split; [lia|].
    split; [done|]. split; [|done]. rewrite He, He1. by rewrite Permutation_middle.
Qed.

Lemma grow_spec fuel h :
  8 <= m_capacity h < 2 ^ 47 -> Z.of_nat (occupied (m_array h)) * 100 < 75 * m_capacity h + 100 ->
  Forall key_ok (m_array h) ->
  exists h', grow (insert_fuel (S fuel)) h = Ret h' /\
    m_capacity h' = 2 * m_capacity h /\ Z.of_nat (length (m_array h')) = m_capacity h' /\
    0 <= m_size h' <= Z.of_nat (occupied (m_array h)) /\ Z.of_nat (occupied (m_array h')) = m_size h' /\
    m_size h' * 100 < 75 * m_capacity h + 100 /\
    entries h' ≡ₚ entries h /\ Forall key_ok (m_array h').
Proof.
  intros Hc Ho Hk. unfold grow. rewrite wrap_small by lia.
  pose proof (fulls_occupied (m_array h)).
  destruct (reinsert_spec fuel (m_array h)
    (mkHashMap (replicate (Z.to_nat (m_capacity h * 2)) Null) (m_capacity h * 2) 0))
    as (h' & -> & Hc' & Hl' & Hs' & Ho' & He' & Hk'); cbn [m_array m_capacity m_size]; rewrite ?length_replicate, ?occupied_replicate;
    try lia; try done.
  { apply Forall_replicate. done. }
  cbn in Hc', Hl', Hs'. rewrite length_replicate in Hl'.
  exists h'. split; [done|]. repeat (split; [lia|]). split; [|done].
  rewrite He'. unfold entries at 2. cbn.
  assert (forall n, omap entry (replicate n Null) = []) as -> by (intros n; induction n; auto).
  by rewrite app_nil_r.
Qed.

(** A table after at most [k] insertions into a new one: its capacity follows. *)
Definition roomy (k : Z) (h : HashMap) : Prop := m_size h <= k /\ m_capacity h <= 16 + 4 * k.

(** What an insertion does to the table's sizes. *)
Definition grew (h h' : HashMap) : Prop :=
  m_capacity h' <= 2 * m_capacity h /\ forall k, roomy k h -> roomy (k + 1) h'.

(** [insert] always returns: the call nested in [grow] never grows again. *)
Lemma insert_spec h key value :
  wf h -> m_capacity h < 2 ^ 47 -> is_cstring key = true ->
  exists h', insert key value h = Ret h' /\ wf h' /\ entries h' ≡ₚ (key, value) :: entries h /\
    grew h h'.
Proof.
  intros [Hl Hc Hs Ho Hload Hkeys] Hc2 Hk.
  destruct (Z.lt_ge_cases ((m_size h + 1) * 100) (75 * m_capacity h)) as [Hlt|Hge].
  - destruct (insert_no_grow 1 h key value) as (h' & Hins & Hs' & []); [lia..|done|].
    exists h'. split; [done|]. split; [split; [lia..|by auto]|]. split; [done|]. unfold grew, roomy. split; [lia|]. intros k. lia.
  - unfold insert. cbn [insert_fuel].
    change (fun key value h => _) with (insert_fuel 1).
    rewrite (wrap_small 64 (m_size h + 1)) by lia.
    set (h1 := mkHashMap (m_array h) (m_capacity h) (m_size h + 1)).
    rewrite (load_lt h1 (m_size h + 1)) by (cbn; lia). ored.
    rewrite (proj2 (Z.leb_le _ _)) by (apply Z.div_le_lower_bound; cbn; lia).
    destruct (grow_spec 0 h1) as (h2 & -> & Hc' & Hl' & Hs' & Ho' & Hload' & He & Hk2); [cbn [h1 m_array m_capacity m_size]; lia..|done|].
    ored. cbn in Hc', Hload'.
    destruct (place_inserts h2 key value) as (h' & Hp & Hsz & []); [lia..|done|].
    exists h'. split; [done|]. split; [split; [lia..|by auto]|].
    rewrite ins_entries0, He. cbn in Hc', Hs'. split; [done|]. unfold grew, roomy. split; [lia|]. intros k. lia.
Qed.


(** ** Finding and deleting *)
Lemma matches_Full key s :
  is_cstring key = true -> key_ok s -> matches key s = true <-> exists v, s = Full key v.
Proof.
  intros Hk Hs. destruct s as [| |k v]; cbn; try (split; [done|by intros [? ?]]).
  rewrite (strcmp_zero k key), bool_decide_eq_true by done.
  split; [intros ->; by eauto|]. by intros [w [= -> _]].
Qed.

Lemma get_loop_spec h first key n : forall i,
  m_capacity h < 2 ^ 48 -> Z.of_nat (length (m_array h)) = m_capacity h ->
  0 <= i -> i + Z.of_nat n = m_capacity h -> 0 <= first < m_capacity h ->
  exists r, get_loop n i first key h = Ret r /\
    match r with
    | Some j => exists s, zlookup (m_array h) j = Some s /\ matches key s = true
    | None => forall k s, i <= k < m_capacity h ->
        zlookup (m_array h) (attempt h first k) = Some s -> matches key s = false
    end.
Proof.
  induction n as [|n IH]; intros i Hc Hl Hi Hn Hf; cbn [get_loop].
  - exists None. split; [done|]. lia.
  - destruct (zlookup_is_Some (m_array h) (attempt h first i)) as [s Hs].
    { rewrite Hl. apply attempt_range; lia. }
    rewrite Hs. ored. destruct (matches key s) eqn:E.
    { exists (Some (attempt h first i)). split; [done|]. by exists s. }
    destruct (IH (i + 1)) as (r & -> & Hr); [lia..|]. exists r. split; [done|].
    destruct r; [done|]. intros k s' Hk Hs'. destruct (decide (k = i)) as [->|]; [congruence|].
    apply (Hr k); [lia|done].
Qed.

Lemma elem_of_entries a k v : (k, v) ∈ omap entry a <-> Full k v ∈ a.
Proof.
  rewrite list_elem_of_omap. split.
  - by intros ([| |k' v'] & Hin & [= <- <-]).
  - intros Hin. by exists (Full k v).
Qed.

Lemma get_slot_spec h key :
  wf h -> is_cstring key = true ->
  exists r, get_slot key h = Ret r /\
    match r with
    | Some j => exists v, zlookup (m_array h) j = Some (Full key v)
    | None => forall v, Full key v ∉ m_array h
    end.
Proof.
  intros [Hl Hc _ _ _ Hkeys] Hk. rewrite Forall_forall in Hkeys. unfold get_slot.
  rewrite (proj2 (Z.eqb_neq _ _)) by lia. pose proof (first_range h key ltac:(lia)).
  destruct (get_loop_spec h (hash key mod m_capacity h) key (Z.to_nat (m_capacity h)) 0)
    as (r & -> & Hr); [lia..|]. exists r. split; [done|]. destruct r as [j|].
  - destruct Hr as (s & Hs & Hm). pose proof (Hkeys _ (zlookup_elem_of _ _ _ Hs)) as Hok.
    apply (matches_Full _ _ Hk Hok) in Hm as [v ->]. by exists v.
  - intros v Hin. pose proof (elem_of_zlookup _ _ Hin) as [j Hj].
    pose proof (zlookup_Some_range _ _ _ Hj).
    destruct (attempt_covers h (hash key mod m_capacity h) j) as (k & ? & Ek); [lia..|].
    rewrite <- Ek in Hj. apply Hr in Hj; [|lia]. cbn in Hj. by rewrite strcmp_refl in Hj.
Qed.

(** No two entries with one key. *)
Definition distinct h : Prop := NoDup (entries h).*1.

Definition cleared key (s : slot) : slot := if matches key s then Deleted else s.

Lemma erase_spec h key :
  wf h -> erase key h = Ret (set_array h (cleared key <$> m_array h)).
Proof.
  intros [Hl Hc _ _ _ Hkeys]. unfold erase. rewrite (proj2 (Z.eqb_neq _ _)) by lia.
  pose proof (first_range h key ltac:(lia)) as Hf. set (first := hash key mod m_capacity h) in *.
  destruct (for_range_inv (fun i h' => exists a, h' = set_array h a /\ length a = length (m_array h) /\
     (forall j s, zlookup (m_array h) j = Some s ->
        zlookup a j = Some (cleared key s) \/ zlookup a j = Some s) /\
     (forall k s, 0 <= k < i -> zlookup (m_array h) (attempt h first k) = Some s ->
        zlookup a (attempt h first k) = Some (cleared key s)))
    (Z.to_nat (m_capacity h)) 0 (erase_step key first) h) as (h' & -> & a & -> & Ha & Hold & Hnew).
  - exists (m_array h). split; [by destruct h|]. split; [done|]. split; [by eauto|]. lia.
  - intros i h' Hi (a & -> & Ha & Hold & Hnew). unfold erase_step. cbn [set_array m_array].
    change (attempt (set_array h a) first i) with (attempt h first i).
    pose proof (attempt_range h first i ltac:(lia) ltac:(lia) Hf) as Hr.
    destruct (zlookup_is_Some a (attempt h first i)) as [s Hs]; [lia|]. rewrite Hs. ored.
    eexists. split; [done|].
    exists (if matches key s then zinsert (attempt h first i) Deleted a else a).
    assert (forall s0, zlookup (m_array h) (attempt h first i) = Some s0 ->
      zlookup (if matches key s then zinsert (attempt h first i) Deleted a else a) (attempt h first i)
      = Some (cleared key s0)) as Hat.
    { intros s0 Hs0. destruct (Hold _ _ Hs0) as [E|E]; rewrite Hs in E; injection E as ->.
      - destruct (matches key (cleared key s0)) eqn:E; [|by rewrite Hs].
        exfalso. unfold cleared in E. by destruct (matches key s0) eqn:?; cbn in E; congruence.
      - unfold cleared. destruct (matches key s0); [|done]. rewrite zlookup_zinsert_eq by lia. done. }
    split; [by destruct (matches key s)|]. split; [destruct (matches key s); by autorewrite with fish|].
    split.
    + intros j s0 Hs0. destruct (decide (j = attempt h first i)) as [->|Hj]; [left; by apply Hat|].
      destruct (matches key s); [|by apply Hold].
      rewrite zlookup_zinsert_ne by (lia || done). by apply Hold.
    + intros k s0 Hk Hs0. destruct (decide (attempt h first k = attempt h first i)) as [E|E].
      { rewrite E in *. by apply Hat. }
      assert (k <> i) by congruence. destruct (matches key s); [|apply Hnew; [lia|done]].
      rewrite zlookup_zinsert_ne by (lia || done). apply Hnew; [lia|done].
  - f_equal. f_equal. apply zlookup_ext. intros j _. rewrite zlookup_fmap.
    destruct (zlookup (m_array h) j) as [s|] eqn:Hs; cbn.
    + pose proof (zlookup_Some_range _ _ _ Hs).
      destruct (attempt_covers h first j) as (k & ? & <-); [lia..|]. apply Hnew; [lia|done].
    + apply zlookup_None. rewrite Ha. intros [x Hx]%zlookup_is_Some. congruence.
Qed.


Lemma to_map_lookup h key v :
  distinct h -> to_map h !! key = Some v <-> Full key v ∈ m_array h.
Proof. intros Hd. rewrite <- elem_of_entries. symmetry. by apply elem_of_list_to_map. Qed.

Lemma omap_entry_cleared key a :
  is_cstring key = true -> Forall key_ok a ->
  omap entry (cleared key <$> a) = filter (fun kv => kv.1 <> key) (omap entry a).
Proof.
  intros Hk. induction a as [|s a IH]; [done|]. rewrite Forall_cons. intros [Hs Ha].
  destruct s as [| |k v]; [by apply IH..|]. change (Full k v :: a) with ([Full k v] ++ a).
  rewrite fmap_app, !omap_app, filter_app, IH by done. f_equal.
  change (omap entry [Full k v]) with [(k, v)]. rewrite filter_cons, filter_nil.
  unfold cleared. cbn. rewrite (strcmp_zero k key) by done.
  by case_bool_decide as E; [rewrite decide_False by tauto|rewrite decide_True by done].
Qed.

Lemma list_to_map_filter_ne (key : cstring) (l : list (cstring * V)) :
  list_to_map (M := gmap cstring V) (filter (fun kv => kv.1 <> key) l) = delete key (list_to_map l).
Proof.
  induction l as [|[k v] l IH]; [cbn; by rewrite delete_empty|].
  rewrite filter_cons. cbn. destruct (decide (k = key)) as [->|].
  - rewrite decide_False by tauto. by rewrite IH, delete_insert_eq.
  - rewrite decide_True by done. cbn. by rewrite IH, delete_insert_ne.
Qed.

Lemma occupied_cleared key a : occupied (cleared key <$> a) = occupied a.
Proof.
  induction a as [|s a IH]; [done|]. rewrite fmap_cons, !occupied_cons, IH. f_equal.
  unfold cleared. destruct s; cbn; try done. by destruct (strcmp key0 key =? 0).
Qed.

(** ** Refinement of a finite map from strings *)

Lemma insert_fresh h key value :
  wf h -> distinct h -> m_capacity h < 2 ^ 47 -> is_cstring key = true -> to_map h !! key = None ->
  exists h', insert key value h = Ret h' /\ wf h' /\ distinct h' /\
    to_map h' = <[key := value]> (to_map h) /\ grew h h'.
Proof.
  intros Hwf Hd Hc Hk Hnone.
  destruct (insert_spec h key value Hwf Hc Hk) as (h' & Hi & Hwf' & He & Hcap).
  apply not_elem_of_list_to_map in Hnone.
  assert (distinct h') as Hd'.
  { unfold distinct. rewrite He. cbn. by apply NoDup_cons. }
  exists h'. split; [done|]. split; [done|]. split; [done|]. split; [|done].
  unfold to_map. rewrite (list_to_map_proper _ _ Hd' He). done.
Qed.

Lemma get_spec h key :
  wf h -> distinct h -> is_cstring key = true -> get key h = Ret (to_map h !! key).
Proof.
  intros Hwf Hd Hk. unfold get. destruct (get_slot_spec h key Hwf Hk) as ([j|] & -> & Hr); ored.
  - destruct Hr as [v Hv]. rewrite Hv. ored. cbn. f_equal. symmetry.
    apply to_map_lookup; [done|]. by eapply zlookup_elem_of.
  - f_equal. symmetry. apply eq_None_not_Some. intros [v Hv%to_map_lookup]; [|done]. by eapply Hr.
Qed.

(** C24. Inserting a key that is not in the table always returns (the call
    nested in [grow] never grows again), keeps the table well formed, and
    refines insertion into a finite map from strings. *)
Theorem insert_refines_map h key value :
  wf h -> distinct h -> m_capacity h < 2 ^ 47 -> is_cstring key = true -> to_map h !! key = None ->
  exists h', insert key value h = Ret h' /\ wf h' /\ distinct h' /\
    to_map h' = <[key := value]> (to_map h).
Proof.
  intros Hwf Hd Hc Hk Hnone.
  destruct (insert_fresh h key value Hwf Hd Hc Hk Hnone) as (h' & ? & ? & ? & ? & _). by exists h'.
Qed.

(** [get] answers what the finite map holds for the key, and nothing for a
    key outside it, wherever probing finds the entry. *)
Theorem get_refines_lookup h key :
  wf h -> distinct h -> is_cstring key = true -> get key h = Ret (to_map h !! key).
Proof. apply get_spec. Qed.

(** [erase] refines deletion from the finite map and leaves the table well
    formed; its load is unchanged, as the deleted mark keeps the slot. *)
Theorem erase_refines_delete h key :
  wf h -> distinct h -> is_cstring key = true ->
  exists h', erase key h = Ret h' /\ wf h' /\ distinct h' /\ m_size h' = m_size h /\
    to_map h' = delete key (to_map h).
Proof.
  intros Hwf Hd Hk. rewrite (erase_spec h key Hwf). destruct Hwf as [Hl Hc Hs Ho Hload Hkeys].
  assert (entries (set_array h (cleared key <$> m_array h)) = filter (fun kv => kv.1 <> key) (entries h)) as He.
  { by apply omap_entry_cleared. }
  eexists. split; [done|]. split; [|split; [|split; [done|]]].
  - split; cbn [set_array m_array m_capacity m_size]; rewrite ?length_fmap, ?occupied_cleared; try done.
    apply Forall_fmap. eapply Forall_impl; [done|]. intros s Hs0. cbn. unfold cleared.
    by destruct (matches key s).
  - unfold distinct. rewrite He. eapply sublist_NoDup; [exact Hd|apply fmap_sublist, sublist_filter].
  - unfold to_map. rewrite He. apply list_to_map_filter_ne.
Qed.

Lemma new_wf n : 8 <= n < 2 ^ 48 -> wf (new n) /\ distinct (new n) /\ to_map (new n) = ∅.
Proof.
  intros. assert (entries (new n) = []) as E.
  { unfold entries, new. cbn. generalize (Z.to_nat n). by intros m; induction m. }
  split; [|unfold distinct, to_map; rewrite E; split; [constructor|done]].
  split; cbn [new m_array m_capacity m_size]; rewrite ?length_replicate, ?occupied_replicate; first [lia | by apply Forall_replicate].
Qed.

End HashMap.
Arguments slot : clear implicits.
Arguments HashMap : clear implicits.

(** ** Concrete tables *)

(** Thirteen keys: the twelfth insertion grows the table to 32 slots. *)
Definition keys13 : list cstring := map (fun i => [97 + i]) [0; 1; 2; 3; 4; 5; 6; 7; 8; 9; 10; 11; 12].
Fixpoint insert_all (ks : list cstring) (h : HashMap Z) : outcome (HashMap Z) :=
  match ks with
  | [] => Ret h
  | k :: ks => h ← insert k (deref k) h; insert_all ks h
  end.
Definition table13 : HashMap Z :=
  match insert_all keys13 (new 16) with Ret h => h | _ => new 16 end.

Lemma table13_grown : m_capacity table13 = 32 /\ m_size table13 = 12.
Proof. by vm_compute. Qed.

Definition key_okb {V} (s : slot V) : bool := match s with Full k _ => is_cstring k | _ => true end.

Lemma table13_wf : wf table13 /\ distinct table13.
Proof.
  split.
  - split; try (vm_compute; first [reflexivity | split; reflexivity | discriminate]).
    + vm_compute. split; [discriminate|done].
    + apply Forall_forall. intros s Hs.
      assert (forallb key_okb (m_array table13) = true) as Hb by by vm_compute.
      rewrite forallb_forall in Hb. apply list_elem_of_In, Hb in Hs. by destruct s.
  - unfold distinct. apply (bool_decide_eq_true_1 _). by vm_compute.
Qed.

Lemma insert_refines_map_witness :
  exists h', insert [122] 7 table13 = Ret h' /\ wf h' /\ distinct h' /\
    to_map h' = <[[122] := 7]> (to_map table13).
Proof.
  apply (insert_refines_map table13 [122] 7); [exact (proj1 table13_wf)|exact (proj2 table13_wf)|..];
    by vm_compute.
Defined.

Lemma get_refines_lookup_witness : get [99] table13 = Ret (to_map table13 !! [99]).
Proof. apply (get_refines_lookup table13 [99]); [exact (proj1 table13_wf)|exact (proj2 table13_wf)|done]. Defined.

Lemma erase_refines_delete_witness :
  exists h', erase [99] table13 = Ret h' /\ wf h' /\ distinct h' /\ m_size h' = m_size table13 /\
    to_map h' = delete [99] (to_map table13).
Proof. apply (erase_refines_delete table13 [99]); [exact (proj1 table13_wf)|exact (proj2 table13_wf)|done]. Defined.

(** Inserting a key twice does not replace its value: [get] still answers the
    first one. *)
Example insert_does_not_replace :
  (h ← insert (lit "k") 1 (new 16); h ← insert (lit "k") 2 h; get (lit "k") h) = Ret (Some 1).
Proof. by vm_compute. Qed.
