(* ===== verification/Drivers.v ===== *)
(** * fs/vfs.cpp: the table of file system drivers

    [fs_drivers] returns its static table by value.  A table is an object with
    the address of its array; [arrays] are the arrays that were not freed, so
    that a copy of the object shares its array with the original, and the
    copy's destructor frees it for both. *)
From S2P Require Import Prelude CString HashMap.

Section Drivers.
Context (new_array : Z).
Implicit Types (identifier : cstring) (fs_driver : Z).

Record driver_table := mkDriverTable { array_at : Z; capacity : Z; entries : Z }.
Record drivers := mkDrivers { static_table : option driver_table; arrays : gmap Z (list (@slot Z)) }.

Definition set_arrays (a : gmap Z (list (@slot Z))) (s : drivers) : drivers := mkDrivers (static_table s) a.

(** The table's contents, when its array was not freed. *)
Definition table_contents (t : driver_table) (s : drivers) : outcome (HashMap Z) :=
  a ← of_option (arrays s !! array_at t); Ret (mkHashMap a (capacity t) (entries t)).

(** [insert] on the object [t]: a table that grows gets an array of its own. *)
Definition driver_insert (grown : Z) identifier fs_driver (t : driver_table) (s : drivers) : outcome (driver_table * drivers) :=
  h ← table_contents t s;
  h' ← insert identifier fs_driver h;
  let p := if m_capacity h' =? m_capacity h then array_at t else grown in
  Ret (mkDriverTable p (m_capacity h') (HashMap.m_size h'),
       set_arrays (<[p := m_array h']> (delete (array_at t) (arrays s))) s).

Definition driver_delete (t : driver_table) (s : drivers) : outcome drivers :=
  _ ← table_contents t s; Ret (set_arrays (delete (array_at t) (arrays s)) s).

(** The first call makes the table. *)
Definition fs_drivers (s : drivers) : driver_table * drivers :=
  match static_table s with
  | Some t => (t, s)
  | None =>
      let h := HashMap.new (V := Z) 16 in
      let t := mkDriverTable new_array (m_capacity h) (HashMap.m_size h) in
      (t, mkDrivers (Some t) (<[new_array := m_array h]> (arrays s)))
  end.

Definition register_filesystem (grown : Z) identifier fs_driver (s : drivers) : outcome drivers :=
  let '(t, s) := fs_drivers s in
  '(t, s) ← driver_insert grown identifier fs_driver t s;
  driver_delete t s.

(** What [init] does with the table. *)
Definition init_drivers (grown : Z) fs_driver (s : drivers) : outcome drivers :=
  let '(t, s) := fs_drivers s in
  s ← driver_delete t s;
  register_filesystem grown (lit "tmpfs") fs_driver s.

(** One use of the table by value, and the static object's array is gone. *)
Lemma copy_frees_the_original grown identifier fs_driver s s' :
  register_filesystem grown identifier fs_driver s = Ret s' ->
  exists t, static_table s' = Some t /\ arrays s' !! array_at t = None.
Proof.
  unfold register_filesystem, fs_drivers.
  assert (forall t s0, static_table s0 = Some t ->
    ('(t, s1) ← driver_insert grown identifier fs_driver t s0; driver_delete t s1) = Ret s' ->
    exists t, static_table s' = Some t /\ arrays s' !! array_at t = None) as Hrun.
  { intros t s0 Hs. unfold driver_insert, driver_delete, table_contents.
    destruct (arrays s0 !! array_at t) as [a|]; [|done]. ored.
    destruct (insert _ _ _) as [h'| | |]; ored; [|done..].
    set (p := if _ =? _ then _ else _). cbn [arrays set_arrays array_at capacity entries static_table].
    rewrite lookup_insert_eq. ored. intros [= <-]. exists t. cbn [arrays set_arrays static_table]. split; [done|].
    rewrite delete_insert_eq. apply lookup_delete_None. right. apply lookup_delete_None. by left. }
  destruct (static_table s) as [t|] eqn:Es; by apply Hrun.
Qed.

(** From then on every use is one after the free. *)
Lemma freed_table_faults grown identifier fs_driver s t :
  static_table s = Some t -> arrays s !! array_at t = None ->
  register_filesystem grown identifier fs_driver s = Fault.
Proof.
  intros Hs Ha. unfold register_filesystem, fs_drivers, driver_insert, table_contents. by rewrite Hs, Ha.
Qed.
End Drivers.

(** So [init] itself already works on a freed array. *)
Example init_uses_a_freed_table : init_drivers 0x1000 0x2000 0x3000 (mkDrivers None ∅) = Fault.
Proof. vm_compute. reflexivity. Qed.
