(* ===== verification/Keyboard.v ===== *)
(** * ps2/kbd/keyboard.cpp

    The scan code table, the modifier state machine, the ring buffer the
    interrupt handler fills and [read] empties.  [echo] lists the characters
    the handler has given to [klib::putchar], in order. *)
From S2P Require Import Prelude.

Definition buffer_size : Z := 256.

(** [map], 128 entries: the explicit ones, and zero for the rest. *)
Definition map : list Z :=
  [0; 27; 49; 50; 51; 52; 53; 54; 55; 56;
   57; 48; 45; 61; 8;
   9;
   113; 119; 101; 114;
   116; 121; 117; 105; 111; 112; 91; 93; 10;
   0;
   97; 115; 100; 102; 103; 104; 106; 107; 108; 59;
   39; 96; 0;
   92; 122; 120; 99; 118; 98; 110;
   109; 44; 46; 47; 0;
   42;
   0;
   32;
   0;
   0;
   0; 0; 0; 0; 0; 0; 0; 0;
   0;
   0;
   0;
   0;
   0;
   0;
   45;
   0;
   0;
   0;
   43] ++ replicate 49 0.

Record kbd := mkKbd {
  buffer : list Z;
  buffer_write_index : Z;
  buffer_read_index : Z;
  left_shift : bool;
  right_shift : bool;
  caps_lock : bool;
  echo : list Z
}.

Definition init : kbd := mkKbd (replicate 256 0) 0 0 false false false [].

Definition set_mods (s : kbd) (l r c : bool) : kbd :=
  mkKbd (buffer s) (buffer_write_index s) (buffer_read_index s) l r c (echo s).

Definition is_caps (s : kbd) : bool := xorb (caps_lock s) (left_shift s || right_shift s).

(** The character of a pressed key under the current modifiers. *)
Definition translate (s : kbd) (scancode : Z) : outcome Z :=
  c ← of_option (zlookup map scancode);
  Ret (if is_caps s && (97 <=? c) && (c <=? 122) then c - 97 + 65 else c).

(** Storing a character, when there is room. *)
Definition push (c : Z) (s : kbd) : outcome kbd :=
  if negb ((buffer_write_index s + 1) mod buffer_size =? buffer_read_index s) then
    if bool_decide (is_Some (zlookup (buffer s) (buffer_write_index s))) then
      Ret (mkKbd (zinsert (buffer_write_index s) c (buffer s))
             ((buffer_write_index s + 1) mod buffer_size) (buffer_read_index s)
             (left_shift s) (right_shift s) (caps_lock s) (echo s ++ [c]))
    else Fault
  else Ret s.

(** The interrupt handler, on the byte it reads from port 0x60. *)
Definition irq (scancode : Z) (s : kbd) : outcome kbd :=
  if negb (Z.land scancode 128 =? 0) then
    let k := Z.land scancode 127 in
    if k =? 42 then Ret (set_mods s false (right_shift s) (caps_lock s))
    else if k =? 54 then Ret (set_mods s (left_shift s) false (caps_lock s))
    else if k =? 58 then Ret (set_mods s (left_shift s) (right_shift s) (negb (caps_lock s)))
    else Ret s
  else if scancode =? 42 then Ret (set_mods s true (right_shift s) (caps_lock s))
  else if scancode =? 54 then Ret (set_mods s (left_shift s) true (caps_lock s))
  else
    c ← translate s scancode;
    if negb (c =? 0) then push c s else Ret s.

(** [char c = buffer[buffer_read_index]] and the move of the read index. *)
Definition pop (s : kbd) : outcome (Z * kbd) :=
  c ← of_option (zlookup (buffer s) (buffer_read_index s));
  Ret (c, mkKbd (buffer s) (buffer_write_index s)
            ((buffer_read_index s + 1) mod buffer_size)
            (left_shift s) (right_shift s) (caps_lock s) (echo s)).

(** [read(buf, count)]: [count] bytes remain to be read; [incoming] are the scan
    codes of the interrupts that arrive while the loop polls an empty buffer.
    With no more of them it waits for ever.  The result lists the bytes stored
    in [buf] (their number is the value returned) and the interrupts left. *)
Fixpoint read_loop (fuel : nat) (count : nat) (incoming : list Z) (s : kbd) :
    outcome (list Z * list Z * kbd) :=
  match fuel with
  | O => Diverge
  | S fuel =>
      match count with
      | O => Ret ([], incoming, s)
      | S count' =>
          if buffer_read_index s =? buffer_write_index s then
            match incoming with
            | [] => Diverge
            | sc :: incoming => s ← irq sc s; read_loop fuel count incoming s
            end
          else
            '(c, s) ← pop s;
            if c =? 10 then Ret ([c], incoming, s)
            else '(cs, incoming, s) ← read_loop fuel count' incoming s; Ret (c :: cs, incoming, s)
      end
  end.

Definition read (count : Z) (incoming : list Z) (s : kbd) : outcome (list Z * list Z * kbd) :=
  read_loop (Z.to_nat count + length incoming + 1) (Z.to_nat count) incoming s.

(** ** The queue it stands for *)

Definition waiting (s : kbd) : Z := (buffer_write_index s - buffer_read_index s) mod buffer_size.

(** The [n] characters of the ring from index [i] on. *)
Fixpoint ring (n : nat) (i : Z) (b : list Z) : list Z :=
  match n with
  | O => []
  | S n => default 0 (zlookup b i) :: ring n ((i + 1) mod buffer_size) b
  end.

Definition queue (s : kbd) : list Z := ring (Z.to_nat (waiting s)) (buffer_read_index s) (buffer s).

Record wf (s : kbd) : Prop := {
  wf_buffer : length (buffer s) = 256%nat;
  wf_write : 0 <= buffer_write_index s < buffer_size;
  wf_read : 0 <= buffer_read_index s < buffer_size
}.

(** What typing does, without the buffer: the modifiers (left shift, right
    shift, caps lock), how a scan code changes them and the character it types. *)
Definition mods (s : kbd) : bool * bool * bool := (left_shift s, right_shift s, caps_lock s).

Definition step_mods (m : bool * bool * bool) (sc : Z) : bool * bool * bool :=
  let '(l, r, c) := m in
  if sc =? 42 then (true, r, c) else if sc =? 42 + 128 then (false, r, c)
  else if sc =? 54 then (l, true, c) else if sc =? 54 + 128 then (l, false, c)
  else if sc =? 58 + 128 then (l, r, negb c) else (l, r, c).

Definition capital (c : Z) : Z := if (97 <=? c) && (c <=? 122) then c - 32 else c.

Definition typed_char (m : bool * bool * bool) (sc : Z) : list Z :=
  let '(l, r, c) := m in
  let k := default 0 (zlookup map sc) in
  if (128 <=? sc) || (k =? 0) then []
  else [if xorb c (l || r) then capital k else k].

Fixpoint typed (m : bool * bool * bool) (scs : list Z) : list Z :=
  match scs with
  | [] => []
  | sc :: scs => typed_char m sc ++ typed (step_mods m sc) scs
  end.

(** A line of at most [n] characters at the head of [q], [None] when [q] holds
    neither a whole line nor [n] characters. *)
Fixpoint line (n : nat) (q : list Z) : option (list Z) :=
  match n, q with
  | O, _ => Some []
  | S n, [] => None
  | S n, c :: q => if c =? 10 then Some [c] else cons c <$> line n q
  end.

Definition is_u8 (x : Z) : bool := (0 <=? x) && (x <? 256).

(** ** Lemmas *)
Lemma init_wf : wf init.
Proof. by split. Qed.

Lemma waiting_range s : 0 <= waiting s < 256.
Proof. apply Z.mod_pos_bound. done. Qed.

Lemma length_queue s : Z.of_nat (length (queue s)) = waiting s.
Proof.
  pose proof (waiting_range s). unfold queue.
  assert (forall n i b, length (ring n i b) = n) as -> by (intros n; induction n; intros; cbn; auto).
  lia.
Qed.

Lemma ring_insert n w x b : forall i,
  length b = 256%nat -> 0 <= i < 256 -> 0 <= w < 256 -> Z.of_nat n <= (w - i) mod 256 ->
  ring n i (zinsert w x b) = ring n i b.
Proof.
  induction n as [|n IH]; intros i Hb Hi Hw Hn; [done|]. cbn [ring].
  assert (w <> i). { intros ->. rewrite Z.sub_diag in Hn. rewrite Z.mod_0_l in Hn; lia. }
  rewrite zlookup_zinsert_ne by lia. f_equal. unfold buffer_size.
  apply IH; [done|apply Z.mod_pos_bound; lia|done|].
  assert ((w - (i + 1) mod 256) mod 256 = (w - i) mod 256 - 1) as ->; [|lia].
  pose proof (Z.mod_pos_bound (w - i) 256 ltac:(lia)).
  rewrite Zminus_mod_idemp_r. replace (w - (i + 1)) with (w - i - 1) by lia.
  rewrite <- Zminus_mod_idemp_l. apply Z.mod_small. lia.
Qed.

Lemma ring_snoc n i b : 0 <= i < 256 ->
  ring (S n) i b = ring n i b ++ [default 0 (zlookup b ((i + Z.of_nat n) mod 256))].
Proof.
  revert i. induction n as [|n IH]; intros i Hi.
  - cbn. by rewrite Z.add_0_r, Z.mod_small.
  - change (ring (S (S n)) i b)
      with (default 0 (zlookup b i) :: ring (S n) ((i + 1) mod buffer_size) b).
    rewrite IH by (apply Z.mod_pos_bound; done). cbn [ring app]. unfold buffer_size.
    rewrite Zplus_mod_idemp_l. by replace (i + 1 + Z.of_nat n) with (i + Z.of_nat (S n)) by lia.
Qed.

Lemma push_spec c s :
  wf s ->
  exists s', push c s = Ret s' /\ wf s' /\
    left_shift s' = left_shift s /\ right_shift s' = right_shift s /\ caps_lock s' = caps_lock s /\
    if (length (queue s) <? 255)%nat
    then queue s' = queue s ++ [c] /\ echo s' = echo s ++ [c]
    else s' = s.
Proof.
  intros [Hb Hw Hr]. unfold push, buffer_size in *. pose proof (waiting_range s) as Hf.
  pose proof (length_queue s) as Hq.
  assert ((buffer_write_index s + 1) mod 256 = buffer_read_index s <-> waiting s = 255) as Hfull.
  { unfold waiting, buffer_size. split; intros H.
    - rewrite <- H, Zminus_mod_idemp_r.
      by replace (buffer_write_index s - (buffer_write_index s + 1)) with (-1) by lia.
    - rewrite <- (Z.mod_small (buffer_read_index s) 256) by lia.
      rewrite (Z.add_comm _ 1). replace 1 with (256 - 255) by done. rewrite <- H at 1.
      rewrite <- (Z.add_0_r (256 - _)). 
      replace (256 - (buffer_write_index s - buffer_read_index s) mod 256 + 0 + buffer_write_index s)
        with ((buffer_write_index s - (buffer_write_index s - buffer_read_index s) mod 256) + 1 * 256) by lia.
      rewrite Z_mod_plus_full, Zminus_mod_idemp_r. f_equal. lia. }
  destruct (Z.eqb_spec ((buffer_write_index s + 1) mod 256) (buffer_read_index s)) as [E|E]; cbn [negb].
  - apply Hfull in E. rewrite E in Hq. rewrite (proj2 (Nat.ltb_ge _ _)) by lia. by exists s.
  - assert (waiting s <> 255) by tauto. rewrite (proj2 (Nat.ltb_lt _ _)) by lia.
    rewrite bool_decide_true by (apply zlookup_lt_Some; lia).
    eexists. split; [done|]. split.
    { split; cbn [buffer buffer_write_index buffer_read_index];
        [by rewrite length_zinsert|apply Z.mod_pos_bound; done|done]. }
    repeat (split; [done|]). split; [|done]. unfold queue.
    assert (forall b e l r c', waiting (mkKbd b ((buffer_write_index s + 1) mod 256) (buffer_read_index s) l r c' e)
      = waiting s + 1) as ->.
    { intros. unfold waiting, buffer_size in *. cbn [buffer_write_index buffer_read_index].
      rewrite Zminus_mod_idemp_l.
      replace (buffer_write_index s + 1 - buffer_read_index s)
        with (buffer_write_index s - buffer_read_index s + 1) by lia.
      rewrite <- Zplus_mod_idemp_l. apply Z.mod_small. lia. }
    cbn [buffer buffer_read_index].
    replace (Z.to_nat (waiting s + 1)) with (S (Z.to_nat (waiting s))) by lia.
    rewrite ring_snoc by done. f_equal.
    + apply ring_insert; [done..|]. rewrite Z2Nat.id by lia. done.
    + f_equal. rewrite Z2Nat.id by lia. unfold waiting, buffer_size.
      rewrite Zplus_mod_idemp_r.
      replace (buffer_read_index s + (buffer_write_index s - buffer_read_index s))
        with (buffer_write_index s) by lia.
      rewrite Z.mod_small by lia. rewrite zlookup_zinsert_eq by lia. done.
Qed.

Lemma byte_cases (P : Z -> bool) sc :
  forallb P (Z.of_nat <$> seq 0 256) = true -> is_u8 sc = true -> P sc = true.
Proof.
  intros HP [?%Z.leb_le ?%Z.ltb_lt]%andb_prop. rewrite forallb_forall in HP. apply HP.
  apply list_elem_of_In, list_elem_of_fmap. exists (Z.to_nat sc).
  split; [lia|]. apply elem_of_seq. lia.
Qed.

Lemma scancode_bits sc :
  is_u8 sc = true ->
  negb (Z.land sc 128 =? 0) = (128 <=? sc) /\
  (128 <=? sc = true -> Z.land sc 127 = sc - 128) /\
  (128 <=? sc = false -> exists k, zlookup map sc = Some k).
Proof.
  intros Hsc.
  assert (Bool.eqb (negb (Z.land sc 128 =? 0)) (128 <=? sc) &&
          implb (128 <=? sc) (Z.land sc 127 =? sc - 128) = true) as [H1 H2]%andb_prop.
  { apply (byte_cases (fun sc => Bool.eqb (negb (Z.land sc 128 =? 0)) (128 <=? sc) &&
      implb (128 <=? sc) (Z.land sc 127 =? sc - 128))); [by vm_compute|done]. }
  apply eqb_prop in H1. split; [done|]. split.
  - intros H. rewrite H in H2. by apply Z.eqb_eq.
  - intros H%Z.leb_gt. apply andb_prop in Hsc as [?%Z.leb_le _]. apply zlookup_is_Some.
    change (length map) with 128%nat. lia.
Qed.

Lemma set_mods_spec s l r c :
  wf s -> wf (set_mods s l r c) /\ mods (set_mods s l r c) = (l, r, c) /\
    queue (set_mods s l r c) = queue s.
Proof. by intros [? ? ?]. Qed.

(** One interrupt: the character it types is queued unless 255 are waiting. *)
Lemma irq_spec sc s :
  wf s -> is_u8 sc = true ->
  exists s', irq sc s = Ret s' /\ wf s' /\ mods s' = step_mods (mods s) sc /\
    queue s' = queue s ++ (if (length (queue s) <? 255)%nat then typed_char (mods s) sc else []).
Proof.
  intros Hwf Hsc. destruct (scancode_bits sc Hsc) as (Hbit & Hland & Hmap). unfold irq. rewrite Hbit.
  assert (forall m, 128 <=? sc = true -> typed_char m sc = []) as Hrel.
  { intros [[? ?] ?] H. unfold typed_char. by rewrite H. }
  assert (forall k m, sc = k -> zlookup map k = Some 0 -> typed_char m sc = []) as Hmod.
  { intros k [[? ?] ?] -> H. unfold typed_char. rewrite H. cbn. by rewrite orb_true_r. }
  unfold mods at 2. cbn [step_mods].
  destruct (128 <=? sc) eqn:E.
  - rewrite Hland, Hrel by done. apply Z.leb_le in E.
    repeat match goal with |- context [sc - 128 =? ?k] =>
      replace (sc - 128 =? k) with (sc =? k + 128) by
        (apply eq_true_iff_eq; rewrite !Z.eqb_eq; lia) end.
    rewrite (proj2 (Z.eqb_neq sc 42)), (proj2 (Z.eqb_neq sc 54)) by lia.
    assert (forall x, queue s = queue s ++ (if x : bool then [] else [])) as Hq.
    { intros []; by rewrite app_nil_r. }
    destruct (sc =? 42 + 128) eqn:E1; [|destruct (sc =? 54 + 128) eqn:E2; [|destruct (sc =? 58 + 128)]].
    all: eexists; split; [done|].
    all: try (edestruct set_mods_spec as (? & -> & ->); [done|]; by rewrite <- Hq).
    by rewrite <- Hq.
  - apply Z.leb_gt in E. rewrite !(proj2 (Z.eqb_neq sc (_ + 128))) by lia.
    destruct (Z.eqb_spec sc 42) as [E1|E1]; [|destruct (Z.eqb_spec sc 54) as [E2|E2]].
    1-2: eexists; split; [done|]; edestruct set_mods_spec as (? & -> & ->); [done|].
    1-2: erewrite Hmod by done; by destruct (_ <? _)%nat; rewrite app_nil_r.
    destruct (Hmap eq_refl) as [k Hk]. unfold translate. rewrite Hk. ored.
    unfold typed_char, mods. rewrite Hk. change (default 0 (Some k)) with k. rewrite (proj2 (Z.leb_gt 128 sc)) by lia. cbn [orb].
    cbv beta iota. change (xorb (caps_lock s) (left_shift s || right_shift s)) with (is_caps s).
    set (c := if is_caps s && (97 <=? k) && (k <=? 122) then k - 97 + 65 else k).
    assert ((if is_caps s then capital k else k) = c) as ->.
    { subst c. unfold capital. destruct (is_caps s); cbn; [|done].
      destruct ((97 <=? k) && (k <=? 122)); lia. }
    assert ((c =? 0) = (k =? 0)) as ->.
    { subst c. destruct (is_caps s); cbn; [|done]. destruct (Z.leb_spec 97 k); cbn; [|done].
      destruct (k <=? 122); [|done]. apply eq_true_iff_eq. rewrite !Z.eqb_eq. lia. }
    destruct (k =? 0); cbn [negb].
    + exists s. destruct (_ <? _)%nat; by rewrite app_nil_r.
    + destruct (push_spec c s Hwf) as (s' & -> & ? & Hl & Hr & Hc & Hq). exists s'.
      split; [done|]. split; [done|]. rewrite Hl, Hr, Hc. split; [done|].
      destruct (_ <? _)%nat; [by destruct Hq|]. subst. by rewrite app_nil_r.
Qed.

Lemma pop_spec s :
  wf s -> buffer_read_index s <> buffer_write_index s ->
  exists c s', pop s = Ret (c, s') /\ wf s' /\ mods s' = mods s /\ queue s = c :: queue s'.
Proof.
  intros [Hb Hw Hr] Hne. unfold pop. unfold buffer_size in *.
  destruct (zlookup_is_Some (buffer s) (buffer_read_index s)) as [c Hc]; [lia|]. rewrite Hc. ored.
  eexists c, _. split; [done|]. split.
  { split; cbn [buffer buffer_write_index buffer_read_index]; [done|done|apply Z.mod_pos_bound; done]. }
  split; [done|]. unfold queue.
  assert (forall b e l r c', waiting (mkKbd b (buffer_write_index s) ((buffer_read_index s + 1) mod 256) l r c' e)
      = waiting s - 1) as ->.
  { intros. pose proof (waiting_range s). unfold waiting, buffer_size in *. cbn [buffer_write_index buffer_read_index].
    rewrite Zminus_mod_idemp_r.
    replace (buffer_write_index s - (buffer_read_index s + 1))
      with (buffer_write_index s - buffer_read_index s - 1) by lia.
    rewrite <- Zminus_mod_idemp_l. apply Z.mod_small.
    assert ((buffer_write_index s - buffer_read_index s) mod 256 <> 0); [|lia].
    intros H0. apply Z.mod_divide in H0 as [q Hq]; lia. }
  assert (0 < waiting s).
  { unfold waiting, buffer_size. pose proof (Z.mod_pos_bound (buffer_write_index s - buffer_read_index s) 256 ltac:(lia)).
    assert ((buffer_write_index s - buffer_read_index s) mod 256 <> 0); [|lia].
    intros H0. apply Z.mod_divide in H0 as [q Hq]; lia. }
  replace (Z.to_nat (waiting s)) with (S (Z.to_nat (waiting s - 1))) by lia. cbn [ring buffer buffer_read_index].
  by rewrite Hc.
Qed.

Lemma queue_nil s : buffer_read_index s = buffer_write_index s -> queue s = [].
Proof. intros E. unfold queue, waiting. by rewrite E, Z.sub_diag. Qed.

(** ** The keyboard as a typewriter *)

Lemma read_loop_spec fuel : forall n incoming s,
  wf s -> forallb is_u8 incoming = true -> (n + length incoming < fuel)%nat ->
  match line n (queue s ++ typed (mods s) incoming) with
  | Some bs => exists rest s', read_loop fuel n incoming s = Ret (bs, rest, s') /\ wf s' /\
      queue s ++ typed (mods s) incoming = bs ++ queue s' ++ typed (mods s') rest
  | None => read_loop fuel n incoming s = Diverge
  end.
Proof.
  induction fuel as [|fuel IH]; intros n incoming s Hwf Hin Hfuel; [lia|]. cbn [read_loop].
  destruct n as [|n]; [cbn [line]; by exists incoming, s|].
  destruct (Z.eqb_spec (buffer_read_index s) (buffer_write_index s)) as [E|E].
  - pose proof (queue_nil s E) as Hq. rewrite Hq. cbn [app]. destruct incoming as [|sc incoming]; [done|].
    cbn in Hin. apply andb_prop in Hin as [Hsc Hin].
    destruct (irq_spec sc s Hwf Hsc) as (s1 & -> & Hwf1 & Hm & Hq1). ored.
    specialize (IH (S n) incoming s1 Hwf1 Hin ltac:(cbn in *; lia)).
    rewrite Hq in Hq1. cbn in Hq1. rewrite Hm, Hq1 in IH. exact IH.
  - destruct (pop_spec s Hwf E) as (c & s1 & -> & Hwf1 & Hm & Hq). ored.
    rewrite Hq, <- Hm. cbn [app line]. destruct (c =? 10) eqn:Ec.
    + exists incoming, s1. done.
    + specialize (IH n incoming s1 Hwf1 Hin ltac:(lia)).
      destruct (line n (queue s1 ++ typed (mods s1) incoming)) as [bs|]; cbn.
      * destruct IH as (rest & s' & -> & Hwf' & Heq). exists rest, s'. ored.
        split; [done|]. split; [done|]. by rewrite Heq.
      * by rewrite IH.
Qed.

(** C28. [read] returns exactly the first line (or the first [count] characters)
    of what is queued followed by what is typed while it waits, in order; what
    is left stays queued; with neither a line nor [count] characters coming it
    waits for ever.  No character typed while it waits is lost. *)
Theorem read_reads_a_line count incoming s :
  wf s -> forallb is_u8 incoming = true ->
  match line (Z.to_nat count) (queue s ++ typed (mods s) incoming) with
  | Some bs => exists rest s', read count incoming s = Ret (bs, rest, s') /\ wf s' /\
      queue s ++ typed (mods s) incoming = bs ++ queue s' ++ typed (mods s') rest
  | None => read count incoming s = Diverge
  end.
Proof. intros Hwf Hin. apply read_loop_spec; [done|done|lia]. Qed.

(** The interrupt handler follows the shift and caps lock state machine,
    queues the character a key types at the tail of the ring buffer and drops
    it only when 255 characters are already waiting. *)
Theorem irq_queues_the_character sc s :
  wf s -> is_u8 sc = true ->
  exists s', irq sc s = Ret s' /\ wf s' /\ mods s' = step_mods (mods s) sc /\
    queue s' = queue s ++ (if (length (queue s) <? 255)%nat then typed_char (mods s) sc else []).
Proof. apply irq_spec. Qed.

(** ** Concrete inputs *)

(** Shift, [h], unshift, [i], enter; the line ends there. *)
Lemma read_reads_a_line_witness :
  exists rest s', read 16 [42; 35; 42 + 128; 23; 28; 30] init = Ret ([72; 105; 10], rest, s') /\
    wf s' /\ [72; 105; 10; 97] = [72; 105; 10] ++ queue s' ++ typed (mods s') rest.
Proof. exact (read_reads_a_line 16 [42; 35; 42 + 128; 23; 28; 30] init init_wf eq_refl). Defined.

Lemma irq_queues_the_character_witness :
  exists s', irq 35 init = Ret s' /\ wf s' /\ mods s' = step_mods (mods init) 35 /\ queue s' = [104].
Proof. exact (irq_queues_the_character 35 init init_wf eq_refl). Defined.

(** Caps lock acts when the key is released, not when it is pressed. *)
Example caps_lock_on_release :
  (s ← irq 58 init; Ret (caps_lock s)) = Ret false /\
  (s ← irq 58 init; s ← irq (58 + 128) s; Ret (caps_lock s)) = Ret true.
Proof. done. Qed.
