(* ===== verification/Printf.v ===== *)
(** * klib/cstdio.cpp: formatted printing

    [vprintf] over an abstract [putchar] acting on a console state, so that the
    kernel's and the user program's copies are instances of one definition.
    A format is the list of its characters before the terminator.  The
    arguments are a list of integers and of pointers, a pointer being the bytes
    found from its target on; reading past them, or asking for an argument that
    is missing or of the other sort, is a fault.  The print lock is in
    file Report. *)
From S2P Require Import Prelude CString.

Inductive arg := AInt (v : Z) | AStr (mem : list Z).

(** ** Numbers *)

(** [while (x /= base) i++;]  64 rounds are enough for a [u64]. *)
Fixpoint num_digits_loop (fuel : nat) (x base : Z) : outcome Z :=
  match fuel with
  | O => Diverge
  | S fuel =>
      if x / base =? 0 then Ret 0
      else i ← num_digits_loop fuel (x / base) base; Ret (i + 1)
  end.
Definition num_digits (x base : Z) : outcome Z := num_digits_loop 65 x base.

(** [for (int dii = 0; dii < di; dii++) v /= base;] *)
Fixpoint divide_loop (di : nat) (base v : Z) : Z :=
  match di with O => v | S di => divide_loop di base (v / base) end.

Definition low : list Z := lit "0123456789abcdef".
Definition high : list Z := lit "0123456789ABCDEF".

Section vprintf.
Context {S : Type} (putchar : Z -> S -> outcome S).

(** The console with [written]. *)
Definition emit (c : Z) (st : S * Z) : outcome (S * Z) :=
  s ← putchar c st.1; Ret (s, st.2 + 1).

Fixpoint put_all (cs : list Z) (st : S * Z) : outcome (S * Z) :=
  match cs with
  | [] => Ret st
  | c :: cs => st ← emit c st; put_all cs st
  end.

(** [for (int di = digits; di >= 0; di--) ...], [glyph d] the character for [d]. *)
Fixpoint put_digits (di : nat) (base value : Z) (glyph : Z -> outcome Z) (st : S * Z) :
    outcome (S * Z) :=
  c ← glyph (divide_loop di base value mod base);
  st ← emit c st;
  match di with O => Ret st | Datatypes.S di => put_digits di base value glyph st end.

(** The padding and digits of a number. *)
Definition put_number (zero_pad base value : Z) (glyph : Z -> outcome Z) (st : S * Z) :
    outcome (S * Z) :=
  digits ← num_digits value base;
  st ← (if negb (zero_pad =? 0) && (digits <? zero_pad)
        then put_all (replicate (Z.to_nat (zero_pad - digits - 1)) 48) st else Ret st);
  put_digits (Z.to_nat digits) base value glyph st.

(** [va_arg(list, u64)] or [va_arg(list, u32)] *)
Definition int_arg (long_int : bool) (args : list arg) : outcome (Z * list arg) :=
  match args with
  | AInt v :: args => Ret (if long_int then u64 v else u32 v, args)
  | _ => Fault
  end.

Definition str_arg (args : list arg) : outcome (list Z * list arg) :=
  match args with AStr mem :: args => Ret (mem, args) | _ => Fault end.

Fixpoint put_str_n (n : nat) (mem : list Z) (st : S * Z) : outcome (S * Z) :=
  match n with
  | O => Ret st
  | Datatypes.S n =>
      match mem with
      | [] => Fault
      | c :: mem => st ← emit c st; put_str_n n mem st
      end
  end.

Fixpoint put_str (mem : list Z) (st : S * Z) : outcome (S * Z) :=
  match mem with
  | [] => Fault
  | c :: mem => if c =? 0 then Ret st else st ← emit c st; put_str mem st
  end.

Definition is_digit (c : Z) : bool := (48 <=? c) && (c <=? 57).

(** The conversion after a ['%'], [fmt] being [format + i]; the result is the
    format after the conversion character and the arguments left.  A character
    that is no case of the [switch] leaves [i] where it is: the [while (1)]
    never ends. *)
Fixpoint convert (fmt : list Z) (alt_form long_int : bool) (zero_pad s_length : Z)
    (args : list arg) (st : S * Z) : outcome (list Z * list arg * (S * Z)) :=
  match fmt with
  | [] => Diverge
  | c :: fmt =>
      if c =? 35 then convert fmt true long_int zero_pad s_length args st
      else if c =? 48 then
        match fmt with
        | [] => Fault
        | z :: fmt =>
            match fmt with
            | d :: fmt' =>
                if is_digit d
                then convert fmt' alt_form long_int (u64 ((i8 z - 48) * 10 + (d - 48))) s_length args st
                else convert fmt alt_form long_int (u64 (i8 z - 48)) s_length args st
            | [] => convert fmt alt_form long_int (u64 (i8 z - 48)) s_length args st
            end
        end
      else if c =? 108 then convert fmt alt_form true zero_pad s_length args st
      else if c =? 46 then
        match fmt with
        | s :: fmt' =>
            if s =? 42
            then '(n, args) ← int_arg true args; convert fmt' alt_form long_int zero_pad n args st
            else convert fmt alt_form long_int zero_pad s_length args st
        | [] => convert fmt alt_form long_int zero_pad s_length args st
        end
      else if (c =? 120) || (c =? 88) then
        st ← (if alt_form : bool then put_all [48; 120] st else Ret st);
        '(value, args) ← int_arg long_int args;
        st ← put_number zero_pad 16 value
               (fun d => of_option (zlookup (if c =? 88 then high else low) d)) st;
        Ret (fmt, args, st)
      else if c =? 100 then
        '(value, args) ← int_arg long_int args;
        st ← put_number zero_pad 10 value (fun d => Ret (48 + d)) st;
        Ret (fmt, args, st)
      else if c =? 115 then
        '(str, args) ← str_arg args;
        st ← (if negb (s_length =? 0) then put_str_n (Z.to_nat s_length) str st else put_str str st);
        Ret (fmt, args, st)
      else Diverge
  end.

Fixpoint vprintf_loop (fuel : nat) (format : list Z) (args : list arg) (st : S * Z) :
    outcome (S * Z) :=
  match fuel with
  | O => Diverge
  | Datatypes.S fuel =>
      match format with
      | [] => Ret st
      | c :: format =>
          if c =? 0 then Ret st
          else if c =? 37 then
            '(format, args, st) ← convert format false false 0 0 args st;
            vprintf_loop fuel format args st
          else st ← emit c st; vprintf_loop fuel format args st
      end
  end.

(** The console after printing, and the count returned. *)
Definition vprintf (format : list Z) (args : list arg) (s : S) : outcome (S * Z) :=
  vprintf_loop (Datatypes.S (length format)) format args (s, 0).

End vprintf.

(** ** What a format prescribes *)

(** Formats in the documented shape: characters, [%x %X %d] with alternate form,
    a zero-padded width below 100 and the long modifier, [%s] and [%.*s]. *)
Inductive piece :=
| PChar (c : Z)
| PHex (alt long upper : bool) (pad : Z)
| PDec (long : bool) (pad : Z)
| PStr
| PStrN.

Definition pad_flag (pad : Z) : list Z :=
  if pad =? 0 then [] else if pad <? 10 then [48; 48 + pad] else [48; 48 + pad / 10; 48 + pad mod 10].

Definition render_piece (p : piece) : list Z :=
  match p with
  | PChar c => [c]
  | PHex alt long upper pad =>
      37 :: (if alt then [35] else []) ++ pad_flag pad ++ (if long then [108] else []) ++
      [if upper then 88 else 120]
  | PDec long pad => 37 :: pad_flag pad ++ (if long then [108] else []) ++ [100]
  | PStr => [37; 115]
  | PStrN => [37; 46; 42; 115]
  end.

Definition piece_ok (p : piece) : bool :=
  match p with
  | PChar c => negb (c =? 0) && negb (c =? 37)
  | PHex _ _ _ pad | PDec _ pad => (0 <=? pad) && (pad <? 100)
  | _ => true
  end.

(** The numeral of [v], most significant digit first, and its value. *)
Fixpoint numeral (fuel : nat) (base v : Z) : list Z :=
  match fuel with
  | O => []
  | S fuel => if v <? base then [v] else numeral fuel base (v / base) ++ [v mod base]
  end.

Definition value (base : Z) (ds : list Z) : Z := foldl (fun acc d => acc * base + d) 0 ds.

Definition padded (pad base v : Z) : list Z :=
  let ds := numeral 65 base v in replicate (Z.to_nat pad - length ds) 0 ++ ds.

Definition hex_digit (upper : bool) (d : Z) : Z := if d <? 10 then 48 + d else if upper then 55 + d else 87 + d.

(** What a piece prints with the arguments at hand, and the arguments left. *)
Definition output_piece (p : piece) (args : list arg) : option (list Z * list arg) :=
  match p, args with
  | PChar c, _ => Some ([c], args)
  | PHex alt long upper pad, AInt v :: args =>
      Some ((if alt then [48; 120] else []) ++
            (hex_digit upper <$> padded pad 16 (if long then u64 v else u32 v)), args)
  | PDec long pad, AInt v :: args =>
      Some (Z.add 48 <$> padded pad 10 (if long then u64 v else u32 v), args)
  | PStr, AStr mem :: args =>
      if bool_decide (strlen mem < Z.of_nat (length mem))
      then Some (take (Z.to_nat (strlen mem)) mem, args) else None
  | PStrN, AInt n :: AStr mem :: args =>
      if bool_decide (0 < u64 n <= Z.of_nat (length mem))
      then Some (take (Z.to_nat (u64 n)) mem, args) else None
  | _, _ => None
  end.

Fixpoint output (ps : list piece) (args : list arg) : option (list Z) :=
  match ps with
  | [] => Some []
  | p :: ps =>
      match output_piece p args with
      | Some (o, args) => app o <$> output ps args
      | None => None
      end
  end.

Definition render (ps : list piece) : list Z := concat (render_piece <$> ps).

(** Strings and plain characters are printed as they are. *)
Lemma strlen_terminated cs rest : Forall (fun c => c <> 0) cs -> strlen (cs ++ 0 :: rest) = Z.of_nat (length cs).
Proof.
  induction 1 as [|c cs Hc _ IH]; [done|]. cbn [app strlen length]. rewrite (proj2 (Z.eqb_neq _ _) Hc), IH. lia.
Qed.

Lemma output_str cs rest ps args :
  Forall (fun c => c <> 0) cs -> output (PStr :: ps) (AStr (cs ++ 0 :: rest) :: args) = app cs <$> output ps args.
Proof.
  intros Hcs. cbn [output output_piece]. rewrite strlen_terminated by done.
  rewrite bool_decide_true by (rewrite length_app; cbn [length]; lia).
  by rewrite Nat2Z.id, take_app_length.
Qed.

Lemma output_chars cs ps args : output ((PChar <$> cs) ++ ps) args = app cs <$> output ps args.
Proof.
  induction cs as [|c cs IH]; [cbn; by destruct (output ps args)|]. cbn [fmap list_fmap app output output_piece]. rewrite IH.
  by destruct (output ps args).
Qed.

Lemma render_chars cs ps : render ((PChar <$> cs) ++ ps) = cs ++ render ps.
Proof. induction cs as [|c cs IH]; [done|]. unfold render in *. cbn. by rewrite <- IH. Qed.

(** Characters that stand for themselves in a format. *)
Definition plain (cs : list Z) : bool := forallb (fun c => negb (c =? 0) && negb (c =? 37)) cs.

Lemma plain_ok cs ps : plain cs = true -> forallb piece_ok ((PChar <$> cs) ++ ps) = forallb piece_ok ps.
Proof. unfold plain. induction cs as [|c cs IH]; [done|]. cbn. intros [-> Hcs]%andb_true_iff. by apply IH. Qed.

(** ** Numbers are printed as their numerals *)

Fixpoint digits_from (d : nat) (base v : Z) : list Z :=
  (divide_loop d base v mod base) ::
  match d with O => [] | S d => digits_from d base v end.

Lemma digits_from_S d base v :
  digits_from (S d) base v = digits_from d base (v / base) ++ [v mod base].
Proof.
  induction d as [|d IH]; [done|].
  change (digits_from (S (S d)) base v)
    with ((divide_loop (S (S d)) base v mod base) :: digits_from (S d) base v).
  rewrite IH. done.
Qed.

Lemma num_digits_spec fuel base : forall v,
  2 <= base -> 0 <= v < 2 ^ Z.of_nat fuel -> (0 < fuel)%nat ->
  exists d, num_digits_loop fuel v base = Ret (Z.of_nat d) /\
    numeral fuel base v = digits_from d base v /\ Forall (fun x => 0 <= x < base) (numeral fuel base v).
Proof.
  induction fuel as [|fuel IH]; intros v Hb Hv Hf; [lia|]. cbn [num_digits_loop numeral].
  destruct (Z.ltb_spec v base) as [Hlt|Hge].
  - rewrite (Z.div_small v base) by lia. exists 0%nat. split; [done|]. split.
    + cbn. by rewrite Z.mod_small by lia.
    + constructor; [lia|constructor].
  - assert (1 <= v / base) by (apply Z.div_le_lower_bound; lia).
    rewrite (proj2 (Z.eqb_neq _ _)) by lia.
    assert (0 <= v / base < 2 ^ Z.of_nat fuel) as Hv'.
    { split; [lia|]. apply Z.div_lt_upper_bound; [lia|].
      replace (Z.of_nat (S fuel)) with (Z.of_nat fuel + 1) in Hv by lia.
      rewrite Z.pow_add_r in Hv by lia. nia. }
    destruct fuel as [|fuel]; [cbn in Hv'; lia|].
    destruct (IH (v / base) Hb Hv' ltac:(lia)) as (d & -> & -> & Hall). ored.
    exists (S d). rewrite digits_from_S. split; [f_equal; lia|]. split; [done|].
    rewrite Forall_app. split; [done|]. constructor; [|constructor]. apply Z.mod_pos_bound. lia.
Qed.

Lemma numeral_u64 base v :
  2 <= base -> 0 <= v < 2 ^ 64 ->
  exists d, num_digits v base = Ret (Z.of_nat d) /\
    numeral 65 base v = digits_from d base v /\ Forall (fun x => 0 <= x < base) (numeral 65 base v).
Proof. intros Hb Hv. apply (num_digits_spec 65); lia. Qed.

Lemma length_digits_from d base v : length (digits_from d base v) = S d.
Proof. induction d; cbn in *; lia. Qed.

Lemma value_snoc base ds d : value base (ds ++ [d]) = value base ds * base + d.
Proof. unfold value. by rewrite foldl_app. Qed.

Lemma numeral_sound fuel base : forall v,
  2 <= base -> 0 <= v < 2 ^ Z.of_nat fuel -> (0 < fuel)%nat ->
  value base (numeral fuel base v) = v /\
  (v = 0 \/ exists d ds, numeral fuel base v = d :: ds /\ 0 < d).
Proof.
  induction fuel as [|fuel IH]; intros v Hb Hv Hf; [lia|]. cbn [numeral].
  destruct (Z.ltb_spec v base) as [Hlt|Hge].
  - split; [by cbn|]. destruct (decide (v = 0)); [by left|right]. exists v, []. split; [done|lia].
  - assert (1 <= v / base) by (apply Z.div_le_lower_bound; lia).
    assert (0 <= v / base < 2 ^ Z.of_nat fuel) as Hv'.
    { split; [lia|]. apply Z.div_lt_upper_bound; [lia|].
      replace (Z.of_nat (S fuel)) with (Z.of_nat fuel + 1) in Hv by lia.
      rewrite Z.pow_add_r in Hv by lia. nia. }
    destruct fuel as [|fuel]; [cbn in Hv'; lia|].
    destruct (IH (v / base) Hb Hv' ltac:(lia)) as [Hval Hd].
    rewrite value_snoc, Hval. split; [rewrite Z.mul_comm; symmetry; apply Z.div_mod; lia|].
    right. destruct Hd as [|(d & ds & -> & ?)]; [lia|]. by exists d, (ds ++ [v mod base]).
Qed.

(** ** [vprintf] prints what the format prescribes *)
Section output.
Context {S : Type} (putchar : Z -> S -> outcome S).
Implicit Types (st : S * Z).

Lemma put_all_app cs1 cs2 st :
  put_all putchar (cs1 ++ cs2) st = (st ← put_all putchar cs1 st; put_all putchar cs2 st).
Proof.
  revert st. induction cs1 as [|c cs1 IH]; intros st; [done|]. cbn [app put_all].
  destruct (emit putchar c st); ored; [apply IH|done..].
Qed.

Lemma put_digits_spec base v glyph g :
  (forall d, 0 <= d < base -> glyph d = Ret (g d)) -> 0 < base -> forall d st,
  put_digits putchar d base v glyph st = put_all putchar (g <$> digits_from d base v) st.
Proof.
  intros Hg Hb d. induction d as [|d IH]; intros st; cbn [put_digits];
    rewrite Hg by (apply Z.mod_pos_bound; lia); ored; cbn [digits_from fmap list_fmap put_all].
  - done.
  - destruct (emit _ _ _); ored; [apply IH|done..].
Qed.

Lemma put_number_spec pad base v glyph g st :
  (forall d, 0 <= d < base -> glyph d = Ret (g d)) -> g 0 = 48 ->
  2 <= base -> 0 <= v < 2 ^ 64 -> 0 <= pad ->
  put_number putchar pad base v glyph st = put_all putchar (g <$> padded pad base v) st.
Proof.
  intros Hg Hg0 Hb Hv Hpad. unfold put_number, padded.
  destruct (numeral_u64 base v Hb Hv) as (d & -> & -> & _). ored.
  rewrite length_digits_from, Nat2Z.id, fmap_app, fmap_replicate, Hg0.
  replace (Z.to_nat pad - Datatypes.S d)%nat with (Z.to_nat (pad - Z.of_nat d - 1)) by lia.
  transitivity (st ← (if negb (pad =? 0) && (Z.of_nat d <? pad)
      then put_all putchar (replicate (Z.to_nat (pad - Z.of_nat d - 1)) 48) st else Ret st);
    put_all putchar (g <$> digits_from d base v) st).
  { apply bind_ext; [done|]. intros a. apply put_digits_spec; [done|lia]. }
  destruct (negb (pad =? 0) && (Z.of_nat d <? pad)) eqn:E.
  - by rewrite put_all_app.
  - assert (Z.to_nat (pad - Z.of_nat d - 1) = 0%nat) as ->; [|done].
    apply andb_false_iff in E as [E%negb_false_iff%Z.eqb_eq|E%Z.ltb_ge]; lia.
Qed.

Lemma convert_pad pad fmt alt long sl args st :
  0 <= pad < 100 -> (forall d f, fmt = d :: f -> is_digit d = false) -> fmt <> [] ->
  convert putchar (pad_flag pad ++ fmt) alt long 0 sl args st =
  convert putchar fmt alt long pad sl args st.
Proof.
  intros Hpad Hd Hne. unfold pad_flag. destruct (Z.eqb_spec pad 0) as [->|H0]; [done|].
  destruct (Z.ltb_spec pad 10).
  - cbn [app convert Z.eqb Pos.eqb]. destruct fmt as [|d f]; [done|]. rewrite (Hd d f) by done.
    unfold i8. rewrite (wrap_small 8 (48 + pad)) by lia. rewrite (proj2 (Z.ltb_lt _ _)) by lia.
    rewrite wrap_small by lia. f_equal. lia.
  - assert (0 <= pad / 10 < 10) by (split; [apply Z.div_pos; lia|apply Z.div_lt_upper_bound; lia]).
    pose proof (Z.mod_pos_bound pad 10 ltac:(lia)).
    cbn [app convert Z.eqb Pos.eqb]. unfold is_digit.
    rewrite !(proj2 (Z.leb_le _ _)) by lia. cbn [andb].
    unfold i8. rewrite (wrap_small 8 (48 + pad / 10)) by lia. rewrite (proj2 (Z.ltb_lt _ _)) by lia.
    rewrite wrap_small by lia. f_equal. rewrite (Z.div_mod pad 10) at 3 by lia. lia.
Qed.

Lemma int_arg_range long args v args' :
  int_arg long args = Ret (v, args') -> 0 <= v < 2 ^ 64.
Proof.
  destruct args as [|[x|m] args]; cbn; try done. intros [= <- <-].
  destruct long; [apply wrap_range; lia|].
  pose proof (wrap_range 32 x ltac:(lia)). lia.
Qed.

Lemma hex_glyph upper d :
  0 <= d < 16 -> of_option (zlookup (if upper : bool then high else low) d) = Ret (hex_digit upper d).
Proof.
  intros Hd.
  assert (forallb (fun d => match of_option (zlookup (if upper then high else low) d) with
    Ret c => c =? hex_digit upper d | _ => false end) (Z.of_nat <$> seq 0 16) = true) as H
    by (destruct upper; by vm_compute).
  rewrite forallb_forall in H. specialize (H d).
  destruct (of_option _); [f_equal; apply Z.eqb_eq| exfalso; assert (false = true); [|done]..]; apply H.
  all: apply list_elem_of_In, list_elem_of_fmap; exists (Z.to_nat d); split; [lia|apply elem_of_seq; lia].
Qed.

Lemma put_str_n_spec n mem st :
  (n <= length mem)%nat -> put_str_n putchar n mem st = put_all putchar (take n mem) st.
Proof.
  revert mem st. induction n as [|n IH]; intros mem st Hn; [done|].
  destruct mem as [|c mem]; [cbn in Hn; lia|]. cbn [put_str_n take put_all].
  destruct (emit _ _ _); ored; [apply IH; cbn in Hn; lia|done..].
Qed.

Lemma strlen_nonneg str : 0 <= strlen str.
Proof. induction str as [|c str IH]; cbn [strlen]; [lia|]. destruct (c =? 0); lia. Qed.

Lemma put_str_spec mem st :
  strlen mem < Z.of_nat (length mem) ->
  put_str putchar mem st = put_all putchar (take (Z.to_nat (strlen mem)) mem) st.
Proof.
  revert st. induction mem as [|c mem IH]; intros st Hl; [cbn in Hl; lia|].
  cbn [strlen put_str] in *. destruct (c =? 0); [done|]. pose proof (strlen_nonneg mem).
  replace (Z.to_nat (1 + strlen mem)) with (Datatypes.S (Z.to_nat (strlen mem))) by lia. cbn [take put_all].
  destruct (emit _ _ _); ored; [apply IH; cbn [length] in Hl; lia|done..].
Qed.

Lemma take_last_not_digit c : (c =? 100) || (c =? 108) || (c =? 120) || (c =? 88) = true ->
  is_digit c = false.
Proof.
  intros H. unfold is_digit. rewrite !orb_true_iff, !Z.eqb_eq in H.
  destruct (Z.leb_spec 48 c), (Z.leb_spec c 57); cbn; lia.
Qed.

(** The conversion of a rendered piece, from after its ['%']. *)
Lemma convert_piece p args o args' rest st :
  piece_ok p = true -> output_piece p args = Some (o, args') ->
  match render_piece p with
  | 37 :: spec =>
      match p with
      | PChar _ => True
      | _ => convert putchar (spec ++ rest) false false 0 0 args st =
               (st ← put_all putchar o st; Ret (rest, args', st))
      end
  | _ => True
  end.
Proof.
  destruct p as [c|alt long upper pad|long pad| |]; intros Hok Ho; cbn [render_piece].
  - by repeat case_match.
  - cbn in Hok. apply andb_prop in Hok as [Hp1%Z.leb_le Hp2%Z.ltb_lt].
    destruct args as [|[v|m] args]; try done. cbn [output_piece] in Ho. injection Ho as <- <-.
    set (value := if long then u64 v else u32 v).
    assert (int_arg long (AInt v :: args) = Ret (value, args)) as Hint by (by destruct long).
    assert (0 <= value < 2 ^ 64) as Hv by (eapply int_arg_range; exact Hint).
    set (tl := (if long then [108] else []) ++ [if upper then 88 else 120]).
    rewrite <- !app_assoc. 
    transitivity (convert putchar (pad_flag pad ++ (tl ++ rest)) alt false 0 0 (AInt v :: args) st).
    { destruct alt; subst tl; by rewrite <- ?app_assoc. }
    rewrite convert_pad; [|done| |by subst tl; destruct long].
    2: { intros d f. subst tl. destruct long, upper; intros [= <- _]; by apply take_last_not_digit. }
    transitivity (convert putchar ((if upper then 88 else 120) :: rest) alt long pad 0 (AInt v :: args) st).
    { subst tl. by destruct long. }
    assert (forall st, put_number putchar pad 16 value
       (fun d => of_option (zlookup (if upper then high else low) d)) st
       = put_all putchar (hex_digit upper <$> padded pad 16 value) st) as Hnum.
    { intros st'. apply put_number_spec; [apply hex_glyph|by destruct upper|lia|done|done]. }
    transitivity (st ← (if alt then put_all putchar [48; 120] st else Ret st);
      '(value, args) ← int_arg long (AInt v :: args);
      st ← put_number putchar pad 16 value
               (fun d => of_option (zlookup (if upper then high else low) d)) st;
      Ret (rest, args, st)).
    { by destruct upper. }
    rewrite put_all_app, bind_assoc. apply bind_ext; [by destruct alt|]. intros st'.
    rewrite Hint. ored. by rewrite Hnum.
  - cbn in Hok. apply andb_prop in Hok as [Hp1%Z.leb_le Hp2%Z.ltb_lt].
    destruct args as [|[v|m] args]; try done. cbn [output_piece] in Ho. injection Ho as <- <-.
    set (value := if long then u64 v else u32 v).
    assert (int_arg long (AInt v :: args) = Ret (value, args)) as Hint by (by destruct long).
    assert (0 <= value < 2 ^ 64) as Hv by (eapply int_arg_range; exact Hint).
    set (tl := (if long then [108] else []) ++ [100]). rewrite <- !app_assoc.
    transitivity (convert putchar (pad_flag pad ++ (tl ++ rest)) false false 0 0 (AInt v :: args) st).
    { subst tl. by rewrite <- ?app_assoc. }
    rewrite convert_pad; [|done| |by subst tl; destruct long].
    2: { intros d f. subst tl. destruct long; intros [= <- _]; by apply take_last_not_digit. }
    transitivity ('(value, args) ← int_arg long (AInt v :: args);
      st ← put_number putchar pad 10 value (fun d => Ret (48 + d)) st; Ret (rest, args, st)).
    { subst tl. by destruct long. }
    rewrite Hint. ored. by rewrite (put_number_spec pad 10 value _ (Z.add 48)).
  - destruct args as [|[v|mem] args]; try done. cbn [output_piece] in Ho.
    case_bool_decide as Hl; [|done]. injection Ho as <- <-. cbn [app convert Z.eqb Pos.eqb orb].
    cbn [str_arg]. ored. cbn [negb]. by rewrite put_str_spec.
  - destruct args as [|[n|?] [|[?|mem] args]]; try done. cbn [output_piece] in Ho.
    case_bool_decide as Hl; [|done]. injection Ho as <- <-.
    cbn [app convert Z.eqb Pos.eqb orb int_arg str_arg]. ored. cbn [str_arg]. ored.
    rewrite (proj2 (Z.eqb_neq (u64 n) 0)) by lia. cbn [negb]. by rewrite put_str_n_spec by lia.
Qed.

Lemma vprintf_loop_spec ps : forall fuel args o st,
  forallb piece_ok ps = true -> output ps args = Some o -> (length ps < fuel)%nat ->
  vprintf_loop putchar fuel (render ps) args st = put_all putchar o st.
Proof.
  induction ps as [|p ps IH]; intros fuel args o st Hok Ho Hf; (destruct fuel as [|fuel]; [lia|]).
  - by injection Ho as <-.
  - cbn in Hok. apply andb_prop in Hok as [Hp Hok]. cbn [output] in Ho.
    destruct (output_piece p args) as [[o1 args']|] eqn:Hp1; [|done].
    apply fmap_Some in Ho as (o2 & Ho2 & ->). cbn in Hf.
    change (render (p :: ps)) with (render_piece p ++ render ps). rewrite put_all_app.
    pose proof (convert_piece p args o1 args' (render ps) st Hp Hp1) as Hc.
    destruct p as [c| | | |]; cbn [render_piece app] in Hc |- *; cbn [vprintf_loop].
    + cbn in Hp. apply andb_prop in Hp as [Hc0%negb_true_iff Hc1%negb_true_iff]. rewrite Hc0, Hc1.
      cbn in Hp1. injection Hp1 as <- <-. cbn [put_all]. rewrite bind_assoc.
      apply bind_ext; [done|]. intros st1. ored. apply IH; [done|done|lia].
    + cbn [Z.eqb Pos.eqb]. rewrite Hc, bind_assoc. apply bind_ext; [done|]. intros st1. ored.
      apply IH; [done|done|lia].
    + cbn [Z.eqb Pos.eqb]. rewrite Hc, bind_assoc. apply bind_ext; [done|]. intros st1. ored.
      apply IH; [done|done|lia].
    + cbn [Z.eqb Pos.eqb]. rewrite Hc, bind_assoc. apply bind_ext; [done|]. intros st1. ored.
      apply IH; [done|done|lia].
    + cbn [Z.eqb Pos.eqb]. rewrite Hc, bind_assoc. apply bind_ext; [done|]. intros st1. ored.
      apply IH; [done|done|lia].
Qed.

Lemma length_render ps : (length ps <= length (render ps))%nat.
Proof.
  induction ps as [|p ps IH]; [done|]. change (render (p :: ps)) with (render_piece p ++ render ps).
  rewrite length_app. assert (1 <= length (render_piece p))%nat; [destruct p; cbn; lia|]. cbn. lia.
Qed.

(** The console after the characters [cs]. *)
Fixpoint puts (cs : list Z) (s : S) : outcome S :=
  match cs with [] => Ret s | c :: cs => s ← putchar c s; puts cs s end.

Lemma put_all_puts cs s w :
  put_all putchar cs (s, w) = (s ← puts cs s; Ret (s, w + Z.of_nat (length cs))).
Proof.
  revert s w. induction cs as [|c cs IH]; intros s w; cbn [put_all puts length].
  - ored. by rewrite Z.add_0_r.
  - unfold emit. cbn [fst snd]. rewrite !bind_assoc. apply bind_ext; [done|]. intros s1. ored.
    rewrite IH. apply bind_ext; [done|]. intros. f_equal. f_equal. lia.
Qed.

Lemma vprintf_puts ps args o s :
  forallb piece_ok ps = true -> output ps args = Some o ->
  vprintf putchar (render ps) args s = (s' ← puts o s; Ret (s', Z.of_nat (length o))).
Proof.
  intros Hok Ho. unfold vprintf. pose proof (length_render ps).
  rewrite (vprintf_loop_spec ps _ args o) by (done || lia). by rewrite put_all_puts.
Qed.

(** Whatever the console, [vprintf] with a format in the documented shape
    returns after putting exactly the characters the format prescribes for its
    arguments, in order, and returns their number. *)
Theorem vprintf_prints ps args o s :
  forallb piece_ok ps = true -> output ps args = Some o ->
  vprintf putchar (render ps) args s = (s' ← puts o s; Ret (s', Z.of_nat (length o))).
Proof. apply vprintf_puts. Qed.

End output.

(** The digits printed for a number are its numeral: they evaluate to it, each
    is below the base and there is no leading zero. *)
Theorem numeral_roundtrip base v :
  2 <= base -> 0 <= v < 2 ^ 64 ->
  exists d, num_digits v base = Ret d /\
    value base (digits_from (Z.to_nat d) base v) = v /\
    Forall (fun x => 0 <= x < base) (digits_from (Z.to_nat d) base v) /\
    (v = 0 \/ exists x ds, digits_from (Z.to_nat d) base v = x :: ds /\ 0 < x).
Proof.
  intros Hb Hv. destruct (numeral_u64 base v Hb Hv) as (d & Hd & E & Hall). exists (Z.of_nat d).
  rewrite Nat2Z.id, <- E. split; [done|].
  destruct (numeral_sound 65 base v Hb) as [? ?]; [lia..|]. done.
Qed.

(** ** Concrete inputs *)

(** A console that keeps what is put on it. *)
Definition log (c : Z) (s : list Z) : outcome (list Z) := Ret (s ++ [c]).

(** [printf("%s: %#lX %04d", ...)] *)
Lemma vprintf_prints_witness :
  vprintf log (lit "%s: %#lX %04d") [AStr (lit "at" ++ [0; 7]); AInt 0xBEEF; AInt 42] []
  = Ret (lit "at: 0xBEEF 0042", 15).
Proof.
  exact (vprintf_prints log
    [PStr; PChar 58; PChar 32; PHex true true true 0; PChar 32; PDec false 4]
    [AStr (lit "at" ++ [0; 7]); AInt 0xBEEF; AInt 42] (lit "at: 0xBEEF 0042") [] eq_refl eq_refl).
Defined.

Lemma numeral_roundtrip_witness :
  exists d, num_digits 2026 10 = Ret d /\ value 10 (digits_from (Z.to_nat d) 10 2026) = 2026 /\
    Forall (fun x => 0 <= x < 10) (digits_from (Z.to_nat d) 10 2026) /\
    (2026 = 0 \/ exists x ds, digits_from (Z.to_nat d) 10 2026 = x :: ds /\ 0 < x).
Proof. apply (numeral_roundtrip 10 2026); lia. Defined.

(** A conversion the [switch] does not know never ends: ["%u"], ["%c"], ["%p"]
    and the usual ["%%"]. *)
Example vprintf_hangs_on_other_conversions :
  vprintf log (lit "%u") [AInt 1] [] = Diverge /\ vprintf log (lit "100%%") [] [] = Diverge.
Proof. done. Qed.

(** A zero length in ["%.*s"] prints the whole string. *)
Example vprintf_zero_length :
  vprintf log (lit "%.*s") [AInt 0; AStr (lit "secret" ++ [0])] [] = Ret (lit "secret", 6).
Proof. by vm_compute. Qed.

(** Negative numbers are printed unsigned. *)
Example vprintf_unsigned : vprintf log (lit "%d") [AInt (-1)] [] = Ret (lit "4294967295", 10).
Proof. by vm_compute. Qed.
