(* ===== verification/Vector.v ===== *)
(** * klib/vector.hpp

    The buffer is the list of its cells, a cell that was never written holding
    nothing.  [realloc] keeps the old cells and adds unwritten ones (file Buddy
    proves it of the allocator); it is granted. *)
From S2P Require Import Prelude.

Section Vector.
Context {T : Type}.

Record Vector := mkVector { m_buffer : list (option T); m_size : Z; m_capacity : Z }.

Definition new (reserve : Z) : Vector := mkVector (replicate (Z.to_nat reserve) None) 0 reserve.

Definition size (v : Vector) : Z := m_size v.
Definition capacity (v : Vector) : Z := m_capacity v.

(** [v[index]], read and written; the index is not compared with the size. *)
Definition at_ (v : Vector) (index : Z) : outcome T :=
  cell ← of_option (zlookup (m_buffer v) index); of_option cell.

Definition put (v : Vector) (index : Z) (x : T) : outcome Vector :=
  _ ← of_option (zlookup (m_buffer v) index);
  Ret (mkVector (zinsert index (Some x) (m_buffer v)) (m_size v) (m_capacity v)).

(** [klib::realloc(m_buffer, n * sizeof(T))] *)
Definition realloc (b : list (option T)) (n : Z) : list (option T) :=
  take (Z.to_nat n) b ++ replicate (Z.to_nat n - length b) None.

Definition push_back (v : Vector) (elem : T) : outcome Vector :=
  let v :=
    if m_size v =? m_capacity v then
      let c := if negb (m_capacity v =? 0) then u64 (m_capacity v * 2) else 1 in
      mkVector (realloc (m_buffer v) c) (m_size v) c
    else v in
  v ← put v (m_size v) elem;
  Ret (mkVector (m_buffer v) (u64 (m_size v + 1)) (m_capacity v)).

(** The elements, as the iterators [begin()] to [end()] meet them. *)
Definition elements (v : Vector) : list (option T) := take (Z.to_nat (m_size v)) (m_buffer v).

(** [v] holds the list [l]. *)
Record holds (v : Vector) (l : list T) : Prop := {
  holds_cells : elements v = Some <$> l;
  holds_size : m_size v = Z.of_nat (length l);
  holds_length : Z.of_nat (length (m_buffer v)) = m_capacity v;
  holds_bounds : m_size v <= m_capacity v < 2 ^ 60
}.

Implicit Types (v : Vector) (l : list T).

Lemma holds_new n : 0 <= n < 2 ^ 60 -> holds (new n) [].
Proof.
  intros. split; [done|done|cbn; rewrite length_replicate; lia|cbn [new m_size m_capacity]; lia].
Qed.

Lemma holds_lookup v l i :
  holds v l -> 0 <= i < m_size v -> zlookup (m_buffer v) i = Some (zlookup l i).
Proof.
  intros [Hc Hs Hl Hb] Hi. assert (zlookup (elements v) i = Some (zlookup l i)) as H.
  { rewrite Hc, zlookup_fmap. destruct (zlookup_is_Some l i) as [x ->]; [lia|done]. }
  unfold elements, zlookup in *. case_bool_decide; [|done].
  rewrite lookup_take_lt in H by lia. done.
Qed.

Lemma at_spec v l i : holds v l -> 0 <= i < m_size v -> at_ v i = of_option (zlookup l i).
Proof. intros Hv Hi. unfold at_. by rewrite (holds_lookup v l i). Qed.

Lemma put_spec v l i x :
  holds v l -> 0 <= i < m_size v -> exists v', put v i x = Ret v' /\ holds v' (zinsert i x l).
Proof.
  intros Hv Hi. pose proof Hv as [Hc Hs Hl Hb]. unfold put. rewrite (holds_lookup v l i) by done. ored.
  eexists. split; [done|]. split; cbn [m_buffer m_size m_capacity].
  - unfold elements in *. cbn [m_buffer m_size]. unfold zinsert.
    rewrite take_insert_lt by lia. rewrite Hc. by rewrite list_fmap_insert.
  - by rewrite length_zinsert.
  - by rewrite length_zinsert.
  - done.
Qed.

Lemma put_snoc v l x :
  holds v l -> m_size v < m_capacity v ->
  exists v', put v (m_size v) x = Ret v' /\ m_size v' = m_size v /\ m_capacity v' = m_capacity v /\
    length (m_buffer v') = length (m_buffer v) /\
    take (S (Z.to_nat (m_size v))) (m_buffer v') = Some <$> (l ++ [x]).
Proof.
  intros [Hc Hs Hl Hb] Hlt. unfold put.
  destruct (zlookup_is_Some (m_buffer v) (m_size v)) as [c E]; [lia|]. rewrite E. ored.
  eexists. split; [done|]. cbn [m_buffer m_size m_capacity]. rewrite length_zinsert.
  split; [done|]. split; [done|]. split; [done|]. unfold zinsert.
  erewrite take_S_r by (apply list_lookup_insert_eq; lia).
  rewrite take_insert_ge by lia. unfold elements in Hc. rewrite Hc. by rewrite fmap_app.
Qed.

Lemma push_back_spec v l x :
  holds v l -> m_capacity v < 2 ^ 59 ->
  exists v', push_back v x = Ret v' /\ holds v' (l ++ [x]).
Proof.
  intros Hv Hcap. pose proof Hv as [Hc Hs Hl Hb]. unfold push_back.
  set (v1 := if m_size v =? m_capacity v then _ else _).
  assert (holds v1 l /\ m_size v1 = m_size v /\ m_size v1 < m_capacity v1) as (Hv1 & Hs1 & Hlt).
  { subst v1. destruct (Z.eqb_spec (m_size v) (m_capacity v)) as [E|E]; [|split; [done|lia]].
    set (c := if negb (m_capacity v =? 0) then u64 (m_capacity v * 2) else 1).
    assert (m_size v < c < 2 ^ 60) as Hcc.
    { subst c. destruct (Z.eqb_spec (m_capacity v) 0); cbn [negb]; [lia|]. rewrite wrap_small; lia. }
    split; [|cbn; lia]. unfold realloc. split; cbn [m_buffer m_size m_capacity]; [|done|..].
    - unfold elements in *. cbn [m_buffer m_size].
      rewrite take_app_le by (rewrite length_take; lia). rewrite take_take.
      rewrite Nat.min_l by lia. done.
    - rewrite length_app, length_take, length_replicate. lia.
    - lia. }
  destruct (put_snoc v1 l x Hv1 Hlt) as (v2 & -> & Hs2 & Hc2 & Hl2 & He). ored.
  eexists. split; [done|]. destruct Hv1 as [_ _ Hl1 Hb1].
  split; cbn [m_buffer m_size m_capacity]; rewrite ?Hs2, ?Hc2, ?length_app; cbn [length].
  - unfold elements. cbn [m_buffer m_size]. rewrite wrap_small by lia.
    by replace (Z.to_nat (m_size v1 + 1)) with (S (Z.to_nat (m_size v1))) by lia.
  - rewrite wrap_small by lia. lia.
  - lia.
  - rewrite wrap_small by lia. lia.
Qed.

(** [push_back] appends: the vector that held [l] holds [l ++ [x]], growing
    its buffer when it is full. *)
Theorem push_back_appends v l x :
  holds v l -> m_capacity v < 2 ^ 59 ->
  exists v', push_back v x = Ret v' /\ holds v' (l ++ [x]).
Proof. apply push_back_spec. Qed.

End Vector.
Arguments Vector : clear implicits.

Lemma push_back_appends_witness :
  exists v', push_back (mkVector [Some 4; Some 5] 2 2) 6 = Ret v' /\ holds v' [4; 5; 6].
Proof. apply (push_back_appends _ [4; 5]); [by split|done]. Defined.
