(* ===== verification/Storage.v ===== *)
(** * Vectors in the heap

    klib/vector.hpp on mem/allocator.cpp: the buffer of a vector is a block of the
    heap of file Buddy, and its cells are bytes of it.  File Vector has the
    vector alone, with allocations granted; here they come from [malloc] and
    [realloc], which may fail. *)
From S2P Require Import Prelude Buddy.

(** ** Bytes of the heap *)
Fixpoint put_bytes (a : Z) (bs : list Z) (d : gmap Z Z) : gmap Z Z :=
  match bs with
  | [] => d
  | b :: bs => put_bytes (a + 1) bs (<[a := b]> d)
  end.

(** Only the heap is known to be memory. *)
Definition write_heap (a : Z) (bs : list Z) (h : heap) : outcome heap :=
  let n := Z.of_nat (length bs) in
  if (head h <=? a) && (a + n <=? tail h) then
    Ret (mkHeap (head h) (tail h)
      (filter (fun p : Z * Block => p.1 + sizeof_Block <= a \/ a + n <= p.1) (hdrs h)) (put_bytes a bs (data h)))
  else Fault.

Definition read_heap (a n : Z) (h : heap) : outcome (list Z) := of_option (mapM (fun i => data h !! i) (seqZ a n)).

(** ** Values of a type as bytes *)
Class Stored (T : Type) := {
  width : Z;
  encode : T -> list Z;
  decode : list Z -> T;
  storable : T -> Prop;
  width_range : 0 < width < 2 ^ 16;
  encode_length x : Z.of_nat (length (encode x)) = width;
  decode_encode x : storable x -> decode (encode x) = x }.

Arguments width T {_}.

(** Pointers and 64-bit integers. *)
#[export] Instance stored_u64 : Stored Z.
Proof.
  refine {| width := 8; encode := bytes_of 8; decode := number; storable x := 0 <= x < 2 ^ 64 |}; [lia| |].
  - intros x. by rewrite length_bytes_of.
  - intros x Hx. by apply number_bytes_of.
Defined.

(** ** klib::Vector *)
Section Storage.
Context {T : Type} `{Stored T}.

Record vector := mkVector { m_buffer : Z; m_size : Z; m_capacity : Z }.

Definition new (reserve : Z) (h : heap) : outcome (vector * heap) :=
  '(p, h) ← (if negb (reserve =? 0) then malloc (u64 (reserve * width T)) h else Ret (0, h));
  Ret (mkVector p 0 reserve, h).

Definition delete (v : vector) (h : heap) : outcome heap := free (m_buffer v) h.

(** [operator []], read and written. *)
Definition at_ (v : vector) (index : Z) (h : heap) : outcome T :=
  bs ← read_heap (u64 (m_buffer v + index * width T)) (width T) h; Ret (decode bs).
Definition put (v : vector) (index : Z) (x : T) (h : heap) : outcome heap :=
  write_heap (u64 (m_buffer v + index * width T)) (encode x) h.

Definition grow (v : vector) (h : heap) : outcome (vector * heap) :=
  if m_size v =? m_capacity v then
    let c := if negb (m_capacity v =? 0) then u64 (m_capacity v * 2) else 1 in
    '(p, h) ← realloc (m_buffer v) (u64 (c * width T)) h;
    Ret (mkVector p (m_size v) c, h)
  else Ret (v, h).

Definition push_back (elem : T) (v : vector) (h : heap) : outcome (vector * heap) :=
  '(v, h) ← grow v h;
  h ← put v (m_size v) elem h;
  Ret (mkVector (m_buffer v) (u64 (m_size v + 1)) (m_capacity v), h).

(** ** What a vector in the heap is *)
Definition cell_bytes (d : gmap Z Z) (a : Z) (bs : list Z) : Prop :=
  forall j b, bs !! j = Some b -> d !! (a + Z.of_nat j) = Some b.

Definition buffer (v : vector) : Z * Block := (m_buffer v - 16, mkBlock (m_capacity v * width T + 16) false).

Record vector_at (h : heap) (l : list (Z * Block)) (v : vector) (xs : list T) : Prop := {
  va_size : m_size v = Z.of_nat (length xs);
  va_capacity : m_size v <= m_capacity v;
  va_buffer : if m_capacity v =? 0 then m_buffer v = 0 else buffer v ∈ used l;
  va_cells i x : xs !! i = Some x -> cell_bytes (data h) (m_buffer v + Z.of_nat i * width T) (encode x);
  va_values : Forall storable xs }.

(** Every live block but [own] stays, with the bytes of its payload. *)
Definition others_stay (own : Z * Block) (h : heap) (l : list (Z * Block)) (h' : heap) (l' : list (Z * Block)) : Prop :=
  forall y c, (y, c) ∈ used l -> (y, c) <> own ->
    (y, c) ∈ used l' /\ forall a, y + 16 <= a < y + size c -> data h' !! a = data h !! a.

(** A heap like the kernel's: far from address 0 and not larger than that. *)
Definition high_heap (h : heap) : Prop := tail h - head h <= 2 ^ 61 /\ tail h - head h <= head h.

(** ** Lemmas *)
Lemma put_bytes_other a bs d i : i < a \/ a + Z.of_nat (length bs) <= i -> put_bytes a bs d !! i = d !! i.
Proof.
  revert a d. induction bs as [|b bs IH]; intros a d Hi; [done|]. cbn [put_bytes length] in *.
  rewrite IH by lia. apply lookup_insert_ne. lia.
Qed.

Lemma put_bytes_at a bs d : cell_bytes (put_bytes a bs d) a bs.
Proof.
  revert a d. induction bs as [|b bs IH]; intros a d [|j] x Hj; [done..| |]; cbn in Hj |- *.
  - injection Hj as <-. rewrite put_bytes_other by lia. rewrite Z.add_0_r. apply lookup_insert_eq.
  - replace (a + Z.of_nat (Datatypes.S j)) with (a + 1 + Z.of_nat j) by lia. by apply IH.
Qed.

Lemma read_heap_spec h a n bs : cell_bytes (data h) a bs -> Z.of_nat (length bs) = n -> read_heap a n h = Ret bs.
Proof.
  intros Hb Hn. unfold read_heap. assert (mapM (fun i => data h !! i) (seqZ a n) = Some bs) as ->; [|done].
  apply mapM_Some, Forall2_same_length_lookup. split; [rewrite length_seqZ; lia|].
  intros j i b Hi Hj. apply lookup_seqZ in Hi as [-> _]. by apply Hb.
Qed.

Lemma same_block h l y b c : inv h l -> (y, b) ∈ used l -> (y, c) ∈ used l -> b = c.
Proof.
  intros (_ & _ & Ht) [Hb _]%used_in [Hc _]%used_in.
  destruct (tiles_in _ _ _ _ _ _ Ht Hb) as (E1 & _), (tiles_in _ _ _ _ _ _ Ht Hc) as (E2 & _). congruence.
Qed.

(** Where the buffer lies. *)
Lemma buffer_place h l v : inv h l -> buffer v ∈ used l ->
  head h + 16 <= m_buffer v /\ m_buffer v + m_capacity v * width T <= tail h /\ 0 < head h /\ tail h < 2 ^ 64.
Proof.
  intros Hi [Hin _]%used_in. destruct (inv_block_bounds h l _ _ Hi Hin) as (_ & _ & H1 & H2 & _).
  pose proof (req_ge (m_capacity v * width T + 16)). cbn [size] in *. destruct Hi as ((? & ? & _) & _). lia.
Qed.

(** Writing a cell. *)
Lemma cell_written h l v i x :
  inv h l -> buffer v ∈ used l -> 0 <= i < m_capacity v ->
  exists h', put v i x h = Ret h' /\ inv h' l /\ head h' = head h /\ tail h' = tail h /\
    cell_bytes (data h') (m_buffer v + i * width T) (encode x) /\
    forall a, a < m_buffer v + i * width T \/ m_buffer v + (i + 1) * width T <= a -> data h' !! a = data h !! a.
Proof.
  intros Hi Hb Hr. pose proof (buffer_place h l v Hi Hb). pose proof (width_range (T := T)) as Hw.
  assert (i * width T + width T <= m_capacity v * width T) by (transitivity ((i + 1) * width T); [lia|apply Z.mul_le_mono_nonneg_r; lia]).
  assert (0 <= i * width T) by (apply Z.mul_nonneg_nonneg; lia).
  unfold put, write_heap. rewrite wrap_small, encode_length by lia. rewrite !(proj2 (Z.leb_le _ _)) by lia. cbn [andb].
  eexists. split; [reflexivity|]. split; [|split; [done|split; [done|split]]].
  - apply used_in in Hb as [Hin _]. apply (tiles_overwrite h l _ _ (m_buffer v + i * width T) (width T) _ Hi Hin); [lia|lia|].
    cbn [size]. pose proof (req_ge (m_capacity v * width T + 16)). lia.
  - apply put_bytes_at.
  - intros a Ha. apply put_bytes_other. rewrite encode_length. lia.
Qed.

Lemma used_NoDup h l : inv h l -> NoDup (used l).*1.
Proof.
  intros (_ & _ & Ht%tiles_NoDup). revert Ht. induction l as [|[y b] l IH]; [constructor|]. cbn.
  intros [Hy Hl]%NoDup_cons. destruct (is_free b); cbn; [by apply IH|]. apply NoDup_cons. split; [|by apply IH].
  intros ([z c] & -> & [Hz _]%used_in)%list_elem_of_fmap. apply Hy. by apply (list_elem_of_fmap_2 fst _ (z, c)).
Qed.

(** Two live blocks with different addresses share no byte. *)
Lemma live_apart h l y c z b : inv h l -> (y, c) ∈ used l -> (z, b) ∈ used l -> y <> z -> y + size c <= z \/ z + size b <= y.
Proof. intros Hi Hy Hz Hne. by destruct (live_blocks_disjoint h l y c z b Hi Hy Hz Hne). Qed.

Lemma fresh_block h' l' nw u y c : inv h' l' -> used l' ≡ₚ nw :: u -> (y, c) ∈ u -> y <> nw.1.
Proof.
  intros Hi Hl' Hu ->. pose proof (used_NoDup _ _ Hi) as Hnd. rewrite Hl' in Hnd. cbn in Hnd.
  apply NoDup_cons in Hnd as [Hno _]. apply Hno. by apply (list_elem_of_fmap_2 fst _ (nw.1, c)).
Qed.

(** One block is exchanged for another, whose payload is all that changes. *)
Lemma exchange_others own nw h l h' l' u :
  inv h' l' -> used l ≡ₚ own :: u -> used l' ≡ₚ nw :: u ->
  (forall a, a < nw.1 + 16 \/ nw.1 + size nw.2 <= a -> data h' !! a = data h !! a) ->
  others_stay own h l h' l'.
Proof.
  intros Hi Hl Hl' Hd y c Hy Hne. rewrite Hl, elem_of_cons in Hy. destruct Hy as [?|Hu]; [done|].
  assert ((y, c) ∈ used l') as Hy' by (rewrite Hl'; by right). split; [done|]. intros a Ha. apply Hd.
  pose proof (fresh_block h' l' nw u y c Hi Hl' Hu) as Hn.
  assert (nw ∈ used l') as Hw by (rewrite Hl'; left). destruct nw as [z b]. cbn [fst snd] in *.
  destruct (live_apart h' l' y c z b Hi Hy' Hw Hn); lia.
Qed.

Lemma others_trans own h l h1 l1 h2 l2 nw :
  others_stay own h l h1 l1 -> others_stay nw h1 l1 h2 l2 ->
  (forall y c, (y, c) ∈ used l -> (y, c) <> own -> (y, c) <> nw) -> others_stay own h l h2 l2.
Proof.
  intros H1 H2 Hne y c Hy Hno. destruct (H1 y c Hy Hno) as [Hy1 Hd1].
  destruct (H2 y c Hy1 (Hne y c Hy Hno)) as [Hy2 Hd2]. split; [done|]. intros a Ha. by rewrite Hd2, Hd1.
Qed.

(** The cells as far as they are filled. *)
Lemma cells_moved h h' p q n (xs : list T) :
  moved (data h) (data h') p q n -> Z.of_nat (length xs) * width T <= n ->
  (forall i x, xs !! i = Some x -> cell_bytes (data h) (p + Z.of_nat i * width T) (encode x)) ->
  forall i x, xs !! i = Some x -> cell_bytes (data h') (q + Z.of_nat i * width T) (encode x).
Proof.
  intros [Hm _] Hn Hc i x Hx j b Hj. rewrite <- (Hc i x Hx j b Hj). rewrite <- !Z.add_assoc. apply Hm.
  apply lookup_lt_Some in Hx, Hj. pose proof (encode_length x). pose proof (width_range (T := T)).
  assert (Z.of_nat i * width T + width T <= Z.of_nat (length xs) * width T)
    by (transitivity ((Z.of_nat i + 1) * width T); [lia|apply Z.mul_le_mono_nonneg_r; lia]).
  assert (0 <= Z.of_nat i * width T) by (apply Z.mul_nonneg_nonneg; lia). lia.
Qed.

(** Room for one more element, or no memory. *)
Lemma grow_in_heap h l v xs :
  inv h l -> high_heap h -> vector_at h l v xs ->
  (exists v' h' l', grow v h = Ret (v', h') /\ inv h' l' /\ vector_at h' l' v' xs /\ m_size v' < m_capacity v' /\
     head h' = head h /\ tail h' = tail h /\ others_stay (buffer v) h l h' l' /\
     forall y c, (y, c) ∈ used l -> (y, c) <> buffer v -> (y, c) <> buffer v') \/
  exists c h', grow v h = Ret (mkVector 0 (m_size v) c, h') /\ head h' = head h /\ m_size v = m_capacity v.
Proof.
  intros Hi [Hs1 Hs2] [Hsz Hcap Hbuf Hcells Hval]. pose proof (width_range (T := T)) as Hw. unfold grow.
  destruct (Z.eqb_spec (m_size v) (m_capacity v)) as [Efull|Hroom].
  2: { left. exists v, h, l. split; [done|]. split; [done|]. split; [done|]. split; [lia|]. split; [done|]. split; [done|]. split; [by intros y c Hy _|done]. }
  destruct (Z.eqb_spec (m_capacity v) 0) as [E0|Hc0]; cbn [negb].
  - rewrite Hbuf, Z.mul_1_l, wrap_small by lia. unfold realloc. rewrite Z.eqb_refl.
    assert (0 < width T <= 2 ^ 62) as Hw' by lia.
    assert (0 < width T <= 2 ^ 63 - 16) as Hw'' by lia.
    destruct (malloc_spec h l _ Hi Hw'') as (p & h' & l' & -> & (Eh & Et & Ed) & Hi' & Hp). ored.
    destruct Hp as [[-> _]|[Hp Hu]]; [right; by exists 1, h'|left].
    assert (xs = []) as -> by (apply length_zero_iff_nil; lia).
    exists (mkVector p (m_size v) 1), h', l'. cbn [m_size m_capacity m_buffer].
    split; [done|]. split; [done|]. split; [|split; [lia|split; [done|split; [done|split]]]].
    + split; cbn [m_size m_capacity m_buffer Z.eqb]; [done|lia| |by intros [|?]|constructor].
      rewrite Hu. unfold buffer. cbn [m_buffer m_capacity]. rewrite Z.mul_1_l. left.
    + intros y c Hy _. rewrite Hu, Ed. split; [by right|done].
    + intros y c Hy _ [= Ey _]. apply (fresh_block h' l' _ _ y c Hi' Hu Hy). exact Ey.
  - pose proof (buffer_place h l v Hi Hbuf) as Hplace. pose proof Hbuf as Hlive.
    assert (0 < m_capacity v * width T) by (apply Z.mul_pos_pos; lia).
    assert (m_capacity v <= m_capacity v * width T) by (rewrite <- (Z.mul_1_r (m_capacity v)) at 1; apply Z.mul_le_mono_nonneg_l; lia).
    rewrite (wrap_small 64 (m_capacity v * 2)), wrap_small by lia.
    destruct (realloc_spec h l (m_buffer v) (mkBlock (m_capacity v * width T + 16) false) (m_capacity v * 2 * width T) Hi Hlive)
      as (q & h' & l' & -> & Hi' & [Eh Et] & Hq); [lia|cbn [size]; lia|]. ored.
    destruct Hq as [[-> _]|(Hq & (u & Hu & Hu') & Hm)]; [right; by exists (m_capacity v * 2), h'|left].
    cbn [size] in Hm. replace (m_capacity v * width T + 16 - 16) with (m_capacity v * width T) in Hm by lia.
    exists (mkVector q (m_size v) (m_capacity v * 2)), h', l'. cbn [m_size m_capacity m_buffer].
    split; [done|]. split; [done|]. split; [|split; [lia|split; [done|split; [done|split]]]].
    + split; cbn [m_size m_capacity m_buffer]; [done|lia| | |done].
      * destruct (Z.eqb_spec (m_capacity v * 2) 0); [lia|]. rewrite Hu'. left.
      * apply (cells_moved h h' (m_buffer v) q (m_capacity v * width T)); [done| |done]. rewrite <- Hsz. by rewrite Efull.
    + apply (exchange_others _ _ h l h' l' u Hi' Hu Hu'). intros a Ha. apply Hm. cbn [fst snd size] in Ha. lia.
    + intros y c Hy Hne [= Ey _]. rewrite Hu, elem_of_cons in Hy. destruct Hy as [?|Hy]; [done|].
      apply (fresh_block h' l' _ _ y c Hi' Hu' Hy). exact Ey.
Qed.

(** The element behind the ones there are. *)
Lemma put_appends h l v xs x :
  inv h l -> vector_at h l v xs -> m_size v < m_capacity v -> storable x ->
  exists h', put v (m_size v) x h = Ret h' /\ inv h' l /\
    vector_at h' l (mkVector (m_buffer v) (u64 (m_size v + 1)) (m_capacity v)) (xs ++ [x]) /\ others_stay (buffer v) h l h' l.
Proof.
  intros Hi [Hsz Hcap Hbuf Hcells Hval] Hlt Hx. destruct (Z.eqb_spec (m_capacity v) 0) as [?|Hc0]; [lia|].
  pose proof (width_range (T := T)) as Hw. pose proof (buffer_place h l v Hi Hbuf) as Hplace.
  destruct (cell_written h l v (m_size v) x Hi Hbuf ltac:(lia)) as (h' & E & Hi' & _ & _ & Hat & Hother).
  assert (m_capacity v <= m_capacity v * width T) by (rewrite <- (Z.mul_1_r (m_capacity v)) at 1; apply Z.mul_le_mono_nonneg_l; lia).
  assert ((m_size v + 1) * width T <= m_capacity v * width T) by (apply Z.mul_le_mono_nonneg_r; lia).
  exists h'. split; [done|]. split; [done|]. split.
  - rewrite wrap_small by lia. split; cbn [m_size m_capacity m_buffer].
    + rewrite length_app. cbn. lia.
    + lia.
    + by rewrite (proj2 (Z.eqb_neq _ _) Hc0).
    + intros i y [Hy|[Hge Hy]]%lookup_app_Some.
      * intros j b Hj. rewrite Hother; [by apply (Hcells i y)|]. left. apply lookup_lt_Some in Hy, Hj. pose proof (encode_length y).
        assert ((Z.of_nat i + 1) * width T <= m_size v * width T) by (apply Z.mul_le_mono_nonneg_r; lia). lia.
      * destruct (i - length xs)%nat as [|k] eqn:Ek; [|by destruct k]. injection Hy as <-.
        replace (Z.of_nat i) with (m_size v) by lia. exact Hat.
    + apply Forall_app. split; [done|by apply Forall_singleton].
  - intros y c Hy Hne. split; [done|]. intros a Ha. apply Hother.
    assert (y <> m_buffer v - 16) as Hn by (intros ->; apply Hne; unfold buffer; f_equal; by apply (same_block h l (m_buffer v - 16))).
    assert (0 <= m_size v * width T) by (apply Z.mul_nonneg_nonneg; lia).
    destruct (live_apart h l y c _ _ Hi Hy Hbuf Hn); cbn [size] in *; lia.
Qed.

(** Reading. *)
Lemma cell_read h l v xs i x :
  inv h l -> vector_at h l v xs -> xs !! i = Some x -> at_ v (Z.of_nat i) h = Ret x.
Proof.
  intros Hi [Hsz Hcap Hbuf Hcells Hval] Hx. pose proof (lookup_lt_Some _ _ _ Hx) as Hlen.
  destruct (Z.eqb_spec (m_capacity v) 0) as [?|Hc0]; [lia|]. pose proof (buffer_place h l v Hi Hbuf) as Hplace.
  pose proof (width_range (T := T)) as Hw.
  assert ((Z.of_nat i + 1) * width T <= m_capacity v * width T) by (apply Z.mul_le_mono_nonneg_r; lia).
  assert (0 <= Z.of_nat i * width T) by (apply Z.mul_nonneg_nonneg; lia).
  unfold at_. rewrite wrap_small by lia. rewrite (read_heap_spec h _ _ (encode x) (Hcells i x Hx) (encode_length x)). ored.
  f_equal. apply decode_encode. rewrite Forall_lookup in Hval. by apply (Hval i).
Qed.

(** C16. [push_back] in the heap appends: it returns a vector that holds one
    element more, each readable by its index wherever the buffer lies now, and
    every other live block of the heap keeps its place and its bytes; or there
    is no memory for a larger buffer, and it writes through the null pointer it
    was given. *)
Theorem push_back_appends_in_the_heap h l v xs x :
  inv h l -> high_heap h -> vector_at h l v xs -> storable x ->
  (exists v' h' l', push_back x v h = Ret (v', h') /\ inv h' l' /\ vector_at h' l' v' (xs ++ [x]) /\
     others_stay (buffer v) h l h' l' /\
     forall i y, (xs ++ [x]) !! i = Some y -> at_ v' (Z.of_nat i) h' = Ret y) \/
  push_back x v h = Fault /\ m_size v = m_capacity v /\ exists c h', grow v h = Ret (mkVector 0 (m_size v) c, h').
Proof.
  intros Hi Hh Hv Hx. destruct (grow_in_heap h l v xs Hi Hh Hv)
    as [(v1 & h1 & l1 & E & Hi1 & Hv1 & Hlt & _ & _ & Hoth & Hnew)|(c & h' & E & Eh & Efull)]; unfold push_back; rewrite E; ored.
  - left. destruct (put_appends h1 l1 v1 xs x Hi1 Hv1 Hlt Hx) as (h2 & -> & Hi2 & Hv2 & Hoth2). ored.
    eexists _, h2, l1. split; [done|]. split; [done|]. split; [exact Hv2|]. split; [by apply (others_trans _ h l h1 l1 h2 l1 (buffer v1))|].
    intros i y. by apply (cell_read h2 l1).
  - right. split; [|split; [done|by exists c, h']]. unfold put, write_heap. cbn [m_buffer m_size].
    destruct Hh as [Hs1 Hs2]. pose proof (width_range (T := T)) as Hw. destruct Hv as [Hsz Hcap Hbuf _ _].
    assert (0 <= m_size v * width T < head h) as Hlow.
    { split; [apply Z.mul_nonneg_nonneg; lia|]. destruct (Z.eqb_spec (m_capacity v) 0) as [E0|Hc0].
      - rewrite Efull, E0. destruct Hi as ((? & _) & _). lia.
      - pose proof (buffer_place h l v Hi Hbuf). rewrite Efull. lia. }
    destruct Hi as ((? & ? & ?) & ? & _). rewrite Z.add_0_l, (wrap_small 64 (m_size v * width T)), Eh by lia. assert (m_size v * width T < head h) as Hlt by apply Hlow.
    by rewrite (proj2 (Z.leb_gt (head h) (m_size v * width T)) Hlt).
Qed.

(** The destructor gives the buffer back. *)
Lemma delete_frees h l v xs :
  inv h l -> vector_at h l v xs -> m_capacity v <> 0 ->
  exists h' l', delete v h = Ret h' /\ inv h' l' /\ used l ≡ₚ buffer v :: used l'.
Proof.
  intros Hi [_ _ Hb _ _] Hc. rewrite (proj2 (Z.eqb_neq _ _) Hc) in Hb.
  destruct (free_spec h l (m_buffer v) _ Hi Hb) as (h' & l' & E & _ & Hi' & Hu). by exists h', l'.
Qed.
End Storage.

(** ** A vector of pointers in a small heap *)
Definition high_base : Z := 0xFFFFFFFF00000000.
Definition small_heap : heap := fresh high_base 256.
Definition small_blocks : list (Z * Block) := [(high_base, mkBlock 256 true)].

Lemma small_inv : inv small_heap small_blocks.
Proof. repeat split; vm_compute; done || reflexivity. Qed.

Lemma empty_vector : vector_at small_heap small_blocks (mkVector 0 0 0) ([] : list Z).
Proof. split; [done|done|done|by intros [|?]|constructor]. Qed.

Definition pushes (xs : list Z) (v : vector) (h : heap) : outcome (vector * heap) :=
  foldl (fun m x => '(v, h) ← m; push_back x v h) (Ret (v, h)) xs.

(** Three elements: the buffer has moved twice. *)
Example three_pointers :
  ('(v, h) ← pushes [0xAAAA; 0xBBBB; 0xCCCC] (mkVector 0 0 0) small_heap;
   a ← at_ (T := Z) v 0 h; b ← at_ (T := Z) v 1 h; c ← at_ (T := Z) v 2 h; Ret (m_capacity v, [a; b; c]))
  = Ret (4, [0xAAAA; 0xBBBB; 0xCCCC]).
Proof. vm_compute. reflexivity. Qed.

(** Without memory for a larger buffer [push_back] writes to address 0, and the
    old buffer is lost. *)
Example push_back_without_memory :
  ('(v, h) ← pushes [1; 2; 3; 4; 5; 6; 7; 8] (mkVector 0 0 0) small_heap; Ret (m_size v, m_capacity v)) = Ret (8, 8) /\
  pushes [1; 2; 3; 4; 5; 6; 7; 8; 9] (mkVector 0 0 0) small_heap = Fault.
Proof. vm_compute. split; reflexivity. Qed.

Lemma push_back_appends_in_the_heap_witness :
  exists v' h' l', push_back 0xAAAA (mkVector 0 0 0) small_heap = Ret (v', h') /\ inv h' l' /\ vector_at h' l' v' [0xAAAA] /\
    at_ v' 0 h' = Ret 0xAAAA.
Proof.
  destruct (push_back_appends_in_the_heap small_heap small_blocks (mkVector 0 0 0) [] 0xAAAA small_inv) as [(v' & h' & l' & E & Hi & Hv & _ & Hat)|(E & _)].
  - split; vm_compute; discriminate.
  - exact empty_vector.
  - cbn. lia.
  - exists v', h', l'. split; [exact E|]. split; [exact Hi|]. split; [exact Hv|]. exact (Hat 0%nat 0xAAAA eq_refl).
  - exfalso. vm_compute in E. discriminate E.
Defined.
