(* ===== verification/List.v ===== *)
(** * klib/list.hpp

    The intrusive circular list.  [heads] is the memory of the [ListHead]
    objects: the pointers [next] and [prev] by the object's address; 0 is the
    null pointer and following it is a fault. *)
From S2P Require Import Prelude.

Record ListHead := mkListHead { next : Z; prev : Z }.
Abbreviation heads := (gmap Z ListHead).

Definition get_next (p : Z) (m : heads) : outcome Z := h ← of_option (m !! p); Ret (next h).
Definition get_prev (p : Z) (m : heads) : outcome Z := h ← of_option (m !! p); Ret (prev h).

(** [p->next = v] and [p->prev = v] *)
Definition set_next (p v : Z) (m : heads) : outcome heads :=
  h ← of_option (m !! p); Ret (<[p := mkListHead v (prev h)]> m).
Definition set_prev (p v : Z) (m : heads) : outcome heads :=
  h ← of_option (m !! p); Ret (<[p := mkListHead (next h) v]> m).

Definition init (this : Z) (m : heads) : outcome heads :=
  m ← set_next this this m; set_prev this this m.

Definition add (this entry : Z) (m : heads) : outcome heads :=
  n ← get_next this m; m ← set_prev n entry m;
  n ← get_next this m; m ← set_next entry n m;
  m ← set_prev entry this m;
  set_next this entry m.

Definition add_before (this entry : Z) (m : heads) : outcome heads :=
  p ← get_prev this m; m ← set_next p entry m;
  p ← get_prev this m; m ← set_prev entry p m;
  m ← set_next entry this m;
  set_prev this entry m.

Definition remove (this : Z) (m : heads) : outcome heads :=
  n ← get_next this m; p ← get_prev this m; m ← set_prev n p m;
  p ← get_prev this m; n ← get_next this m; m ← set_next p n m;
  m ← set_next this 0 m;
  set_prev this 0 m.

Definition empty (this : Z) (m : heads) : outcome bool :=
  n ← get_next this m; Ret (n =? this).

(** ** The list a ring of heads stands for *)

Definition nxt (m : heads) (p : Z) : option Z := next <$> m !! p.
Definition prv (m : heads) (p : Z) : option Z := prev <$> m !! p.

(** From [x] the pointers lead through [l] to [y], and back. *)
Fixpoint linked (m : heads) (x : Z) (l : list Z) (y : Z) : Prop :=
  match l with
  | [] => nxt m x = Some y /\ prv m y = Some x
  | e :: l => nxt m x = Some e /\ prv m e = Some x /\ linked m e l y
  end.

(** [h] is the head of the list [l]. *)
Definition ring (m : heads) (h : Z) (l : list Z) : Prop := NoDup (h :: l) /\ linked m h l h.

(** ** Lemmas *)
Lemma linked_app m x l1 e l2 y :
  linked m x (l1 ++ e :: l2) y <-> linked m x l1 e /\ linked m e l2 y.
Proof.
  revert x. induction l1 as [|a l1 IH]; intros x; cbn; [tauto|]. rewrite IH. tauto.
Qed.

Lemma linked_ext m m' x l y :
  (forall z, z ∈ x :: l -> nxt m' z = nxt m z) -> (forall z, z ∈ l ++ [y] -> prv m' z = prv m z) ->
  linked m x l y -> linked m' x l y.
Proof.
  revert x. induction l as [|e l IH]; intros x Hn Hp; cbn.
  - intros [? ?]. rewrite Hn, Hp by set_solver. done.
  - intros (? & ? & ?). rewrite Hn, Hp by set_solver. split; [done|]. split; [done|].
    apply IH; [intros; apply Hn; set_solver|intros; apply Hp; set_solver|done].
Qed.

Lemma linked_next m x l y : linked m x l y -> nxt m x = Some (List.hd y l).
Proof. destruct l; cbn; tauto. Qed.

(** The last element before [y]. *)
Lemma linked_prev m x l y : linked m x l y -> prv m y = Some (List.last (x :: l) 0).
Proof.
  revert x. induction l as [|e l IH]; intros x; [cbn; tauto|]. cbn [linked].
  intros (_ & _ & H). rewrite (IH e H). done.
Qed.

Lemma nxt_Some m p n : nxt m p = Some n -> exists q, m !! p = Some (mkListHead n q).
Proof. unfold nxt. destruct (m !! p) as [[n' q]|]; cbn; [|done]. intros [= ->]. by exists q. Qed.

Lemma get_next_spec m p n : nxt m p = Some n -> get_next p m = Ret n.
Proof. intros [q H]%nxt_Some. unfold get_next. by rewrite H. Qed.

Lemma get_prev_spec m p q : prv m p = Some q -> get_prev p m = Ret q.
Proof.
  unfold prv, get_prev. destruct (m !! p) as [[n' q']|]; cbn; [|done]. by intros [= ->].
Qed.

Lemma set_next_spec m p v :
  is_Some (m !! p) -> exists m', set_next p v m = Ret m' /\
    (forall z, nxt m' z = if decide (z = p) then Some v else nxt m z) /\
    (forall z, prv m' z = prv m z) /\ (forall z, is_Some (m' !! z) <-> is_Some (m !! z)).
Proof.
  intros [[n q] H]. unfold set_next. rewrite H. ored. eexists. split; [done|].
  assert (forall z, is_Some (<[p:=mkListHead v q]> m !! z) <-> is_Some (m !! z)) as Hdom.
  { intros z. destruct (decide (z = p)) as [->|Hz];
      [rewrite lookup_insert_eq, H; split; by eexists|by rewrite lookup_insert_ne]. }
  split; [|split; [|exact Hdom]]; intros z; unfold nxt, prv; cbn;
    (destruct (decide (z = p)) as [->|Hz]; [rewrite lookup_insert_eq, ?H; done|by rewrite lookup_insert_ne]).
Qed.

Lemma set_prev_spec m p v :
  is_Some (m !! p) -> exists m', set_prev p v m = Ret m' /\
    (forall z, prv m' z = if decide (z = p) then Some v else prv m z) /\
    (forall z, nxt m' z = nxt m z) /\ (forall z, is_Some (m' !! z) <-> is_Some (m !! z)).
Proof.
  intros [[n q] H]. unfold set_prev. rewrite H. ored. eexists. split; [done|].
  assert (forall z, is_Some (<[p:=mkListHead n v]> m !! z) <-> is_Some (m !! z)) as Hdom.
  { intros z. destruct (decide (z = p)) as [->|Hz];
      [rewrite lookup_insert_eq, H; split; by eexists|by rewrite lookup_insert_ne]. }
  split; [|split; [|exact Hdom]]; intros z; unfold nxt, prv; cbn;
    (destruct (decide (z = p)) as [->|Hz]; [rewrite lookup_insert_eq, ?H; done|by rewrite lookup_insert_ne]).
Qed.

Lemma nxt_dom m p n : nxt m p = Some n -> is_Some (m !! p).
Proof. intros [q ->]%nxt_Some. by eexists. Qed.
Lemma prv_dom m p n : prv m p = Some n -> is_Some (m !! p).
Proof. unfold prv. destruct (m !! p); [by eexists|done]. Qed.

(** The pointers after [e] is put between the neighbours [a] and [b]. *)
Definition spliced (m m' : heads) (a e b : Z) : Prop :=
  (forall z, nxt m' z = if decide (z = a) then Some e else if decide (z = e) then Some b else nxt m z) /\
  (forall z, prv m' z = if decide (z = b) then Some e else if decide (z = e) then Some a else prv m z).

Lemma add_spec m h e b :
  nxt m h = Some b -> is_Some (m !! b) -> is_Some (m !! e) -> e <> h -> e <> b ->
  exists m', add h e m = Ret m' /\ spliced m m' h e b.
Proof.
  intros Hb Hdb Hde Heh Heb. unfold add. rewrite (get_next_spec m h b Hb). ored.
  destruct (set_prev_spec m b e Hdb) as (m1 & -> & Hp1 & Hn1 & Hd1). ored.
  rewrite (get_next_spec m1 h b) by (by rewrite Hn1). ored.
  destruct (set_next_spec m1 e b) as (m2 & -> & Hn2 & Hp2 & Hd2); [by apply Hd1|]. ored.
  destruct (set_prev_spec m2 e h) as (m3 & -> & Hp3 & Hn3 & Hd3); [by apply Hd2, Hd1|]. ored.
  destruct (set_next_spec m3 h e) as (m4 & -> & Hn4 & Hp4 & Hd4).
  { apply Hd3, Hd2, Hd1. by eapply nxt_dom. }
  exists m4. split; [done|]. split; intros z.
  - rewrite Hn4, Hn3, Hn2, Hn1. done.
  - rewrite Hp4, Hp3, Hp2, Hp1. repeat case_decide; congruence.
Qed.

Lemma add_before_spec m h e a :
  prv m h = Some a -> is_Some (m !! a) -> is_Some (m !! e) -> e <> h -> e <> a ->
  exists m', add_before h e m = Ret m' /\ spliced m m' a e h.
Proof.
  intros Ha Hda Hde Heh Hea. unfold add_before. rewrite (get_prev_spec m h a Ha). ored.
  destruct (set_next_spec m a e Hda) as (m1 & -> & Hn1 & Hp1 & Hd1). ored.
  rewrite (get_prev_spec m1 h a) by (by rewrite Hp1). ored.
  destruct (set_prev_spec m1 e a) as (m2 & -> & Hp2 & Hn2 & Hd2); [by apply Hd1|]. ored.
  destruct (set_next_spec m2 e h) as (m3 & -> & Hn3 & Hp3 & Hd3); [by apply Hd2, Hd1|]. ored.
  destruct (set_prev_spec m3 h e) as (m4 & -> & Hp4 & Hn4 & Hd4).
  { apply Hd3, Hd2, Hd1. by eapply prv_dom. }
  exists m4. split; [done|]. split; intros z.
  - rewrite Hn4, Hn3, Hn2, Hn1. repeat case_decide; congruence.
  - rewrite Hp4, Hp3, Hp2, Hp1. done.
Qed.

Lemma last_in (h : Z) l : List.last (h :: l) 0 ∈ h :: l.
Proof.
  destruct l as [|x l] using rev_ind; [left|]. rewrite app_comm_cons, last_last.
  apply elem_of_app. right. left.
Qed.

Lemma not_in_last (e h : Z) l1 l2 : e ∉ h :: l1 ++ l2 -> e <> List.last (h :: l1) 0.
Proof.
  intros He ->. apply He. rewrite app_comm_cons. apply elem_of_app. left. apply last_in.
Qed.

(** Splicing into the ring, [e] a head outside it. *)
Lemma spliced_ring m m' h l1 l2 e :
  ring m h (l1 ++ l2) -> e ∉ h :: l1 ++ l2 ->
  spliced m m' (List.last (h :: l1) 0) e (List.hd h l2) ->
  ring m' h (l1 ++ e :: l2).
Proof.
  intros [Hnd Hl] He [Hn Hp]. split.
  { rewrite app_comm_cons, <- Permutation_middle, <- app_comm_cons. by constructor. }
  apply linked_app. 
  assert (linked m h l1 (List.hd h l2) /\ linked m (List.last (h :: l1) 0) l2 h) as [H1 H2].
  { destruct l2 as [|b l2].
    - rewrite app_nil_r in Hl. cbn [List.hd]. split; [done|].
      destruct l1 as [|x l1] using rev_ind; [done|]. rewrite last_last || rewrite app_comm_cons, last_last.
      apply linked_app in Hl as [_ Hl]. done.
    - apply linked_app in Hl as [H1 H2]. split; [done|]. cbn [linked].
      split; [|split; [by apply (linked_prev m h l1 b)|done]].
      destruct l1 as [|x l1] using rev_ind; [by apply linked_next in H1|].
      rewrite app_comm_cons, last_last. apply linked_app in H1 as [_ [? _]]. done. }
  clear Hl. split.
  - destruct l1 as [|x l1] using rev_ind.
    + cbn in *. rewrite Hn, Hp, decide_True by done.
      rewrite decide_False, decide_True; [done|done|]. intros ->. destruct l2; set_solver.
    + clear IHl1. rewrite app_comm_cons, last_last in Hn, Hp. apply linked_app in H1 as [H1 [_ _]].
      apply linked_app. split.
      * eapply linked_ext; [| |exact H1]; intros z Hz.
        -- rewrite Hn. rewrite decide_False, decide_False; [done|set_solver|].
           intros ->. rewrite <- app_assoc, app_comm_cons in Hnd. apply NoDup_app in Hnd as (_ & Hd & _).
           apply (Hd x Hz). set_solver.
        -- rewrite Hp. rewrite decide_False, decide_False; [done|set_solver|].
           intros ->. destruct l2 as [|b l2]; cbn in Hz.
           ++ apply NoDup_cons in Hnd as [Hnd _]. set_solver.
           ++ apply NoDup_cons in Hnd as [_ Hnd]. apply NoDup_app in Hnd as (_ & Hd & _).
              apply (Hd b Hz). set_solver.
      * cbn. rewrite Hn, Hp, decide_True by done. rewrite decide_False, decide_True; [done|done|].
        intros ->. destruct l2; set_solver.
  - destruct l2 as [|b l2]; cbn in *.
    + rewrite Hn, Hp, decide_False, decide_True, decide_True; [done|done|done|].
      by eapply not_in_last.
    + rewrite Hn, decide_False, decide_True; [|done|].
      2: by eapply not_in_last.
      split; [done|]. rewrite Hp, decide_True by done. split; [done|].
      destruct H2 as (_ & _ & H2). eapply linked_ext; [| |exact H2]; intros z Hz.
      * rewrite Hn, decide_False, decide_False; [done|set_solver|]. intros ->.
        rewrite app_comm_cons in Hnd. apply NoDup_app in Hnd as (_ & Hd & _). eapply (Hd _); [|exact Hz].
        apply last_in.
      * rewrite Hp, decide_False, decide_False; [done|set_solver|]. intros ->.
        apply elem_of_app in Hz as [Hz|Hz%list_elem_of_singleton].
        -- apply NoDup_cons in Hnd as [_ Hnd]. apply NoDup_app in Hnd as (_ & _ & Hnd).
           apply NoDup_cons in Hnd as [? _]. done.
        -- subst. apply NoDup_cons in Hnd as [Hnd _]. set_solver.
Qed.

(** Heads outside the ring and the entry keep their pointers. *)
Definition frame (m m' : heads) (s : list Z) : Prop :=
  forall z, z ∉ s -> nxt m' z = nxt m z /\ prv m' z = prv m z.

Lemma ring_dom m h l z : ring m h l -> z ∈ h :: l -> is_Some (m !! z).
Proof.
  intros [_ Hl] Hz. apply elem_of_cons in Hz as [->|Hz].
  - apply linked_next in Hl. by eapply nxt_dom.
  - apply list_elem_of_split in Hz as (l1 & l2 & ->). apply linked_app in Hl as [Hl _].
    apply linked_prev in Hl. by eapply prv_dom.
Qed.

Lemma ring_frame m m' h l s : ring m h l -> frame m m' s -> (forall z, z ∈ h :: l -> z ∉ s) -> ring m' h l.
Proof.
  intros [Hnd Hl] Hf Hz. split; [done|]. eapply linked_ext; [| |exact Hl]; intros z Hin; apply Hf, Hz; [done|].
  apply elem_of_app in Hin as [?|?%list_elem_of_singleton]; [by right|subst; left].
Qed.

Lemma frame_fresh m e x : frame m (<[e := x]> m) [e].
Proof. intros z Hz. unfold nxt, prv. by rewrite lookup_insert_ne by set_solver. Qed.

Lemma frame_trans m1 m2 m3 s t : frame m1 m2 s -> frame m2 m3 t -> (forall z, z ∈ s -> z ∈ t) -> frame m1 m3 t.
Proof.
  intros H1 H2 Hst z Hz. destruct (H2 z Hz) as [-> ->]. apply H1. intros Hin. by apply Hz, Hst.
Qed.

Lemma hd_in (h : Z) l : List.hd h l ∈ h :: l.
Proof. destruct l; set_solver. Qed.

(** The pointers after [e], between [a] and [b], is taken out. *)
Lemma remove_spec m e a b :
  prv m e = Some a -> nxt m e = Some b -> is_Some (m !! a) -> is_Some (m !! b) -> a <> e -> b <> e ->
  exists m', remove e m = Ret m' /\
    (forall z, nxt m' z = if decide (z = e) then Some 0 else if decide (z = a) then Some b else nxt m z) /\
    (forall z, prv m' z = if decide (z = e) then Some 0 else if decide (z = b) then Some a else prv m z).
Proof.
  intros Ha Hb Hda Hdb Hae Hbe. unfold remove.
  rewrite (get_next_spec m e b Hb), (get_prev_spec m e a Ha). ored.
  destruct (set_prev_spec m b a Hdb) as (m1 & -> & Hp1 & Hn1 & Hd1). ored.
  rewrite (get_prev_spec m1 e a) by (by rewrite Hp1, decide_False). ored.
  rewrite (get_next_spec m1 e b) by (by rewrite Hn1). ored.
  destruct (set_next_spec m1 a b) as (m2 & -> & Hn2 & Hp2 & Hd2); [by apply Hd1|]. ored.
  destruct (set_next_spec m2 e 0) as (m3 & -> & Hn3 & Hp3 & Hd3).
  { apply Hd2, Hd1. by eapply nxt_dom. }
  ored. destruct (set_prev_spec m3 e 0) as (m4 & -> & Hp4 & Hn4 & Hd4).
  { apply Hd3, Hd2, Hd1. by eapply nxt_dom. }
  exists m4. split; [done|]. split; intros z.
  - by rewrite Hn4, Hn3, Hn2, Hn1.
  - by rewrite Hp4, Hp3, Hp2, Hp1.
Qed.

(** Two stretches of a ring, once what lay between them is bridged. *)
Lemma bridged_ring m m' h l1 l2 e :
  ring m h (l1 ++ e :: l2) ->
  (forall z, nxt m' z = if decide (z = e) then Some 0 else
     if decide (z = List.last (h :: l1) 0) then Some (List.hd h l2) else nxt m z) ->
  (forall z, prv m' z = if decide (z = e) then Some 0 else
     if decide (z = List.hd h l2) then Some (List.last (h :: l1) 0) else prv m z) ->
  ring m' h (l1 ++ l2).
Proof.
  intros [Hnd Hl] Hn Hp. apply linked_app in Hl as [H1 H2].
  rewrite app_comm_cons, <- Permutation_middle in Hnd. apply NoDup_cons in Hnd as [He Hnd].
  split; [done|].
  assert (linked m' h l1 (List.hd h l2)) as H1'.
  { destruct l1 as [|x l1 _] using rev_ind.
    - cbn in *. rewrite Hn, Hp. pose proof (hd_in h l2).
      rewrite decide_False, decide_True, decide_False, decide_True by (done || set_solver). done.
    - rewrite app_comm_cons, last_last in Hn, Hp. apply linked_app in H1 as [H1 _]. apply linked_app. split.
      + cbn [app] in He, Hnd. eapply linked_ext; [| |exact H1]; intros z Hz.
        * rewrite Hn, decide_False, decide_False; [done|..].
          -- intros ->. rewrite <- app_assoc, app_comm_cons in Hnd. apply NoDup_app in Hnd as (_ & Hd & _).
             apply (Hd x Hz). set_solver.
          -- intros ->. apply He. set_solver.
        * rewrite Hp, decide_False, decide_False; [done|..].
          -- intros ->. destruct l2 as [|b l2]; cbn in Hz.
             ++ apply NoDup_cons in Hnd as [Hnd _]. set_solver.
             ++ apply NoDup_cons in Hnd as [_ Hnd]. apply NoDup_app in Hnd as (_ & Hd & _).
                apply (Hd b Hz). set_solver.
          -- intros ->. apply He. set_solver.
      + cbn. rewrite Hn, Hp. pose proof (hd_in h l2).
        rewrite decide_False, decide_True, decide_False, decide_True by (done || set_solver). done. }
  destruct l2 as [|b l2]; [by rewrite app_nil_r|]. apply linked_app. split; [done|].
  cbn [linked] in H2. destruct H2 as (_ & _ & H2). eapply linked_ext; [| |exact H2]; intros z Hz.
  - rewrite Hn, decide_False, decide_False; [done|..].
    + intros ->. cbn [app] in Hnd. rewrite app_comm_cons in Hnd. apply NoDup_app in Hnd as (_ & Hd & _).
      eapply (Hd _); [apply last_in|exact Hz].
    + intros ->. apply He. set_solver.
  - rewrite Hp, decide_False, decide_False; [done|..].
    + intros ->. apply NoDup_cons in Hnd as [Hh Hnd]. apply NoDup_app in Hnd as (_ & _ & Hnd).
      apply NoDup_cons in Hnd as [Hb _]. cbn in Hz. set_solver.
    + intros ->. apply He. set_solver.
Qed.

(** ** The operations refine those of a list *)

Lemma init_ring m h : is_Some (m !! h) -> exists m', init h m = Ret m' /\ ring m' h [].
Proof.
  intros Hd. unfold init. destruct (set_next_spec m h h Hd) as (m1 & -> & Hn1 & Hp1 & Hd1). ored.
  destruct (set_prev_spec m1 h h) as (m2 & -> & Hp2 & Hn2 & _); [by apply Hd1|].
  exists m2. split; [done|]. split; [apply NoDup_singleton|]. cbn.
  rewrite Hn2, Hn1, Hp2. by rewrite !decide_True by done.
Qed.

Lemma init_frame m m' h : init h m = Ret m' -> frame m m' [h].
Proof.
  unfold init, set_next, set_prev. intros E. apply bind_Ret in E as (m1 & E1 & E2).
  apply bind_Ret in E1 as (x & _ & [= <-]). apply bind_Ret in E2 as (y & _ & [= <-]).
  eapply frame_trans; [apply frame_fresh|apply frame_fresh|done].
Qed.

Lemma add_before_entry m h l e :
  ring m h l -> e ∉ h :: l -> is_Some (m !! e) ->
  exists m', add_before h e m = Ret m' /\ ring m' h (l ++ [e]) /\ frame m m' (e :: h :: l).
Proof.
  intros Hr He Hd. pose proof (last_in h l). pose proof (hd_in h l). destruct Hr as [Hnd Hl].
  destruct (add_before_spec m h e (List.last (h :: l) 0)) as (m' & -> & Hs);
    [by apply linked_prev in Hl|by eapply ring_dom|done|set_solver|set_solver|].
  exists m'. split; [done|]. split.
  - apply (spliced_ring m m' h l [] e); rewrite ?app_nil_r; done.
  - destruct Hs as [Hn Hp]. intros z Hz. rewrite Hn, Hp. by rewrite !decide_False by set_solver.
Qed.

Lemma add_entry m h l e :
  ring m h l -> e ∉ h :: l -> is_Some (m !! e) ->
  exists m', add h e m = Ret m' /\ ring m' h (e :: l) /\ frame m m' (e :: h :: l).
Proof.
  intros Hr He Hd. pose proof (last_in h l). pose proof (hd_in h l). destruct Hr as [Hnd Hl].
  destruct (add_spec m h e (List.hd h l)) as (m' & -> & Hs);
    [by apply linked_next in Hl|by eapply ring_dom|done|set_solver|set_solver|].
  exists m'. split; [done|]. split.
  - by apply (spliced_ring m m' h [] l e).
  - destruct Hs as [Hn Hp]. intros z Hz. rewrite Hn, Hp. by rewrite !decide_False by set_solver.
Qed.

(** Adding an entry before the head appends it to the list, adding it after
    the head puts it first; both keep the ring well linked in both directions
    and touch no head outside it. *)
Theorem add_inserts m h l e :
  ring m h l -> e ∉ h :: l -> is_Some (m !! e) ->
  (exists m', add_before h e m = Ret m' /\ ring m' h (l ++ [e]) /\ frame m m' (e :: h :: l)) /\
  (exists m', add h e m = Ret m' /\ ring m' h (e :: l) /\ frame m m' (e :: h :: l)).
Proof. intros Hr He Hd. split; [by apply add_before_entry|by apply add_entry]. Qed.

Lemma remove_entry m h l1 e l2 :
  ring m h (l1 ++ e :: l2) ->
  exists m', remove e m = Ret m' /\ ring m' h (l1 ++ l2) /\
    nxt m' e = Some 0 /\ prv m' e = Some 0 /\ frame m m' (h :: l1 ++ e :: l2).
Proof.
  intros Hr. pose proof Hr as [Hnd Hl]. pose proof (last_in h l1). pose proof (hd_in h l2).
  apply linked_app in Hl as [H1 H2].
  assert (e ∉ h :: l1 ++ l2) as He.
  { rewrite app_comm_cons, <- Permutation_middle in Hnd. by apply NoDup_cons in Hnd as [? _]. }
  destruct (remove_spec m e (List.last (h :: l1) 0) (List.hd h l2)) as (m' & -> & Hn & Hp).
  - by apply linked_prev in H1.
  - by apply linked_next in H2.
  - eapply ring_dom; [exact Hr|]. set_solver.
  - eapply ring_dom; [exact Hr|]. set_solver.
  - intros E. apply He. set_solver.
  - intros E. apply He. set_solver.
  - exists m'. split; [done|]. split; [by apply (bridged_ring m m' h l1 l2 e)|].
    split; [by rewrite Hn, decide_True|]. split; [by rewrite Hp, decide_True|].
    intros z Hz. rewrite Hn, Hp. rewrite !decide_False; [done|set_solver..].
Qed.

(** Removing an entry takes it out of the list it is on, leaves its own
    pointers null and touches no head outside the ring. *)
Theorem remove_deletes m h l1 e l2 :
  ring m h (l1 ++ e :: l2) ->
  exists m', remove e m = Ret m' /\ ring m' h (l1 ++ l2) /\
    nxt m' e = Some 0 /\ prv m' e = Some 0 /\ frame m m' (h :: l1 ++ e :: l2).
Proof. apply remove_entry. Qed.

Lemma empty_spec m h l : ring m h l -> empty h m = Ret (bool_decide (l = [])).
Proof.
  intros [Hnd Hl]. unfold empty. apply linked_next in Hl. rewrite (get_next_spec m h _ Hl). ored.
  f_equal. destruct l as [|e l]; cbn; [by rewrite Z.eqb_refl|].
  apply Z.eqb_neq. intros ->. apply NoDup_cons in Hnd as [Hnd _]. set_solver.
Qed.

(** ** Concrete lists *)
Definition two : heads :=
  {[ 1 := mkListHead 5 5; 5 := mkListHead 1 1; 9 := mkListHead 0 0 ]}.

Lemma two_ring : ring two 1 [5].
Proof. split; [apply (bool_decide_eq_true_1 _); by vm_compute|by vm_compute]. Qed.

Lemma add_inserts_witness :
  (exists m', add_before 1 9 two = Ret m' /\ ring m' 1 ([5] ++ [9]) /\ frame two m' [9; 1; 5]) /\
  (exists m', add 1 9 two = Ret m' /\ ring m' 1 [9; 5] /\ frame two m' [9; 1; 5]).
Proof.
  apply (add_inserts two 1 [5] 9 two_ring); [apply (bool_decide_eq_true_1 _); by vm_compute|].
  by exists (mkListHead 0 0).
Defined.

Lemma remove_deletes_witness :
  exists m', remove 5 two = Ret m' /\ ring m' 1 [] /\ nxt m' 5 = Some 0 /\ prv m' 5 = Some 0 /\
    frame two m' [1; 5].
Proof. exact (remove_deletes two 1 [] 5 [] two_ring). Defined.
