(* ===== verification/Vfs.v ===== *)
(** * fs/vfs.cpp and the descriptor table of sched::Task

    The nodes live in a store and point at each other by address, 0 being the
    null pointer; a [DirectoryNode] carries its table of children.  What a file
    system keeps behind [Node::data] is a type parameter, and its functions are
    a record of operations found at the address [Node::fs] points to: the file
    system this program has is in file Tmpfs.

    The constructor of [Node] does not initialise [redirect] and [data]: a fresh
    node's [redirect] is what the parameter [junk] finds in the memory it gets. *)
From S2P Require Import Prelude CString HashMap Vector Keyboard Printf.

Definition AT_FDCWD : Z := -100.
Definition ERANGE : Z := 3.
Definition EBADF : Z := 1008.
Definition ENOENT : Z := 1043.
Definition ENOTDIR : Z := 1053.

Inductive node_type := NONE | FILE | DIRECTORY.
#[export] Instance node_type_eq_dec : EqDecision node_type.
Proof. solve_decision. Defined.

Section Vfs.
Context {D : Type}.

Record Node := mkNode {
  type : node_type;
  fs : Z;
  data : option D;
  redirect : Z;
  parent : Z;
  name : cstring;
  children : option (HashMap Z)
}.

Record vfs := mkVfs { nodes : gmap Z Node; next_addr : Z; root : Z }.

Definition deref (st : vfs) (p : Z) : outcome Node := of_option (nodes st !! p).

Definition set_node (p : Z) (n : Node) (st : vfs) : vfs :=
  mkVfs (<[p := n]> (nodes st)) (next_addr st) (root st).

Definition root_dir (st : vfs) : Z := root st.

Section constructors.
Context (junk : Z -> Z).

Definition new_Node (ty : node_type) (fs parent : Z) (name : cstring)
    (children : option (HashMap Z)) (st : vfs) : vfs * Z :=
  let p := next_addr st in
  (mkVfs (<[p := mkNode ty fs None (junk p) parent (strdup name) children]> (nodes st)) (p + 1) (root st), p).

Definition new_FileNode (fs parent : Z) (name : cstring) (st : vfs) : vfs * Z :=
  new_Node FILE fs parent name None st.

Definition new_DirectoryNode (fs parent : Z) (name : cstring) (st : vfs) : vfs * Z :=
  new_Node DIRECTORY fs parent name (Some (HashMap.new 16)) st.

Definition set_redirect (p target : Z) (st : vfs) : outcome vfs :=
  n ← deref st p;
  Ret (set_node p (mkNode (type n) (fs n) (data n) target (parent n) (name n) (children n)) st).

(** [children.insert(name, node)] on the directory at [dir] *)
Definition insert_child (dir : Z) (nm : cstring) (node : Z) (st : vfs) : outcome vfs :=
  n ← deref st dir;
  h ← of_option (children n);
  h ← HashMap.insert nm node h;
  Ret (set_node dir (mkNode (type n) (fs n) (data n) (redirect n) (parent n) (name n) (Some h)) st).

Definition create_dotentries (this : Z) (st : vfs) : outcome vfs :=
  n ← deref st this;
  let '(st, dot) := new_Node NONE (fs n) this (lit ".") None st in
  let '(st, dotdot) := new_Node NONE (fs n) this (lit "..") None st in
  st ← set_redirect dot this st;
  st ← set_redirect dotdot (if negb (parent n =? 0) then parent n else this) st;
  st ← insert_child this (lit ".") dot st;
  insert_child this (lit "..") dotdot st.
End constructors.

(** The operations of a file system: [fs->create], [fs->read], which returns
    its result and the bytes it stores in the caller's buffer ([None] for a byte
    nobody wrote), and [fs->write]. *)
Record FileSystem := mkFileSystem {
  create : Z -> Z -> cstring -> node_type -> vfs -> outcome (vfs * Z);
  read : Z -> Z -> Z -> vfs -> outcome (Z * list (option Z));
  write : Z -> list Z -> Z -> vfs -> outcome vfs
}.

(** ** Paths *)

(** The links are followed at most once per node, so that running out of fuel
    means a cycle of links. *)
Fixpoint reduce_node_loop (fuel : nat) (st : vfs) (node : Z) : outcome Z :=
  match fuel with
  | O => Diverge
  | S fuel =>
      n ← deref st node;
      if negb (redirect n =? 0) then reduce_node_loop fuel st (redirect n) else Ret node
  end.
Definition reduce_node (st : vfs) (node : Z) : outcome Z :=
  reduce_node_loop (S (base.size (nodes st))) st node.

Record PathToNodeResult := mkPathToNodeResult {
  target_parent : Z;
  target : Z;
  basename : option cstring
}.

Definition no_result : PathToNodeResult := mkPathToNodeResult 0 0 None.

(** The loop of [path_to_node]; every turn consumes at least the character
    after the entry's name. *)
Fixpoint path_loop (fuel : nat) (st : vfs) (path : cstring) (path_len current_node : Z) :
    outcome PathToNodeResult :=
  match fuel with
  | O => Diverge
  | S fuel =>
      n ← deref st current_node;
      if bool_decide (type n <> DIRECTORY) then Ret no_result
      else
        h ← of_option (children n);
        let '(entry_name_len, last) :=
          match strchr path 47 with
          | None => (path_len, true)
          | Some s => (s, s =? path_len - 1)
          end in
        let entry_name := take (Z.to_nat entry_name_len) path in
        next_node ← HashMap.get entry_name h;
        match next_node with
        | None => Ret (mkPathToNodeResult current_node 0 (Some entry_name))
        | Some next =>
            t ← reduce_node st next;
            if last : bool then Ret (mkPathToNodeResult current_node t (Some entry_name))
            else path_loop fuel st (drop (Z.to_nat (entry_name_len + 1)) path)
                   (path_len - (entry_name_len + 1)) t
        end
  end.

Definition path_to_node (st : vfs) (path : cstring) (starting_point : Z) : outcome PathToNodeResult :=
  let path_len := strlen path in
  if path_len =? 0 then Ret no_result
  else if starting_point =? 0 then
    if negb (CString.deref path =? 47) then Ret no_result
    else path_loop (S (length path)) st (List.tl path) (path_len - 1) (root st)
  else path_loop (S (length path)) st path path_len starting_point.

(** ** Descriptors *)

Record FileDescriptor := mkFileDescriptor { node : Z; cursor : Z }.

(** The fields of [sched::Task] that the file system calls use; a descriptor is
    owned by its slot of the table, [None] the null pointer. *)
Record Task := mkTask {
  file_descriptors : Vector (option FileDescriptor);
  num_file_descriptors : Z;
  first_free_fdnum : Z;
  cwd : Z
}.

(** [for (usize i = first_free_fdnum; i < file_descriptors.size(); i++)] *)
Fixpoint find_free (n : nat) (i : Z) (v : Vector (option FileDescriptor)) : outcome (option Z) :=
  match n with
  | O => Ret None
  | S n =>
      d ← at_ v i;
      match d with None => Ret (Some i) | Some _ => find_free n (i + 1) v end
  end.

Definition allocate_fdnum (t : Task) : outcome (Task * Z) :=
  let num := u64 (num_file_descriptors t + 1) in
  let v := file_descriptors t in
  r ← find_free (Z.to_nat (Vector.size v - first_free_fdnum t)) (first_free_fdnum t) v;
  match r with
  | Some i => Ret (mkTask v num i (cwd t), i)
  | None =>
      v' ← push_back v None;
      Ret (mkTask v' num (Vector.size v) (cwd t), Vector.size v' - 1)
  end.

(** [task->file_descriptors[fd] = d] *)
Definition set_fd (fd : Z) (d : option FileDescriptor) (t : Task) : outcome Task :=
  v ← put (file_descriptors t) fd d;
  Ret (mkTask v (num_file_descriptors t) (first_free_fdnum t) (cwd t)).

Definition bad_fd (fd : Z) (t : Task) : bool :=
  (Vector.size (file_descriptors t) <=? fd) || (fd <? 0).

(** What the path is resolved from, or the error of [openat_inner]. *)
Definition starting_point (dirfd : Z) (path : cstring) (st : vfs) (t : Task) : outcome (Z + Z) :=
  if negb (CString.deref path =? 47) then
    if dirfd =? AT_FDCWD then Ret (inl (cwd t))
    else if bad_fd dirfd t then Ret (inr (- EBADF))
    else
      d ← at_ (file_descriptors t) dirfd;
      match d with
      | None => Ret (inr (- EBADF))
      | Some d =>
          n ← deref st (node d);
          if bool_decide (type n <> DIRECTORY) then Ret (inr (- ENOTDIR)) else Ret (inl (node d))
      end
  else Ret (inl 0).

Definition openat_inner (dirfd : Z) (path : cstring) (st : vfs) (t : Task) : outcome (Task * Z) :=
  s ← starting_point dirfd path st t;
  match s with
  | inr e => Ret (t, e)
  | inl start =>
      result ← path_to_node st path start;
      if target result =? 0 then Ret (t, - ENOENT)
      else
        '(t, fd) ← allocate_fdnum t;
        t ← set_fd fd (Some (mkFileDescriptor (target result) 0)) t;
        Ret (t, fd)
  end.

Definition syscall_open (path : cstring) (st : vfs) (t : Task) : outcome (Task * Z) :=
  openat_inner AT_FDCWD path st t.
Definition syscall_openat (dirfd : Z) (path : cstring) (st : vfs) (t : Task) : outcome (Task * Z) :=
  openat_inner dirfd path st t.

(** The descriptor [fd] names, when it names one. *)
Definition descriptor (fd : Z) (t : Task) : outcome (option FileDescriptor) :=
  if bad_fd fd t then Ret None else at_ (file_descriptors t) fd.

Definition syscall_close (fd : Z) (t : Task) : outcome Task :=
  d ← descriptor fd t;
  match d with
  | None => Ret t
  | Some _ =>
      v ← put (file_descriptors t) fd None;
      Ret (mkTask v (u64 (num_file_descriptors t - 1)) fd (cwd t))
  end.

Definition syscall_seek (fd offset : Z) (t : Task) : outcome Task :=
  d ← descriptor fd t;
  match d with
  | None => Ret t
  | Some d => set_fd fd (Some (mkFileDescriptor (node d) (u64 offset))) t
  end.

(** ** The working directory *)

(** [parent_names], innermost first.  A cycle of parents would never end. *)
Fixpoint names_loop (fuel : nat) (st : vfs) (current : Z) : outcome (list cstring) :=
  match fuel with
  | O => Diverge
  | S fuel =>
      n ← deref st current;
      if parent n =? 0 then Ret [name n]
      else
        p ← deref st (parent n);
        if parent p =? 0 then Ret [name n]
        else names ← names_loop fuel st (parent n); Ret (name n :: names)
  end.

(** Storing characters until one is the last that fits: the characters stored,
    and whether the call ended with [ERANGE]. *)
Fixpoint store_chars (cs : cstring) (buf_index size : Z) : list Z * bool :=
  match cs with
  | [] => ([], false)
  | c :: cs =>
      if size <=? buf_index + 1 then ([c], true)
      else let '(out, e) := store_chars cs (buf_index + 1) size in (c :: out, e)
  end.

Definition getcwd_text (names : list cstring) : cstring :=
  concat ((fun nm => 47 :: strdup nm) <$> rev names).

(** The bytes stored at the start of [buf], and the result.  With a size of 0
    one byte is stored all the same, outside the buffer. *)
Definition syscall_getcwd (buf_size : Z) (st : vfs) (t : Task) : outcome (list Z * Z) :=
  names ← names_loop (S (base.size (nodes st))) st (cwd t);
  let '(out, e) := store_chars (getcwd_text names) 0 buf_size in
  Ret (out, if e : bool then - ERANGE else 0).

Definition syscall_chdir (path : cstring) (st : vfs) (t : Task) : outcome (Task * Z) :=
  result ← path_to_node st path (if negb (CString.deref path =? 47) then cwd t else 0);
  if target result =? 0 then Ret (t, - ENOENT)
  else
    n ← deref st (target result);
    if bool_decide (type n <> DIRECTORY) then Ret (t, - ENOTDIR)
    else Ret (mkTask (file_descriptors t) (num_file_descriptors t) (first_free_fdnum t) (target result), 0).

(** ** Reading and writing *)
Section io.
Context (filesystem : Z -> option FileSystem).
Context {S : Type} (putchar : Z -> S -> outcome S).

Record sys := mkSys { files : vfs; task : Task; keyboard : kbd; screen : S }.

(** [descriptor->node->fs] *)
Definition fs_of (d : FileDescriptor) (st : vfs) : outcome FileSystem :=
  n ← deref st (node d); of_option (filesystem (fs n)).

Definition advance (fd count : Z) (d : FileDescriptor) (t : Task) : outcome Task :=
  set_fd fd (Some (mkFileDescriptor (node d) (u64 (cursor d + count)))) t.

(** [incoming] are the scan codes of the interrupts that arrive during a read of
    the keyboard.  The result: the bytes stored in [buf], the interrupts left. *)
Definition syscall_read (fd count : Z) (incoming : list Z) (s : sys) :
    outcome (list (option Z) * list Z * sys) :=
  if bad_fd fd (task s) then Ret ([], incoming, s)
  else if fd =? 0 then
    '(bytes, incoming, k) ← Keyboard.read count incoming (keyboard s);
    Ret (Some <$> (bytes : list Z), incoming, mkSys (files s) (task s) k (screen s))
  else
    d ← at_ (file_descriptors (task s)) fd;
    match d with
    | None => Ret ([], incoming, s)
    | Some d =>
        F ← fs_of d (files s);
        '(_, bytes) ← read F (node d) count (cursor d) (files s);
        t ← advance fd count d (task s);
        Ret (bytes, incoming, mkSys (files s) t (keyboard s) (screen s))
    end.

Definition syscall_pread (fd count offset : Z) (s : sys) : outcome (list (option Z)) :=
  d ← descriptor fd (task s);
  match d with
  | None => Ret []
  | Some d =>
      F ← fs_of d (files s);
      '(_, bytes) ← read F (node d) count offset (files s);
      Ret bytes
  end.

(** [count] bytes of the memory found at [buf] *)
Definition user_bytes (buf : list Z) (count : Z) : outcome (list Z) :=
  if count <=? Z.of_nat (length buf) then Ret (take (Z.to_nat count) buf) else Fault.

Definition syscall_write (fd : Z) (buf : list Z) (count : Z) (s : sys) : outcome sys :=
  if bad_fd fd (task s) then Ret s
  else if fd =? 1 then
    (* an [int] is passed where [vprintf] takes a [usize]: only a length that
       is the same in both has a meaning *)
    if u32 count <? 2 ^ 31 then
      '(scr, _) ← vprintf putchar (lit "%.*s") [AInt (u32 count); AStr buf] (screen s);
      Ret (mkSys (files s) (task s) (keyboard s) scr)
    else Fault
  else
    d ← at_ (file_descriptors (task s)) fd;
    match d with
    | None => Ret s
    | Some d =>
        F ← fs_of d (files s);
        bytes ← user_bytes buf count;
        st ← write F (node d) bytes (cursor d) (files s);
        t ← advance fd count d (task s);
        Ret (mkSys st t (keyboard s) (screen s))
    end.

Definition syscall_pwrite (fd : Z) (buf : list Z) (count offset : Z) (s : sys) : outcome sys :=
  d ← descriptor fd (task s);
  match d with
  | None => Ret s
  | Some d =>
      F ← fs_of d (files s);
      bytes ← user_bytes buf count;
      st ← write F (node d) bytes offset (files s);
      Ret (mkSys st (task s) (keyboard s) (screen s))
  end.
End io.
End Vfs.
Arguments Node : clear implicits.
Arguments vfs : clear implicits.
Arguments FileSystem : clear implicits.
Arguments sys : clear implicits.
