(* ===== verification/Descriptors.v ===== *)
(** * The descriptor table: invariant, allocation, reading and writing

    What a file system promises to the calls that go through a descriptor is
    the class [FileContents]; the theorems about reading and writing are proved
    against it, and file Tmpfs gives its instance. *)
From S2P Require Import Prelude CString HashMap Vector Keyboard Printf Vfs.

(** ** The table *)
Definition table : Type := list (option FileDescriptor).

Definition open_count (l : table) : nat := length (omap id l).

Record fds_ok (t : Task) (l : table) : Prop := {
  fds_holds : holds (file_descriptors t) l;
  fds_num : num_file_descriptors t = Z.of_nat (open_count l);
  fds_first : 0 <= first_free_fdnum t <= Z.of_nat (length l);
  fds_small : Vector.m_capacity (file_descriptors t) < 2 ^ 59
}.

Lemma open_count_le l : (open_count l <= length l)%nat.
Proof. induction l as [|[d|] l IH]; cbn in *; [lia|unfold open_count in *; cbn; lia..]. Qed.

Lemma open_count_app l1 l2 : open_count (l1 ++ l2) = (open_count l1 + open_count l2)%nat.
Proof. unfold open_count. by rewrite omap_app, length_app. Qed.

Lemma open_count_set l i d x :
  zlookup l i = Some x ->
  (open_count (zinsert i d l) + (if x is Some _ then 1 else 0))%nat = (open_count l + (if d is Some _ then 1 else 0))%nat.
Proof.
  intros (l1 & l2 & -> & ->)%zlookup_split. rewrite !open_count_app.
  destruct x, d; unfold open_count; cbn; lia.
Qed.

Lemma find_free_spec n : forall i v l,
  holds v l -> 0 <= i -> i + Z.of_nat n = Vector.m_size v ->
  exists r, find_free n i v = Ret r /\
    match r with Some j => i <= j < Z.of_nat (length l) /\ zlookup l j = Some None | None => True end.
Proof.
  induction n as [|n IH]; intros i v l Hv Hi Hn; cbn [find_free]; [by exists None|].
  pose proof (holds_size v l Hv) as Hs.
  rewrite (at_spec v l i) by (done || lia). destruct (zlookup_is_Some l i) as [x Hx]; [lia|].
  rewrite Hx. ored. destruct x as [d|].
  - destruct (IH (i + 1) v l) as (r & -> & Hr); [done|lia..|]. exists r. split; [done|].
    destruct r; [|done]. split; [lia|tauto].
  - exists (Some i). split; [done|]. split; [lia|done].
Qed.

Lemma find_free_first n i v l :
  holds v l -> (0 < n)%nat -> 0 <= i < Vector.m_size v -> zlookup l i = Some None ->
  find_free n i v = Ret (Some i).
Proof.
  intros Hv Hn Hi Hl. destruct n as [|n]; [lia|]. cbn [find_free].
  rewrite (at_spec v l i) by done. by rewrite Hl.
Qed.

(** [fd] is a number that was free in [l] and names [d] in [l'], all other
    numbers naming what they did. *)
Definition opened (l l' : table) (fd : Z) (d : FileDescriptor) : Prop :=
  0 <= fd <= Z.of_nat (length l) /\
  (zlookup l fd = Some None \/ zlookup l fd = None) /\
  zlookup l' fd = Some (Some d) /\
  forall j, j <> fd -> zlookup l' j = zlookup l j.

Lemma zlookup_app_l {A} (l1 l2 : list A) i :
  i < Z.of_nat (length l1) -> zlookup (l1 ++ l2) i = zlookup l1 i.
Proof. intros. unfold zlookup. case_bool_decide; [|done]. apply lookup_app_l. lia. Qed.

Lemma zlookup_snoc_ne {A} (l : list A) x i :
  i <> Z.of_nat (length l) -> zlookup (l ++ [x]) i = zlookup l i.
Proof.
  intros. destruct (Z.lt_ge_cases i (Z.of_nat (length l))); [by apply zlookup_app_l|].
  rewrite !zlookup_None; [done|lia|rewrite length_app; cbn; lia].
Qed.

Lemma allocate_set_spec t l d :
  fds_ok t l -> Vector.m_capacity (file_descriptors t) < 2 ^ 58 ->
  exists t1 fd t2 l', allocate_fdnum t = Ret (t1, fd) /\ set_fd fd (Some d) t1 = Ret t2 /\
    fds_ok t2 l' /\ opened l l' fd d /\ cwd t2 = cwd t /\
    (length l' <= S (length l))%nat /\
    (zlookup l (first_free_fdnum t) = Some None -> fd = first_free_fdnum t).
Proof.
  intros [Hv Hnum Hf Hsm] Hcap. unfold allocate_fdnum. pose proof Hv as [_ Hs Hl Hb].
  pose proof (open_count_le l) as Hoc. rewrite (wrap_small 64 (num_file_descriptors t + 1)) by lia.
  unfold Vector.size.
  destruct (find_free_spec (Z.to_nat (Vector.m_size (file_descriptors t) - first_free_fdnum t))
    (first_free_fdnum t) (file_descriptors t) l) as (r & Hr & Hspec); [done|lia..|].
  rewrite Hr. ored. destruct r as [i|].
  - destruct Hspec as [Hi Hli].
    destruct (put_spec (file_descriptors t) l i (Some d)) as (v' & Hput & Hv'); [done|lia|].
    exists (mkTask (file_descriptors t) (num_file_descriptors t + 1) i (cwd t)), i.
    eexists _, (zinsert i (Some d) l). split; [done|]. unfold set_fd. cbn [file_descriptors].
    rewrite Hput. ored. split; [done|].
    pose proof (open_count_set l i (Some d) None Hli) as Hc. cbv iota in Hc.
    assert (Vector.m_capacity v' = Vector.m_capacity (file_descriptors t)) as Hcap'.
    { unfold put in Hput. inv_ret. by subst. }
    split; [split; cbn [file_descriptors num_file_descriptors first_free_fdnum]|].
    + done.
    + lia.
    + rewrite length_zinsert. lia.
    + lia.
    + split; [|split; [done|split; [rewrite length_zinsert; lia|]]].
      * split; [lia|]. split; [by left|]. split; [apply zlookup_zinsert_eq; lia|].
        intros j Hj. by apply zlookup_zinsert_ne; lia || done.
      * intros Hfree. rewrite (find_free_first _ _ _ l) in Hr; try done; [by injection Hr|..].
        -- apply zlookup_Some_range in Hfree. lia.
        -- apply zlookup_Some_range in Hfree. lia.
  - destruct (push_back_spec (file_descriptors t) l None Hv) as (v1 & Hpb & Hv1); [lia|].
    rewrite Hpb. ored. pose proof Hv1 as [_ Hs1 Hl1 Hb1]. rewrite length_app in Hs1. cbn in Hs1.
    destruct (put_spec v1 (l ++ [None]) (Z.of_nat (length l)) (Some d)) as (v2 & Hput & Hv2); [done|lia|].
    replace (Vector.m_size v1 - 1) with (Z.of_nat (length l)) by lia.
    eexists _, (Z.of_nat (length l)), _, (zinsert (Z.of_nat (length l)) (Some d) (l ++ [None])).
    split; [done|]. unfold set_fd. cbn [file_descriptors]. rewrite Hput. ored. split; [done|].
    assert (zlookup (l ++ [None]) (Z.of_nat (length l)) = Some (None : option FileDescriptor)) as Hli.
    { unfold zlookup. rewrite bool_decide_true, Nat2Z.id by lia. by rewrite list_lookup_middle. }
    pose proof (open_count_set _ _ (Some d) None Hli) as Hc. rewrite open_count_app in Hc. cbv iota in Hc.
    change (open_count [None]) with 0%nat in Hc.
    assert (Vector.m_capacity v2 = Vector.m_capacity v1) as Hcap2.
    { unfold put in Hput. inv_ret. by subst. }
    assert (Vector.m_capacity v1 <= 2 * Vector.m_capacity (file_descriptors t) + 1) as Hcap1.
    { unfold push_back in Hpb. destruct (_ =? _); [destruct (negb _)|]; unfold put in Hpb; inv_ret;
        cbn [Vector.m_capacity]; subst; cbn [Vector.m_capacity]; rewrite ?wrap_small by lia; lia. }
    split; [split; cbn [file_descriptors num_file_descriptors first_free_fdnum]|].
    + done.
    + lia.
    + rewrite length_zinsert, length_app. cbn. lia.
    + lia.
    + split; [|split; [done|split; [rewrite length_zinsert, length_app; cbn; lia|]]].
      * split; [lia|]. split; [right; apply zlookup_None; lia|].
        split; [apply zlookup_zinsert_eq; rewrite length_app; cbn; lia|].
        intros j Hj. rewrite zlookup_zinsert_ne by lia. by apply zlookup_snoc_ne.
      * intros Hfree. rewrite (find_free_first _ _ _ l) in Hr; try done; apply zlookup_Some_range in Hfree; lia.
Qed.

Section opening.
Context {D : Type}.
Implicit Types (st : vfs D) (t : Task) (l : table).

(** Opening a path that resolves takes a descriptor number that was free,
    makes it name the node at offset 0 and leaves every other number, the
    working directory and the count of descriptors right; a path that does not
    resolve is [-ENOENT] and changes nothing. *)
Theorem openat_takes_a_free_number st t l dirfd path start r :
  fds_ok t l -> Vector.m_capacity (file_descriptors t) < 2 ^ 58 ->
  starting_point dirfd path st t = Ret (inl start) -> path_to_node st path start = Ret r ->
  if target r =? 0 then openat_inner dirfd path st t = Ret (t, - ENOENT)
  else exists t' fd l', openat_inner dirfd path st t = Ret (t', fd) /\ fds_ok t' l' /\
         opened l l' fd (mkFileDescriptor (target r) 0) /\ cwd t' = cwd t.
Proof.
  intros Hok Hcap Hs Hp. unfold openat_inner. rewrite Hs. ored. rewrite Hp. ored.
  destruct (target r =? 0); [done|].
  destruct (allocate_set_spec t l (mkFileDescriptor (target r) 0) Hok Hcap)
    as (t1 & fd & t2 & l' & -> & Hset & Hok' & Ho & Hc & _). ored. rewrite Hset. ored.
  by exists t2, fd, l'.
Qed.

Lemma descriptor_spec t l fd :
  fds_ok t l -> descriptor fd t = Ret (default None (zlookup l fd)).
Proof.
  intros [Hv _ _ _]. unfold descriptor, bad_fd, Vector.size. pose proof (holds_size _ _ Hv) as Hs.
  destruct (Z.leb_spec (Vector.m_size (file_descriptors t)) fd), (Z.ltb_spec fd 0); cbn [orb];
    try (rewrite zlookup_None; [done|lia]).
  rewrite (at_spec _ l fd) by (done || lia). destruct (zlookup_is_Some l fd) as [x ->]; [lia|]. done.
Qed.

Lemma close_spec t l fd d :
  fds_ok t l -> zlookup l fd = Some (Some d) ->
  exists t', syscall_close fd t = Ret t' /\ fds_ok t' (zinsert fd None l) /\ cwd t' = cwd t /\
    first_free_fdnum t' = fd /\ Vector.m_capacity (file_descriptors t') = Vector.m_capacity (file_descriptors t).
Proof.
  intros Hok Hfd. unfold syscall_close. rewrite (descriptor_spec t l fd Hok), Hfd. cbn [default from_option id]. ored.
  pose proof Hok as [Hv Hnum Hf Hsm]. pose proof (zlookup_Some_range _ _ _ Hfd) as Hr.
  pose proof (holds_size _ _ Hv) as Hs. pose proof (open_count_le l). pose proof (holds_bounds _ _ Hv) as Hb.
  destruct (put_spec (file_descriptors t) l fd None) as (v' & Hput & Hv'); [done|lia|].
  rewrite Hput. ored. pose proof (open_count_set l fd None _ Hfd) as Hc. cbv iota in Hc.
  rewrite wrap_small by lia.
  assert (Vector.m_capacity v' = Vector.m_capacity (file_descriptors t)) as Hcap'.
  { unfold put in Hput. inv_ret. by subst. }
  eexists. split; [done|]. split; [|done].
  split; cbn [file_descriptors num_file_descriptors first_free_fdnum]; [done|lia|rewrite length_zinsert; lia|lia].
Qed.

(** Closing a number that names a file frees it and only it, the next
    [open] gets that number back; closing any other number changes nothing. *)
Theorem close_frees_the_number t l fd d :
  fds_ok t l -> Vector.m_capacity (file_descriptors t) < 2 ^ 58 ->
  match zlookup l fd with
  | Some (Some _) =>
      exists t', syscall_close fd t = Ret t' /\ fds_ok t' (zinsert fd None l) /\ cwd t' = cwd t /\
        exists t1 t2, allocate_fdnum t' = Ret (t1, fd) /\ set_fd fd (Some d) t1 = Ret t2 /\
          fds_ok t2 (zinsert fd (Some d) l)
  | _ => syscall_close fd t = Ret t
  end.
Proof.
  intros Hok Hcap. destruct (zlookup l fd) as [[d0|]|] eqn:Hfd;
    [|by unfold syscall_close; rewrite (descriptor_spec t l fd Hok), Hfd..].
  destruct (close_spec t l fd d0 Hok Hfd) as (t' & E & Hok' & Hcwd & Hfirst & Hcap').
  exists t'. split; [done|]. split; [done|]. split; [done|].
  pose proof (zlookup_Some_range _ _ _ Hfd) as Hr.
  destruct (allocate_set_spec _ _ d Hok' ltac:(lia)) as (t1 & fd' & t2 & l' & Ha & Hset & Hok2 & Ho & _ & _ & Hff).
  rewrite Hfirst in Hff. rewrite zlookup_zinsert_eq in Hff by lia. specialize (Hff eq_refl). subst fd'.
  exists t1, t2. split; [done|]. split; [done|].
  replace (zinsert fd (Some d) l) with l'; [done|]. apply zlookup_ext. intros j Hj.
  destruct Ho as (_ & _ & Hl' & Hother). destruct (decide (j = fd)) as [->|Hne].
  - rewrite Hl'. by rewrite zlookup_zinsert_eq by lia.
  - rewrite Hother, !zlookup_zinsert_ne by (done || lia). done.
Qed.

End opening.

(** ** Files behind descriptors *)

(** The bytes after [bytes] are put at [offset]: what lies between the old end
    and [offset] was written by nobody. *)
Definition splice (b : list (option Z)) (offset : Z) (bytes : list Z) : list (option Z) :=
  take (Z.to_nat offset) b ++ replicate (Z.to_nat offset - length b) None ++
  (Some <$> bytes) ++ drop (Z.to_nat offset + length bytes) b.

(** What a file system promises of its files. *)
Class FileContents {D : Type} (F : FileSystem D) := {
  contents : vfs D -> Z -> option (list (option Z));
  contents_fs : forall st p b, contents st p = Some b -> exists n, nodes st !! p = Some n;
  read_contents : forall st p b count offset,
    contents st p = Some b -> 0 <= count -> 0 <= offset -> offset + count < 2 ^ 64 ->
    read F p count offset st
    = Ret (Z.of_nat (length (take (Z.to_nat count) (drop (Z.to_nat offset) b))),
           take (Z.to_nat count) (drop (Z.to_nat offset) b));
  write_contents : forall st p b bytes offset,
    contents st p = Some b -> 0 <= offset -> offset + Z.of_nat (length bytes) < 2 ^ 64 ->
    exists st', write F p bytes offset st = Ret st' /\
      contents st' p = Some (splice b offset bytes) /\
      (forall q, q <> p -> nodes st' !! q = nodes st !! q) /\
      (forall q, q <> p -> contents st' q = contents st q) /\
      (fs <$> nodes st' !! p = fs <$> nodes st !! p)
}.

Lemma take_drop_splice b offset bytes :
  0 <= offset ->
  take (length bytes) (drop (Z.to_nat offset) (splice b offset bytes)) = Some <$> bytes.
Proof.
  intros. unfold splice. rewrite app_assoc.
  assert (length (take (Z.to_nat offset) b ++ replicate (Z.to_nat offset - length b) (@None Z))
    = Z.to_nat offset) as Hl.
  { rewrite length_app, length_take, length_replicate. lia. }
  rewrite drop_app_length' by done. rewrite take_app_length' by (by rewrite length_fmap). done.
Qed.

(** Two pieces written one after the other. *)
Lemma splice_splice b offset x y :
  0 <= offset -> splice (splice b offset x) (offset + Z.of_nat (length x)) y = splice b offset (x ++ y).
Proof.
  intros Ho. unfold splice at 1 3. rewrite Z2Nat.inj_add, Nat2Z.id, fmap_app, length_app by lia.
  set (pre := take (Z.to_nat offset) b ++ replicate (Z.to_nat offset - length b) (@None Z)).
  assert (length pre = Z.to_nat offset) as Hp.
  { unfold pre. rewrite length_app, length_take, length_replicate. lia. }
  assert (splice b offset x = (pre ++ (Some <$> x)) ++ drop (Z.to_nat offset + length x) b) as ->
    by (unfold splice, pre; by rewrite <- !app_assoc).
  assert (length (pre ++ (Some <$> x)) = (Z.to_nat offset + length x)%nat) as Hpx
    by (rewrite length_app, length_fmap; lia).
  rewrite take_app_length' by done. rewrite length_app, Hpx.
  replace (_ - _)%nat with 0%nat by lia. cbn [replicate app].
  rewrite drop_app_ge by lia. rewrite Hpx, drop_drop. rewrite <- !app_assoc.
  replace (Z.to_nat offset + length x + (Z.to_nat offset + length x + length y - (Z.to_nat offset + length x)))%nat
    with (Z.to_nat offset + (length x + length y))%nat by lia. unfold pre. by rewrite <- !app_assoc.
Qed.

Section io.
Context {D : Type} (filesystem : Z -> option (FileSystem D)) (F : FileSystem D) `{!FileContents F}.
Context {S : Type} (putchar : Z -> S -> outcome S).
Implicit Types (s : sys D S).

(** Number [fd], neither the keyboard nor the screen, names the file [p] of [F]
    holding [b], the cursor at [c]. *)
Definition names_file s (l : table) (fd p c : Z) (b : list (option Z)) : Prop :=
  1 < fd /\ zlookup l fd = Some (Some (mkFileDescriptor p c)) /\
  contents (files s) p = Some b /\
  exists n, nodes (files s) !! p = Some n /\ filesystem (fs n) = Some F.

Lemma names_file_fs s l fd p c b :
  names_file s l fd p c b -> fs_of filesystem (mkFileDescriptor p c) (files s) = Ret F.
Proof.
  intros (_ & _ & _ & n & Hn & HF). unfold fs_of, Vfs.deref. cbn [node]. rewrite Hn. ored. by rewrite HF.
Qed.

Lemma user_bytes_spec buf count :
  0 <= count <= Z.of_nat (length buf) -> user_bytes buf count = Ret (take (Z.to_nat count) buf).
Proof. intros. unfold user_bytes. by rewrite (proj2 (Z.leb_le _ _)) by lia. Qed.

Lemma not_bad_fd t l fd x :
  fds_ok t l -> zlookup l fd = Some x ->
  bad_fd fd t = false /\ at_ (file_descriptors t) fd = Ret x.
Proof.
  intros [Hv _ _ _] Hx. pose proof (holds_size _ _ Hv). pose proof (zlookup_Some_range _ _ _ Hx).
  unfold bad_fd, Vector.size. rewrite (proj2 (Z.leb_gt _ _)), (proj2 (Z.ltb_ge _ _)) by lia.
  split; [done|]. rewrite (at_spec _ l) by (done || lia). by rewrite Hx.
Qed.

Lemma set_fd_spec t l fd d0 d :
  fds_ok t l -> zlookup l fd = Some (Some d0) ->
  exists t', set_fd fd (Some d) t = Ret t' /\ cwd t' = cwd t /\ fds_ok t' (zinsert fd (Some d) l).
Proof.
  intros Hok Hd. pose proof Hok as [Hv Hnum Hf Hsm]. pose proof (zlookup_Some_range _ _ _ Hd) as Hr.
  pose proof (holds_size _ _ Hv). unfold set_fd.
  destruct (put_spec (file_descriptors t) l fd (Some d)) as (v' & Hput & Hv'); [done|lia|].
  rewrite Hput. ored. eexists. split; [done|]. split; [done|].
  assert (Vector.m_capacity v' = Vector.m_capacity (file_descriptors t)) as Hcap'.
  { unfold put in Hput. inv_ret. by subst. }
  pose proof (open_count_set l fd (Some d) _ Hd) as Hc. cbv iota in Hc.
  split; cbn [file_descriptors num_file_descriptors first_free_fdnum];
    [done|lia|rewrite length_zinsert; lia|lia].
Qed.

Lemma advance_spec t l fd count d :
  fds_ok t l -> zlookup l fd = Some (Some d) ->
  exists t', advance fd count d t = Ret t' /\ cwd t' = cwd t /\
    fds_ok t' (zinsert fd (Some (mkFileDescriptor (node d) (u64 (cursor d + count)))) l).
Proof. apply set_fd_spec. Qed.

(** A descriptor of the file [p], the cursor at [c]. *)
Definition at_cursor (fd p c : Z) (l : table) : table := zinsert fd (Some (mkFileDescriptor p c)) l.

Lemma write_through s l fd p c b buf count :
  fds_ok (task s) l -> names_file s l fd p c b ->
  0 <= c -> 0 <= count <= Z.of_nat (length buf) -> c + count < 2 ^ 64 ->
  exists s', syscall_write filesystem putchar fd buf count s = Ret s' /\ fds_ok (task s') (at_cursor fd p (c + count) l) /\
    names_file s' (at_cursor fd p (c + count) l) fd p (c + count) (splice b c (take (Z.to_nat count) buf)) /\
    (forall q, q <> p -> contents (files s') q = contents (files s) q) /\
    keyboard s' = keyboard s /\ screen s' = screen s /\ cwd (task s') = cwd (task s).
Proof.
  intros Hok Hn Hc Hcount Hov. pose proof Hn as (Hfd & Hl & Hb & n & Hnode & HF).
  destruct (not_bad_fd _ _ _ _ Hok Hl) as [Hbad Hat].
  unfold syscall_write. rewrite Hbad, (proj2 (Z.eqb_neq fd 1)) by lia. rewrite Hat. ored.
  rewrite (names_file_fs s l fd p c b Hn). ored. rewrite user_bytes_spec by lia. ored.
  cbn [node cursor]. set (bytes := take (Z.to_nat count) buf).
  assert (Z.of_nat (length bytes) = count) as Hlen by (subst bytes; rewrite length_take; lia).
  destruct (write_contents (files s) p b bytes c Hb Hc ltac:(lia)) as (st' & -> & Hb' & Hnodes & Hcont & Hfs).
  ored. destruct (advance_spec (task s) l fd count _ Hok Hl) as (t' & -> & Hcwd & Hok'). ored.
  cbn [node cursor] in Hok'. rewrite wrap_small in Hok' by lia.
  eexists. split; [done|]. split; [exact Hok'|]. split; [|done]. split; [done|]. cbn [files].
  split; [apply zlookup_zinsert_eq; by eapply zlookup_Some_range|]. split; [done|].
  rewrite Hnode in Hfs. cbn in Hfs. apply fmap_Some in Hfs as (n' & Hn' & E). exists n'. split; [done|]. by rewrite <- E.
Qed.

Lemma read_through s l fd p c b count incoming :
  fds_ok (task s) l -> names_file s l fd p c b -> 0 <= c -> 0 <= count -> c + count < 2 ^ 64 ->
  exists t', syscall_read filesystem fd count incoming s
      = Ret (take (Z.to_nat count) (drop (Z.to_nat c) b), incoming, mkSys (files s) t' (keyboard s) (screen s)) /\
    fds_ok t' (at_cursor fd p (c + count) l) /\ cwd t' = cwd (task s).
Proof.
  intros Hok Hn Hc Hcount Hov. pose proof Hn as (Hfd & Hl & Hb & n & Hnode & HF).
  destruct (not_bad_fd _ _ _ _ Hok Hl) as [Hbad Hat].
  unfold syscall_read. rewrite Hbad, (proj2 (Z.eqb_neq fd 0)) by lia. rewrite Hat. ored.
  rewrite (names_file_fs s l fd p c b Hn). ored. cbn [node cursor].
  rewrite (read_contents (files s) p b count c Hb) by done. ored.
  destruct (advance_spec (task s) l fd count _ Hok Hl) as (t' & -> & Hcwd & Hok'). ored.
  cbn [node cursor] in Hok'. rewrite wrap_small in Hok' by lia. by exists t'.
Qed.

Lemma names_file_moved s l fd p c c' b t :
  names_file s l fd p c b -> names_file (mkSys (files s) t (keyboard s) (screen s)) (at_cursor fd p c' l) fd p c' b.
Proof.
  intros (Hfd & Hl & Hb & Hn). split; [done|]. split; [|by split].
  apply zlookup_zinsert_eq. by eapply zlookup_Some_range.
Qed.

(** C21. Writing through a descriptor puts the bytes into the file at the cursor
    and moves the cursor behind them; a read at that offset through any
    descriptor of the file gives them back.  No other file changes. *)
Theorem write_then_pread s l fd p c b buf count :
  fds_ok (task s) l -> names_file s l fd p c b ->
  0 <= c -> 0 <= count <= Z.of_nat (length buf) -> c + count < 2 ^ 64 ->
  exists s' l', syscall_write filesystem putchar fd buf count s = Ret s' /\ fds_ok (task s') l' /\
    names_file s' l' fd p (c + count) (splice b c (take (Z.to_nat count) buf)) /\
    (forall q, q <> p -> contents (files s') q = contents (files s) q) /\
    (forall fd' c', zlookup l' fd' = Some (Some (mkFileDescriptor p c')) ->
       syscall_pread filesystem fd' count c s' = Ret (Some <$> take (Z.to_nat count) buf)).
Proof.
  intros Hok Hn Hc Hcount Hov.
  destruct (write_through s l fd p c b buf count Hok Hn Hc Hcount Hov) as (s' & E & Hok' & Hn' & Hcont & _).
  exists s', (at_cursor fd p (c + count) l). split; [done|]. split; [done|]. split; [done|]. split; [done|].
  intros fd' c' Hfd'. unfold syscall_pread. rewrite (descriptor_spec (task s') _ fd' Hok').
  rewrite Hfd'. cbn [default from_option id]. ored. pose proof (names_file_fs s' _ fd p _ _ Hn') as HF.
  unfold fs_of in *. cbn [node] in *. rewrite HF. ored. destruct Hn' as (_ & _ & Hb' & _).
  rewrite (read_contents (files s') p _ count c Hb') by lia. ored. f_equal.
  rewrite <- (take_drop_splice b c (take (Z.to_nat count) buf)) by done. f_equal. rewrite length_take. lia.
Qed.

(** Reading through a descriptor gives the bytes of the file from the cursor
    on, as many as there are up to [count], and changes no file; the cursor
    moves by [count] whatever was read. *)
Theorem read_gives_the_contents s l fd p c b count incoming :
  fds_ok (task s) l -> names_file s l fd p c b -> 0 <= c -> 0 <= count -> c + count < 2 ^ 64 ->
  exists s' l', syscall_read filesystem fd count incoming s
      = Ret (take (Z.to_nat count) (drop (Z.to_nat c) b), incoming, s') /\
    files s' = files s /\ fds_ok (task s') l' /\ names_file s' l' fd p (c + count) b.
Proof.
  intros Hok Hn Hc Hcount Hov.
  destruct (read_through s l fd p c b count incoming Hok Hn Hc Hcount Hov) as (t' & E & Hok' & _).
  eexists _, (at_cursor fd p (c + count) l). split; [done|]. split; [done|]. split; [done|]. by apply (names_file_moved _ _ _ _ c).
Qed.

End io.
