(* ===== verification/Tmpfs.v ===== *)
(** * fs/tmpfs.cpp

    The one file system of the program: a file's bytes in a heap block that
    [write] grows.  A cell of the block nobody has written holds nothing; the
    null block of a new file is the empty one.  What the heap answers when a
    file grows is the class [Heap]: [granted], which every development uses that
    does not say otherwise, grants every reallocation (file Buddy proves that
    they keep the old bytes); file Session proves its theorem for any heap that
    grants the sizes the allocator can answer. *)
From S2P Require Import Prelude CString HashMap Vector Keyboard Printf Vfs Descriptors.

(** Whether [realloc] to a size gives a block or null; it may never return. *)
Class Heap := realloc_answer : Z -> outcome bool.
#[export] Instance granted : Heap := fun _ => Ret true.

Record NodeData := mkNodeData { storage : list (option Z); nd_size : Z }.

Definition set_data (p : Z) (d : NodeData) (st : vfs NodeData) : outcome (vfs NodeData) :=
  n ← Vfs.deref st p;
  Ret (set_node p (mkNode (type n) (fs n) (Some d) (redirect n) (parent n) (name n) (children n)) st).

Section tmpfs.
Context {heap : Heap} (junk : Z -> Z).

(** [create(fs, parent, name, type)] *)
Definition create (fs parent : Z) (nm : cstring) (ty : node_type) (st : vfs NodeData) :
    outcome (vfs NodeData * Z) :=
  match ty with
  | FILE =>
      let '(st, node) := new_FileNode junk fs parent nm st in
      st ← set_data node (mkNodeData [] 0) st;
      st ← insert_child parent nm node st;
      Ret (st, node)
  | DIRECTORY =>
      let '(st, node) := new_DirectoryNode junk fs parent nm st in
      st ← create_dotentries junk node st;
      st ← (if negb (parent =? 0) then insert_child parent nm node st else Ret st);
      Ret (st, node)
  | NONE => Ret (st, 0)
  end.

(** [memcpy(buf, storage + offset, count)] *)
Definition copy_out (b : list (option Z)) (offset count : Z) : outcome (list (option Z)) :=
  if offset + count <=? Z.of_nat (length b)
  then Ret (take (Z.to_nat count) (drop (Z.to_nat offset) b)) else Fault.

(** [memcpy(storage + offset, buf, count)]: no bytes are no access. *)
Definition copy_in (b : list (option Z)) (offset : Z) (bytes : list Z) : outcome (list (option Z)) :=
  if bool_decide (bytes = []) then Ret b
  else if offset + Z.of_nat (length bytes) <=? Z.of_nat (length b)
  then Ret (take (Z.to_nat offset) b ++ (Some <$> bytes) ++ drop (Z.to_nat offset + length bytes) b)
  else Fault.

Definition read (node count offset : Z) (st : vfs NodeData) : outcome (Z * list (option Z)) :=
  n ← Vfs.deref st node;
  if bool_decide (type n <> FILE) then Ret (-1, [])
  else
    d ← of_option (data n);
    if nd_size d <=? offset then Ret (0, [])
    else if nd_size d <? u64 (offset + count) then
      let actual_count := nd_size d - offset in
      bytes ← copy_out (storage d) offset actual_count; Ret (actual_count, bytes)
    else bytes ← copy_out (storage d) offset count; Ret (count, bytes).

Definition write (node : Z) (bytes : list Z) (offset : Z) (st : vfs NodeData) : outcome (vfs NodeData) :=
  n ← Vfs.deref st node;
  if bool_decide (type n <> FILE) then Ret st
  else
    d ← of_option (data n);
    let count := Z.of_nat (length bytes) in
    d ←
      (if nd_size d <? u64 (offset + count)
       then
         block ← realloc_answer (u64 (offset + count));
         Ret (mkNodeData (if block : bool then Vector.realloc (storage d) (u64 (offset + count)) else []) (u64 (offset + count)))
       else Ret d);
    cells ← copy_in (storage d) offset bytes;
    set_data node (mkNodeData cells (nd_size d)) st.

(** [instantiate]: the table of operations. *)
Definition instantiate : FileSystem NodeData := mkFileSystem create read write.

(** [vfs::init]: the root directory, created with no parent; [root_fs] is the
    address of the file system object. *)
Definition init (root_fs : Z) (first_addr : Z) : outcome (vfs NodeData) :=
  '(st, r) ← create root_fs 0 [] DIRECTORY (mkVfs ∅ first_addr 0);
  Ret (mkVfs (nodes st) (next_addr st) r).

Definition filesystems (root_fs : Z) (p : Z) : option (FileSystem NodeData) :=
  if p =? root_fs then Some instantiate else None.

End tmpfs.

(** ** The file system keeps its promise *)

Definition file_contents (st : vfs NodeData) (p : Z) : option (list (option Z)) :=
  n ← nodes st !! p;
  if bool_decide (type n = FILE) then
    d ← data n;
    if nd_size d =? Z.of_nat (length (storage d)) then Some (storage d) else None
  else None.

Lemma file_contents_Some st p b :
  file_contents st p = Some b <->
  exists n, nodes st !! p = Some n /\ type n = FILE /\
    data n = Some (mkNodeData b (Z.of_nat (length b))).
Proof.
  unfold file_contents. split.
  - destruct (nodes st !! p) as [n|]; cbn; [|done]. case_bool_decide as Ht; [|done].
    destruct (data n) as [[b' sz]|] eqn:Hd; cbn; [|done].
    destruct (Z.eqb_spec sz (Z.of_nat (length b'))) as [->|]; [|done]. intros [= <-]. by exists n.
  - intros (n & -> & Ht & Hd). cbn. rewrite bool_decide_true by done. rewrite Hd. cbn.
    by rewrite Z.eqb_refl.
Qed.

Lemma read_file st p b count offset :
  file_contents st p = Some b -> 0 <= count -> 0 <= offset -> offset + count < 2 ^ 64 ->
  read p count offset st
  = Ret (Z.of_nat (length (take (Z.to_nat count) (drop (Z.to_nat offset) b))),
         take (Z.to_nat count) (drop (Z.to_nat offset) b)).
Proof.
  intros (n & Hn & Ht & Hd)%file_contents_Some Hc Ho Hov. unfold read, Vfs.deref.
  rewrite Hn. ored. rewrite bool_decide_false by (by rewrite Ht; intros ?). rewrite Hd. ored.
  cbn [nd_size storage]. rewrite wrap_small by lia.
  destruct (Z.leb_spec (Z.of_nat (length b)) offset).
  - rewrite drop_ge by lia. by rewrite take_nil.
  - unfold copy_out. destruct (Z.ltb_spec (Z.of_nat (length b)) (offset + count)).
    + rewrite (proj2 (Z.leb_le _ _)) by lia. ored.
      rewrite (take_ge (drop (Z.to_nat offset) b) (Z.to_nat count)) by (rewrite length_drop; lia).
      rewrite take_ge by (rewrite length_drop; lia). rewrite length_drop. do 2 f_equal. lia.
    + rewrite (proj2 (Z.leb_le _ _)) by lia. ored. rewrite length_take, length_drop. do 2 f_equal. lia.
Qed.

Lemma length_splice b offset bytes :
  0 <= offset ->
  Z.of_nat (length (splice b offset bytes))
  = Z.max (Z.of_nat (length b)) (offset + Z.of_nat (length bytes)).
Proof.
  intros. unfold splice. rewrite !length_app, length_take, length_replicate, length_fmap, length_drop. lia.
Qed.

Lemma copy_in_spec b offset bytes :
  0 <= offset ->
  let b' := if Z.of_nat (length b) <? offset + Z.of_nat (length bytes)
            then Vector.realloc b (offset + Z.of_nat (length bytes)) else b in
  copy_in b' offset bytes = Ret (splice b offset bytes).
Proof.
  intros Ho b'. assert (copy_in b' offset bytes =
    if offset + Z.of_nat (length bytes) <=? Z.of_nat (length b')
    then Ret (take (Z.to_nat offset) b' ++ (Some <$> bytes) ++ drop (Z.to_nat offset + length bytes) b') else Fault) as ->.
  { unfold copy_in. case_bool_decide as E; [|done]. rewrite E. cbn [length fmap list_fmap app].
    rewrite Nat.add_0_r, take_drop, (proj2 (Z.leb_le _ _)); [done|]. subst b'. rewrite E. cbn [length].
    destruct (Z.ltb_spec (Z.of_nat (length b)) (offset + Z.of_nat 0)); [|lia].
    unfold Vector.realloc. rewrite length_app, length_take, length_replicate. lia. }
  unfold splice. subst b'.
  destruct (Z.ltb_spec (Z.of_nat (length b)) (offset + Z.of_nat (length bytes))) as [Hlt|Hge].
  - unfold Vector.realloc. set (m := offset + Z.of_nat (length bytes)) in *.
    rewrite (take_ge b (Z.to_nat m)) by lia.
    rewrite (proj2 (Z.leb_le _ _)) by (rewrite length_app, length_replicate; lia). f_equal.
    rewrite take_app, take_replicate.
    rewrite (drop_ge (b ++ _)) by (rewrite length_app, length_replicate; lia).
    rewrite (drop_ge b) by lia. rewrite <- app_assoc.
    by rewrite Nat.min_l by lia.
  - rewrite (proj2 (Z.leb_le _ _)) by lia.
    by replace (Z.to_nat offset - length b)%nat with 0%nat by lia.
Qed.

Lemma set_data_spec p d st n :
  nodes st !! p = Some n ->
  exists st' n', set_data p d st = Ret st' /\ nodes st' !! p = Some n' /\ data n' = Some d /\
    type n' = type n /\ fs n' = fs n /\ (forall q, q <> p -> nodes st' !! q = nodes st !! q).
Proof.
  intros Hn. unfold set_data, Vfs.deref. rewrite Hn. ored. eexists _, _. split; [done|]. cbn.
  split; [by rewrite lookup_insert_eq|]. do 3 (split; [done|]). intros q Hq.
  by rewrite lookup_insert_ne.
Qed.

Lemma write_file {heap : Heap} st p b bytes offset :
  file_contents st p = Some b -> 0 <= offset -> offset + Z.of_nat (length bytes) < 2 ^ 64 ->
  realloc_answer (offset + Z.of_nat (length bytes)) = Ret true ->
  exists st', write p bytes offset st = Ret st' /\
    file_contents st' p = Some (splice b offset bytes) /\
    (forall q, q <> p -> nodes st' !! q = nodes st !! q) /\
    (forall q, q <> p -> file_contents st' q = file_contents st q) /\
    (fs <$> nodes st' !! p = fs <$> nodes st !! p).
Proof.
  intros (n & Hn & Ht & Hd)%file_contents_Some Ho Hov Hheap. unfold write, Vfs.deref.
  rewrite Hn. ored. rewrite bool_decide_false by (by rewrite Ht; intros ?). rewrite Hd. ored.
  cbn [nd_size storage]. rewrite wrap_small by lia. rewrite Hheap. ored.
  pose proof (copy_in_spec b offset bytes Ho) as Hcopy.
  set (d := if Z.of_nat (length b) <? offset + Z.of_nat (length bytes)
            then mkNodeData (Vector.realloc b (offset + Z.of_nat (length bytes))) (offset + Z.of_nat (length bytes))
            else mkNodeData b (Z.of_nat (length b))).
  match goal with |- context [mbind ?f ?o] =>
    match o with context [Z.ltb] => assert (o = Ret d) as -> by (subst d; by destruct (_ <? _)) end end. ored.
  assert (storage d = (if Z.of_nat (length b) <? offset + Z.of_nat (length bytes)
            then Vector.realloc b (offset + Z.of_nat (length bytes)) else b)) as ->
    by (subst d; by destruct (_ <? _)).
  cbn zeta in Hcopy. rewrite Hcopy. ored.
  assert (nd_size d = Z.of_nat (length (splice b offset bytes))) as ->.
  { rewrite length_splice by done. subst d.
    destruct (Z.ltb_spec (Z.of_nat (length b)) (offset + Z.of_nat (length bytes))); cbn; lia. }
  edestruct (set_data_spec p) as (st' & n' & -> & Hn' & Hd' & Ht' & Hf' & Hother); [exact Hn|].
  exists st'. split; [done|]. split; [apply file_contents_Some; exists n'; by rewrite Ht'|].
  split; [done|]. split; [|rewrite Hn'; cbn; by rewrite Hf'].
  intros q Hq. unfold file_contents. by rewrite Hother.
Qed.

(** The instance: [tmpfs] keeps files. *)
#[export] Instance tmpfs_contents (junk : Z -> Z) : FileContents (instantiate junk).
Proof.
  refine {| contents := file_contents |}.
  - intros st p b (n & Hn & _)%file_contents_Some. by exists n.
  - apply read_file.
  - intros. by apply write_file.
Defined.

(** A [tmpfs] file is the sequence of bytes written to it: a write puts its
    bytes at the offset, growing the file when it reaches past the end, and a
    read gives back the part of the file it asks for. *)
Theorem write_then_read st p b bytes offset count from :
  file_contents st p = Some b -> 0 <= offset -> offset + Z.of_nat (length bytes) < 2 ^ 64 ->
  0 <= count -> 0 <= from -> from + count < 2 ^ 64 ->
  exists st', write p bytes offset st = Ret st' /\
    (forall q, q <> p -> nodes st' !! q = nodes st !! q) /\
    read p count from st'
    = Ret (Z.of_nat (length (take (Z.to_nat count) (drop (Z.to_nat from) (splice b offset bytes)))),
           take (Z.to_nat count) (drop (Z.to_nat from) (splice b offset bytes))).
Proof.
  intros Hb Ho Hov Hc Hf Hcf.
  destruct (write_file st p b bytes offset Hb Ho Hov eq_refl) as (st' & -> & Hb' & Hother & _).
  exists st'. split; [done|]. split; [done|]. by apply read_file.
Qed.
