(* ===== verification/Tree.v ===== *)
(** * The tree of nodes: invariant, path resolution, creation, getcwd

    A well-formed store is a tree of directories whose links lead to
    directories; paths are resolved component by component; [tmpfs] adds exactly
    one entry; [getcwd] prints a path that resolves to the working directory. *)
From S2P Require Import Prelude CString HashMap Vector Keyboard Printf Vfs.

Section Tree.
Context {D : Type}.
Implicit Types (st : vfs D) (p q d : Z) (nm : cstring).

(** What the directory [d] holds under a name. *)
Definition entry st d nm : option Z :=
  match nodes st !! d with
  | Some n => if bool_decide (type n = DIRECTORY)
              then match children n with Some h => to_map h !! nm | None => None end
              else None
  | None => None
  end.

(** Where a node leads: its link's target, or itself. *)
Definition target_of st p : Z :=
  match nodes st !! p with Some n => if redirect n =? 0 then p else redirect n | None => p end.

Definition is_dir st p : Prop := exists n, nodes st !! p = Some n /\ type n = DIRECTORY.

Definition children_ok st (h : HashMap Z) : Prop :=
  HashMap.wf h /\ distinct h /\ forall nm q, to_map h !! nm = Some q -> is_Some (nodes st !! q).

Definition node_ok st (n : Node D) : Prop :=
  match type n with
  | DIRECTORY => redirect n = 0 /\ exists h, children n = Some h /\ children_ok st h
  | FILE => redirect n = 0
  | NONE => redirect n = 0 \/ is_dir st (redirect n)
  end.

Record wf st : Prop := {
  wf_nodes : forall p n, nodes st !! p = Some n -> node_ok st n;
  wf_range : forall p, is_Some (nodes st !! p) -> 0 < p < next_addr st;
  wf_next : 0 < next_addr st
}.

(** The root is a directory without parent. *)
Definition root_ok st : Prop :=
  exists n, nodes st !! root st = Some n /\ type n = DIRECTORY /\ parent n = 0.

(** ** Links *)
Lemma target_plain st p n : nodes st !! p = Some n -> redirect n = 0 -> target_of st p = p.
Proof. intros Hn Hr. unfold target_of. by rewrite Hn, Hr. Qed.

Lemma target_exists st p n :
  wf st -> nodes st !! p = Some n ->
  exists m, nodes st !! target_of st p = Some m /\ redirect m = 0.
Proof.
  intros Hwf Hn. unfold target_of. rewrite Hn. destruct (Z.eqb_spec (redirect n) 0) as [E|E]; [by exists n|].
  pose proof (wf_nodes st Hwf p n Hn) as Hok. unfold node_ok in Hok. destruct (type n).
  - destruct Hok as [?|(m & Hm & Ht)]; [done|]. exists m. split; [done|].
    pose proof (wf_nodes st Hwf _ m Hm) as Hm'. unfold node_ok in Hm'. rewrite Ht in Hm'. tauto.
  - done.
  - by destruct Hok.
Qed.

Lemma reduce_node_spec st p n :
  wf st -> nodes st !! p = Some n -> reduce_node st p = Ret (target_of st p).
Proof.
  intros Hwf Hn. destruct (target_exists st p n Hwf Hn) as (m & Hm & Hr).
  unfold reduce_node. assert (exists k, base.size (nodes st) = S k) as [k ->].
  { exists (pred (base.size (nodes st))). assert (base.size (nodes st) <> 0%nat); [|lia].
    intros E%map_size_empty_inv. by rewrite E, lookup_empty in Hn. }
  cbn [reduce_node_loop]. unfold Vfs.deref. rewrite Hn. ored.
  unfold target_of in *. rewrite Hn in *. destruct (redirect n =? 0) eqn:E; cbn [negb]; [done|].
  rewrite Hm. ored. by rewrite Hr.
Qed.

(** ** Paths *)

Definition good_name nm : bool :=
  is_cstring nm && forallb (fun c => negb (c =? 47)) nm && negb (bool_decide (nm = [])).

Fixpoint join (comps : list cstring) : cstring :=
  match comps with
  | [] => []
  | [c] => c
  | c :: cs => c ++ 47 :: join cs
  end.

(** Resolving a list of components. *)
Fixpoint resolve st d (comps : list cstring) : PathToNodeResult :=
  match comps with
  | [] => no_result
  | c :: cs =>
      match nodes st !! d with
      | Some n =>
          if bool_decide (type n = DIRECTORY) then
            match entry st d c with
            | None => mkPathToNodeResult d 0 (Some c)
            | Some q =>
                match cs with
                | [] => mkPathToNodeResult d (target_of st q) (Some c)
                | _ => resolve st (target_of st q) cs
                end
            end
          else no_result
      | None => no_result
      end
  end.

Lemma good_name_spec nm :
  good_name nm = true -> is_cstring nm = true /\ 47 ∉ nm /\ nm <> [].
Proof.
  unfold good_name. rewrite !andb_true_iff, negb_true_iff, bool_decide_eq_false.
  intros [[H1 H2] H3]. split; [done|]. split; [|done]. intros Hin.
  rewrite forallb_forall in H2. apply list_elem_of_In, H2 in Hin. done.
Qed.

Lemma strchr_absent s c : is_cstring s = true -> c ∉ s -> c <> 0 -> strchr s c = None.
Proof.
  induction s as [|x s IH]; intros Hs Hc H0; cbn [strchr].
  - by rewrite (proj2 (Z.eqb_neq 0 c)) by done.
  - apply is_cstring_cons in Hs as [Hx Hs]. apply not_elem_of_cons in Hc as [Hxc Hc].
    rewrite (proj2 (Z.eqb_neq x c)), (proj2 (Z.eqb_neq x 0)) by (done || lia). by rewrite IH.
Qed.

Lemma strchr_first s c r :
  is_cstring s = true -> c ∉ s -> strchr (s ++ c :: r) c = Some (Z.of_nat (length s)).
Proof.
  induction s as [|x s IH]; intros Hs Hc; cbn [strchr app length].
  - by rewrite Z.eqb_refl.
  - apply is_cstring_cons in Hs as [Hx Hs]. apply not_elem_of_cons in Hc as [Hxc Hc].
    rewrite (proj2 (Z.eqb_neq x c)), (proj2 (Z.eqb_neq x 0)) by (done || lia). rewrite IH by done.
    cbn. f_equal. lia.
Qed.

Lemma children_of st d n :
  wf st -> nodes st !! d = Some n -> type n = DIRECTORY ->
  exists h, children n = Some h /\ children_ok st h /\ forall nm, entry st d nm = to_map h !! nm.
Proof.
  intros Hwf Hn Ht. pose proof (wf_nodes st Hwf d n Hn) as Hok. unfold node_ok in Hok.
  rewrite Ht in Hok. destruct Hok as (_ & h & Hh & Hc). exists h. split; [done|]. split; [done|].
  intros nm. unfold entry. by rewrite Hn, bool_decide_true, Hh.
Qed.

Lemma entry_exists st d nm q : wf st -> entry st d nm = Some q -> exists m, nodes st !! q = Some m.
Proof.
  intros Hwf He. unfold entry in He. destruct (nodes st !! d) as [n|] eqn:Hn; [|done].
  case_bool_decide as Ht; [|done]. destruct (children_of st d n Hwf Hn Ht) as (h & Hh & (_ & _ & Hq) & _).
  rewrite Hh in He. by apply Hq in He as [m ?]; exists m.
Qed.

Lemma length_join comps : forallb good_name comps = true -> (length comps <= S (length (join comps)))%nat.
Proof.
  induction comps as [|c [|c' cs] IH]; intros H; [cbn; lia|cbn; lia|].
  change (join (c :: c' :: cs)) with (c ++ 47 :: join (c' :: cs)). rewrite length_app.
  cbn in H. apply andb_prop in H as [_ H]. specialize (IH H). cbn [length] in *. lia.
Qed.

Lemma join_pos c cs : good_name c = true -> (0 < length (join (c :: cs)))%nat.
Proof.
  intros (_ & _ & H)%good_name_spec. destruct c as [|x c]; [done|].
  destruct cs; cbn; lia.
Qed.

(** The scanning loop does on the string what [resolve] does on its parts. *)
Lemma path_loop_spec st trail comps : forall fuel d,
  wf st -> is_Some (nodes st !! d) -> forallb good_name comps = true -> comps <> [] ->
  (length comps <= fuel)%nat ->
  let path := join comps ++ (if trail : bool then [47] else []) in
  path_loop fuel st path (Z.of_nat (length path)) d = Ret (resolve st d comps).
Proof.
  induction comps as [|c cs IH]; intros fuel d Hwf [n Hn] Hgood Hne Hfuel path; [done|].
  destruct fuel as [|fuel]; [cbn in Hfuel; lia|]. cbn in Hgood. apply andb_prop in Hgood as [Hc Hcs].
  pose proof (good_name_spec c Hc) as (Hs & Hslash & Hc0).
  cbn [path_loop resolve]. unfold Vfs.deref. rewrite Hn. ored.
  destruct (decide (type n = DIRECTORY)) as [Ht|Ht].
  2: { by rewrite bool_decide_true, bool_decide_false by done. }
  rewrite bool_decide_false, (bool_decide_true (type n = DIRECTORY)) by tauto.
  destruct (children_of st d n Hwf Hn Ht) as (h & Hh & (Hhwf & Hhd & _) & Hentry). rewrite Hh. ored.
  assert (exists b r, (match strchr path 47 with
      | None => (Z.of_nat (length path), true)
      | Some s => (s, s =? Z.of_nat (length path) - 1) end) = (Z.of_nat (length c), b) /\
      b = bool_decide (cs = []) /\ path = c ++ r /\
      (cs <> [] -> r = 47 :: join cs ++ (if trail then [47] else []))) as (b & r & -> & Hb & Hpath & Hr).
  { subst path. destruct cs as [|c' cs].
    - cbn [join]. destruct trail.
      + rewrite strchr_first by done. eexists _, [47]. split; [done|]. split; [|done].
        rewrite length_app. cbn. apply Z.eqb_eq. lia.
      + rewrite app_nil_r. rewrite strchr_absent by done. exists true, []. by rewrite app_nil_r.
    - change (join (c :: c' :: cs)) with (c ++ 47 :: join (c' :: cs)). rewrite <- app_assoc. cbn [app].
      rewrite strchr_first by done. eexists _, _. split; [done|]. split; [|done].
      rewrite length_app. cbn [length]. cbn in Hcs. apply andb_prop in Hcs as [Hc' _].
      pose proof (join_pos c' cs Hc'). rewrite length_app. apply Z.eqb_neq. lia. }
  assert (take (length c) path = c) as Htake by (by rewrite Hpath, take_app_length).
  rewrite Nat2Z.id, Htake.
  rewrite (HashMap.get_spec h c Hhwf Hhd Hs). ored. rewrite <- Hentry.
  destruct (entry st d c) as [q|] eqn:He; [|done].
  destruct (entry_exists st d c q Hwf He) as [m Hm]. rewrite (reduce_node_spec st q m Hwf Hm). ored.
  destruct cs as [|c' cs]; [by subst b|].
  rewrite Hb. rewrite bool_decide_false by done. 
  rewrite Hr in Hpath by done. rewrite Hpath.
  replace (Z.to_nat (Z.of_nat (length c) + 1)) with (length c + 1)%nat by lia.
  rewrite drop_app_add. cbn [drop].
  replace (Z.of_nat (length (c ++ 47 :: join (c' :: cs) ++ (if trail then [47] else []))) - (Z.of_nat (length c) + 1))
    with (Z.of_nat (length (join (c' :: cs) ++ (if trail then [47] else [])))).
  2: { rewrite (length_app c). cbn [length]. lia. }
  destruct (target_exists st q m Hwf Hm) as (m' & Hm' & _).
  apply IH; [done|by exists m'|done|done|cbn in *; lia].
Qed.

(** Following the entries one by one. *)
Fixpoint walk st d (comps : list cstring) : option Z :=
  match comps with
  | [] => Some d
  | c :: cs => q ← entry st d c; walk st (target_of st q) cs
  end.

Lemma resolve_walk st comps : forall d,
  comps <> [] -> target (resolve st d comps) = default 0 (walk st d comps).
Proof.
  induction comps as [|c cs IH]; intros d Hne; [done|]. cbn [resolve walk].
  assert ((exists n, nodes st !! d = Some n /\ type n = DIRECTORY) \/ entry st d c = None) as [(n & -> & Ht)|He].
  { unfold entry. destruct (nodes st !! d) as [n|]; [|by right]. case_bool_decide; [left; by exists n|by right]. }
  - rewrite bool_decide_true by done. destruct (entry st d c) as [q|]; [|done]. cbn.
    destruct cs as [|c' cs]; [done|]. by apply IH.
  - rewrite He. cbn. destruct (nodes st !! d) as [n|]; [|done]. by case_bool_decide.
Qed.

Lemma is_cstring_join comps : forallb good_name comps = true -> is_cstring (join comps) = true.
Proof.
  induction comps as [|c cs IH]; [done|]. cbn [forallb]. intros [(Hc & _)%good_name_spec Hcs]%andb_prop.
  destruct cs as [|c' cs]; [done|].
  change (join (c :: c' :: cs)) with (c ++ [47] ++ join (c' :: cs)).
  rewrite !is_cstring_app, Hc. by rewrite IH.
Qed.

Lemma path_to_node_spec st comps trail :
  wf st -> root_ok st -> forallb good_name comps = true -> comps <> [] ->
  let path := join comps ++ (if trail : bool then [47] else []) in
  (forall d, is_Some (nodes st !! d) -> path_to_node st path d = Ret (resolve st d comps)) /\
  path_to_node st (47 :: path) 0 = Ret (resolve st (root st) comps) /\
  (forall d, target (resolve st d comps) = default 0 (walk st d comps)).
Proof.
  intros Hwf (rn & Hrn & _) Hgood Hne path.
  assert (is_cstring path = true) as Hs.
  { subst path. rewrite is_cstring_app, is_cstring_join by done. by destruct trail. }
  assert (0 < length path)%nat as Hpos.
  { subst path. destruct comps as [|c cs]; [done|]. rewrite length_app.
    cbn in Hgood. apply andb_prop in Hgood as [Hc _]. pose proof (join_pos c cs Hc). lia. }
  pose proof (length_join comps Hgood) as Hlen.
  assert (length comps <= S (length path))%nat as Hfuel.
  { subst path. rewrite length_app. lia. }
  split; [|split].
  - intros d Hd. unfold path_to_node. rewrite strlen_length by done.
    rewrite (proj2 (Z.eqb_neq (Z.of_nat (length path)) 0)) by lia.
    pose proof (wf_range st Hwf d Hd). rewrite (proj2 (Z.eqb_neq d 0)) by lia.
    by apply path_loop_spec.
  - unfold path_to_node. assert (strlen (47 :: path) = 1 + Z.of_nat (length path)) as ->.
    { cbn [strlen]. by rewrite strlen_length. }
    rewrite (proj2 (Z.eqb_neq _ 0)) by lia. cbn [Z.eqb CString.deref List.hd Pos.eqb negb List.tl].
    replace (1 + Z.of_nat (length path) - 1) with (Z.of_nat (length path)) by lia.
    apply path_loop_spec; [done|by exists rn|done|done|cbn [length]; lia].
  - intros d. by apply resolve_walk.
Qed.

(** C14. Resolving a path is following its components from the starting
    directory (from the root for an absolute path), a trailing slash or not:
    the node found is the one the entries lead to, links followed, and with the
    last component missing the result still names its parent. *)
Theorem path_to_node_resolves st comps trail :
  wf st -> root_ok st -> forallb good_name comps = true -> comps <> [] ->
  let path := join comps ++ (if trail : bool then [47] else []) in
  (forall d, is_Some (nodes st !! d) -> path_to_node st path d = Ret (resolve st d comps)) /\
  path_to_node st (47 :: path) 0 = Ret (resolve st (root st) comps) /\
  (forall d, target (resolve st d comps) = default 0 (walk st d comps)).
Proof. apply path_to_node_spec. Qed.

(** ** The working directory *)

(** [p] is the directory reached from the root through [names], each of them
    the name of the node it leads to, whose parent is the node before. *)
Inductive located st : Z -> list cstring -> Prop :=
| located_root : located st (root st) []
| located_child d names p n :
    located st d names -> entry st d (name n) = Some p -> nodes st !! p = Some n ->
    type n = DIRECTORY -> parent n = d -> good_name (name n) = true ->
    located st p (names ++ [name n]).

Lemma located_exists st p names :
  wf st -> root_ok st -> located st p names -> exists n, nodes st !! p = Some n /\ type n = DIRECTORY.
Proof. intros Hwf (r & ? & ? & _) Hl. destruct Hl; [by exists r|by eauto]. Qed.

Lemma located_nonzero st p names : wf st -> root_ok st -> located st p names -> p <> 0.
Proof.
  intros Hwf Hroot Hl. destruct (located_exists st p names Hwf Hroot Hl) as (n & Hn & _).
  assert (0 < p < next_addr st); [|lia]. apply wf_range; [done|by exists n].
Qed.

Lemma located_unique st p n1 : wf st -> root_ok st -> located st p n1 -> forall n2, located st p n2 -> n1 = n2.
Proof.
  intros Hwf Hroot. pose proof Hroot as (r & Hr & Hrt & Hrp).
  induction 1 as [|d names p n Hd IH He Hn Ht Hp Hg]; intros n2 H2.
  - inversion H2 as [|d names p n Hd He Hn Ht Hp Hg]; subst; [done|].
    rewrite Hr in Hn. injection Hn as <-. pose proof (located_nonzero st _ _ Hwf Hroot Hd). congruence.
  - inversion H2 as [|d' names' p' n' Hd' He' Hn' Ht' Hp' Hg']; subst.
    + rewrite Hr in Hn. injection Hn as <-. pose proof (located_nonzero st _ _ Hwf Hroot Hd). congruence.
    + rewrite Hn in Hn'. injection Hn' as <-. f_equal. by apply IH.
Qed.

Lemma located_ancestors st p names :
  wf st -> root_ok st -> located st p names ->
  exists l, length l = S (length names) /\ NoDup l /\
    forall q, q ∈ l -> is_Some (nodes st !! q) /\
      exists names', located st q names' /\ (length names' <= length names)%nat.
Proof.
  intros Hwf Hroot. induction 1 as [|d names p n Hd IH He Hn Ht Hp Hg].
  - exists [root st]. split; [done|]. split; [apply NoDup_singleton|].
    intros q ->%list_elem_of_singleton. destruct Hroot as (r & Hr & _ & _). split; [by exists r|].
    exists []. split; [constructor|cbn; lia].
  - destruct IH as (l & Hlen & Hnd & Hl). exists (p :: l). rewrite length_app. cbn.
    split; [lia|]. assert (located st p (names ++ [name n])) as Hloc by (by econstructor).
    split.
    + constructor; [|done]. intros Hin. destruct (Hl p Hin) as (_ & names' & Hp' & Hle).
      pose proof (located_unique st p _ Hwf Hroot Hloc _ Hp') as E. rewrite <- E, length_app in Hle.
      cbn in Hle. lia.
    + intros q [->|Hq]%elem_of_cons.
      * split; [by exists n|]. exists (names ++ [name n]). split; [done|]. rewrite length_app. cbn. lia.
      * destruct (Hl q Hq) as (? & names' & ? & ?). split; [done|]. exists names'. split; [done|]. lia.
Qed.

Lemma located_depth st p names :
  wf st -> root_ok st -> located st p names -> (length names < base.size (nodes st))%nat.
Proof.
  intros Hwf Hroot Hl. destruct (located_ancestors st p names Hwf Hroot Hl) as (l & Hlen & Hnd & Hin).
  assert (list_to_set l ⊆@{gset Z} dom (nodes st)) as Hsub.
  { intros q Hq%elem_of_list_to_set. apply elem_of_dom. by apply Hin. }
  apply subseteq_size in Hsub. rewrite size_list_to_set, size_dom in Hsub by done. lia.
Qed.

Lemma names_loop_spec st p names :
  wf st -> root_ok st -> located st p names -> names <> [] -> forall fuel, (length names <= fuel)%nat ->
  names_loop fuel st p = Ret (rev names).
Proof.
  intros Hwf Hroot. pose proof Hroot as (r & Hr & _ & Hrp).
  induction 1 as [|d names p n Hd IH He Hn Ht Hp Hg]; intros Hne fuel Hf; [done|].
  rewrite length_app in Hf. cbn in Hf. destruct fuel as [|fuel]; [lia|]. cbn [names_loop].
  unfold Vfs.deref. rewrite Hn. ored. rewrite Hp.
  pose proof (located_nonzero st d names Hwf Hroot Hd). rewrite (proj2 (Z.eqb_neq d 0)) by done.
  destruct (located_exists st d names Hwf Hroot Hd) as (m & Hm & _). rewrite Hm. ored. rewrite rev_app_distr.
  inversion Hd as [|d' names' d'' m' Hd' He' Hm' Ht' Hp' Hg']; subst.
  - assert (m = r) as -> by congruence. by rewrite Hrp.
  - assert (m' = m) as -> by congruence. pose proof (located_nonzero st _ _ Hwf Hroot Hd').
    rewrite (proj2 (Z.eqb_neq _ 0)) by done. rewrite IH; [done|by destruct names'|lia].
Qed.

Lemma store_chars_fits cs : forall i size,
  i + Z.of_nat (length cs) < size -> store_chars cs i size = (cs, false).
Proof.
  induction cs as [|c cs IH]; intros i size H; [done|]. cbn [store_chars length] in *.
  rewrite (proj2 (Z.leb_gt _ _)) by lia. by rewrite IH by lia.
Qed.

Lemma store_chars_short cs : forall i size,
  i < size <= i + Z.of_nat (length cs) -> store_chars cs i size = (take (Z.to_nat (size - i)) cs, true).
Proof.
  induction cs as [|c cs IH]; intros i size H; [cbn in H; lia|]. cbn [store_chars length] in *.
  replace (Z.to_nat (size - i)) with (S (Z.to_nat (size - (i + 1)))) by lia. cbn [take].
  destruct (Z.leb_spec size (i + 1)).
  - by replace (Z.to_nat (size - (i + 1))) with 0%nat by lia.
  - by rewrite IH by lia.
Qed.

Lemma located_good st p names : located st p names -> forallb good_name names = true.
Proof.
  induction 1 as [|d names p n Hd IH He Hn Ht Hp Hg]; [done|]. rewrite forallb_app, IH. cbn. by rewrite Hg.
Qed.

Lemma text_join names :
  forallb good_name names = true -> names <> [] ->
  concat ((fun nm => 47 :: strdup nm) <$> names) = 47 :: join names.
Proof.
  induction names as [|c cs IH]; intros Hg Hne; [done|]. cbn in Hg. apply andb_prop in Hg as [Hc Hcs].
  cbn [fmap list_fmap concat]. rewrite strdup_id by (by apply good_name_spec in Hc as [? _]).
  destruct cs as [|c' cs]; [cbn; by rewrite app_nil_r|].
  rewrite IH by done. done.
Qed.

Lemma walk_snoc st comps c : forall d,
  walk st d (comps ++ [c]) = (q ← walk st d comps; target_of st <$> entry st q c).
Proof.
  induction comps as [|c' cs IH]; intros d; cbn.
  - by destruct (entry st d c).
  - destruct (entry st d c'); cbn; [apply IH|done].
Qed.

Lemma located_walk st p names : wf st -> located st p names -> walk st (root st) names = Some p.
Proof.
  intros Hwf. induction 1 as [|d names p n Hd IH He Hn Ht Hp Hg]; [done|].
  rewrite walk_snoc, IH. cbn. rewrite He. cbn. f_equal. apply (target_plain st p n Hn).
  pose proof (wf_nodes st Hwf p n Hn) as Hok. unfold node_ok in Hok. rewrite Ht in Hok. tauto.
Qed.

(** The root as [vfs::init] makes it: no name, and no entry without a name. *)
Definition root_unnamed st : Prop :=
  exists n, nodes st !! root st = Some n /\ name n = [] /\ entry st (root st) [] = None.

Lemma located_nil st p : located st p [] -> p = root st.
Proof.
  assert (forall l, located st p l -> l = [] -> p = root st) as H; [|by intros ?%H].
  intros l Hl. destruct Hl as [|d names q n]; [done|]. by destruct names.
Qed.

(** The empty path in a directory is looked up as an empty name. *)
Lemma path_loop_no_name st d n fuel :
  wf st -> nodes st !! d = Some n -> type n = DIRECTORY -> entry st d [] = None ->
  path_loop (S fuel) st [] 0 d = Ret (mkPathToNodeResult d 0 (Some [])).
Proof.
  intros Hwf Hn Ht He. destruct (children_of st d n Hwf Hn Ht) as (h & Hh & (Hhwf & Hhd & _) & Hentry).
  cbn [path_loop]. unfold Vfs.deref. rewrite Hn. ored. rewrite bool_decide_false by (by rewrite Ht; intros ?). rewrite Hh. ored.
  change (strchr [] 47) with (@None Z). cbv iota beta. change (take (Z.to_nat 0) []) with (@nil Z).
  rewrite (HashMap.get_spec h [] Hhwf Hhd eq_refl). ored. by rewrite <- Hentry, He.
Qed.

(** The names [getcwd] prints, and where the text leads. *)
Lemma cwd_text st p names fuel :
  wf st -> root_ok st -> located st p names -> (names = [] -> root_unnamed st) -> (length names <= fuel)%nat ->
  exists ns, names_loop (S fuel) st p = Ret ns /\ getcwd_text ns = 47 :: join names /\
    exists r, path_to_node st (47 :: join names) 0 = Ret r /\ target r = if bool_decide (names = []) then 0 else p.
Proof.
  intros Hwf Hroot Hl Hun Hfuel. pose proof (located_good st _ _ Hl) as Hg. case_bool_decide as Hne.
  - subst names. apply located_nil in Hl as ->. destruct (Hun eq_refl) as (n & Hn & Hnm & He).
    pose proof Hroot as (n' & Hn' & Ht & Hp). rewrite Hn in Hn'. injection Hn' as <-. exists [name n]. split; [|split].
    + cbn [names_loop]. unfold Vfs.deref. rewrite Hn. ored. by rewrite Hp.
    + by rewrite Hnm.
    + eexists. split; [exact (path_loop_no_name st (root st) n 1 Hwf Hn Ht He)|done].
  - exists (rev names). split; [apply (names_loop_spec st p names Hwf Hroot Hl Hne); lia|]. split.
    + unfold getcwd_text. by rewrite rev_involutive, text_join.
    + destruct (path_to_node_spec st names false Hwf Hroot Hg Hne) as (_ & H & Ht).
      rewrite app_nil_r in H. eexists. split; [exact H|]. rewrite Ht. by rewrite (located_walk st p names Hwf Hl).
Qed.

(** C33. [getcwd] with room for it stores an absolute path without trailing
    slash that resolves to the working directory, and answers [-ERANGE] after
    filling the buffer otherwise; but in the root, as [vfs::init] makes it, the
    path it stores, the slash alone, resolves to nothing. *)
Theorem getcwd_roundtrip st t names buf_size :
  wf st -> root_ok st -> located st (cwd t) names -> (names = [] -> root_unnamed st) -> 0 < buf_size ->
  let text := 47 :: join names in
  syscall_getcwd buf_size st t
    = Ret (if Z.of_nat (length text) <? buf_size then (text, 0)
           else (take (Z.to_nat buf_size) text, - ERANGE)) /\
  exists r, path_to_node st text 0 = Ret r /\ target r = if bool_decide (names = []) then 0 else cwd t.
Proof.
  intros Hwf Hroot Hl Hun Hsize text. pose proof (located_depth st _ _ Hwf Hroot Hl) as Hdepth.
  destruct (cwd_text st (cwd t) names (base.size (nodes st)) Hwf Hroot Hl Hun ltac:(lia)) as (ns & E & Etext & Hr).
  split; [|exact Hr]. unfold syscall_getcwd. rewrite E. ored. rewrite Etext. fold text.
  destruct (Z.ltb_spec (Z.of_nat (length text)) buf_size).
  - by rewrite store_chars_fits by lia.
  - rewrite store_chars_short by lia. by rewrite Z.sub_0_r.
Qed.

Lemma join_no_slash comps :
  forallb good_name comps = true -> comps <> [] -> CString.deref (join comps) <> 47.
Proof.
  intros Hg Hne. destruct comps as [|c cs]; [done|].
  cbn in Hg. apply andb_prop in Hg as [(_ & Hs & Hc)%good_name_spec _].
  destruct c as [|x c]; [done|]. apply not_elem_of_cons in Hs as [Hx _]. by destruct cs.
Qed.

(** [chdir] moves the working directory to the directory a path resolves to;
    a path that leads nowhere is [-ENOENT], one that leads to a file is
    [-ENOTDIR], and neither moves it. *)
Theorem chdir_follows_the_path st t comps absolute :
  wf st -> root_ok st -> forallb good_name comps = true -> comps <> [] -> is_dir st (cwd t) ->
  let path := if absolute : bool then 47 :: join comps else join comps in
  syscall_chdir path st t =
  match walk st (if absolute then root st else cwd t) comps with
  | None => Ret (t, - ENOENT)
  | Some p =>
      n ← Vfs.deref st p;
      if bool_decide (type n <> DIRECTORY) then Ret (t, - ENOTDIR)
      else Ret (mkTask (file_descriptors t) (num_file_descriptors t) (first_free_fdnum t) p, 0)
  end.
Proof.
  intros Hwf Hroot Hg Hne (c & Hcwd & _) path.
  destruct (path_to_node_spec st comps false Hwf Hroot Hg Hne) as (Hrel & Habs & Ht).
  rewrite app_nil_r in Hrel, Habs. specialize (Hrel (cwd t) (ex_intro _ c Hcwd)).
  assert (exists r, path_to_node st path (if negb (CString.deref path =? 47) then cwd t else 0) = Ret r /\
    target r = default 0 (walk st (if absolute then root st else cwd t) comps)) as (r & Hr & Htr).
  { subst path. destruct absolute.
    - eexists. split; [exact Habs|]. apply Ht.
    - assert (CString.deref (join comps) <> 47) as Hd by (by apply join_no_slash).
      rewrite (proj2 (Z.eqb_neq _ _)) by done. eexists. split; [exact Hrel|]. apply Ht. }
  unfold syscall_chdir. rewrite Hr. ored. rewrite Htr.
  destruct (walk st (if absolute then root st else cwd t) comps) as [p|] eqn:Hw; cbn [default from_option id].
  - assert (exists n, nodes st !! p = Some n) as (n & Hn).
    { assert (forall cs d q, is_Some (nodes st !! d) -> walk st d cs = Some q -> exists n, nodes st !! q = Some n) as H.
      { induction cs as [|c1 cs IH]; intros d q [m Hm]; cbn [walk]; [intros [= <-]; by exists m|].
        destruct (entry st d c1) as [e|] eqn:He; cbn; [|done]. apply IH.
        destruct (entry_exists st d c1 e Hwf He) as [me Hme].
        destruct (target_exists st e me Hwf Hme) as (mt & Hmt & _). by exists mt. }
      eapply H; [|exact Hw]. destruct absolute; [|by exists c].
      destruct Hroot as (rn & Hrn & _). by exists rn. }
    pose proof (wf_range st Hwf p (ex_intro _ n Hn)). rewrite (proj2 (Z.eqb_neq p 0)) by lia. done.
  - done.
Qed.

End Tree.
