(* ===== verification/Mkfs.v ===== *)
(** * Creating nodes: fs/tmpfs.cpp on the tree of nodes

    What [create] does to the tree of file Tree, on fresh memory that is zero
    (the constructor of [Node] leaves [redirect] as it finds it), and a concrete
    tree built with it. *)
From S2P Require Import Prelude CString HashMap Vector Keyboard Printf Vfs Descriptors Tmpfs Tree.

Section Mkfs.
Context (junk : Z -> Z) (junk_zero : forall p, junk p = 0).
Implicit Types (st : vfs NodeData) (p q d : Z) (nm : cstring).

(** [st'] has the nodes of [st], with their types and where they lead. *)
Definition grown st st' : Prop :=
  root st' = root st /\
  forall p n, nodes st !! p = Some n ->
    exists n', nodes st' !! p = Some n' /\ type n' = type n /\ redirect n' = redirect n /\
      parent n' = parent n.

Lemma grown_dir st st' p : grown st st' -> is_dir st p -> is_dir st' p.
Proof. intros [_ H] (n & Hn & Ht). destruct (H p n Hn) as (n' & ? & ? & _ & _). exists n'. split; congruence. Qed.

Lemma grown_ok st st' n : grown st st' -> node_ok st n -> node_ok st' n.
Proof.
  intros Hg. unfold node_ok. destruct (type n); [|done|].
  - intros [?|?]; [by left|right; by eapply grown_dir].
  - intros (? & h & Hh & Hwf & Hd & Hq). split; [done|]. exists h. split; [done|]. split; [done|].
    split; [done|]. intros nm q Hnm. destruct (Hq nm q Hnm) as [m Hm].
    destruct (proj2 Hg q m Hm) as (m' & Hm' & _). by exists m'.
Qed.

Lemma grown_wf st st' :
  wf st -> grown st st' -> next_addr st <= next_addr st' ->
  (forall p n', nodes st' !! p = Some n' -> nodes st !! p = Some n' \/ (node_ok st' n' /\ 0 < p < next_addr st')) ->
  wf st'.
Proof.
  intros [Hn Hr Hx] Hg Hle Hnew. split.
  - intros p n' Hp. destruct (Hnew p n' Hp) as [Hold|[Hok _]]; [|done]. eapply grown_ok; [exact Hg|eauto].
  - intros p [n' Hp]. destruct (Hnew p n' Hp) as [Hold|[_ ?]]; [|done].
    assert (0 < p < next_addr st) by (apply Hr; by exists n'). lia.
  - lia.
Qed.

Lemma grown_root st st' : grown st st' -> root_ok st -> root_ok st'.
Proof.
  intros [Hr H] (n & Hn & Ht & Hp). destruct (H _ n Hn) as (n' & Hn' & ? & _ & ?).
  exists n'. rewrite Hr. split; [done|]. split; congruence.
Qed.

(** ** A fresh node *)
Lemma fresh_addr st : wf st -> nodes st !! next_addr st = None.
Proof.
  intros Hwf. apply eq_None_not_Some. intros H. pose proof (wf_range st Hwf _ H). lia.
Qed.

Lemma new_Node_spec ty fsp par nm ch st st' p :
  wf st -> is_cstring nm = true -> new_Node junk ty fsp par nm ch st = (st', p) ->
  (ty = DIRECTORY -> ch = Some (HashMap.new 16)) ->
  p = next_addr st /\ nodes st' !! p = Some (mkNode ty fsp None 0 par nm ch) /\ wf st' /\ grown st st' /\
  next_addr st' = p + 1 /\ (forall q, q <> p -> nodes st' !! q = nodes st !! q).
Proof.
  intros Hwf Hnm Hnew Hch. unfold new_Node in Hnew. rewrite junk_zero, strdup_id in Hnew by done.
  injection Hnew as <- <-. pose proof (fresh_addr st Hwf) as Hfresh. pose proof (wf_next st Hwf).
  assert (grown st (mkVfs (<[next_addr st:=mkNode ty fsp None 0 par nm ch]> (nodes st)) (next_addr st + 1) (root st))) as Hg.
  { split; [done|]. intros q n Hq. cbn. rewrite lookup_insert_ne by congruence. by exists n. }
  split; [done|]. split; [apply lookup_insert_eq|]. split; [|split; [done|split; [done|]]].
  - eapply grown_wf; [done|done|cbn; lia|]. cbn. intros q n' Hq.
    destruct (decide (q = next_addr st)) as [->|Hne]; [right|left; by rewrite lookup_insert_ne in Hq].
    rewrite lookup_insert_eq in Hq. injection Hq as <-. split; [|lia].
    unfold node_ok. cbn. destruct ty; [by left|done|]. split; [done|].
    exists (HashMap.new 16). split; [by apply Hch|].
    destruct (@HashMap.new_wf Z 16 ltac:(lia)) as (? & ? & E). split; [done|]. split; [done|].
    intros nm' q'. rewrite E. by rewrite lookup_empty.
  - intros q Hq. cbn. by rewrite lookup_insert_ne.
Qed.

(** ** Updating a node in place *)
Lemma set_node_wf st p n n' :
  wf st -> nodes st !! p = Some n -> type n' = type n -> redirect n' = redirect n -> parent n' = parent n ->
  node_ok st n' ->
  wf (set_node p n' st) /\ grown st (set_node p n' st).
Proof.
  intros Hwf Hp Ht Hr Hpar Hok.
  assert (grown st (set_node p n' st)) as Hg.
  { split; [done|]. intros q m Hq. cbn. destruct (decide (q = p)) as [->|Hne].
    - rewrite lookup_insert_eq. exists n'. repeat (split; [congruence|]). congruence.
    - rewrite lookup_insert_ne by done. by exists m. }
  split; [|done]. eapply grown_wf; [done|done|cbn; lia|]. cbn. intros q m Hq.
  destruct (decide (q = p)) as [->|Hne]; [right|left; by rewrite lookup_insert_ne in Hq].
  rewrite lookup_insert_eq in Hq. injection Hq as <-. split; [by eapply grown_ok|].
  apply (wf_range st Hwf). by exists n.
Qed.

(** [dot->redirect = target] on a link that leads nowhere yet *)
Lemma set_redirect_spec st p t n :
  wf st -> nodes st !! p = Some n -> type n = NONE -> is_dir st t ->
  exists st' n', set_redirect p t st = Ret st' /\ wf st' /\ root st' = root st /\
    next_addr st' = next_addr st /\
    nodes st' !! p = Some n' /\ type n' = NONE /\ (redirect n' = t /\ children n' = children n) /\
    (forall q, q <> p -> nodes st' !! q = nodes st !! q).
Proof.
  intros Hwf Hp Ht Hd. unfold set_redirect, Vfs.deref. rewrite Hp. ored.
  eexists _, _. split; [done|].
  set (n' := mkNode _ _ _ _ _ _ _).
  assert (forall q, is_dir st q -> is_dir (set_node p n' st) q) as Hdir.
  { intros q (m & Hm & Hmt). exists m. split; [|done]. cbn. rewrite lookup_insert_ne; [done|]. congruence. }
  split; [|split; [done|split; [done|split; [apply lookup_insert_eq|]]]].
  - destruct Hwf as [Hn Hr Hx]. split; [|..].
    + intros q m Hq. cbn in Hq. destruct (decide (q = p)) as [->|Hne].
      * rewrite lookup_insert_eq in Hq. injection Hq as <-. unfold node_ok. cbn. rewrite Ht. right. by apply Hdir.
      * rewrite lookup_insert_ne in Hq by done. specialize (Hn q m Hq). unfold node_ok in *.
        destruct (type m); [|done|].
        -- destruct Hn as [?|?]; [by left|right; by apply Hdir].
        -- destruct Hn as (? & h & Hh & ? & ? & Hc). split; [done|]. exists h. split; [done|].
           split; [done|]. split; [done|]. intros nm q' Hq'. destruct (Hc nm q' Hq') as [k Hk].
           cbn. destruct (decide (q' = p)) as [->|]; [rewrite lookup_insert_eq; by eexists|].
           rewrite lookup_insert_ne by done. by exists k.
    + intros q [m Hq]. cbn in *. destruct (decide (q = p)) as [->|Hne]; [apply Hr; by exists n|].
      rewrite lookup_insert_ne in Hq by done. apply Hr. by exists m.
    + done.
  - cbn. split; [done|]. split; [done|]. intros q Hq. by rewrite lookup_insert_ne.
Qed.

Lemma insert_child_spec st d nm q n h :
  wf st -> nodes st !! d = Some n -> type n = DIRECTORY -> children n = Some h ->
  HashMap.m_capacity h < 2 ^ 47 -> is_cstring nm = true -> entry st d nm = None ->
  is_Some (nodes st !! q) ->
  exists st' n' h', insert_child d nm q st = Ret st' /\ wf st' /\ grown st st' /\
    next_addr st' = next_addr st /\
    nodes st' !! d = Some n' /\ type n' = DIRECTORY /\ parent n' = parent n /\
    (name n' = name n /\ fs n' = fs n /\ data n' = data n) /\
    redirect n' = redirect n /\ children n' = Some h' /\ to_map h' = <[nm := q]> (to_map h) /\ grew h h' /\
    (forall p, p <> d -> nodes st' !! p = nodes st !! p).
Proof.
  intros Hwf Hn Ht Hh Hcap Hnm He Hq.
  pose proof (wf_nodes st Hwf d n Hn) as Hok. unfold node_ok in Hok. rewrite Ht in Hok.
  destruct Hok as (Hr & h0 & Hh0 & Hhwf & Hhd & Hc). assert (h0 = h) as -> by congruence.
  assert (to_map h !! nm = None) as Hfree.
  { unfold entry in He. rewrite Hn, bool_decide_true, Hh in He by done. done. }
  unfold insert_child, Vfs.deref. rewrite Hn. ored. rewrite Hh. ored.
  destruct (insert_fresh h nm q Hhwf Hhd Hcap Hnm Hfree) as (h' & -> & Hwf' & Hd' & Hm' & Hcap'). ored.
  set (n' := mkNode _ _ _ _ _ _ _).
  destruct (set_node_wf st d n n') as [Hwf2 Hg]; [done|done|done|done|done| |].
  { unfold node_ok. cbn. rewrite Ht. split; [done|]. exists h'. split; [done|]. split; [done|].
    split; [done|]. intros nm' q'. rewrite Hm'. destruct (decide (nm' = nm)) as [->|].
    - rewrite lookup_insert_eq. by intros [= <-].
    - rewrite lookup_insert_ne by done. apply Hc. }
  eexists _, n', h'. split; [done|]. split; [done|]. split; [done|]. split; [done|].
  split; [apply lookup_insert_eq|]. do 7 (split; [done|]). intros p Hp. cbn. by rewrite lookup_insert_ne.
Qed.

(** ** Entries and targets across the steps *)
Lemma entry_same st st' d nm : nodes st' !! d = nodes st !! d -> entry st' d nm = entry st d nm.
Proof. intros E. unfold entry. by rewrite E. Qed.

Lemma target_same st st' p n n' :
  nodes st !! p = Some n -> nodes st' !! p = Some n' -> redirect n' = redirect n ->
  target_of st' p = target_of st p.
Proof. intros Hn Hn' E. unfold target_of. by rewrite Hn, Hn', E. Qed.

Lemma entry_at st d nm n h :
  nodes st !! d = Some n -> type n = DIRECTORY -> children n = Some h -> entry st d nm = to_map h !! nm.
Proof. intros Hn Ht Hh. unfold entry. by rewrite Hn, bool_decide_true, Hh. Qed.

(** What a new entry [nm] in [d] leading to [p] means for the rest of the tree:
    every other entry of every node there was is what it was. *)
Definition adds st st' d nm p : Prop :=
  entry st d nm = None /\ entry st' d nm = Some p /\ nodes st !! p = None /\
  (forall d' nm', is_Some (nodes st !! d') -> (d', nm') <> (d, nm) -> entry st' d' nm' = entry st d' nm') /\
  (forall q, is_Some (nodes st !! q) -> target_of st' q = target_of st q).

(** Every directory's table has seen at most [k] insertions. *)
Definition small (k : Z) st : Prop :=
  forall q n h, nodes st !! q = Some n -> children n = Some h -> roomy k h.

(** The node but for its children. *)
Definition kept (n n' : Node NodeData) : Prop :=
  type n' = type n /\ redirect n' = redirect n /\ parent n' = parent n /\ fs n' = fs n /\ data n' = data n.

(** [st'] has the nodes of [st] but for entries that were added, two to a
    directory at most. *)
Record carries st st' : Prop := {
  ca_root : root st' = root st;
  ca_nodes q n : nodes st !! q = Some n -> exists n', nodes st' !! q = Some n' /\ kept n n';
  ca_small k : 0 <= k -> small k st -> small (k + 2) st' }.

Lemma kept_refl n : kept n n.
Proof. done. Qed.

Lemma carries_contents st st' p b : carries st st' -> file_contents st p = Some b -> file_contents st' p = Some b.
Proof.
  intros Hc (n & Hn & Ht & Hd)%file_contents_Some. destruct (ca_nodes _ _ Hc p n Hn) as (n' & Hn' & Et & _ & _ & _ & Ed).
  apply file_contents_Some. exists n'. split; [done|]. split; congruence.
Qed.

Lemma carries_root st st' : carries st st' -> root_ok st -> root_ok st'.
Proof.
  intros Hc (n & Hn & Ht & Hp). destruct (ca_nodes _ _ Hc _ n Hn) as (n' & Hn' & Et & _ & Ep & _).
  exists n'. rewrite (ca_root _ _ Hc). split; [done|]. split; congruence.
Qed.

Lemma roomy_le k k' (h : HashMap Z) : k <= k' -> roomy k h -> roomy k' h.
Proof. unfold roomy. lia. Qed.

Lemma create_file_spec st fsp d nm n h :
  wf st -> nodes st !! d = Some n -> type n = DIRECTORY -> children n = Some h ->
  HashMap.m_capacity h < 2 ^ 47 -> good_name nm = true -> entry st d nm = None ->
  exists st' p, create junk fsp d nm FILE st = Ret (st', p) /\ wf st' /\
    adds st st' d nm p /\ target_of st' p = p /\ file_contents st' p = Some [] /\
    carries st st' /\ exists n', nodes st' !! p = Some n' /\ fs n' = fsp.
Proof.
  intros Hwf Hn Ht Hh Hcap (Hnm & _ & _)%good_name_spec He. unfold create, new_FileNode.
  destruct (new_Node junk FILE fsp d nm None st) as [st1 p] eqn:Hnew.
  destruct (new_Node_spec _ _ _ _ _ _ _ _ Hwf Hnm Hnew) as (-> & Hp & Hwf1 & Hg1 & Hx1 & Hoth1); [done|].
  pose proof (fresh_addr st Hwf) as Hfr. set (p := next_addr st) in *.
  assert (p <> d) as Hpd by congruence.
  unfold set_data, Vfs.deref. rewrite Hp. ored. cbn [type fs redirect parent name children].
  set (n1 := mkNode FILE fsp (Some (mkNodeData [] 0)) 0 d nm None).
  destruct (set_node_wf st1 p _ n1 Hwf1 Hp eq_refl eq_refl eq_refl eq_refl) as [Hwf2 Hg2].
  set (st2 := set_node p n1 st1) in *.
  assert (nodes st2 !! p = Some n1) as Hp2 by apply lookup_insert_eq.
  assert (forall q, q <> p -> nodes st2 !! q = nodes st !! q) as Hoth2.
  { intros q Hq. cbn. rewrite lookup_insert_ne by done. by apply Hoth1. }
  assert (nodes st2 !! d = Some n) as Hd2 by (by rewrite Hoth2).
  destruct (insert_child_spec st2 d nm p n h) as (st3 & n3 & h3 & -> & Hwf3 & Hg3 & _ & Hd3 & Ht3 & Hpa3 & (_ & Hfs3 & Hda3) & Hr3 & Hh3 & Hm3 & [_ Hgrew] & Hoth3);
    [done|done|done|done|done|done|by rewrite (entry_same st st2 d nm) by (by rewrite Hd2)|by exists n1|].
  ored. exists st3, p. split; [done|]. split; [done|].
  assert (nodes st3 !! p = Some n1) as Hp3 by (by rewrite Hoth3).
  split; [|split; [|split; [|split]]].
  - split; [done|]. split; [rewrite (entry_at st3 d nm n3 h3), Hm3 by done; apply lookup_insert_eq|].
    split; [done|]. split.
    + intros d' nm' [m Hm] Hne. destruct (decide (d' = d)) as [->|Hd'].
      * rewrite (entry_at st3 d nm' n3 h3), (entry_at st d nm' n h), Hm3 by done.
        rewrite lookup_insert_ne; [done|]. congruence.
      * apply entry_same. rewrite Hoth3 by done. apply Hoth2. congruence.
    + intros q [m Hm]. destruct (decide (q = d)) as [->|Hqd].
      * by apply (target_same st st3 d n n3).
      * unfold target_of. rewrite Hoth3 by done. rewrite Hoth2; [done|].
        congruence.
  - by apply (target_plain st3 p n1).
  - apply file_contents_Some. by exists n1.
  - split.
    + rewrite (proj1 Hg3), (proj1 Hg2). apply Hg1.
    + intros q m Hq. destruct (decide (q = d)) as [->|Hqd]; [assert (m = n) as -> by congruence; exists n3; unfold kept; split_and!; (done || congruence)|].
      exists m. split; [|done]. rewrite Hoth3, Hoth2 by congruence. done.
    + intros k _ Hs q m h' Hq Hm. destruct (decide (q = d)) as [->|Hqd].
      * apply (roomy_le (k + 1)); [lia|]. assert (h' = h3) as -> by congruence. by apply Hgrew, (Hs d n).
      * rewrite Hoth3 in Hq by done. destruct (decide (q = p)) as [->|Hqp]; [assert (m = n1) as -> by congruence; done|].
        rewrite Hoth2 in Hq by done. apply (roomy_le k); [lia|]. by apply (Hs q m).
  - exists n1. done.
Qed.

(** Creating a file in a directory that does not hold the name adds exactly
    that entry, leading to an empty file, and keeps the tree well formed. *)
Theorem create_adds_a_file st fsp d nm n h :
  wf st -> nodes st !! d = Some n -> type n = DIRECTORY -> children n = Some h ->
  HashMap.m_capacity h < 2 ^ 47 -> good_name nm = true -> entry st d nm = None ->
  exists st' p, create junk fsp d nm FILE st = Ret (st', p) /\ wf st' /\
    adds st st' d nm p /\ target_of st' p = p /\ file_contents st' p = Some [].
Proof.
  intros. destruct (create_file_spec st fsp d nm n h) as (st' & p & ? & ? & ? & ? & ? & _); [done..|]. by exists st', p.
Qed.

(** ** Directories *)

Lemma create_dotentries_spec st p n h :
  wf st -> nodes st !! p = Some n -> type n = DIRECTORY -> children n = Some h ->
  to_map h = ∅ -> HashMap.m_capacity h < 2 ^ 40 ->
  (parent n <> 0 -> is_dir st (parent n)) ->
  exists st' n' h' dot dotdot, create_dotentries junk p st = Ret st' /\ wf st' /\ root st' = root st /\
    next_addr st <= dot /\ next_addr st <= dotdot /\
    nodes st' !! p = Some n' /\ type n' = DIRECTORY /\ parent n' = parent n /\
    (name n' = name n /\ fs n' = fs n /\ data n' = data n) /\ redirect n' = redirect n /\ children n' = Some h' /\
    (to_map h' = <[lit ".." := dotdot]> (<[lit "." := dot]> ∅) /\ forall k, roomy k h -> roomy (k + 2) h') /\
    target_of st' dot = p /\ target_of st' dotdot = (if parent n =? 0 then p else parent n) /\
    (forall q, q <> p -> is_Some (nodes st !! q) -> nodes st' !! q = nodes st !! q) /\
    (forall q m, nodes st' !! q = Some m -> is_Some (nodes st !! q) \/ children m = None).
Proof.
  intros Hwf Hn Ht Hh Hm Hcap Hpar. unfold create_dotentries, Vfs.deref. rewrite Hn. ored.
  destruct (new_Node junk NONE (fs n) p (lit ".") None st) as [st1 dot] eqn:H1.
  destruct (new_Node_spec _ _ _ _ _ _ _ _ Hwf (eq_refl : is_cstring (lit ".") = true) H1) as (-> & Hp1 & Hwf1 & Hg1 & Hx1 & Ho1); [done|].
  destruct (new_Node junk NONE (fs n) p (lit "..") None st1) as [st2 dotdot] eqn:H2.
  destruct (new_Node_spec _ _ _ _ _ _ _ _ Hwf1 (eq_refl : is_cstring (lit "..") = true) H2) as (E2 & Hp2 & Hwf2 & Hg2 & Hx2 & Ho2); [done|].
  assert (is_Some (nodes st !! p)) as Hex by (by exists n).
  pose proof (wf_range st Hwf p Hex) as Hpr. set (dot := next_addr st) in *.
  assert (nodes st2 !! dot = Some (mkNode NONE (fs n) None 0 p (lit ".") None)) as Hd2 by (rewrite Ho2 by lia; done).
  assert (is_dir st p) as Hdp by (by exists n).
  destruct (set_redirect_spec st2 dot p _ Hwf2 Hd2 eq_refl) as (st3 & n3 & -> & Hwf3 & Hr3 & Hx3 & Hp3 & Ht3 & (Hre3 & Hch3) & Ho3).
  { eapply grown_dir; [exact Hg2|]. by eapply grown_dir. }
  ored.
  assert (forall q, is_Some (nodes st !! q) -> nodes st3 !! q = nodes st !! q) as Hold3.
  { intros q Hq. pose proof (wf_range st Hwf q Hq). rewrite Ho3, Ho2, Ho1 by lia. done. }
  assert (nodes st3 !! dotdot = Some (mkNode NONE (fs n) None 0 p (lit "..") None)) as Hdd3
    by (rewrite Ho3 by lia; done).
  set (par := if negb (parent n =? 0) then parent n else p).
  assert (is_dir st3 par) as Hpar3.
  { assert (is_dir st par) as (m & Hm' & Hmt).
    { subst par. destruct (Z.eqb_spec (parent n) 0); cbn; [done|by apply Hpar]. }
    exists m. split; [|done]. rewrite Hold3; [done|by exists m]. }
  destruct (set_redirect_spec st3 dotdot par _ Hwf3 Hdd3 eq_refl Hpar3)
    as (st4 & n4 & -> & Hwf4 & Hr4 & Hx4 & Hp4 & Ht4 & (Hre4 & Hch4) & Ho4). ored.
  assert (forall q, is_Some (nodes st !! q) -> nodes st4 !! q = nodes st !! q) as Hold4.
  { intros q Hq. pose proof (wf_range st Hwf q Hq). rewrite Ho4 by lia. by apply Hold3. }
  assert (nodes st4 !! dot = Some n3) as Hd4 by (rewrite Ho4 by lia; done).
  destruct (insert_child_spec st4 p (lit ".") dot n h)
    as (st5 & n5 & h5 & -> & Hwf5 & Hg5 & Hx5 & Hp5 & Ht5 & Hpa5 & (Hna5 & Hfs5 & Hda5) & Hre5 & Hh5 & Hm5 & [Hc5 Hg5'] & Ho5); try done.
  { by rewrite Hold4. } { lia. }
  { rewrite (entry_at st4 p _ n h), Hm by (done || by rewrite Hold4). apply lookup_empty. }
  ored.
  assert (is_Some (nodes st5 !! dotdot)) as Hdd5 by (rewrite Ho5 by lia; by exists n4).
  destruct (insert_child_spec st5 p (lit "..") dotdot n5 h5)
    as (st6 & n6 & h6 & -> & Hwf6 & Hg6 & Hx6 & Hp6 & Ht6 & Hpa6 & (Hna6 & Hfs6 & Hda6) & Hre6 & Hh6 & Hm6 & [_ Hg6'] & Ho6); try done.
  { lia. }
  { rewrite (entry_at st5 p _ n5 h5), Hm5, Hm by done. by rewrite lookup_insert_ne, lookup_empty. }
  exists st6, n6, h6, dot, dotdot. split; [done|]. split; [done|].
  split; [rewrite (proj1 Hg6), (proj1 Hg5), Hr4, Hr3, (proj1 Hg2), (proj1 Hg1); done|].
  split; [done|]. split; [lia|]. split; [done|]. split; [done|].
  split; [congruence|]. split; [split_and!; congruence|]. split; [congruence|]. split; [done|].
  split; [split; [by rewrite Hm6, Hm5, Hm|]; intros k Hk; apply Hg5', Hg6' in Hk; by rewrite <- Z.add_assoc in Hk|].
  assert (nodes st6 !! dot = Some n3) as Hd6 by (rewrite Ho6, Ho5 by lia; done).
  assert (nodes st6 !! dotdot = Some n4) as Hdd6 by (rewrite Ho6, Ho5 by lia; done).
  split; [|split; [|split]].
  - unfold target_of. rewrite Hd6, Hre3. by rewrite (proj2 (Z.eqb_neq p 0)) by lia.
  - unfold target_of. rewrite Hdd6, Hre4. subst par.
    destruct (Z.eqb_spec (parent n) 0); cbn [negb]; [by rewrite (proj2 (Z.eqb_neq p 0)) by lia|].
    by rewrite (proj2 (Z.eqb_neq (parent n) 0)).
  - intros q Hq Hqs. rewrite Ho6, Ho5 by done. by apply Hold4.
  - cbn [children] in Hch3, Hch4. intros q m Hq. destruct (decide (q = p)) as [->|Hqp]; [by left|]. rewrite Ho6, Ho5 in Hq by done.
    destruct (decide (q = dotdot)) as [->|Hqdd]; [right; congruence|]. rewrite Ho4 in Hq by done.
    destruct (decide (q = dot)) as [->|Hqd]; [right; congruence|]. rewrite Ho3, Ho2, Ho1 in Hq by done. left. by exists m.
Qed.

Definition redirect_of st st' q : Prop := target_of st' q = target_of st q.

Lemma insert_keeps_targets st st' d n n' q :
  nodes st !! d = Some n -> nodes st' !! d = Some n' -> redirect n' = redirect n ->
  (forall p, p <> d -> nodes st' !! p = nodes st !! p) -> redirect_of st st' q.
Proof.
  intros Hn Hn' Hr Ho. unfold redirect_of. destruct (decide (q = d)) as [->|Hq].
  - by apply (target_same st st' d n n').
  - unfold target_of. by rewrite Ho.
Qed.

Lemma create_directory_spec st fsp d nm n h :
  wf st -> nodes st !! d = Some n -> type n = DIRECTORY -> children n = Some h ->
  HashMap.m_capacity h < 2 ^ 47 -> good_name nm = true -> entry st d nm = None ->
  exists st' p, create junk fsp d nm DIRECTORY st = Ret (st', p) /\ wf st' /\
    adds st st' d nm p /\ target_of st' p = p /\
    walk st' p [lit "."] = Some p /\ walk st' p [lit ".."] = Some d /\
    (forall nm', nm' <> lit "." -> nm' <> lit ".." -> entry st' p nm' = None) /\
    (forall names, located st' d names -> located st' p (names ++ [nm])) /\
    carries st st' /\ exists n', nodes st' !! p = Some n' /\ type n' = DIRECTORY /\ fs n' = fsp.
Proof.
  intros Hwf Hn Ht Hh Hcap Hgood He. pose proof (good_name_spec nm Hgood) as (Hnm & _ & _).
  unfold create, new_DirectoryNode.
  destruct (new_Node junk DIRECTORY fsp d nm (Some (HashMap.new 16)) st) as [st1 p] eqn:Hnew.
  destruct (new_Node_spec _ _ _ _ _ _ _ _ Hwf Hnm Hnew) as (E & Hp1 & Hwf1 & Hg1 & Hx1 & Ho1); [done|].
  assert (nodes st !! p = None) as Hfr by (rewrite E; by apply fresh_addr).
  assert (is_Some (nodes st !! d)) as Hex by (by exists n).
  pose proof (wf_range st Hwf d Hex) as Hdr.
  assert (is_dir st1 d) as Hd1 by (eapply grown_dir; [exact Hg1|by exists n]).
  destruct (create_dotentries_spec st1 p _ (HashMap.new 16) Hwf1 Hp1 eq_refl eq_refl)
    as (st2 & n2 & h2 & dot & dotdot & -> & Hwf2 & Hr2 & Hdot & Hdotdot & Hp2 & Ht2 & Hpa2 & (Hna2 & Hfs2 & _) & Hre2 & Hh2 & [Hm2 Hro2] & Htd & Htdd & Ho2 & Hnew2);
    [by apply (@HashMap.new_wf Z 16)|done|done|].
  cbn [parent name redirect fs] in Hpa2, Hna2, Hfs2, Hre2, Htdd. rewrite (proj2 (Z.eqb_neq d 0)) in Htdd by lia.
  ored. rewrite (proj2 (Z.eqb_neq d 0)) by lia. cbn [negb].
  assert (p <> d) as Hpd by congruence.
  assert (forall q, is_Some (nodes st !! q) -> nodes st2 !! q = nodes st !! q) as Hold2.
  { intros q Hq. assert (q <> p) by (intros ->; rewrite Hfr in Hq; by destruct Hq).
    rewrite Ho2, Ho1; [done..|]. by rewrite Ho1. }
  assert (nodes st2 !! d = Some n) as Hd2 by (by rewrite Hold2).
  destruct (insert_child_spec st2 d nm p n h)
    as (st3 & n3 & h3 & -> & Hwf3 & Hg3 & _ & Hd3 & Ht3 & Hpa3 & (_ & Hfs3 & Hda3) & Hr3 & Hh3 & Hm3 & [_ Hgrew] & Ho3);
    [done|done|done|done|done|done|by rewrite (entry_same st st2 d nm) by (by rewrite Hd2)|by exists n2|].
  ored. exists st3, p. split; [done|]. split; [done|].
  assert (nodes st3 !! p = Some n2) as Hp3 by (by rewrite Ho3).
  assert (forall q, redirect_of st2 st3 q) as Htg by (intros q; by apply (insert_keeps_targets st2 st3 d n n3)).
  assert (entry st3 d nm = Some p) as He3.
  { rewrite (entry_at st3 d nm n3 h3), Hm3 by done. apply lookup_insert_eq. }
  split; [split; [done|split; [done|split; [done|split]]]|].
  - intros d' nm' Hm Hne. destruct (decide (d' = d)) as [->|Hd'].
    + rewrite (entry_at st3 d nm' n3 h3), (entry_at st d nm' n h), Hm3 by done.
      rewrite lookup_insert_ne; [done|]. congruence.
    + apply entry_same. rewrite Ho3 by done. by apply Hold2.
  - intros q Hq. rewrite (Htg q). unfold target_of. by rewrite Hold2.
  - split; [by apply (target_plain st3 p n2)|].
    assert (forall nm', entry st3 p nm' = to_map h2 !! nm') as Hent by (intros nm'; by apply (entry_at st3 p nm' n2 h2)).
    split; [|split; [|split; [|split; [|split]]]].
    + cbn [walk]. rewrite Hent, Hm2. rewrite lookup_insert_ne, lookup_insert_eq by done. cbn.
      by rewrite (Htg dot), Htd.
    + cbn [walk]. rewrite Hent, Hm2, lookup_insert_eq. cbn. by rewrite (Htg dotdot), Htdd.
    + intros nm' H1 H2. rewrite Hent, Hm2. by rewrite !lookup_insert_ne, lookup_empty by done.
    + intros names Hl. rewrite <- Hna2. apply (located_child st3 d names p n2); rewrite ?Hna2; done.
    + split.
      * rewrite (proj1 Hg3), Hr2. apply Hg1.
      * intros q m Hq. destruct (decide (q = d)) as [->|Hqd];
          [assert (m = n) as -> by congruence; exists n3; unfold kept; split_and!; (done || congruence)|].
        exists m. split; [|done]. rewrite Ho3, Hold2 by (done || by exists m). done.
      * intros k Hk Hs q m h' Hq Hm. destruct (decide (q = d)) as [->|Hqd].
        -- apply (roomy_le (k + 1)); [lia|]. assert (h' = h3) as -> by congruence. by apply Hgrew, (Hs d n).
        -- rewrite Ho3 in Hq by done. destruct (decide (q = p)) as [->|Hqp].
           ++ assert (h' = h2) as -> by congruence. apply (roomy_le (0 + 2)); [lia|]. by apply Hro2.
           ++ destruct (Hnew2 q m Hq) as [[m' Hm']|Hno]; [|congruence]. rewrite Ho2 in Hq by (done || by exists m').
              rewrite Ho1 in Hq by done. apply (roomy_le k); [lia|]. by apply (Hs q m).
    + exists n2. split; [done|]. split; [done|]. congruence.
Qed.

(** C38. Creating a directory, under a name the parent has no entry for, on
    memory that reads zero ([junk_zero]: the constructor of [Node] leaves
    [redirect] unset; on other memory the new nodes are taken for links, example
    [fresh_nodes_may_be_links]), adds exactly that entry, leading to a directory
    that holds [.] leading to itself, [..] leading to its parent and nothing
    else, and keeps the tree well formed. *)
Theorem create_makes_a_directory st fsp d nm n h :
  wf st -> nodes st !! d = Some n -> type n = DIRECTORY -> children n = Some h ->
  HashMap.m_capacity h < 2 ^ 47 -> good_name nm = true -> entry st d nm = None ->
  exists st' p, create junk fsp d nm DIRECTORY st = Ret (st', p) /\ wf st' /\
    adds st st' d nm p /\ target_of st' p = p /\
    walk st' p [lit "."] = Some p /\ walk st' p [lit ".."] = Some d /\
    (forall nm', nm' <> lit "." -> nm' <> lit ".." -> entry st' p nm' = None) /\
    (forall names, located st' d names -> located st' p (names ++ [nm])).
Proof.
  intros. destruct (create_directory_spec st fsp d nm n h) as (st' & p & ? & ? & ? & ? & ? & ? & ? & ? & _); [done..|].
  by exists st', p.
Qed.

Lemma init_root_spec root_fs a :
  0 < a ->
  exists st, Tmpfs.init junk root_fs a = Ret st /\ wf st /\ root_ok st /\
    walk st (root st) [lit "."] = Some (root st) /\ walk st (root st) [lit ".."] = Some (root st) /\
    (forall nm, nm <> lit "." -> nm <> lit ".." -> entry st (root st) nm = None) /\
    small 2 st /\ exists n, nodes st !! root st = Some n /\ type n = DIRECTORY /\ fs n = root_fs.
Proof.
  intros Ha. unfold Tmpfs.init, create, new_DirectoryNode.
  assert (wf (mkVfs ∅ a 0 : vfs NodeData)) as Hwf0.
  { split; [intros p n; cbn; by rewrite lookup_empty|intros p [n Hn]; cbn in Hn; by rewrite lookup_empty in Hn|done]. }
  destruct (new_Node junk DIRECTORY root_fs 0 [] (Some (HashMap.new 16)) (mkVfs ∅ a 0)) as [st1 p] eqn:Hnew.
  destruct (new_Node_spec _ _ _ _ _ _ _ _ Hwf0 (eq_refl : is_cstring [] = true) Hnew) as (E & Hp1 & Hwf1 & _ & _ & Ho1); [done|].
  destruct (create_dotentries_spec st1 p _ (HashMap.new 16) Hwf1 Hp1 eq_refl eq_refl)
    as (st2 & n2 & h2 & dot & dotdot & -> & Hwf2 & _ & _ & _ & Hp2 & Ht2 & Hpa2 & (_ & Hfs2 & _) & Hre2 & Hh2 & [Hm2 Hro2] & Htd & Htdd & Ho2 & Hnew2);
    [by apply (@HashMap.new_wf Z 16)|done|done|].
  ored. eexists. split; [done|].
  set (st := mkVfs (nodes st2) (next_addr st2) p).
  assert (forall nm, entry st p nm = to_map h2 !! nm) as Hent.
  { intros nm. by apply (entry_at st p nm n2 h2). }
  split; [|split; [by exists n2|]].
  - destruct Hwf2 as [Hn Hr Hx]. split; [exact Hn|exact Hr|exact Hx].
  - cbn [root st walk]. split; [|split; [|split; [|split]]].
    + rewrite Hent, Hm2. rewrite lookup_insert_ne, lookup_insert_eq by done. cbn. by f_equal.
    + rewrite Hent, Hm2, lookup_insert_eq. cbn. by f_equal.
    + intros nm H1 H2. rewrite Hent, Hm2. by rewrite !lookup_insert_ne, lookup_empty by done.
    + intros q m h' Hq Hm. cbn in Hq. destruct (decide (q = p)) as [->|Hqp].
      * assert (h' = h2) as -> by congruence. by apply (Hro2 0).
      * destruct (Hnew2 q m Hq) as [[m' Hm']|Hno]; [|congruence]. rewrite Ho1 in Hm' by done. cbn in Hm'. by rewrite lookup_empty in Hm'.
    + exists n2. done.
Qed.

(** [init] makes a well-formed tree of one directory, the root, that has no
    parent and holds [.] and [..], both leading to itself, and nothing else. *)
Theorem init_makes_a_root root_fs a :
  0 < a ->
  exists st, Tmpfs.init junk root_fs a = Ret st /\ wf st /\ root_ok st /\
    walk st (root st) [lit "."] = Some (root st) /\ walk st (root st) [lit ".."] = Some (root st) /\
    (forall nm, nm <> lit "." -> nm <> lit ".." -> entry st (root st) nm = None).
Proof.
  intros Ha. destruct (init_root_spec root_fs a Ha) as (st & ? & ? & ? & ? & ? & ? & _). by exists st.
Qed.

End Mkfs.

(** ** A concrete tree: [/bin/sh], on memory that is zero *)
Definition zero (p : Z) : Z := 0.
Lemma zero_spec p : zero p = 0. Proof. done. Qed.

Definition empty_vfs : vfs NodeData := mkVfs ∅ 1 0.
Definition run_fs {A} (m : outcome (vfs NodeData * A)) : vfs NodeData :=
  match m with Ret (st, _) => st | _ => empty_vfs end.

Definition run_addr {A} (m : outcome (A * Z)) : Z := match m with Ret (_, p) => p | _ => 0 end.

Lemma run_ret m st p : m = Ret (st, p) -> st = run_fs m /\ p = run_addr m.
Proof. by intros ->. Qed.

Definition tree0 : vfs NodeData := match Tmpfs.init zero 99 1 with Ret st => st | _ => empty_vfs end.
Definition tree1 : vfs NodeData := run_fs (create zero 99 1 (lit "bin") DIRECTORY tree0).
Definition tree2 : vfs NodeData := run_fs (create zero 99 4 (lit "sh") FILE tree1).

Definition the_node (st : vfs NodeData) (p : Z) : Node NodeData :=
  default (mkNode NONE 0 None 0 0 [] None) (nodes st !! p).
Definition the_children (st : vfs NodeData) (p : Z) : HashMap Z :=
  default (HashMap.new 0) (children (the_node st p)).

Lemma tree0_ok : wf tree0 /\ root_ok tree0.
Proof.
  destruct (Tmpfs.init zero 99 1) as [st| | |] eqn:E; [|by vm_compute in E..].
  assert (tree0 = st) as ->. { unfold tree0. by rewrite E. }
  destruct (init_root_spec zero zero_spec 99 1) as (st' & E' & Hwf & Hroot & _); [done|].
  rewrite E in E'. injection E' as <-. done.
Qed.

Lemma tree1_ok : wf tree1 /\ root_ok tree1 /\ located tree1 4 [lit "bin"].
Proof.
  destruct tree0_ok as [Hwf Hroot].
  destruct (create_directory_spec zero zero_spec tree0 99 1 (lit "bin") (the_node tree0 1) (the_children tree0 1) Hwf)
    as (st' & p & E & Hwf' & Hadds & _ & _ & _ & _ & Hloc & _); [vm_compute; reflexivity..|].
  apply run_ret in E as [-> ->]. fold tree1 in Hwf', Hloc.
  replace (run_addr _) with 4 in Hloc by (vm_compute; reflexivity).
  split; [done|]. assert (root_ok tree1) as Hroot1 by (exists (the_node tree1 1); vm_compute; split; [|split]; reflexivity).
  split; [done|]. apply (Hloc []). assert (1 = root tree1) as -> by done. constructor.
Qed.

Lemma tree2_ok : wf tree2 /\ root_ok tree2 /\ file_contents tree2 7 = Some [].
Proof.
  destruct tree1_ok as [Hwf _].
  destruct (create_file_spec zero zero_spec tree1 99 4 (lit "sh") (the_node tree1 4) (the_children tree1 4) Hwf)
    as (st' & p & E & Hwf' & Hadds & _ & Hc & _); [vm_compute; reflexivity..|].
  apply run_ret in E as [-> ->]. fold tree2 in Hwf', Hc.
  replace (run_addr _) with 7 in Hc by (vm_compute; reflexivity).
  split; [done|]. split; [|exact Hc]. exists (the_node tree2 1). vm_compute. split; [|split]; reflexivity.
Qed.

Lemma tree2_located : located tree2 4 [lit "bin"].
Proof.
  apply (located_child tree2 1 [] 4 (the_node tree2 4)); try (by vm_compute).
  assert (1 = root tree2) as -> by done. constructor.
Qed.

Lemma init_makes_a_root_witness :
  exists st, Tmpfs.init zero 99 1 = Ret st /\ wf st /\ root_ok st /\
    walk st (root st) [lit "."] = Some (root st) /\ walk st (root st) [lit ".."] = Some (root st) /\
    (forall nm, nm <> lit "." -> nm <> lit ".." -> entry st (root st) nm = None).
Proof. by apply (init_makes_a_root zero zero_spec 99 1). Defined.

Lemma create_adds_a_file_witness :
  exists st' p, create zero 99 4 (lit "sh") FILE tree1 = Ret (st', p) /\ wf st' /\
    adds tree1 st' 4 (lit "sh") p /\ target_of st' p = p /\ file_contents st' p = Some [].
Proof.
  apply (create_adds_a_file zero zero_spec tree1 99 4 (lit "sh") (the_node tree1 4) (the_children tree1 4)
    (proj1 tree1_ok)); by vm_compute.
Defined.

Lemma create_makes_a_directory_witness :
  exists st' p, create zero 99 1 (lit "bin") DIRECTORY tree0 = Ret (st', p) /\ wf st' /\
    adds tree0 st' 1 (lit "bin") p /\ target_of st' p = p /\
    walk st' p [lit "."] = Some p /\ walk st' p [lit ".."] = Some 1 /\
    (forall nm', nm' <> lit "." -> nm' <> lit ".." -> entry st' p nm' = None) /\
    (forall names, located st' 1 names -> located st' p (names ++ [lit "bin"])).
Proof.
  apply (create_makes_a_directory zero zero_spec tree0 99 1 (lit "bin") (the_node tree0 1) (the_children tree0 1)
    (proj1 tree0_ok)); by vm_compute.
Defined.

(** [/bin/../bin/sh] is node 7, from the root or relative to it. *)
Lemma path_to_node_resolves_witness :
  path_to_node tree2 (lit "/bin/../bin/sh") 0 = Ret (mkPathToNodeResult 4 7 (Some (lit "sh"))) /\
  path_to_node tree2 (lit "bin/../bin/sh") 1 = Ret (mkPathToNodeResult 4 7 (Some (lit "sh"))) /\
  walk tree2 1 [lit "bin"; lit ".."; lit "bin"; lit "sh"] = Some 7.
Proof.
  pose proof (path_to_node_resolves tree2 [lit "bin"; lit ".."; lit "bin"; lit "sh"] false
    (proj1 tree2_ok) (proj1 (proj2 tree2_ok)) eq_refl ltac:(done)) as (Hrel & Habs & _).
  specialize (Hrel 1 ltac:(eexists; by vm_compute)). cbn zeta in Hrel, Habs.
  split; [etransitivity; [exact Habs|by vm_compute]|]. split; [etransitivity; [exact Hrel|by vm_compute]|].
  by vm_compute.
Defined.

Definition task_in (d : Z) : Task := mkTask (Vector.new 0) 0 0 d.

Lemma tree2_root_unnamed : root_unnamed tree2.
Proof. exists (the_node tree2 1). split; [|split]; vm_compute; reflexivity. Qed.

Lemma getcwd_roundtrip_witness :
  (syscall_getcwd 64 tree2 (task_in 4) = Ret (lit "/bin", 0) /\
   exists r, path_to_node tree2 (lit "/bin") 0 = Ret r /\ target r = 4) /\
  syscall_getcwd 64 tree2 (task_in 1) = Ret (lit "/", 0) /\
  exists r, path_to_node tree2 (lit "/") 0 = Ret r /\ target r = 0.
Proof.
  split.
  - exact (getcwd_roundtrip tree2 (task_in 4) [lit "bin"] 64 (proj1 tree2_ok) (proj1 (proj2 tree2_ok))
      tree2_located ltac:(done) ltac:(lia)).
  - exact (getcwd_roundtrip tree2 (task_in 1) [] 64 (proj1 tree2_ok) (proj1 (proj2 tree2_ok))
      (located_root tree2) (fun _ => tree2_root_unnamed) ltac:(lia)).
Defined.

Lemma chdir_follows_the_path_witness :
  syscall_chdir (lit "../bin/sh") tree2 (task_in 4) = Ret (task_in 4, - ENOTDIR).
Proof.
  etransitivity; [apply (chdir_follows_the_path tree2 (task_in 4) [lit ".."; lit "bin"; lit "sh"] false
    (proj1 tree2_ok) (proj1 (proj2 tree2_ok)) eq_refl ltac:(done)); eexists; by vm_compute|by vm_compute].
Defined.

(** ** Descriptors on the concrete tree: number 3 open on [/bin/sh] *)
Definition std : option FileDescriptor := Some (mkFileDescriptor 0 0).
Definition table4 : table := [std; std; std; Some (mkFileDescriptor 7 0)].
Definition task4 : Task :=
  mkTask (Vector.mkVector (Some <$> table4) 4 4) 4 4 4.

Lemma task4_ok : fds_ok task4 table4.
Proof. by repeat split. Qed.

Definition sys4 : sys NodeData (list Z) := mkSys tree2 task4 Keyboard.init [].

Lemma sys4_file : names_file (filesystems zero 99) (instantiate zero) sys4 table4 3 7 0 [].
Proof. split; [done|]. split; [done|]. split; [exact (proj2 (proj2 tree2_ok))|].
  exists (the_node tree2 7). split; [vm_compute; reflexivity|].
  assert (fs (the_node tree2 7) = 99) as -> by (vm_compute; reflexivity). reflexivity.
Qed.

Lemma write_then_read_witness :
  exists st', Tmpfs.write 7 [1; 2; 3] 2 tree2 = Ret st' /\
    (forall q, q <> 7 -> nodes st' !! q = nodes tree2 !! q) /\
    Tmpfs.read 7 4 1 st' = Ret (4, [None; Some 1; Some 2; Some 3]).
Proof.
  exact (write_then_read tree2 7 [] [1; 2; 3] 2 4 1 (proj2 (proj2 tree2_ok))
    ltac:(lia) eq_refl ltac:(lia) ltac:(lia) eq_refl).
Defined.

Lemma openat_takes_a_free_number_witness :
  exists t' fd l', openat_inner AT_FDCWD (lit "sh") tree2 task4 = Ret (t', fd) /\ fds_ok t' l' /\
    opened table4 l' fd (mkFileDescriptor 7 0) /\ cwd t' = cwd task4.
Proof.
  exact (openat_takes_a_free_number tree2 task4 table4 AT_FDCWD (lit "sh") 4
    (mkPathToNodeResult 4 7 (Some (lit "sh"))) task4_ok eq_refl eq_refl ltac:(by vm_compute)).
Defined.

Lemma close_frees_the_number_witness :
  exists t', syscall_close 3 task4 = Ret t' /\ fds_ok t' (zinsert 3 None table4) /\ cwd t' = cwd task4 /\
    exists t1 t2, allocate_fdnum t' = Ret (t1, 3) /\ set_fd 3 std t1 = Ret t2 /\
      fds_ok t2 (zinsert 3 std table4).
Proof. exact (close_frees_the_number task4 table4 3 (mkFileDescriptor 0 0) task4_ok eq_refl). Defined.

Lemma write_then_pread_witness :
  exists s' l', syscall_write (filesystems zero 99) log 3 [104; 105; 33] 2 sys4 = Ret s' /\
    fds_ok (task s') l' /\
    names_file (filesystems zero 99) (instantiate zero) s' l' 3 7 2 [Some 104; Some 105] /\
    (forall q, q <> 7 -> file_contents (files s') q = file_contents (files sys4) q) /\
    (forall fd' c', zlookup l' fd' = Some (Some (mkFileDescriptor 7 c')) ->
       syscall_pread (filesystems zero 99) fd' 2 0 s' = Ret [Some 104; Some 105]).
Proof.
  exact (write_then_pread (filesystems zero 99) (instantiate zero) log sys4 table4 3 7 0 []
    [104; 105; 33] 2 task4_ok sys4_file ltac:(lia) ltac:(cbn; lia) eq_refl).
Defined.

Lemma read_gives_the_contents_witness :
  exists s' l', syscall_read (filesystems zero 99) 3 5 [] sys4 = Ret ([], [], s') /\
    files s' = files sys4 /\ fds_ok (task s') l' /\
    names_file (filesystems zero 99) (instantiate zero) s' l' 3 7 5 [].
Proof.
  exact (read_gives_the_contents (filesystems zero 99) (instantiate zero) sys4 table4 3 7 0 [] 5 []
    task4_ok sys4_file ltac:(lia) ltac:(lia) eq_refl).
Defined.

(** ** What the code does at the edges *)

(** ["/"] resolves to nothing: [chdir("/")] fails, although [getcwd] answers
    ["/"] in the root. *)
Example root_has_no_path :
  syscall_chdir (lit "/") tree2 (task_in 4) = Ret (task_in 4, - ENOENT) /\
  syscall_getcwd 64 tree2 (task_in 1) = Ret (lit "/", 0).
Proof. vm_compute. done. Qed.

(** A missing directory in the middle of a path is reported as the missing last
    component: creating ["lib/libc"] would make a file ["lib"]. *)
Example missing_directory_is_the_basename :
  path_to_node tree2 (lit "/lib/libc") 0 = Ret (mkPathToNodeResult 1 0 (Some (lit "lib"))).
Proof. by vm_compute. Qed.

(** On memory that is not zero a new node is taken for a link. *)
Example fresh_nodes_may_be_links :
  (st ← Tmpfs.init (fun _ => 1234567) 99 1;
   '(st, _) ← create (fun _ => 1234567) 99 1 (lit "sh") FILE st;
   path_to_node st (lit "/sh") 0) = Fault.
Proof. by vm_compute. Qed.

(** Standard error has a descriptor without a node: writing to it follows a null
    pointer, as does [pread] from standard input. *)
Example stderr_has_no_node :
  syscall_write (filesystems zero 99) log 2 [72; 105] 2 sys4 = Fault /\
  syscall_pread (filesystems zero 99) 0 2 0 sys4 = Fault.
Proof. vm_compute. done. Qed.

(** A zero-length write to standard output prints the memory at the pointer up
    to the next zero. *)
Example empty_write_prints :
  (s ← syscall_write (filesystems zero 99) log 1 [72; 105; 0] 0 sys4; Ret (screen s)) = Ret [72; 105].
Proof. by vm_compute. Qed.

(** [getcwd] stores a byte in a buffer of size 0. *)
Example getcwd_overruns_an_empty_buffer :
  syscall_getcwd 0 tree2 (task_in 4) = Ret ([47], - ERANGE).
Proof. by vm_compute. Qed.

(** A write whose end wraps around skips the growth and copies outside the
    file's block. *)
Example write_at_a_huge_offset : Tmpfs.write 7 [1; 2] (2 ^ 64 - 1) tree2 = Fault.
Proof. by vm_compute. Qed.

(** [close] makes the number it frees the first candidate even when a smaller
    one is free: after closing 3 and then 4, the next [open] gets 4. *)
Example open_is_not_the_lowest_number :
  (let t := mkTask (Vector.mkVector (Some <$> [std; std; std; std; std]) 5 5) 5 5 4 in
   t ← syscall_close 3 t; t ← syscall_close 4 t;
   '(_, fd) ← syscall_open (lit "sh") tree2 t; Ret fd) = Ret 4.
Proof. by vm_compute. Qed.
