(* ===== verification/Session.v ===== *)
(** * A program's session with the file system: fs/vfs.cpp over tmpfs

    Every system call on files and directories, in any order and with any path,
    and what has to hold of the nodes, the descriptors and the working directory
    for the casts and pointers of the code to be right. *)
From S2P Require Import Prelude Buddy CString HashMap Vector Keyboard Printf Vfs Descriptors Tmpfs Tree Mkfs.

Section Session.
Context (junk : Z -> Z) (root_fs : Z).

(** A heap that grants files of up to [limit] bytes. *)
Context {heap : Heap} (limit : Z) (limit_range : limit < 2 ^ 64).
Hypothesis grants : forall size, 0 <= size <= limit -> realloc_answer size = Ret true.
Context {S : Type} (putchar : Z -> S -> outcome S) (putchar_returns : forall c s, exists s', putchar c s = Ret s').
Implicit Types (p : Z) (st : vfs NodeData) (l : table) (s : sys NodeData S) (path : cstring).

Inductive file_call :=
| Open path
| Openat (dirfd : Z) path
| Close (fd : Z)
| Read (fd count : Z)
| Pread (fd count offset : Z)
| Write (fd : Z) (buf : list Z) (count : Z)
| Pwrite (fd : Z) (buf : list Z) (count offset : Z)
| Seek (fd offset : Z)
| Chdir path
| Getcwd (size : Z).

Inductive reply := Value (v : Z) | Bytes (bs : list (option Z)) | Text (cs : list Z) (v : Z) | Nothing.

Definition with_task (t : Vfs.Task) s : sys NodeData S := mkSys (files s) t (keyboard s) (screen s).

(** One system call; nothing is typed meanwhile. *)
Definition do_call (r : file_call) s : outcome (reply * sys NodeData S) :=
  let F := filesystems junk root_fs in
  match r with
  | Open path => '(t, v) ← syscall_open path (files s) (task s); Ret (Value v, with_task t s)
  | Openat dirfd path => '(t, v) ← syscall_openat dirfd path (files s) (task s); Ret (Value v, with_task t s)
  | Close fd => t ← syscall_close fd (task s); Ret (Nothing, with_task t s)
  | Read fd count => '(bs, _, s) ← syscall_read F fd count [] s; Ret (Bytes bs, s)
  | Pread fd count offset => bs ← syscall_pread F fd count offset s; Ret (Bytes bs, s)
  | Write fd buf count => s ← syscall_write F putchar fd buf count s; Ret (Nothing, s)
  | Pwrite fd buf count offset => s ← syscall_pwrite F fd buf count offset s; Ret (Nothing, s)
  | Seek fd offset => t ← syscall_seek fd offset (task s); Ret (Nothing, with_task t s)
  | Chdir path => '(t, v) ← syscall_chdir path (files s) (task s); Ret (Value v, with_task t s)
  | Getcwd size => '(cs, v) ← syscall_getcwd size (files s) (task s); Ret (Text cs v, s)
  end.

(** ** What holds between calls *)

(** Directories have children, files have contents, links lead to directories,
    parents are older than their children, and all of it is tmpfs's. *)
Record typed st : Prop := {
  ty_wf : Tree.wf st;
  ty_root : root_ok st;
  ty_node p n : nodes st !! p = Some n ->
    fs n = root_fs /\ (type n = FILE -> is_Some (file_contents st p)) /\
    (parent n = 0 \/ parent n < p /\ is_Some (nodes st !! parent n)) }.

(** The first three descriptors name no node. *)
Record session s l : Prop := {
  ss_typed : typed (files s);
  ss_fds : fds_ok (task s) l;
  ss_node fd d : zlookup l fd = Some (Some d) ->
    0 <= cursor d < 2 ^ 64 /\ (2 < fd -> is_Some (nodes (files s) !! node d));
  ss_cwd : is_dir (files s) (cwd (task s)) }.

(** Room in the descriptor table, which is doubled when it is full. *)
Definition room s : Prop := Vector.m_capacity (file_descriptors (task s)) < 2 ^ 58.

(** The transfer of [count] bytes at the cursor of [fd] ends by [last]. *)
Definition at_cursor_ok l (fd count last : Z) : Prop :=
  forall d, zlookup l fd = Some (Some d) -> cursor d + count <= last.

(** The calls that keep away from what the code does not handle: descriptors
    without a node, offsets that wrap around, files the heap does not grow to,
    empty writes to the screen, and buffers that end before the call does,
    getcwd's empty ones among them. *)
Definition sane s l (r : file_call) : Prop :=
  match r with
  | Open path => is_cstring path = true /\ room s
  | Openat dirfd path => is_cstring path = true /\ room s /\ ~ (0 <= dirfd <= 2)
  | Close _ => True
  | Read fd count => 2 < fd /\ 0 <= count /\ at_cursor_ok l fd count (2 ^ 64 - 1)
  | Pread fd count offset => 2 < fd /\ 0 <= count /\ 0 <= offset /\ offset + count < 2 ^ 64
  | Write fd buf count =>
      0 <= count <= Z.of_nat (length buf) /\
      (fd = 1 /\ 0 < count < 2 ^ 31 \/ 2 < fd /\ at_cursor_ok l fd count limit)
  | Pwrite fd buf count offset =>
      2 < fd /\ 0 <= count <= Z.of_nat (length buf) /\ 0 <= offset /\ offset + count <= limit
  | Seek _ _ => True
  | Chdir path => is_cstring path = true
  | Getcwd size => 0 < size
  end.

(** ** Paths *)
Lemma strchr_range path i :
  is_cstring path = true -> strchr path 47 = Some i -> 0 <= i < Z.of_nat (length path).
Proof.
  intros Hs Hi. destruct (strchr_Some path 47 i Hs Hi) as (p & q & E & _ & ->). split; [lia|].
  destruct (decide (length p < length path)%nat) as [|Hge]; [lia|]. exfalso.
  apply (f_equal (fun k : cstring => k !! length p)) in E. rewrite (list_lookup_middle p) in E by done.
  rewrite lookup_app_r in E by lia. by destruct (length p - length path)%nat.
Qed.

(** Whatever the path is, resolving it returns, and what it returns is a node. *)
Lemma path_loop_total st fuel : forall path d,
  Tree.wf st -> is_Some (nodes st !! d) -> is_cstring path = true -> (length path < fuel)%nat ->
  exists r, path_loop fuel st path (Z.of_nat (length path)) d = Ret r /\
    (target r = 0 \/ is_Some (nodes st !! target r)).
Proof.
  induction fuel as [|fuel IH]; intros path d Hwf [n Hn] Hs Hf; [lia|]. cbn [path_loop].
  unfold Vfs.deref. rewrite Hn. ored. case_bool_decide as Ht; [exists no_result; split; [done|by left]|].
  destruct (children_of st d n Hwf Hn ltac:(by destruct (type n))) as (h & Hh & (Hhwf & Hhd & Hq) & _).
  rewrite Hh. ored.
  destruct (match strchr path 47 with None => _ | Some s => _ end) as [len last] eqn:El.
  assert (0 <= len <= Z.of_nat (length path) /\ (last = false -> len + 1 <= Z.of_nat (length path))) as [Hlen Hlast].
  { destruct (strchr path 47) as [i|] eqn:Ei; injection El as <- <-; [|split; [lia|done]].
    pose proof (strchr_range path i Hs Ei). lia. }
  rewrite (HashMap.get_spec h _ Hhwf Hhd (is_cstring_take _ _ Hs)). ored.
  destruct (to_map h !! take (Z.to_nat len) path) as [q|] eqn:Eq; [|by eexists; split; [done|left]].
  destruct (Hq _ _ Eq) as [m Hm]. rewrite (reduce_node_spec st q m Hwf Hm). ored.
  destruct (target_exists st q m Hwf Hm) as (m' & Hm' & _).
  destruct last; [eexists; split; [done|right; by exists m']|].
  replace (Z.of_nat (length path) - (len + 1)) with (Z.of_nat (length (drop (Z.to_nat (len + 1)) path)))
    by (rewrite length_drop; lia).
  apply IH; [done|by exists m'|by apply is_cstring_drop|rewrite length_drop; lia].
Qed.

Lemma path_to_node_total st path start :
  typed st -> is_cstring path = true -> start = 0 \/ is_Some (nodes st !! start) ->
  exists r, path_to_node st path start = Ret r /\ (target r = 0 \/ is_Some (nodes st !! target r)).
Proof.
  intros [Hwf (n & Hn & _) _] Hs Hstart. unfold path_to_node. rewrite strlen_length by done.
  destruct path as [|c path]; [exists no_result; split; [done|by left]|].
  rewrite (proj2 (Z.eqb_neq _ _)) by (cbn; lia). destruct (Z.eqb_spec start 0) as [->|Hne].
  - destruct (negb (CString.deref (c :: path) =? 47)); [exists no_result; split; [done|by left]|]. cbn [List.tl].
    replace (Z.of_nat (length (c :: path)) - 1) with (Z.of_nat (length path)) by (cbn [length]; lia).
    apply is_cstring_cons in Hs as [_ Hs]. apply path_loop_total; [done|by exists n|done|cbn; lia].
  - destruct Hstart as [?|Hst]; [done|]. apply path_loop_total; try done. lia.
Qed.

(** ** Files *)
Lemma read_typed st p n count offset :
  typed st -> nodes st !! p = Some n -> 0 <= count -> 0 <= offset -> offset + count < 2 ^ 64 ->
  exists v bs, Tmpfs.read p count offset st = Ret (v, bs).
Proof.
  intros Hty Hn Hc Ho Hov. destruct (ty_node st Hty p n Hn) as (_ & Hfile & _).
  destruct (decide (type n = FILE)) as [Ht|Ht].
  - destruct (Hfile Ht) as [b Hb]. rewrite (read_file st p b) by done. by eexists _, _.
  - unfold Tmpfs.read, Vfs.deref. rewrite Hn. ored. rewrite bool_decide_true by done. by eexists _, _.
Qed.

(** The nodes stay, with their types. *)
Definition stays st st' : Prop :=
  (forall p, is_Some (nodes st !! p) -> is_Some (nodes st' !! p)) /\ forall p, is_dir st p -> is_dir st' p.

Lemma stays_refl st : stays st st.
Proof. done. Qed.

Lemma set_data_typed st p n d st' :
  typed st -> nodes st !! p = Some n -> set_data p d st = Ret st' -> is_Some (file_contents st' p) ->
  typed st' /\ stays st st'.
Proof.
  intros [Hwf Hroot Hnode] Hn Hset Hb. unfold set_data, Vfs.deref in Hset. rewrite Hn in Hset. cbn [mbind outcome_bind of_option] in Hset.
  injection Hset as <-. set (n' := mkNode _ _ _ _ _ _ _) in *.
  destruct (set_node_wf st p n n' Hwf Hn eq_refl eq_refl eq_refl) as [Hwf' Hg]; [exact (wf_nodes st Hwf p n Hn)|].
  assert (forall q, is_Some (nodes st !! q) -> is_Some (nodes (set_node p n' st) !! q)) as Hsome.
  { intros q [m Hm]. destruct (proj2 Hg q m Hm) as (m' & Hm' & _). by exists m'. }
  split; [|split; [exact Hsome|intros q; by apply grown_dir]]. split; [done|by apply (grown_root st)|].
  intros q m. cbn [nodes set_node]. destruct (decide (q = p)) as [->|Hne].
  - rewrite lookup_insert_eq. intros [= <-]. destruct (Hnode p n Hn) as (Hfs & _ & Hpar). split; [done|]. split; [done|].
    destruct Hpar as [?|[? ?]]; [by left|right]. split; [done|]. by apply Hsome.
  - rewrite lookup_insert_ne by done. intros Hm. destruct (Hnode q m Hm) as (Hfs & Hfile & Hpar). split; [done|]. split.
    + intros Ht. destruct (Hfile Ht) as [b' Hb']. exists b'. unfold file_contents in *. cbn [nodes set_node].
      by rewrite lookup_insert_ne.
    + destruct Hpar as [?|[? ?]]; [by left|right]. split; [done|]. by apply Hsome.
Qed.

Lemma write_typed st p n bytes offset :
  typed st -> nodes st !! p = Some n -> 0 <= offset -> offset + Z.of_nat (length bytes) <= limit ->
  exists st', Tmpfs.write p bytes offset st = Ret st' /\ typed st' /\ stays st st'.
Proof.
  intros Hty Hn Ho Hov. destruct (ty_node st Hty p n Hn) as (_ & Hfile & _).
  destruct (decide (type n = FILE)) as [Ht|Ht].
  - destruct (Hfile Ht) as [b Hb]. destruct (write_file st p b bytes offset Hb Ho ltac:(lia) (grants (offset + Z.of_nat (length bytes)) ltac:(lia))) as (st' & E & Hb' & _).
    exists st'. split; [done|]. unfold Tmpfs.write, Vfs.deref in E. rewrite Hn in E. cbn [mbind outcome_bind of_option] in E.
    rewrite bool_decide_false in E by (by rewrite Ht; intros ?). apply bind_Ret in E as (d & _ & E). cbv zeta in E.
    apply bind_Ret in E as (d1 & _ & E). apply bind_Ret in E as (cells & _ & E). by apply (set_data_typed st p n _ st' Hty Hn E).
  - exists st. unfold Tmpfs.write, Vfs.deref. rewrite Hn. ored. by rewrite bool_decide_true.
Qed.

Lemma fs_of_typed st d : typed st -> is_Some (nodes st !! node d) ->
  fs_of (filesystems junk root_fs) d st = Ret (Tmpfs.instantiate junk).
Proof.
  intros Hty [n Hn]. unfold fs_of, Vfs.deref. rewrite Hn. ored. destruct (ty_node st Hty _ n Hn) as (-> & _).
  unfold filesystems. by rewrite Z.eqb_refl.
Qed.

(** ** What the calls keep *)
Lemma session_files s l st' :
  session s l -> typed st' -> stays (files s) st' -> session (mkSys st' (task s) (keyboard s) (screen s)) l.
Proof.
  intros [Hty Hfds Hnode Hcwd] Hty' [Hsome Hdir]. split; cbn [files task]; [done|done| |by apply Hdir].
  intros fd d Hd. destruct (Hnode fd d Hd) as [Hc Hn]. split; [done|]. intros Hfd. by apply Hsome, Hn.
Qed.

Lemma session_moved s l t fd d d' :
  session s l -> zlookup l fd = Some (Some d) -> node d' = node d -> 0 <= cursor d' < 2 ^ 64 ->
  fds_ok t (zinsert fd (Some d') l) -> cwd t = cwd (task s) ->
  session (with_task t s) (zinsert fd (Some d') l).
Proof.
  intros [Hty Hfds Hnode Hcwd] Hd En Hc Hfds' Ecwd. pose proof (zlookup_Some_range _ _ _ Hd). split; cbn [files task with_task]; [done|done| |by rewrite Ecwd].
  intros fd' e. destruct (decide (fd' = fd)) as [->|Hne].
  - rewrite zlookup_zinsert_eq by (by eapply zlookup_Some_range). intros [= <-]. split; [done|].
    rewrite En. apply (Hnode fd d Hd).
  - rewrite zlookup_zinsert_ne by lia. apply Hnode.
Qed.

Lemma session_opened s l t l' fd p :
  session s l -> is_Some (nodes (files s) !! p) -> fds_ok t l' -> opened l l' fd (mkFileDescriptor p 0) ->
  cwd t = cwd (task s) -> session (with_task t s) l'.
Proof.
  intros [Hty Hfds Hnode Hcwd] Hp Hfds' (_ & _ & Hfd & Hother) Ecwd.
  split; cbn [files task with_task]; [done|done| |by rewrite Ecwd].
  intros fd' e. destruct (decide (fd' = fd)) as [->|Hne].
  - rewrite Hfd. intros [= <-]. cbn [cursor node]. split; [lia|done].
  - rewrite Hother by done. apply Hnode.
Qed.

Lemma session_closed s l t fd :
  session s l -> 0 <= fd -> fds_ok t (zinsert fd None l) -> cwd t = cwd (task s) -> session (with_task t s) (zinsert fd None l).
Proof.
  intros [Hty Hfds Hnode Hcwd] H0 Hfds' Ecwd. split; cbn [files task with_task]; [done|done| |by rewrite Ecwd].
  intros fd' e He. destruct (decide (fd' = fd)) as [->|Hne].
  - pose proof (zlookup_Some_range _ _ _ He) as Hr. rewrite length_zinsert in Hr.
    by rewrite zlookup_zinsert_eq in He by lia.
  - rewrite zlookup_zinsert_ne in He by lia. by apply Hnode.
Qed.

Lemma session_same s l : session s l -> session (with_task (task s) s) l.
Proof. by destruct s. Qed.

(** ** Opening, changing the directory, printing it *)
Lemma starting_point_typed s l dirfd path :
  session s l -> ~ (0 <= dirfd <= 2) ->
  exists r, starting_point dirfd path (files s) (task s) = Ret r /\
    match r with inl p => p = 0 \/ is_Some (nodes (files s) !! p) | inr _ => True end.
Proof.
  intros Hs Hfd. unfold starting_point. destruct (negb _); [|exists (inl 0); split; [done|by left]].
  destruct (Z.eqb_spec dirfd AT_FDCWD); [|destruct (bad_fd dirfd (task s)) eqn:Hb; [by eexists|]].
  { exists (inl (cwd (task s))). split; [done|]. right. destruct (ss_cwd _ _ Hs) as (n & Hn & _). by exists n. }
  pose proof (ss_fds _ _ Hs) as Hfds. pose proof (holds_size _ _ (fds_holds _ _ Hfds)) as Hsz.
  unfold bad_fd, Vector.size in Hb. apply orb_false_iff in Hb as [Hb1 Hb2].
  destruct (zlookup_is_Some l dirfd) as [x Hx]; [lia|].
  destruct (not_bad_fd _ _ _ _ Hfds Hx) as [_ ->]. ored. destruct x as [d|]; [|by eexists].
  destruct (ss_node _ _ Hs dirfd d Hx) as [_ Hm]. destruct Hm as [m Hm]; [lia|].
  unfold Vfs.deref. rewrite Hm. ored. case_bool_decide; [by eexists|]. exists (inl (node d)). split; [done|].
  right. by exists m.
Qed.

Lemma openat_total s l dirfd path :
  session s l -> is_cstring path = true -> room s -> ~ (0 <= dirfd <= 2) ->
  exists t v l', openat_inner dirfd path (files s) (task s) = Ret (t, v) /\ session (with_task t s) l'.
Proof.
  intros Hs Hp Hroom Hfd. unfold openat_inner.
  destruct (starting_point_typed s l dirfd path Hs Hfd) as ([start|e] & -> & Hstart); ored.
  2: { exists (task s), e, l. split; [done|by apply session_same]. }
  destruct (path_to_node_total (files s) path start (ss_typed _ _ Hs) Hp Hstart) as (r & -> & Hr). ored.
  destruct (Z.eqb_spec (target r) 0) as [|Hne]; [exists (task s), (- ENOENT), l; split; [done|by apply session_same]|].
  destruct Hr as [?|Hr]; [done|].
  destruct (allocate_set_spec (task s) l (mkFileDescriptor (target r) 0) (ss_fds _ _ Hs) Hroom)
    as (t1 & fd & t2 & l' & -> & Hset & Hok' & Ho & Hc & _). ored. rewrite Hset. ored.
  exists t2, fd, l'. split; [done|]. by apply (session_opened s l t2 l' fd (target r)).
Qed.

Lemma chdir_total s l path :
  session s l -> is_cstring path = true ->
  exists t v, syscall_chdir path (files s) (task s) = Ret (t, v) /\ session (with_task t s) l.
Proof.
  intros Hs Hp. unfold syscall_chdir. set (start := if negb _ then _ else _).
  assert (start = 0 \/ is_Some (nodes (files s) !! start)) as Hstart.
  { unfold start. destruct (negb _); [right|by left]. destruct (ss_cwd _ _ Hs) as (n & Hn & _). by exists n. }
  destruct (path_to_node_total (files s) path start (ss_typed _ _ Hs) Hp Hstart) as (r & -> & Hr). ored.
  destruct (Z.eqb_spec (target r) 0) as [|Hne]; [eexists _, _; split; [done|by apply session_same]|].
  destruct Hr as [?|[n Hn]]; [done|]. unfold Vfs.deref. rewrite Hn. ored.
  case_bool_decide as Ht; [eexists _, _; split; [done|by apply session_same]|]. eexists _, _. split; [done|].
  destruct Hs as [Hty [H1 H2 H3 H4] Hnode Hcwd]. split; cbn [files task with_task cwd]; [done|by split|done|].
  exists n. split; [done|]. by destruct (type n).
Qed.

(** The nodes as old as [p]. *)
Definition older st p : gmap Z (Node NodeData) := filter (fun q : Z * Node NodeData => q.1 <= p) (nodes st).

(** The names of the directories above end: parents are older. *)
Lemma names_loop_total st fuel : forall p,
  typed st -> is_Some (nodes st !! p) -> (base.size (older st p) <= fuel)%nat ->
  exists names, names_loop fuel st p = Ret names.
Proof.
  induction fuel as [|fuel IH]; intros p Hty [n Hn] Hf.
  { exfalso. assert (base.size (older st p) = 0%nat) as E%map_size_empty_inv by lia.
    assert (older st p !! p = Some n) as Hp by (apply map_lookup_filter_Some; split; [done|cbn; lia]).
    by rewrite E, lookup_empty in Hp. }
  cbn [names_loop]. unfold Vfs.deref. rewrite Hn. ored. destruct (Z.eqb_spec (parent n) 0); [by eexists|].
  destruct (ty_node st Hty p n Hn) as (_ & _ & [?|[Hlt [m Hm]]]); [done|]. rewrite Hm. ored.
  destruct (parent m =? 0); [by eexists|].
  destruct (IH (parent n) Hty ltac:(by exists m)) as [names ->]; [|ored; by eexists].
  assert (base.size (older st (parent n)) < base.size (older st p))%nat; [|lia].
  apply map_subset_size, map_subset_alt. split.
  - apply map_subseteq_spec. intros q x [Hq Hle]%map_lookup_filter_Some. apply map_lookup_filter_Some.
    cbn in *. split; [done|lia].
  - exists p. split; [apply map_lookup_filter_None; right; intros x _; cbn; lia|].
    exists n. apply map_lookup_filter_Some. split; [done|cbn; lia].
Qed.

Lemma getcwd_total s l size :
  session s l -> exists cs v, syscall_getcwd size (files s) (task s) = Ret (cs, v).
Proof.
  intros Hs. unfold syscall_getcwd. destruct (ss_cwd _ _ Hs) as (n & Hn & _).
  destruct (names_loop_total (files s) (Datatypes.S (base.size (nodes (files s)))) (cwd (task s))) as [names ->].
  - apply (ss_typed _ _ Hs).
  - by exists n.
  - apply Nat.le_le_succ_r. rewrite <- !size_dom. apply subseteq_size, dom_filter_subseteq.
  - ored. destruct (store_chars _ _ _) as [out e]. by eexists _, _.
Qed.

(** ** Reading and writing through descriptors *)
Lemma puts_total o : forall x, exists x', puts putchar o x = Ret x'.
Proof.
  induction o as [|c o IH]; intros x; cbn [puts]; [by exists x|].
  destruct (putchar_returns c x) as [y ->]. ored. apply IH.
Qed.

Lemma screen_write_total s buf count :
  0 < count < 2 ^ 31 -> count <= Z.of_nat (length buf) -> bad_fd 1 (task s) = false ->
  exists x, syscall_write (filesystems junk root_fs) putchar 1 buf count s = Ret (mkSys (files s) (task s) (keyboard s) x).
Proof.
  intros Hc Hb Hfd. unfold syscall_write. rewrite Hfd. change (1 =? 1) with true. cbv iota.
  rewrite wrap_small by lia. rewrite (proj2 (Z.ltb_lt _ _)) by lia.
  change (lit "%.*s") with (render [PStrN]). destruct (puts_total (take (Z.to_nat count) buf) (screen s)) as [x Hx].
  rewrite (vprintf_puts putchar [PStrN] [AInt count; AStr buf] (take (Z.to_nat count) buf)).
  - rewrite Hx. ored. by exists x.
  - done.
  - cbn [output output_piece]. rewrite wrap_small, bool_decide_true by lia. cbn. by rewrite app_nil_r.
Qed.

Lemma descriptor_node s l fd d :
  session s l -> 2 < fd -> zlookup l fd = Some (Some d) ->
  fs_of (filesystems junk root_fs) d (files s) = Ret (Tmpfs.instantiate junk) /\ is_Some (nodes (files s) !! node d).
Proof.
  intros Hs Hfd Hd. destruct (ss_node _ _ Hs fd d Hd) as [_ Hn]. specialize (Hn Hfd).
  split; [|done]. apply fs_of_typed; [apply (ss_typed _ _ Hs)|done].
Qed.

(** The descriptor a call works on: none, with nothing done, or one in the table. *)
Lemma slot_cases s l fd :
  session s l -> 2 < fd ->
  bad_fd fd (task s) = true /\ descriptor fd (task s) = Ret None \/
  exists x, zlookup l fd = Some x /\ bad_fd fd (task s) = false /\ at_ (file_descriptors (task s)) fd = Ret x /\
    descriptor fd (task s) = Ret x.
Proof.
  intros Hs Hfd. pose proof (ss_fds _ _ Hs) as Hfds. rewrite (descriptor_spec _ l fd Hfds).
  destruct (zlookup l fd) as [x|] eqn:Hx.
  - right. exists x. destruct (not_bad_fd _ _ _ _ Hfds Hx) as [-> ->]. done.
  - left. split; [|done]. pose proof (holds_size _ _ (fds_holds _ _ Hfds)) as Hsz.
    unfold bad_fd, Vector.size. apply orb_true_iff. left. apply Z.leb_le.
    destruct (Z.le_gt_cases (Z.of_nat (length l)) fd) as [|Hlt]; [lia|].
    destruct (zlookup_is_Some l fd) as [x Hx']; [lia|]. congruence.
Qed.

Lemma read_total s l fd count :
  session s l -> 2 < fd -> 0 <= count -> at_cursor_ok l fd count (2 ^ 64 - 1) ->
  exists bs s' l', syscall_read (filesystems junk root_fs) fd count [] s = Ret (bs, [], s') /\ session s' l'.
Proof.
  intros Hs Hfd Hc Hcur. unfold syscall_read. destruct (slot_cases s l fd Hs Hfd) as [[-> _]|(x & Hx & -> & -> & _)].
  { by exists [], s, l. }
  rewrite (proj2 (Z.eqb_neq fd 0)) by lia. ored. destruct x as [d|]; [|by exists [], s, l].
  destruct (descriptor_node s l fd d Hs Hfd Hx) as [-> [n Hn]]. ored.
  destruct (ss_node _ _ Hs fd d Hx) as [Hd _]. specialize (Hcur d Hx).
  destruct (read_typed (files s) (node d) n count (cursor d) (ss_typed _ _ Hs) Hn Hc ltac:(lia) ltac:(lia)) as (v & bs & E).
  cbn [Vfs.read Tmpfs.instantiate]. rewrite E. ored.
  destruct (advance_spec (task s) l fd count d (ss_fds _ _ Hs) Hx) as (t & -> & Ecwd & Hfds). ored.
  eexists _, _, _. split; [done|]. refine (session_moved s l t fd d _ Hs Hx _ _ Hfds Ecwd); [done|].
  apply Z.mod_pos_bound. lia.
Qed.

Lemma pread_total s l fd count offset :
  session s l -> 2 < fd -> 0 <= count -> 0 <= offset -> offset + count < 2 ^ 64 ->
  exists bs, syscall_pread (filesystems junk root_fs) fd count offset s = Ret bs.
Proof.
  intros Hs Hfd Hc Ho Hov. unfold syscall_pread. destruct (slot_cases s l fd Hs Hfd) as [[_ ->]|(x & Hx & _ & _ & ->)]; ored; [by eexists|].
  destruct x as [d|]; [|by eexists]. destruct (descriptor_node s l fd d Hs Hfd Hx) as [-> [n Hn]]. ored.
  destruct (read_typed (files s) (node d) n count offset (ss_typed _ _ Hs) Hn Hc Ho Hov) as (v & bs & E).
  cbn [Vfs.read Tmpfs.instantiate]. rewrite E. ored. by eexists.
Qed.

Lemma write_total s l fd buf count :
  session s l -> 2 < fd -> 0 <= count <= Z.of_nat (length buf) -> at_cursor_ok l fd count limit ->
  exists s' l', syscall_write (filesystems junk root_fs) putchar fd buf count s = Ret s' /\ session s' l'.
Proof.
  intros Hs Hfd Hc Hcur. unfold syscall_write. destruct (slot_cases s l fd Hs Hfd) as [[-> _]|(x & Hx & -> & -> & _)].
  { by exists s, l. }
  rewrite (proj2 (Z.eqb_neq fd 1)) by lia. ored. destruct x as [d|]; [|by exists s, l].
  destruct (descriptor_node s l fd d Hs Hfd Hx) as [-> [n Hn]]. ored. rewrite user_bytes_spec by lia. ored.
  destruct (ss_node _ _ Hs fd d Hx) as [Hd _]. specialize (Hcur d Hx).
  destruct (write_typed (files s) (node d) n (take (Z.to_nat count) buf) (cursor d) (ss_typed _ _ Hs) Hn ltac:(lia)) as (st' & E & Hty & Hst).
  { rewrite length_take. lia. }
  cbn [Vfs.write Tmpfs.instantiate]. rewrite E. ored.
  destruct (advance_spec (task s) l fd count d (ss_fds _ _ Hs) Hx) as (t & -> & Ecwd & Hfds). ored.
  eexists _, _. split; [done|].
  refine (session_moved (mkSys st' (task s) (keyboard s) (screen s)) l t fd d _ (session_files s l st' Hs Hty Hst) Hx _ _ Hfds Ecwd); [done|].
  apply Z.mod_pos_bound. lia.
Qed.

Lemma pwrite_total s l fd buf count offset :
  session s l -> 2 < fd -> 0 <= count <= Z.of_nat (length buf) -> 0 <= offset -> offset + count <= limit ->
  exists s', syscall_pwrite (filesystems junk root_fs) fd buf count offset s = Ret s' /\ session s' l.
Proof.
  intros Hs Hfd Hc Ho Hov. unfold syscall_pwrite. destruct (slot_cases s l fd Hs Hfd) as [[_ ->]|(x & Hx & _ & _ & ->)]; ored; [by exists s|].
  destruct x as [d|]; [|by exists s]. destruct (descriptor_node s l fd d Hs Hfd Hx) as [-> [n Hn]]. ored.
  rewrite user_bytes_spec by lia. ored.
  destruct (write_typed (files s) (node d) n (take (Z.to_nat count) buf) offset (ss_typed _ _ Hs) Hn Ho) as (st' & E & Hty & Hst).
  { rewrite length_take. lia. }
  cbn [Vfs.write Tmpfs.instantiate]. rewrite E. ored. eexists. split; [done|]. by apply session_files.
Qed.

Lemma seek_total s l fd offset :
  session s l -> exists t l', syscall_seek fd offset (task s) = Ret t /\ session (with_task t s) l'.
Proof.
  intros Hs. unfold syscall_seek. rewrite (descriptor_spec _ l fd (ss_fds _ _ Hs)).
  destruct (zlookup l fd) as [[d|]|] eqn:Hx; cbn [default from_option id]; ored;
    [|exists (task s), l; split; [done|by apply session_same]..].
  destruct (set_fd_spec (task s) l fd d (mkFileDescriptor (node d) (u64 offset)) (ss_fds _ _ Hs) Hx) as (t & -> & Ecwd & Hfds).
  eexists _, _. split; [done|]. refine (session_moved s l t fd d _ Hs Hx _ _ Hfds Ecwd); [done|].
  apply Z.mod_pos_bound. lia.
Qed.

Lemma close_total s l fd :
  session s l -> exists t l', syscall_close fd (task s) = Ret t /\ session (with_task t s) l'.
Proof.
  intros Hs. destruct (zlookup l fd) as [[d|]|] eqn:Hx.
  - destruct (close_spec (task s) l fd d (ss_fds _ _ Hs) Hx) as (t & -> & Hfds & Ecwd & _). eexists _, _. split; [done|].
    apply (session_closed s l t fd Hs); [|exact Hfds|exact Ecwd]. pose proof (zlookup_Some_range _ _ _ Hx). lia.
  - unfold syscall_close. rewrite (descriptor_spec _ l fd (ss_fds _ _ Hs)), Hx. exists (task s), l. split; [done|by apply session_same].
  - unfold syscall_close. rewrite (descriptor_spec _ l fd (ss_fds _ _ Hs)), Hx. exists (task s), l. split; [done|by apply session_same].
Qed.

End Session.

(** ** A session in the small tree, the working directory being /bin *)
Definition node_typed st (x : Z * Node NodeData) : bool :=
  (fs x.2 =? 99) &&
  (if bool_decide (type x.2 = FILE) then bool_decide (is_Some (file_contents st x.1)) else true) &&
  ((parent x.2 =? 0) || (parent x.2 <? x.1) && bool_decide (is_Some (nodes st !! parent x.2))).

Lemma tree2_typed : typed 99 tree2.
Proof.
  destruct tree2_ok as (Hwf & Hroot & _). split; [done|done|]. intros p n Hn%elem_of_map_to_list.
  assert (forallb (node_typed tree2) (map_to_list (nodes tree2)) = true) as Hall by (vm_compute; reflexivity).
  rewrite forallb_forall in Hall. apply list_elem_of_In, Hall in Hn. unfold node_typed in Hn. cbn [fst snd] in Hn.
  apply andb_true_iff in Hn as [[Hfs Hfile]%andb_true_iff Hpar]. apply orb_true_iff in Hpar.
  split; [lia|]. split.
  - intros Ht. rewrite bool_decide_true in Hfile by done. by apply bool_decide_eq_true_1 in Hfile.
  - destruct Hpar as [Hp|[Hlt Hp]%andb_true_iff]; [left; lia|right]. split; [lia|by apply bool_decide_eq_true_1 in Hp].
Qed.

Lemma sys4_session : session 99 sys4 table4.
Proof.
  split; [exact tree2_typed|exact task4_ok| |].
  - intros fd d Hd. pose proof (zlookup_Some_range _ _ _ Hd) as Hr. change (Z.of_nat (length table4)) with 4 in Hr.
    assert (fd = 0 \/ fd = 1 \/ fd = 2 \/ fd = 3) as [->|[->|[->| ->]]] by lia; injection Hd as <-;
      (split; [done|]); [lia..|]. intros _. apply (bool_decide_eq_true_1 _). vm_compute. reflexivity.
  - exists (the_node tree2 4). split; [vm_compute; reflexivity|]. vm_compute. reflexivity.
Qed.

(** A heap with a megabyte for files, sizes rounded as BuddyAlloc rounds them. *)
Definition megabyte : Heap := fun size =>
  _ ← size_required (u64 (size + sizeof_Block)); Ret (size + sizeof_Block <=? 2 ^ 20).

Lemma megabyte_grants size : 0 <= size <= 2 ^ 20 - 16 -> megabyte size = Ret true.
Proof.
  intros Hs. unfold megabyte, sizeof_Block. rewrite wrap_small by lia. rewrite size_required_spec by lia. ored.
  by rewrite (proj2 (Z.leb_le _ _)) by lia.
Qed.

Abbreviation screen_log := (fun c s => Ret (s ++ [c])).


(** Writing behind 2^63 bytes has the allocator double 16 for ever, and writing
    more than the heap has goes through a null pointer. *)
Example pwrite_far_away :
  (do_call zero 99 (heap := megabyte) screen_log (Pwrite 3 [1] 1 (2 ^ 63)) sys4,
   do_call zero 99 (heap := megabyte) screen_log (Pwrite 3 [1] 1 (2 ^ 40)) sys4) = (Diverge, Fault).
Proof. vm_compute. reflexivity. Qed.

(** Its empty components are not found; without them the file is. *)
Example strange_paths :
  (match do_call zero 99 (fun c s => Ret (s ++ [c])) (Open (lit "..///bin/./sh/")) sys4 with Ret (v, _) => v | _ => Nothing end,
   match do_call zero 99 (fun c s => Ret (s ++ [c])) (Open (lit "../bin/./sh/")) sys4 with Ret (v, _) => v | _ => Nothing end)
  = (Value (- ENOENT), Value 4).
Proof. vm_compute. reflexivity. Qed.
