(* ===== verification/Paging.v ===== *)
(** * mem/vmm.cpp: page tables, mapped ranges, page faults, mmap

    [mem] is the memory the higher-half window shows: the 512 words of a page by
    the address the window gives it.  Page tables are read and written there, as
    the source does through pointers.  Physical pages come from an allocator
    known by the interface [PageAllocator]; file Pmm's allocator is an
    instance.  The [MappedRange] objects are linked by the list of file List;
    [range_list] is their first member, so a range and its list head have one
    address.  [flushed] lists the addresses given to [invlpg].  Locks and log
    lines are left out. *)
From S2P Require Import Prelude Algorithm Bitmap Pmm List.

(** ** What paging asks of the physical allocator *)
Class PageAllocator (A : Type) := {
  alloc_page : A -> outcome (Z * A);
  good : A -> Prop;
  owned : A -> Z -> Prop;
  alloc_page_fresh : forall a p a',
    good a -> alloc_page a = Ret (p, a') ->
    good a' /\ 0 < p < 2 ^ 46 /\ p mod 0x1000 = 0 /\ ~ owned a p /\ owned a' p /\
    forall q, owned a q -> owned a' q
}.

Definition PAGE_PRESENT : Z := Z.shiftl 1 0.
Definition PAGE_WRITABLE : Z := Z.shiftl 1 1.
Definition PAGE_USER : Z := Z.shiftl 1 2.
Definition PAGE_CACHE_DISABLE : Z := Z.shiftl 1 4.
Definition PAGE_ATTRIBUTE_TABLE : Z := Z.shiftl 1 7.
Definition PAGE_WRITE_COMBINING : Z := Z.lor PAGE_ATTRIBUTE_TABLE PAGE_CACHE_DISABLE.
Definition PAGE_NO_EXECUTE : Z := Z.shiftl 1 63.
Definition LIMINE_MEMMAP_BOOTLOADER_RECLAIMABLE : Z := 5.
Definition LIMINE_MEMMAP_KERNEL_AND_MODULES : Z := 6.
Definition LIMINE_MEMMAP_FRAMEBUFFER : Z := 7.
Definition PROT_WRITE : Z := 2.
Definition PROT_EXEC : Z := 4.
Definition MAP_PRIVATE : Z := 1.
Definition MAP_SHARED : Z := 2.
Definition MAP_ANONYMOUS : Z := 8.
Definition ENOSYS : Z := 1051.

(** The address bits of an entry. *)
Definition ADDR : Z := 0x000FFFFFFFFFF000.

(** A page cleared by [memset]. *)
Definition zero_page : list Z := replicate 512 0.
Arguments zero_page : simpl never.

Lemma zlookup_zero_page i x : zlookup zero_page i = Some x -> x = 0.
Proof. intros H. by apply zlookup_elem_of, elem_of_replicate in H as [-> _]. Qed.

Inductive range_type := DIRECT | ANONYMOUS.

Record MappedRange := mkMappedRange {
  range_base : Z; range_length : Z; page_flags : Z; range_kind : range_type }.

Record Pagemap := mkPagemap { pml4 : Z; range_list_head : Z }.

Section Paging.
Context {A : Type} `{PageAllocator A}.
Context (hhdm : Z).

Record vm := mkVm {
  mem : gmap Z (list Z);
  frames : A;
  heads : gmap Z ListHead;
  ranges : gmap Z MappedRange;
  flushed : list Z
}.

Definition set_mem (m : gmap Z (list Z)) (s : vm) : vm :=
  mkVm m (frames s) (heads s) (ranges s) (flushed s).
Definition set_frames (a : A) (s : vm) : vm :=
  mkVm (mem s) a (heads s) (ranges s) (flushed s).

(** [table[index]], read and written *)
Definition read_entry (table index : Z) (s : vm) : outcome Z :=
  t ← of_option (mem s !! table); of_option (zlookup t index).
Definition write_entry (table index e : Z) (s : vm) : outcome vm :=
  t ← of_option (mem s !! table);
  _ ← of_option (zlookup t index);
  Ret (set_mem (<[table := zinsert index e t]> (mem s)) s).

(** [pmm::alloc_pages(1)] and the [memset] that clears the page *)
Definition new_page (s : vm) : outcome (Z * vm) :=
  '(p, a) ← alloc_page (frames s);
  Ret (p, set_mem (<[u64 (p + hhdm) := zero_page]> (mem s)) (set_frames a s)).

Definition present (e : Z) : bool := negb (Z.land e PAGE_PRESENT =? 0).

Definition page_table_next_level (current_table index : Z) (s : vm) : outcome (Z * vm) :=
  current_entry ← read_entry current_table index s;
  if present current_entry then Ret (u64 (Z.land current_entry ADDR + hhdm), s)
  else
    '(p, s) ← new_page s;
    s ← write_entry current_table index
          (Z.lor (Z.lor (Z.lor p PAGE_PRESENT) PAGE_WRITABLE) PAGE_USER) s;
    Ret (u64 (p + hhdm), s).

Definition index4 (virt : Z) : Z := Z.land (Z.shiftr virt 39) 0x1FF.
Definition index3 (virt : Z) : Z := Z.land (Z.shiftr virt 30) 0x1FF.
Definition index2 (virt : Z) : Z := Z.land (Z.shiftr virt 21) 0x1FF.
Definition index1 (virt : Z) : Z := Z.land (Z.shiftr virt 12) 0x1FF.

(** The three levels above the last, making the tables that are missing. *)
Definition descend (pm : Pagemap) (virt : Z) (s : vm) : outcome (Z * vm) :=
  '(t, s) ← page_table_next_level (pml4 pm) (index4 virt) s;
  '(t, s) ← page_table_next_level t (index3 virt) s;
  page_table_next_level t (index2 virt) s.

Definition map_page (pm : Pagemap) (phy virt flags : Z) (s : vm) : outcome vm :=
  '(t, s) ← descend pm virt s;
  old ← read_entry t (index1 virt) s;
  s ← write_entry t (index1 virt) (Z.lor (Z.land phy ADDR) flags) s;
  Ret (if negb (old =? 0) then mkVm (mem s) (frames s) (heads s) (ranges s) (virt :: flushed s) else s).

Definition map_pages (pm : Pagemap) (phy virt size flags : Z) (s : vm) : outcome vm :=
  for_range (Z.to_nat (align_up 0x1000 size / 0x1000)) 0
    (fun i s => map_page pm (u64 (phy + i * 0x1000)) (u64 (virt + i * 0x1000)) flags s) s.

(** [kernel] is [get_kernel_pagemap()]. *)
Definition map_kernel (kernel pm : Pagemap) (s : vm) : outcome vm :=
  for_range 256 256
    (fun i s => e ← read_entry (pml4 kernel) i s; write_entry (pml4 pm) i e s) s.

(** The value [activate] writes to CR3. *)
Definition activate (pm : Pagemap) : Z := u64 (pml4 pm - hhdm).

Definition physical_addr (pm : Pagemap) (virt : Z) (s : vm) : outcome (Z * vm) :=
  '(t, s) ← descend pm virt s;
  e ← read_entry t (index1 virt) s;
  Ret (Z.land e ADDR, s).

(** The range the walk of the list stops at, by its address.  A list that does
    not come back to its head would never end. *)
Fixpoint range_loop (fuel : nat) (head current virt : Z) (s : vm) : outcome (option Z) :=
  match fuel with
  | O => Diverge
  | S fuel =>
      n ← get_next current (heads s);
      if n =? head then Ret None
      else
        r ← of_option (ranges s !! n);
        if (range_base r <=? virt) && (virt <=? u64 (range_base r + range_length r)) then Ret (Some n)
        else range_loop fuel head n virt s
  end.
Definition addr_to_range (pm : Pagemap) (virt : Z) (s : vm) : outcome (option Z) :=
  range_loop (S (base.size (heads s))) (range_list_head pm) (range_list_head pm) virt s.

(** [true]: the fault could not be handled. *)
Definition handle_page_fault (pm : Pagemap) (virt : Z) (s : vm) : outcome (bool * vm) :=
  '(t, s) ← descend pm virt s;
  e ← read_entry t (index1 virt) s;
  if negb (present e) then
    r ← addr_to_range pm virt s;
    match r with
    | None => Ret (true, s)
    | Some p =>
        range ← of_option (ranges s !! p);
        match range_kind range with
        | ANONYMOUS =>
            '(p, s) ← new_page s;
            s ← write_entry t (index1 virt) (Z.lor p (page_flags range)) s;
            Ret (false, s)
        | DIRECT =>
            s ← write_entry t (index1 virt) (Z.lor (Z.land (u64 (virt - hhdm)) ADDR) (page_flags range)) s;
            Ret (false, s)
        end
    end
  else Ret (true, s).

(** [syscall_mmap] on the task's page map and bump pointer; [range] is the
    address [new] gives the range object. *)
Definition mmap_flags (prot : Z) : Z :=
  let f := Z.lor PAGE_PRESENT PAGE_USER in
  let f := if negb (Z.land prot PROT_WRITE =? 0) then Z.lor f PAGE_WRITABLE else f in
  if Z.land prot PROT_EXEC =? 0 then Z.lor f PAGE_NO_EXECUTE else f.

Definition syscall_mmap (range : Z) (pm : Pagemap) (mmap_anon_base : Z) (len prot flags : Z) (s : vm) :
    outcome (Z * Z * vm) :=
  if (Z.land flags MAP_PRIVATE =? 0) || negb (Z.land flags MAP_SHARED =? 0)
     || (Z.land flags MAP_ANONYMOUS =? 0)
  then Ret (- ENOSYS, mmap_anon_base, s)
  else
    let aligned_size := align_up 0x1000 len in
    h ← List.add (range_list_head pm) range (<[range := mkListHead 0 0]> (heads s));
    Ret (mmap_anon_base, u64 (mmap_anon_base + aligned_size),
         mkVm (mem s) (frames s) h
           (<[range := mkMappedRange mmap_anon_base aligned_size (mmap_flags prot) ANONYMOUS]> (ranges s))
           (flushed s)).


(** ** init *)

Definition heap_size : Z := 1024 * 1024 * 1024.
Definition heap_begin : Z := u64 (2 ^ 64 - 1 - heap_size - 0x1000).

Definition entry_flags (e : limine_memmap_entry) : Z :=
  let flags := Z.lor (Z.lor PAGE_PRESENT PAGE_WRITABLE) PAGE_NO_EXECUTE in
  if Pmm.type e =? LIMINE_MEMMAP_BOOTLOADER_RECLAIMABLE then Z.ldiff flags PAGE_NO_EXECUTE
  else if Pmm.type e =? LIMINE_MEMMAP_FRAMEBUFFER then Z.lor flags PAGE_WRITE_COMBINING else flags.

Definition in_window (e : limine_memmap_entry) : bool :=
  (Pmm.type e =? LIMINE_MEMMAP_BOOTLOADER_RECLAIMABLE) || (Pmm.type e =? LIMINE_MEMMAP_FRAMEBUFFER)
  || (Pmm.type e =? LIMINE_MEMMAP_USABLE).

(** The loop over the memory map; the last component is [kernel_size]. *)
Fixpoint init_entries (pm : Pagemap) (es : list limine_memmap_entry) (s : vm) (kernel_size : Z) :
    outcome (vm * Z) :=
  match es with
  | [] => Ret (s, kernel_size)
  | e :: es =>
      let kernel_size :=
        if Pmm.type e =? LIMINE_MEMMAP_KERNEL_AND_MODULES then u64 (kernel_size + len e) else kernel_size in
      s ← (if in_window e
           then map_pages pm (Pmm.base e) (u64 (Pmm.base e + hhdm)) (len e) (entry_flags e) s else Ret s);
      init_entries pm es s kernel_size
  end.

(** [range_list_head.add(&range.range_list)] of a static range at address [p] *)
Definition add_range (pm : Pagemap) (p : Z) (r : MappedRange) (s : vm) : outcome vm :=
  h ← List.add (range_list_head pm) p (<[p := mkListHead 0 0]> (heads s));
  Ret (mkVm (mem s) (frames s) h (<[p := r]> (ranges s)) (flushed s)).

(** [head], [hhdm_range] and [heap_range] are the addresses of the static list
    head and ranges.  The kernel's page map, the state, and the CR3 written. *)
Definition init (head hhdm_range heap_range : Z) (es : list limine_memmap_entry)
    (kernel_phy_base kernel_virt_base : Z) (s : vm) : outcome (Pagemap * vm * Z) :=
  '(p, s) ← new_page s;
  let pm := mkPagemap (u64 (p + hhdm)) head in
  '(s, kernel_size) ← init_entries pm es s 0;
  s ← map_pages pm kernel_phy_base kernel_virt_base kernel_size (Z.lor PAGE_PRESENT PAGE_WRITABLE) s;
  h ← List.init head (<[head := mkListHead 0 0]> (heads s));
  let s := mkVm (mem s) (frames s) h (ranges s) (flushed s) in
  s ← add_range pm hhdm_range
        (mkMappedRange hhdm (1024 * 1024 * 1024 * 1024) (Z.lor PAGE_PRESENT PAGE_WRITABLE) DIRECT) s;
  s ← add_range pm heap_range
        (mkMappedRange heap_begin heap_size
           (Z.lor (Z.lor PAGE_PRESENT PAGE_WRITABLE) PAGE_NO_EXECUTE) ANONYMOUS) s;
  Ret (pm, s, activate pm).

(** ** What the tables mean to the processor *)

Definition next (e : Z) : Z := u64 (Z.land e ADDR + hhdm).

Definition step (m : gmap Z (list Z)) (t i : Z) : option Z :=
  tb ← m !! t; e ← zlookup tb i; if present e then Some (next e) else None.

(** The table a path of indices leads to. *)
Fixpoint tab (m : gmap Z (list Z)) (t : Z) (path : list Z) : option Z :=
  match path with
  | [] => Some t
  | i :: path => t ← step m t i; tab m t path
  end.

Definition indices (virt : Z) : list Z := [index4 virt; index3 virt; index2 virt].
Arguments indices : simpl never.

(** The leaf entry that translates an address, when it is present. *)
Definition translate (m : gmap Z (list Z)) (root virt : Z) : option Z :=
  t ← tab m root (indices virt);
  tb ← m !! t;
  e ← zlookup tb (index1 virt);
  if present e then Some e else None.

(** [n] pages can still be had. *)
Fixpoint supply (n : nat) (a : A) : Prop :=
  match n with
  | O => True
  | S n => exists p a', alloc_page a = Ret (p, a') /\ supply n a'
  end.

Context (hhdm_range : 0 <= hhdm <= 2 ^ 64 - 2 ^ 46).

(** Every table reached is a page of its own, reached by one path. *)
Record inv (s : vm) (root : Z) : Prop := {
  inv_good : good (frames s);
  inv_table : forall p t, (List.length p <= 3)%nat -> tab (mem s) root p = Some t ->
    exists tb phys, mem s !! t = Some tb /\ List.length tb = 512%nat /\
      t = phys + hhdm /\ owned (frames s) phys;
  inv_path : forall p q t, (List.length p <= 3)%nat -> (List.length q <= 3)%nat ->
    tab (mem s) root p = Some t -> tab (mem s) root q = Some t -> p = q
}.

(** A frame that was handed out and serves as no table. *)
Definition data (s : vm) (root x : Z) : Prop :=
  (exists q, x = q + hhdm /\ owned (frames s) q) /\
  forall p, (List.length p <= 3)%nat -> tab (mem s) root p <> Some x.

(** Tables may be added; translations and the contents of the frames that are
    no tables stay. *)
Record extends (root : Z) (s s' : vm) : Prop := {
  ext_inv : inv s' root;
  ext_tab : forall q x, (List.length q <= 3)%nat -> tab (mem s) root q = Some x -> tab (mem s') root q = Some x;
  ext_translate : forall v, translate (mem s') root v = translate (mem s) root v;
  ext_owned : forall q, owned (frames s) q -> owned (frames s') q;
  ext_data : forall x, data s root x -> data s' root x /\ mem s' !! x = mem s !! x;
  ext_rest : heads s' = heads s /\ ranges s' = ranges s /\ flushed s' = flushed s
}.

Implicit Types (s : vm) (root t virt : Z).

Lemma extends_refl root s : inv s root -> extends root s s.
Proof. by split. Qed.

Lemma extends_trans root s1 s2 s3 : extends root s1 s2 -> extends root s2 s3 -> extends root s1 s3.
Proof.
  intros [_ Ht1 Htr1 Ho1 Hd1 (?&?&?)] [Hi Ht2 Htr2 Ho2 Hd2 (?&?&?)].
  split; [done|auto|intros v; by rewrite Htr2|auto| |split_and!; congruence].
  intros x [Hx E1]%Hd1. apply Hd2 in Hx as [Hx E2]. by rewrite E2.
Qed.

Lemma tab_snoc m t path i : tab m t (path ++ [i]) = (x ← tab m t path; step m x i).
Proof.
  revert t. induction path as [|j path IH]; intros t; cbn.
  - by destruct (step m t i).
  - destruct (step m t j); cbn; [apply IH|done].
Qed.

Lemma supply_weaken n a : supply (S n) a -> supply n a.
Proof.
  revert a. induction n as [|n IH]; intros a; [done|]. intros (p & a' & E & Hs).
  exists p, a'. split; [done|]. by apply IH.
Qed.

(** ** Bits of an entry *)
Lemma ADDR_testbit i : 0 <= i -> Z.testbit ADDR i = (12 <=? i) && (i <? 52).
Proof.
  intros Hi. change ADDR with (Z.shiftl (Z.ones 40) 12). rewrite Z.shiftl_spec by done.
  destruct (Z.leb_spec 12 i); cbn; [|by rewrite Z.testbit_neg_r by lia].
  rewrite Z.testbit_ones_nonneg by lia. destruct (Z.ltb_spec i 52), (Z.ltb_spec (i - 12) 40); lia.
Qed.

Lemma aligned_testbit p i : 0 <= p < 2 ^ 52 -> p mod 0x1000 = 0 -> 0 <= i ->
  Z.testbit p i = true -> 12 <= i < 52.
Proof.
  intros Hp Hm Hi Hb. split.
  - destruct (Z.le_gt_cases 12 i) as [|Hlt]; [done|]. exfalso.
    rewrite <- (Z.mod_pow2_bits_low p 12) in Hb by lia. change (2 ^ 12) with 0x1000 in Hb.
    by rewrite Hm, Z.bits_0 in Hb.
  - destruct (Z.lt_ge_cases i 52) as [|Hge]; [done|]. exfalso.
    rewrite <- (Z.mod_small p (2 ^ 52)) in Hb by lia. by rewrite Z.mod_pow2_bits_high in Hb by lia.
Qed.

Lemma land_ADDR p f : 0 <= p < 2 ^ 52 -> p mod 0x1000 = 0 -> Z.land f ADDR = 0 ->
  Z.land (Z.lor p f) ADDR = p.
Proof.
  intros Hp Hm Hf. rewrite Z.land_lor_distr_l, Hf, Z.lor_0_r. apply Z.bits_inj'. intros i Hi.
  rewrite Z.land_spec, ADDR_testbit by done. destruct (Z.testbit p i) eqn:E; [|done].
  apply (aligned_testbit p i) in E as [? ?]; [|done..]. cbn.
  rewrite (proj2 (Z.leb_le _ _)), (proj2 (Z.ltb_lt _ _)) by lia. done.
Qed.

Lemma present_lor p f : present (Z.lor p f) = present p || present f.
Proof.
  unfold present. rewrite Z.land_lor_distr_l. rewrite <- negb_andb. f_equal.
  apply eq_true_iff_eq. rewrite andb_true_iff, !Z.eqb_eq. apply Z.lor_eq_0_iff.
Qed.

Lemma present_aligned p : 0 <= p < 2 ^ 52 -> p mod 0x1000 = 0 -> present p = false.
Proof.
  intros Hp Hm. unfold present. assert (Z.land p PAGE_PRESENT = 0) as ->; [|done].
  apply Z.bits_inj'. intros i Hi. rewrite Z.land_spec, Z.bits_0.
  destruct (Z.testbit p i) eqn:E; [|done]. apply (aligned_testbit p i) in E as [? ?]; [|done..].
  change PAGE_PRESENT with (Z.shiftl 1 0). rewrite Z.shiftl_spec by done. cbn.
  change 1 with (2 ^ 0). rewrite Z.pow2_bits_eqb by lia. apply Z.eqb_neq. lia.
Qed.

(** ** Making a table *)
Lemma read_entry_spec s t i tb :
  mem s !! t = Some tb -> List.length tb = 512%nat -> 0 <= i < 512 ->
  exists e, read_entry t i s = Ret e /\ zlookup tb i = Some e.
Proof.
  intros Ht Hl Hi. unfold read_entry. rewrite Ht. ored.
  destruct (zlookup_is_Some tb i) as [e He]; [lia|]. exists e. by rewrite He.
Qed.

Lemma write_entry_spec s t i e tb :
  mem s !! t = Some tb -> List.length tb = 512%nat -> 0 <= i < 512 ->
  write_entry t i e s = Ret (set_mem (<[t := zinsert i e tb]> (mem s)) s).
Proof.
  intros Ht Hl Hi. unfold write_entry. rewrite Ht. ored.
  destruct (zlookup_is_Some tb i) as [x ->]; [lia|]. done.
Qed.

Lemma step_eq m m' t i : m' !! t = m !! t -> step m' t i = step m t i.
Proof. intros E. unfold step. by rewrite E. Qed.

(** After a missing table is made at [path ++ [i]], the tables are those there
    were and that one. *)
Lemma tab_new s root path t i tb e t' m' :
  inv s root -> (List.length path <= 2)%nat -> tab (mem s) root path = Some t ->
  mem s !! t = Some tb -> step (mem s) t i = None -> 0 <= i < 512 -> List.length tb = 512%nat ->
  (forall p x, (List.length p <= 3)%nat -> tab (mem s) root p = Some x -> x <> t') ->
  m' = <[t := zinsert i e tb]> (<[t' := zero_page]> (mem s)) ->
  present e = true -> next e = t' ->
  forall q, (List.length q <= 3)%nat ->
    tab m' root q = if decide (q = path ++ [i]) then Some t' else tab (mem s) root q.
Proof.
  intros Hinv Hlen Ht Htb Hnone Hi Hl Hfresh -> He Hnext q. induction q as [|j q IH] using rev_ind; intros Hq.
  - rewrite decide_False; [done|]. by destruct path.
  - rewrite length_app in Hq. cbn in Hq. rewrite tab_snoc, IH by lia.
    assert (t <> t') as Htt' by (by apply (Hfresh path t); [lia|]).
    destruct (decide (q = path ++ [i])) as [->|Hqi].
    + cbn. rewrite decide_False.
      * rewrite !tab_snoc, Ht. cbn. rewrite Hnone. cbn. unfold step.
        rewrite lookup_insert_ne, lookup_insert_eq by done. cbn.
        destruct (zlookup _ j) as [x|] eqn:Hx; [|done]. cbn.
        by apply zlookup_zero_page in Hx as ->.
      * intros E%(f_equal List.length). rewrite !length_app in E. cbn in E. lia.
    + rewrite (tab_snoc (mem s)). destruct (tab (mem s) root q) as [x|] eqn:Hx; cbn.
      2: { rewrite decide_False; [done|]. intros [-> _]%app_inj_tail. congruence. }
      assert (x <> t') as Hxt' by (by apply (Hfresh q x); [lia|]).
      destruct (decide (x = t)) as [->|Hxt].
      * assert (q = path) as -> by (by apply (inv_path s root Hinv q path t); [lia|lia|..]).
        destruct (decide (j = i)) as [->|Hji].
        -- rewrite decide_True by done. unfold step. rewrite lookup_insert_eq. cbn.
           rewrite zlookup_zinsert_eq by lia. cbn. by rewrite He, Hnext.
        -- rewrite decide_False by (intros [_ [=]]%app_inj_tail; done). unfold step.
           rewrite lookup_insert_eq, Htb. cbn. by rewrite zlookup_zinsert_ne by (lia || done).
      * rewrite decide_False by (intros [-> _]%app_inj_tail; congruence).
        apply step_eq. by rewrite !lookup_insert_ne.
Qed.

Lemma fresh_table s root p a' :
  inv s root -> alloc_page (frames s) = Ret (p, a') ->
  forall q x, (List.length q <= 3)%nat -> tab (mem s) root q = Some x -> x <> p + hhdm.
Proof.
  intros Hinv Ha q x Hq Hx E. destruct (inv_table s root Hinv q x Hq Hx) as (_ & phys & _ & _ & Ep & Ho).
  destruct (alloc_page_fresh (frames s) p a' (inv_good s root Hinv) Ha) as (_ & _ & _ & Hno & _).
  assert (phys = p) as -> by lia. done.
Qed.

Lemma extends_new_table s root path t i tb e p a' m' :
  inv s root -> (List.length path <= 2)%nat -> tab (mem s) root path = Some t ->
  mem s !! t = Some tb -> step (mem s) t i = None -> 0 <= i < 512 -> List.length tb = 512%nat ->
  alloc_page (frames s) = Ret (p, a') ->
  m' = <[t := zinsert i e tb]> (<[p + hhdm := zero_page]> (mem s)) ->
  present e = true -> next e = p + hhdm ->
  extends root s (set_mem m' (set_frames a' s)) /\ tab m' root (path ++ [i]) = Some (p + hhdm).
Proof.
  intros Hinv Hlen Ht Htb Hnone Hi Hl Ha Hm He Hnext.
  pose proof (fresh_table s root p a' Hinv Ha) as Hfresh.
  pose proof (tab_new s root path t i tb e (p + hhdm) m' Hinv Hlen Ht Htb Hnone Hi Hl Hfresh Hm He Hnext) as Htab.
  destruct (alloc_page_fresh (frames s) p a' (inv_good s root Hinv) Ha) as (Hg & Hp & Hpm & Hno & Hown & Hmono).
  assert (t <> p + hhdm) as Htt' by (by apply (Hfresh path t); [lia|]).
  assert (forall q x, (List.length q <= 3)%nat -> tab (mem s) root q = Some x -> q <> path ++ [i]) as Hold.
  { intros q x Hq Hx ->. rewrite tab_snoc, Ht in Hx. cbn in Hx. congruence. }
  assert (forall x, x <> t -> x <> p + hhdm -> m' !! x = mem s !! x) as Hother.
  { intros x H1 H2. rewrite Hm. by rewrite !lookup_insert_ne. }
  split; [|rewrite Htab, decide_True by (rewrite ?length_app; cbn; done || lia); done].
  split; cbn [mem frames set_mem set_frames heads ranges flushed].
  - split; cbn [mem frames set_mem set_frames]; [done|..].
    + intros q x Hq Hx. rewrite Htab in Hx by done. case_decide as E.
      * injection Hx as <-. exists zero_page, p. split; [|done].
        rewrite Hm, lookup_insert_ne by done. apply lookup_insert_eq.
      * destruct (inv_table s root Hinv q x Hq Hx) as (tb' & phys & Hmx & Hlx & Ex & Ho).
        destruct (decide (x = t)) as [->|Hxt].
        -- exists (zinsert i e tb), phys. rewrite Hm, lookup_insert_eq. split; [done|].
           rewrite length_zinsert. split; [done|]. split; [done|by apply Hmono].
        -- exists tb', phys. rewrite Hother by (done || by eapply Hfresh). split_and!; try done. by apply Hmono.
    + intros q1 q2 x H1 H2 Hx1 Hx2. rewrite Htab in Hx1, Hx2 by done.
      case_decide as E1; case_decide as E2; [congruence| | |by eapply (inv_path s root Hinv)].
      * exfalso. assert (x = p + hhdm) as -> by congruence. by eapply (Hfresh q1 (p + hhdm)).
      * exfalso. assert (x = p + hhdm) as -> by congruence. by eapply (Hfresh q2 (p + hhdm)).
  - intros q x Hq Hx. rewrite Htab by done. rewrite decide_False; [done|by eapply Hold].
  - intros v. unfold translate. rewrite Htab by done. case_decide as E.
    + cbn. rewrite Hm, lookup_insert_ne, lookup_insert_eq by done. cbn.
      rewrite E, tab_snoc, Ht. cbn. rewrite Hnone. cbn.
      destruct (zlookup zero_page (index1 v)) as [x|] eqn:Hx; [|done]. by apply zlookup_zero_page in Hx as ->.
    + destruct (tab (mem s) root (indices v)) as [x|] eqn:Hx; [|done]. cbn. rewrite Hother; [done| |].
      * intros ->. assert (indices v = path) as <- by (by apply (inv_path s root Hinv _ _ t); [|lia|..]).
        unfold indices in Hlen. cbn in Hlen. lia.
      * by eapply (Hfresh (indices v)).
  - done.
  - intros x [(q & Eq & Hq) Hno']. assert (x <> p + hhdm) as Hxp.
    { intros E. assert (q = p) as -> by lia. done. }
    split; [|apply Hother; [intros ->; by apply (Hno' path); [lia|]|done]].
    split; cbn [mem frames set_mem set_frames]; [exists q; auto|].
    intros q' Hq'. rewrite Htab by done. case_decide; [congruence|by apply Hno'].
  - done.
Qed.

(** One level down, a missing table is made. *)
Lemma next_level_spec s root path t i n :
  inv s root -> tab (mem s) root path = Some t -> (List.length path <= 2)%nat -> 0 <= i < 512 ->
  supply (S n) (frames s) ->
  exists t' s', page_table_next_level t i s = Ret (t', s') /\ extends root s s' /\
    tab (mem s') root (path ++ [i]) = Some t' /\ supply n (frames s').
Proof.
  intros Hinv Ht Hlen Hi Hsup. unfold page_table_next_level.
  destruct (inv_table s root Hinv path t ltac:(lia) Ht) as (tb & phys & Htb & Hl & _ & _).
  destruct (read_entry_spec s t i tb Htb Hl Hi) as (e & -> & He). ored.
  destruct (present e) eqn:Hpres.
  - eexists _, s. split; [done|]. split; [by apply extends_refl|]. split; [|by apply supply_weaken].
    rewrite tab_snoc, Ht. cbn. unfold step. rewrite Htb. cbn. rewrite He. cbn. by rewrite Hpres.
  - destruct Hsup as (p & a' & Ha & Hsup). unfold new_page. rewrite Ha. ored.
    destruct (alloc_page_fresh (frames s) p a' (inv_good s root Hinv) Ha) as (_ & Hp & Hpm & _).
    assert (t <> p + hhdm) as Htt' by (apply (fresh_table s root p a' Hinv Ha path t); [lia|done]).
    rewrite !(wrap_small 64 (p + hhdm)) by lia.
    rewrite (write_entry_spec _ t i _ tb); [|cbn; by rewrite lookup_insert_ne|done|done]. ored.
    set (e' := Z.lor (Z.lor (Z.lor p PAGE_PRESENT) PAGE_WRITABLE) PAGE_USER).
    assert (e' = Z.lor p 7) as He' by (subst e'; by rewrite <- !Z.lor_assoc).
    destruct (extends_new_table s root path t i tb e' p a' (<[t := zinsert i e' tb]> (<[p + hhdm := zero_page]> (mem s)))
      Hinv Hlen Ht Htb) as [Hext Htab]; try done.
    + unfold step. rewrite Htb. cbn. rewrite He. cbn. by rewrite Hpres.
    + rewrite He', present_lor. by rewrite orb_true_r.
    + unfold next. rewrite He', land_ADDR by (done || lia). by rewrite wrap_small by lia.
    + eexists _, _. split; [done|]. split; [exact Hext|]. split; [exact Htab|done].
Qed.

Lemma index_range v k : 0 <= Z.land (Z.shiftr v k) 0x1FF < 512.
Proof. change 0x1FF with (Z.ones 9). rewrite Z.land_ones by lia. by apply Z.mod_pos_bound. Qed.

Lemma descend_spec s pm virt n :
  inv s (pml4 pm) -> supply (3 + n) (frames s) ->
  exists t s', descend pm virt s = Ret (t, s') /\ extends (pml4 pm) s s' /\
    tab (mem s') (pml4 pm) (indices virt) = Some t /\ supply n (frames s').
Proof.
  intros Hinv Hsup. unfold descend.
  destruct (next_level_spec s (pml4 pm) [] (pml4 pm) (index4 virt) (2 + n)) as (t1 & s1 & -> & E1 & T1 & S1);
    [done|done|cbn; lia|apply index_range|done|]. ored.
  destruct (next_level_spec s1 (pml4 pm) [index4 virt] t1 (index3 virt) (1 + n)) as (t2 & s2 & -> & E2 & T2 & S2);
    [apply E1|done|cbn; lia|apply index_range|done|]. ored.
  destruct (next_level_spec s2 (pml4 pm) [index4 virt; index3 virt] t2 (index2 virt) n) as (t3 & s3 & -> & E3 & T3 & S3);
    [apply E2|done|cbn; lia|apply index_range|done|].
  exists t3, s3. split; [done|]. split; [eapply extends_trans; [eapply extends_trans|]; done|]. done.
Qed.

(** ** Pages *)

(** The page of an address, in the 48 bits the tables look at. *)
Definition page (v : Z) : Z := v / 2 ^ 12 mod 2 ^ 36.

Lemma index_arith v k : 12 <= k -> Z.land (Z.shiftr v k) 0x1FF = v / 2 ^ 12 / 2 ^ (k - 12) mod 512.
Proof.
  intros Hk. change 0x1FF with (Z.ones 9). rewrite Z.land_ones, Z.shiftr_div_pow2 by lia.
  change (2 ^ 9) with 512. rewrite Z.div_div by (try apply Z.pow_pos_nonneg; try apply Z.pow_nonzero; lia).
  rewrite <- Z.pow_add_r by lia. by replace (12 + (k - 12)) with k by lia.
Qed.

Lemma page_digits v :
  page v = index1 v + 512 * (index2 v + 512 * (index3 v + 512 * index4 v)).
Proof.
  unfold page, index1, index2, index3, index4. rewrite !index_arith by lia.
  set (y := v / 2 ^ 12). change (12 - 12) with 0. change (21 - 12) with 9.
  change (30 - 12) with 18. change (39 - 12) with 27. rewrite Z.pow_0_r, Z.div_1_r.
  change (2 ^ 36) with (512 * (512 * (512 * 512))). rewrite !Z.rem_mul_r by lia.
  rewrite !Z.div_div by lia. done.
Qed.

Lemma page_eq v w : page v = page w <-> indices v = indices w /\ index1 v = index1 w.
Proof.
  rewrite !page_digits. unfold indices.
  pose proof (index_range v 39). pose proof (index_range v 30). pose proof (index_range v 21). pose proof (index_range v 12).
  pose proof (index_range w 39). pose proof (index_range w 30). pose proof (index_range w 21). pose proof (index_range w 12).
  fold (index4 v) (index3 v) (index2 v) (index1 v) (index4 w) (index3 w) (index2 w) (index1 w) in *.
  split.
  - intros E. assert (index4 v = index4 w /\ index3 v = index3 w /\ index2 v = index2 w /\ index1 v = index1 w)
      as (-> & -> & -> & ->) by lia. done.
  - intros [[= -> -> ->] ->]. done.
Qed.

Lemma translate_page m root v w : page v = page w -> translate m root v = translate m root w.
Proof. intros [E1 E2]%page_eq. unfold translate. by rewrite E1, E2. Qed.

Definition visible (e : Z) : option Z := if present e then Some e else None.

(** Writing the last entry changes the translation of one page. *)
Lemma write_leaf_spec s root virt t e :
  inv s root -> tab (mem s) root (indices virt) = Some t ->
  exists s', write_entry t (index1 virt) e s = Ret s' /\ inv s' root /\
    (forall v, translate (mem s') root v = if decide (page v = page virt) then visible e else translate (mem s) root v) /\
    heads s' = heads s /\ ranges s' = ranges s /\ flushed s' = flushed s /\ frames s' = frames s /\
    (forall x, x <> t -> mem s' !! x = mem s !! x) /\
    (forall q, (List.length q <= 3)%nat -> tab (mem s') root q = tab (mem s) root q).
Proof.
  intros Hinv Ht. assert (List.length (indices virt) <= 3)%nat as Hlen by (unfold indices; cbn; lia).
  destruct (inv_table s root Hinv _ t Hlen Ht) as (tb & phys & Htb & Hl & Ephys & Hown).
  pose proof (index_range virt 12) as Hi. fold (index1 virt) in Hi.
  rewrite (write_entry_spec s t _ e tb Htb Hl Hi). eexists. split; [done|]. cbn [mem set_mem heads ranges flushed frames].
  set (m' := <[t := zinsert (index1 virt) e tb]> (mem s)).
  assert (forall q, (List.length q <= 3)%nat -> tab m' root q = tab (mem s) root q) as Htab.
  { intros q. induction q as [|j q IH] using rev_ind; intros Hq; [done|].
    rewrite length_app in Hq. cbn in Hq. rewrite !tab_snoc, IH by lia.
    destruct (tab (mem s) root q) as [x|] eqn:Hx; [|done]. cbn. apply step_eq. subst m'.
    rewrite lookup_insert_ne; [done|]. intros <-.
    assert (indices virt = q) as Eq by (by apply (inv_path s root Hinv _ _ t); [|lia|..]).
    apply (f_equal List.length) in Eq. unfold indices in Eq. cbn in Eq. lia. }
  split; [|split; [|split_and!; try done]].
  - split; cbn [mem set_mem frames]; fold m'; [by apply Hinv|..].
    + intros q x Hq Hx. rewrite Htab in Hx by done.
      destruct (inv_table s root Hinv q x Hq Hx) as (tb' & phys' & Hmx & Hlx & Ex & Ho).
      subst m'. destruct (decide (x = t)) as [->|Hxt].
      * rewrite lookup_insert_eq. eexists _, phys'. split; [done|]. by rewrite length_zinsert.
      * rewrite lookup_insert_ne by done. by exists tb', phys'.
    + intros q1 q2 x H1 H2. rewrite !Htab by done. by apply (inv_path s root Hinv).
  - intros v. unfold translate. rewrite Htab by (unfold indices; cbn; lia).
    destruct (tab (mem s) root (indices v)) as [x|] eqn:Hx; cbn.
    2: { rewrite decide_False; [done|]. intros [E _]%page_eq. congruence. }
    destruct (decide (x = t)) as [->|Hxt].
    + assert (indices v = indices virt) as Ei by (by apply (inv_path s root Hinv _ _ t); unfold indices; cbn; try lia).
      subst m'. rewrite lookup_insert_eq, Htb. cbn. destruct (decide (index1 v = index1 virt)) as [E1|E1].
      * rewrite decide_True by (by apply page_eq). rewrite E1, zlookup_zinsert_eq by lia. done.
      * rewrite decide_False by (rewrite page_eq; tauto).
        rewrite zlookup_zinsert_ne by (done || lia). done.
    + subst m'. rewrite lookup_insert_ne by done. rewrite decide_False; [done|].
      intros [E _]%page_eq. congruence.
  - intros x Hx. subst m'. by rewrite lookup_insert_ne.
Qed.

Lemma read_leaf_spec s root virt t :
  inv s root -> tab (mem s) root (indices virt) = Some t ->
  exists e, read_entry t (index1 virt) s = Ret e /\ translate (mem s) root virt = visible e.
Proof.
  intros Hinv Ht. assert (List.length (indices virt) <= 3)%nat as Hlen by (unfold indices; cbn; lia).
  destruct (inv_table s root Hinv _ t Hlen Ht) as (tb & phys & Htb & Hl & _).
  pose proof (index_range virt 12) as Hi. fold (index1 virt) in Hi.
  destruct (read_entry_spec s t _ tb Htb Hl Hi) as (e & -> & He). exists e. split; [done|].
  unfold translate. rewrite Ht. cbn. rewrite Htb. cbn. by rewrite He.
Qed.

Lemma map_page_entry s pm phy virt flags n :
  inv s (pml4 pm) -> supply (3 + n) (frames s) -> present flags = true ->
  exists s', map_page pm phy virt flags s = Ret s' /\ inv s' (pml4 pm) /\
    (forall v, translate (mem s') (pml4 pm) v =
       if decide (page v = page virt) then Some (Z.lor (Z.land phy ADDR) flags)
       else translate (mem s) (pml4 pm) v) /\
    (translate (mem s) (pml4 pm) virt <> None -> virt ∈ flushed s') /\
    supply n (frames s') /\ (forall q, owned (frames s) q -> owned (frames s') q) /\
    (forall x, data s (pml4 pm) x -> data s' (pml4 pm) x /\ mem s' !! x = mem s !! x).
Proof.
  intros Hinv Hsup Hp. unfold map_page.
  destruct (descend_spec s pm virt n Hinv Hsup) as (t & s1 & -> & Hext & Ht & Hsup1). ored.
  destruct (read_leaf_spec s1 (pml4 pm) virt t (ext_inv _ _ _ Hext) Ht) as (old & -> & Hold). ored.
  set (e := Z.lor (Z.land phy ADDR) flags).
  destruct (write_leaf_spec s1 (pml4 pm) virt t e (ext_inv _ _ _ Hext) Ht)
    as (s2 & -> & Hinv2 & Htr & _ & _ & Hfl & Hfr & Hoth & Htab). ored.
  assert (visible e = Some e) as Hvis. { unfold visible, e. by rewrite present_lor, Hp, orb_true_r. }
  set (s3 := if negb (old =? 0) then _ else s2).
  assert (mem s3 = mem s2 /\ frames s3 = frames s2) as [Em Ef] by (unfold s3; by destruct (negb (old =? 0))).
  exists s3. split; [done|]. rewrite Em, Ef, Hfr. split_and!.
  - destruct Hinv2. split; by rewrite ?Em, ?Ef.
  - intros v. by rewrite Htr, Hvis, (ext_translate _ _ _ Hext).
  - intros Hm. rewrite <- (ext_translate _ _ _ Hext), Hold in Hm. unfold s3.
    destruct (Z.eqb_spec old 0) as [->|]; cbn; [done|]. left.
  - done.
  - apply (ext_owned _ _ _ Hext).
  - intros x [[Hx Hno] Ex]%(ext_data _ _ _ Hext). assert (x <> t) as Hxt.
    { intros ->. by apply (Hno (indices virt)); [unfold indices; cbn; lia|]. }
    rewrite Hoth, Ex by done. split; [|done]. split; [by rewrite Ef, Hfr|].
    intros q Hq. rewrite Em, Htab by done. by apply Hno.
Qed.

(** C23. [map_page] makes the tables translate the page of [virt] to the frame of
    [phy] with the flags given, and every other page to what it was; a page
    that was mapped before is flushed from the processor's cache. *)
Theorem map_page_maps_one_page s pm phy virt flags :
  inv s (pml4 pm) -> supply 3 (frames s) -> present flags = true ->
  exists s', map_page pm phy virt flags s = Ret s' /\ inv s' (pml4 pm) /\
    (forall v, translate (mem s') (pml4 pm) v =
       if decide (page v = page virt) then Some (Z.lor (Z.land phy ADDR) flags)
       else translate (mem s) (pml4 pm) v) /\
    (translate (mem s) (pml4 pm) virt <> None -> virt ∈ flushed s').
Proof.
  intros Hinv Hsup Hp. destruct (map_page_entry s pm phy virt flags 0 Hinv Hsup Hp) as (s' & H1 & H2 & H3 & H4 & _).
  by exists s'.
Qed.

(** ** Page faults *)

(** A cleared page that is no table. *)
Lemma new_page_spec s root p a' :
  inv s root -> alloc_page (frames s) = Ret (p, a') ->
  exists s', new_page s = Ret (p, s') /\ extends root s s' /\ frames s' = a' /\
    (forall q, (List.length q <= 3)%nat -> tab (mem s') root q = tab (mem s) root q) /\
    mem s' !! (p + hhdm) = Some zero_page.
Proof.
  intros Hinv Ha. pose proof (fresh_table s root p a' Hinv Ha) as Hfresh.
  destruct (alloc_page_fresh (frames s) p a' (inv_good s root Hinv) Ha) as (Hg & Hp & Hpm & Hno & Hown & Hmono).
  unfold new_page. rewrite Ha. ored. rewrite wrap_small by lia. eexists. split; [done|].
  cbn [mem set_mem frames set_frames heads ranges flushed].
  set (m' := <[p + hhdm := zero_page]> (mem s)).
  assert (forall q, (List.length q <= 3)%nat -> tab m' root q = tab (mem s) root q) as Htab.
  { intros q. induction q as [|j q IH] using rev_ind; intros Hq; [done|].
    rewrite length_app in Hq. cbn in Hq. rewrite !tab_snoc, IH by lia.
    destruct (tab (mem s) root q) as [x|] eqn:Hx; [|done]. cbn. apply step_eq. subst m'.
    rewrite lookup_insert_ne; [done|]. intros E. by eapply (Hfresh q x); [lia|..]. }
  split; [|split; [done|split; [done|apply lookup_insert_eq]]].
  split; cbn [mem set_mem frames set_frames heads ranges flushed]; fold m'.
  - split; cbn [mem set_mem frames set_frames]; fold m'; [done|..].
    + intros q x Hq Hx. rewrite Htab in Hx by done.
      destruct (inv_table s root Hinv q x Hq Hx) as (tb & phys & Hm & Hl & E & Ho).
      exists tb, phys. subst m'. rewrite lookup_insert_ne by (intros E'; by eapply (Hfresh q x)).
      split_and!; try done. by apply Hmono.
    + intros q1 q2 x H1 H2. rewrite !Htab by done. by apply (inv_path s root Hinv).
  - intros q x Hq. by rewrite Htab.
  - intros v. unfold translate. rewrite Htab by (unfold indices; cbn; lia).
    destruct (tab (mem s) root (indices v)) as [x|] eqn:Hx; [|done]. cbn. subst m'.
    rewrite lookup_insert_ne; [done|]. intros E. by eapply (Hfresh (indices v) x); [unfold indices; cbn; lia|..].
  - done.
  - intros x [(q & Eq & Hq) Hno']. split; [split; cbn [mem frames set_mem set_frames]|].
    + exists q. auto.
    + intros q' Hq'. fold m'. rewrite Htab by done. by apply Hno'.
    + apply lookup_insert_ne. intros E. assert (q = p) as -> by lia. done.
  - done.
Qed.

(** A frame just handed out, its contents not yet touched. *)
Lemma alloc_spec s root p a' :
  inv s root -> alloc_page (frames s) = Ret (p, a') ->
  extends root s (set_frames a' s) /\ data (set_frames a' s) root (p + hhdm).
Proof.
  intros Hinv Ha. pose proof (fresh_table s root p a' Hinv Ha) as Hfresh.
  destruct (alloc_page_fresh (frames s) p a' (inv_good s root Hinv) Ha) as (Hg & Hp & Hpm & Hno & Hown & Hmono).
  split.
  - split; cbn [mem set_frames frames heads ranges flushed]; try done.
    + split; cbn [mem set_frames frames]; [done| |by apply (inv_path s root Hinv)].
      intros q x Hq Hx. destruct (inv_table s root Hinv q x Hq Hx) as (tb & phys & Hm & Hl & E & Ho).
      exists tb, phys. split_and!; try done. by apply Hmono.
    + intros x [(q & Eq & Hq) Hd]. split; [split; [exists q; cbn; auto|done]|done].
  - split; [by exists p|]. intros q Hq Hx. by eapply (Hfresh q).
Qed.

(** Writing a frame that is no table. *)
Lemma data_write s root x ws :
  inv s root -> data s root x ->
  inv (set_mem (<[x := ws]> (mem s)) s) root /\
  (forall v, translate (<[x := ws]> (mem s)) root v = translate (mem s) root v) /\
  (forall y, data s root y -> data (set_mem (<[x := ws]> (mem s)) s) root y).
Proof.
  intros Hinv [_ Hx]. set (m' := <[x := ws]> (mem s)).
  assert (forall q, (List.length q <= 3)%nat -> tab m' root q = tab (mem s) root q) as Htab.
  { intros q. induction q as [|j q IH] using rev_ind; intros Hq; [done|].
    rewrite length_app in Hq. cbn in Hq. rewrite !tab_snoc, IH by lia.
    destruct (tab (mem s) root q) as [y|] eqn:Hy; [|done]. cbn. apply step_eq. subst m'.
    rewrite lookup_insert_ne; [done|]. intros ->. by apply (Hx q); [lia|]. }
  split; [|split].
  - split; cbn [mem set_mem frames]; fold m'; [by apply Hinv|..].
    + intros q y Hq Hy. rewrite Htab in Hy by done. subst m'.
      rewrite lookup_insert_ne by (intros ->; by apply (Hx q)). by apply (inv_table s root Hinv q).
    + intros q1 q2 y H1 H2. rewrite !Htab by done. by apply (inv_path s root Hinv).
  - intros v. unfold translate. rewrite Htab by (unfold indices; cbn; lia).
    destruct (tab (mem s) root (indices v)) as [y|] eqn:Hy; [|done]. cbn. subst m'.
    rewrite lookup_insert_ne; [done|]. intros ->. by apply (Hx (indices v)); [unfold indices; cbn; lia|].
  - intros y [Hq Hy]. split; [done|]. cbn [mem set_mem]. fold m'. intros q Hlen. rewrite Htab by done. by apply Hy.
Qed.

(** What [addr_to_range] looks for; the upper bound is inclusive. *)
Definition contains (s : vm) (virt p : Z) : bool :=
  match ranges s !! p with
  | Some r => (range_base r <=? virt) && (virt <=? u64 (range_base r + range_length r))
  | None => false
  end.

Fixpoint first_range (s : vm) (virt : Z) (l : list Z) : option Z :=
  match l with [] => None | p :: l => if contains s virt p then Some p else first_range s virt l end.

Lemma first_range_same (s s' : vm) virt l : ranges s' = ranges s -> first_range s' virt l = first_range s virt l.
Proof. intros Er. induction l as [|p l IH]; [done|]. cbn. unfold contains. by rewrite Er, IH. Qed.

(** The page map's list of ranges is [l]. *)
Definition ranges_ok (s : vm) (pm : Pagemap) (l : list Z) : Prop :=
  ring (heads s) (range_list_head pm) l /\ forall p, p ∈ l -> is_Some (ranges s !! p).

Lemma ring_length (h : gmap Z ListHead) head l : ring h head l -> (List.length l < base.size h)%nat.
Proof.
  intros Hr. pose proof Hr as [Hnd _].
  assert (list_to_set (head :: l) ⊆@{gset Z} dom h) as Hsub.
  { intros q Hq%elem_of_list_to_set. apply elem_of_dom. by eapply ring_dom. }
  apply subseteq_size in Hsub. rewrite size_list_to_set, size_dom in Hsub by done. cbn in Hsub. lia.
Qed.

Lemma range_loop_spec s head virt l : forall fuel current,
  linked (heads s) current l head -> head ∉ l -> (forall p, p ∈ l -> is_Some (ranges s !! p)) ->
  (List.length l < fuel)%nat ->
  range_loop fuel head current virt s = Ret (first_range s virt l).
Proof.
  induction l as [|p l IH]; intros fuel current Hl Hh Hr Hf; (destruct fuel as [|fuel]; [cbn in Hf; lia|]);
    cbn [range_loop linked] in *.
  - destruct Hl as [Hn _]. rewrite (get_next_spec _ _ _ Hn). ored. by rewrite Z.eqb_refl.
  - destruct Hl as (Hn & _ & Hl). rewrite (get_next_spec _ _ _ Hn). ored.
    apply not_elem_of_cons in Hh as [Hhp Hh]. rewrite (proj2 (Z.eqb_neq p head)) by done.
    destruct (Hr p) as [r Hpr]; [left|]. rewrite Hpr. ored. cbn [first_range]. unfold contains. rewrite Hpr.
    destruct (_ && _); [done|]. apply IH; [done|done|intros q Hq; apply Hr; by right|cbn in Hf; lia].
Qed.

Lemma addr_to_range_spec s pm virt l :
  ranges_ok s pm l -> addr_to_range pm virt s = Ret (first_range s virt l).
Proof.
  intros [Hring Hr]. pose proof Hring as [Hnd Hl]. unfold addr_to_range.
  apply NoDup_cons in Hnd as [Hh _]. pose proof (ring_length _ _ _ Hring).
  apply range_loop_spec; [done|done|done|lia].
Qed.

(** The translations after a fault at [virt]. *)
Definition now_maps (s s' : vm) (root virt e : Z) : Prop :=
  forall v, translate (mem s') root v = if decide (page v = page virt) then Some e else translate (mem s) root v.

Lemma fault_spec s pm virt l :
  inv s (pml4 pm) -> supply 4 (frames s) -> ranges_ok s pm l ->
  (forall p r, p ∈ l -> ranges s !! p = Some r -> present (page_flags r) = true) ->
  exists refused s', handle_page_fault pm virt s = Ret (refused, s') /\ inv s' (pml4 pm) /\
    match translate (mem s) (pml4 pm) virt, first_range s virt l with
    | None, Some p =>
        refused = false /\
        exists r, ranges s !! p = Some r /\
          match range_kind r with
          | ANONYMOUS => exists f, ~ owned (frames s) f /\ mem s' !! (f + hhdm) = Some zero_page /\
              now_maps s s' (pml4 pm) virt (Z.lor f (page_flags r))
          | DIRECT => now_maps s s' (pml4 pm) virt (Z.lor (Z.land (u64 (virt - hhdm)) ADDR) (page_flags r))
          end
    | _, _ => refused = true /\ forall v, translate (mem s') (pml4 pm) v = translate (mem s) (pml4 pm) v
    end.
Proof.
  intros Hinv Hsup Hrok Hflags. unfold handle_page_fault.
  destruct (descend_spec s pm virt 1 Hinv Hsup) as (t & s1 & -> & Hext & Ht & Hsup1). ored.
  pose proof (ext_inv _ _ _ Hext) as Hinv1. destruct (ext_rest _ _ _ Hext) as (Eh & Er & _).
  destruct (read_leaf_spec s1 (pml4 pm) virt t Hinv1 Ht) as (e & -> & He). ored.
  rewrite (ext_translate _ _ _ Hext) in He. rewrite He. unfold visible.
  destruct (present e); cbn [negb].
  { eexists _, _. split; [done|]. split; [done|]. split; [done|]. apply (ext_translate _ _ _ Hext). }
  assert (ranges_ok s1 pm l) as Hrok1 by (unfold ranges_ok; by rewrite Eh, Er).
  rewrite (addr_to_range_spec s1 pm virt l Hrok1). ored.
  rewrite (first_range_same s s1 virt l Er).
  destruct (first_range s virt l) as [p|] eqn:Hfr.
  2: { eexists _, _. split; [done|]. split; [done|]. split; [done|]. apply (ext_translate _ _ _ Hext). }
  assert (exists r, ranges s !! p = Some r /\ present (page_flags r) = true) as (r & Hr & Hpr).
  { destruct Hrok as [_ Hdom]. clear -Hfr Hflags Hdom. induction l as [|q l IH]; [done|]. cbn in Hfr.
    destruct (contains s virt q) eqn:Hc.
    - injection Hfr as ->. destruct (Hdom p) as [r Hr]; [left|]. exists r. split; [done|]. apply (Hflags p); [left|done].
    - apply IH; [intros; apply Hdom; by right|intros; eapply Hflags; [by right|done]|done]. }
  rewrite Er, Hr. ored. destruct (range_kind r) eqn:Hk.
  - destruct (write_leaf_spec s1 (pml4 pm) virt t (Z.lor (Z.land (u64 (virt - hhdm)) ADDR) (page_flags r)) Hinv1 Ht)
      as (s2 & -> & Hinv2 & Htr & _). ored.
    eexists _, s2. split; [done|]. split; [done|]. split; [done|]. exists r. split; [done|]. rewrite Hk.
    intros v. rewrite Htr, (ext_translate _ _ _ Hext). unfold visible. by rewrite present_lor, Hpr, orb_true_r.
  - destruct Hsup1 as (f & a' & Ha & _).
    destruct (new_page_spec s1 (pml4 pm) f a' Hinv1 Ha) as (s2 & -> & Hext2 & _ & Htab2 & Hz). ored.
    assert (tab (mem s2) (pml4 pm) (indices virt) = Some t) as Ht2 by (rewrite Htab2 by (unfold indices; cbn; lia); done).
    assert (t <> f + hhdm) as Htf.
    { apply (fresh_table s1 (pml4 pm) f a' Hinv1 Ha (indices virt)); [unfold indices; cbn; lia|done]. }
    destruct (write_leaf_spec s2 (pml4 pm) virt t (Z.lor f (page_flags r)) (ext_inv _ _ _ Hext2) Ht2)
      as (s3 & -> & Hinv3 & Htr & _ & _ & _ & _ & Hoth & _). ored.
    eexists _, s3. split; [done|]. split; [done|]. split; [done|]. exists r. split; [done|]. rewrite Hk.
    exists f. split; [|split].
    + intros Ho. apply (ext_owned _ _ _ Hext) in Ho.
      destruct (alloc_page_fresh (frames s1) f a' (inv_good _ _ Hinv1) Ha) as (_ & _ & _ & Hno & _). done.
    + rewrite Hoth by done. done.
    + intros v. rewrite Htr, (ext_translate _ _ _ Hext2), (ext_translate _ _ _ Hext). unfold visible.
      by rewrite present_lor, Hpr, orb_true_r.
Qed.

(** C8. With four pages left every fault is answered.  On a page without
    translation, at an address from the base of a reserved range up to its base
    plus its length, which is one past its end, the first such range serves it:
    an anonymous range with a fresh cleared page, a direct one with the frame
    behind the higher-half window, with the range's flags and no other page's
    translation changed.  At any other address, or when the page is mapped, the
    fault is refused and no translation changes. *)
Theorem handle_page_fault_serves s pm virt l :
  inv s (pml4 pm) -> supply 4 (frames s) -> ranges_ok s pm l ->
  (forall p r, p ∈ l -> ranges s !! p = Some r -> present (page_flags r) = true) ->
  exists refused s', handle_page_fault pm virt s = Ret (refused, s') /\ inv s' (pml4 pm) /\
    match translate (mem s) (pml4 pm) virt, first_range s virt l with
    | None, Some p =>
        refused = false /\
        exists r, ranges s !! p = Some r /\
          match range_kind r with
          | ANONYMOUS => exists f, ~ owned (frames s) f /\ mem s' !! (f + hhdm) = Some zero_page /\
              now_maps s s' (pml4 pm) virt (Z.lor f (page_flags r))
          | DIRECT => now_maps s s' (pml4 pm) virt (Z.lor (Z.land (u64 (virt - hhdm)) ADDR) (page_flags r))
          end
    | _, _ => refused = true /\ forall v, translate (mem s') (pml4 pm) v = translate (mem s) (pml4 pm) v
    end.
Proof. apply fault_spec. Qed.

(** ** mmap *)

Lemma mmap_flags_present prot : present (mmap_flags prot) = true.
Proof.
  unfold mmap_flags. by destruct (negb (Z.land prot PROT_WRITE =? 0)), (Z.land prot PROT_EXEC =? 0).
Qed.

Lemma contains_other s s' p virt :
  ranges s' !! p = ranges s !! p -> contains s' virt p = contains s virt p.
Proof. intros E. unfold contains. by rewrite E. Qed.

Lemma mmap_entry s pm l range base len prot flags :
  ranges_ok s pm l -> range ∉ range_list_head pm :: l ->
  negb (Z.land flags MAP_PRIVATE =? 0) && (Z.land flags MAP_SHARED =? 0)
    && negb (Z.land flags MAP_ANONYMOUS =? 0) = true ->
  0 <= base -> base mod 0x1000 = 0 -> 0 <= len -> base + len + 0x1000 < 2 ^ 64 ->
  exists s1, syscall_mmap range pm base len prot flags s = Ret (base, base + align_up 0x1000 len, s1) /\
    (base + align_up 0x1000 len) mod 0x1000 = 0 /\ len <= align_up 0x1000 len < len + 0x1000 /\
    ranges_ok s1 pm (range :: l) /\ mem s1 = mem s /\ frames s1 = frames s /\
    ranges s1 = <[range := mkMappedRange base (align_up 0x1000 len) (mmap_flags prot) ANONYMOUS]> (ranges s).
Proof.
  intros [Hring Hdom] Hrange Hmode Hb0 Hbm Hlen Hov. unfold syscall_mmap.
  apply andb_prop in Hmode as [[H1%negb_true_iff H2]%andb_prop H3%negb_true_iff]. rewrite H1, H2, H3. cbn [negb orb].
  set (h0 := <[range := mkListHead 0 0]> (heads s)).
  assert (ring h0 (range_list_head pm) l) as Hring0.
  { destruct Hring as [Hnd Hl]. split; [done|]. eapply linked_ext; [| |exact Hl]; intros z Hz; unfold nxt, prv, h0;
      rewrite lookup_insert_ne; try done; intros ->; apply Hrange; [done|].
    apply elem_of_app in Hz as [Hz|Hz%list_elem_of_singleton]; [by right|subst; left]. }
  destruct (add_entry h0 (range_list_head pm) l range Hring0 Hrange) as (h1 & -> & Hring1 & _).
  { unfold h0. rewrite lookup_insert_eq. by eexists. }
  ored. destruct (align_up_spec 0x1000 len ltac:(lia) Hlen ltac:(lia)) as [Hal Halm].
  rewrite (wrap_small 64) by lia.
  eexists. split; [done|]. split; [by rewrite Z.add_mod, Hbm, Halm by lia|]. split; [lia|].
  split; [|done]. split; [done|]. intros p [->|Hp]%elem_of_cons; cbn; [rewrite lookup_insert_eq; by eexists|].
  rewrite lookup_insert_ne by (intros ->; apply Hrange; by right). by apply Hdom.
Qed.

Lemma inv_same s s' root : mem s' = mem s -> frames s' = frames s -> inv s root -> inv s' root.
Proof. intros Em Ef []. split; by rewrite ?Em, ?Ef. Qed.

(** Ranges with present flags stay so when one is added. *)
Lemma flags_present s s1 l range r :
  ranges s1 = <[range := r]> (ranges s) -> present (page_flags r) = true ->
  (forall p r, p ∈ l -> ranges s !! p = Some r -> present (page_flags r) = true) ->
  forall p r', p ∈ range :: l -> ranges s1 !! p = Some r' -> present (page_flags r') = true.
Proof.
  intros -> Hr Hl p r' Hp. destruct (decide (p = range)) as [->|Hne].
  - rewrite lookup_insert_eq. by intros [= <-].
  - rewrite lookup_insert_ne by done. apply elem_of_cons in Hp as [->|Hp]; [done|by apply Hl].
Qed.

Lemma first_range_front s range r l virt :
  ranges s !! range = Some r -> range_base r <= virt <= u64 (range_base r + range_length r) ->
  first_range s virt (range :: l) = Some range.
Proof. intros Hr Hv. cbn. unfold contains. rewrite Hr. by rewrite !(proj2 (Z.leb_le _ _)) by lia. Qed.

(** A private anonymous [mmap] reserves the next page-aligned stretch of the
    address space, which nothing handed out before overlaps, at the front of
    the list of ranges: from then on a fault anywhere in it is served with a
    fresh cleared page carrying the access asked for. *)
Theorem mmap_then_fault s pm l range base len prot flags virt :
  inv s (pml4 pm) -> supply 4 (frames s) -> ranges_ok s pm l ->
  (forall p r, p ∈ l -> ranges s !! p = Some r -> present (page_flags r) = true) ->
  range ∉ range_list_head pm :: l ->
  negb (Z.land flags MAP_PRIVATE =? 0) && (Z.land flags MAP_SHARED =? 0)
    && negb (Z.land flags MAP_ANONYMOUS =? 0) = true ->
  0 <= base -> base mod 0x1000 = 0 -> 0 <= len -> base + len + 0x1000 < 2 ^ 64 ->
  base <= virt < base + len -> translate (mem s) (pml4 pm) virt = None ->
  exists s1, syscall_mmap range pm base len prot flags s = Ret (base, base + align_up 0x1000 len, s1) /\
    (base + align_up 0x1000 len) mod 0x1000 = 0 /\ len <= align_up 0x1000 len /\
    ranges_ok s1 pm (range :: l) /\ mem s1 = mem s /\
    exists s2 f, handle_page_fault pm virt s1 = Ret (false, s2) /\ inv s2 (pml4 pm) /\
      ~ owned (frames s) f /\ mem s2 !! (f + hhdm) = Some zero_page /\
      now_maps s1 s2 (pml4 pm) virt (Z.lor f (mmap_flags prot)).
Proof.
  intros Hinv Hsup Hrok Hflags Hrange Hmode Hb0 Hbm Hlen Hov Hvirt Hnone.
  destruct (mmap_entry s pm l range base len prot flags Hrok Hrange Hmode Hb0 Hbm Hlen Hov)
    as (s1 & -> & Hm & Hal & Hrok1 & Em & Ef & Er).
  exists s1. split; [done|]. split; [done|]. split; [lia|]. split; [done|]. split; [done|].
  assert (ranges s1 !! range = Some (mkMappedRange base (align_up 0x1000 len) (mmap_flags prot) ANONYMOUS)) as Hr
    by (rewrite Er; apply lookup_insert_eq).
  destruct (fault_spec s1 pm virt (range :: l)) as (refused & s2 & Hf & Hinv2 & Hres);
    [by apply (inv_same s)|by rewrite Ef|done|by eapply (flags_present s); [exact Er|apply mmap_flags_present|]|].
  rewrite Em, Hnone, (first_range_front s1 range _ l virt Hr) in Hres by (cbn; rewrite ?wrap_small; lia).
  destruct Hres as (-> & r' & Hr' & Hres). rewrite Hr in Hr'. injection Hr' as <-.
  cbn in Hres. destruct Hres as (f & Hno & ? & ?). rewrite Ef in Hno. by exists s2, f.
Qed.

(** A cleared top table translates nothing. *)
Lemma inv_cleared s root phys :
  good (frames s) -> owned (frames s) phys -> root = phys + hhdm -> mem s !! root = Some zero_page ->
  inv s root /\ forall v, translate (mem s) root v = None.
Proof.
  intros Hg Ho Er Hm.
  assert (forall p t, tab (mem s) root p = Some t -> p = [] /\ t = root) as Htab.
  { intros [|i p] t; cbn; [by intros [= <-]|]. unfold step. rewrite Hm. cbn.
    destruct (zlookup zero_page i) as [e|] eqn:He; [|done]. by apply zlookup_zero_page in He as ->. }
  split; [split|].
  - done.
  - intros p t _ [_ ->]%Htab. by exists zero_page, phys.
  - intros p q t _ _ [-> _]%Htab [-> _]%Htab. done.
  - intros v. unfold translate. destruct (tab (mem s) root (indices v)) as [t|] eqn:Ht; [|done].
    apply Htab in Ht as [Ht _]. by unfold indices in Ht.
Qed.

End Paging.
Arguments vm : clear implicits.

(** ** The allocator of file Pmm *)

Definition pmm_good (s : pmm) : Prop :=
  Pmm.wf s /\ bit (page_bitmap s) 0 = true /\ m_size (page_bitmap s) * 0x1000 <= 2 ^ 46.

Definition pmm_owned (s : pmm) (p : Z) : Prop :=
  0 <= p /\ p mod 0x1000 = 0 /\ bit (page_bitmap s) (p / 0x1000) = true.

Lemma pmm_alloc n (s : pmm) p s' :
  pmm_good s -> 0 < n -> alloc_pages n s = Ret (p, s') -> pmm_good s' /\ forall q, pmm_owned s q -> pmm_owned s' q.
Proof.
  intros (Hwf & H0 & Hm) Hn E. pose proof (alloc_pages_result s n Hwf Hn H0) as Hr. rewrite E in Hr.
  inversion Hr as [k s1 Hk Hks Htook Hwf' Ek|]; subst. destruct Htook as (_ & (_ & Hs & _ & Hbits) & _).
  assert (forall j, 0 <= j -> bit (page_bitmap s) j = true -> bit (page_bitmap s') j = true) as Hmono.
  { intros j Hj Hb. rewrite Hbits by done. by destruct (span k n j). }
  split; [split; [done|split; [by apply Hmono|by rewrite Hs]]|].
  intros q (? & ? & Hb). split; [done|]. split; [done|]. apply Hmono; [|done]. apply Z.div_pos; lia.
Qed.

#[export] Instance pmm_allocator : PageAllocator pmm.
Proof.
  refine {| alloc_page := alloc_pages 1; good := pmm_good; owned := pmm_owned |}.
  intros a p a' Hg Ha. destruct (pmm_alloc 1 a p a' Hg ltac:(lia) Ha) as [Hg' Hmono]. destruct Hg as (Hwf & H0 & Hm).
  pose proof (alloc_pages_result a 1 Hwf ltac:(lia) H0) as Hr.
  rewrite Ha in Hr. inversion Hr as [k a1 Hk Hks Htook Hwf' Ek|]; subst.
  destruct Htook as (Hrun & (_ & _ & _ & Hbits) & _).
  assert (bit (page_bitmap a) k = false) as Hfree by (apply Hrun; lia).
  assert (bit (page_bitmap a') k = true) as Hnow.
  { rewrite Hbits by lia. unfold span. by rewrite (proj2 (Z.leb_le _ _)), (proj2 (Z.ltb_lt _ _)) by lia. }
  split; [done|split; [lia|split; [apply Z.mod_mul; lia|split; [|split]]]].
  - intros (_ & _ & Hb). rewrite Z.div_mul in Hb by lia. congruence.
  - split; [lia|]. split; [apply Z.mod_mul; lia|]. by rewrite Z.div_mul by lia.
  - exact Hmono.
Defined.

(** ** A concrete address space

    The window where the boot loader puts it, 64 physical pages of which the
    first two are taken, the second being the top table. *)
Definition window : Z := 0xFFFF800000000000.
Lemma window_range : 0 <= window <= 2 ^ 64 - 2 ^ 46. Proof. done. Qed.

Definition pages64 : pmm := mkPmm (mkBitmap 0 [3; 0; 0; 0; 0; 0; 0; 0] 64) 0 0x40000 0x3E000 0.
Definition the_map : Pagemap := mkPagemap (window + 0x1000) 1000.
Definition vm0 : vm pmm :=
  mkVm {[window + 0x1000 := zero_page]} pages64 {[1000 := mkListHead 1000 1000]} ∅ [].

Lemma vm0_inv : inv window vm0 (pml4 the_map) /\ forall v, translate window (mem vm0) (pml4 the_map) v = None.
Proof.
  apply (inv_cleared window vm0 (pml4 the_map) 0x1000).
  2: { split; [done|]. split; [done|]. by vm_compute. }
  2: reflexivity.
  2: apply lookup_insert_eq.
  split; [split; [by vm_compute|split; [split; by vm_compute|by vm_compute]]|]. split; by vm_compute.
Qed.

Lemma vm0_supply : supply 4 (frames vm0).
Proof. cbn [supply]. repeat (eexists _, _; split; [vm_compute; reflexivity|]). exact I. Qed.

Lemma vm0_ranges : ranges_ok vm0 the_map [].
Proof.
  split; [|intros p Hp; by apply not_elem_of_nil in Hp]. split; [apply NoDup_singleton|by vm_compute].
Qed.

Lemma map_page_maps_one_page_witness :
  exists s', map_page window the_map 0x5000 0x400000 7 vm0 = Ret s' /\ inv window s' (pml4 the_map) /\
    (forall v, translate window (mem s') (pml4 the_map) v =
       if decide (page v = page 0x400000) then Some 0x5007 else translate window (mem vm0) (pml4 the_map) v) /\
    (translate window (mem vm0) (pml4 the_map) 0x400000 <> None -> 0x400000 ∈ flushed s').
Proof.
  apply (map_page_maps_one_page window window_range vm0 the_map 0x5000 0x400000 7 (proj1 vm0_inv)); [|done].
  by apply supply_weaken, vm0_supply.
Defined.

(** An anonymous range, and a direct one behind the window. *)
Definition ranged_vm : vm pmm :=
  mkVm (mem vm0) (frames vm0) {[1000 := mkListHead 2000 2001; 2000 := mkListHead 2001 1000; 2001 := mkListHead 1000 2000]}
    {[2000 := mkMappedRange 0x400000 0x1000 7 ANONYMOUS; 2001 := mkMappedRange window 0x10000 3 DIRECT]} [].

Lemma ranged_vm_ok :
  inv window ranged_vm (pml4 the_map) /\ supply 4 (frames ranged_vm) /\ ranges_ok ranged_vm the_map [2000; 2001] /\
  forall p r, p ∈ [2000; 2001] -> ranges ranged_vm !! p = Some r -> present (page_flags r) = true.
Proof.
  split; [by destruct (proj1 vm0_inv)|]. split; [exact vm0_supply|]. split; [split|].
  - split; [apply (bool_decide_eq_true_1 _); vm_compute; reflexivity|vm_compute; repeat split; reflexivity].
  - intros p [->|[->|[]%not_elem_of_nil]%elem_of_cons]%elem_of_cons; by eexists.
  - intros p r [->|[->|[]%not_elem_of_nil]%elem_of_cons]%elem_of_cons; vm_compute; by intros [= <-].
Qed.

Lemma handle_page_fault_serves_witness :
  (exists s' f, handle_page_fault window the_map 0x400123 ranged_vm = Ret (false, s') /\
     mem s' !! (f + window) = Some zero_page /\ now_maps window ranged_vm s' (pml4 the_map) 0x400123 (Z.lor f 7)) /\
  (exists s', handle_page_fault window the_map (window + 0x5008) ranged_vm = Ret (false, s') /\
     now_maps window ranged_vm s' (pml4 the_map) (window + 0x5008) 0x5003) /\
  exists s', handle_page_fault window the_map 0x500000 ranged_vm = Ret (true, s').
Proof.
  destruct ranged_vm_ok as (Hinv & Hsup & Hr & Hf).
  assert (forall v, translate window (mem ranged_vm) (pml4 the_map) v = None) as Hnone by exact (proj2 vm0_inv).
  split; [|split].
  - destruct (handle_page_fault_serves window window_range ranged_vm the_map 0x400123 _ Hinv Hsup Hr Hf) as (b & s' & E & _ & Hs).
    rewrite Hnone in Hs. destruct Hs as (-> & r & Hrg & Hk). vm_compute in Hrg. injection Hrg as <-.
    destruct Hk as (f & _ & Hz & Hm). exists s', f. split; [exact E|]. split; [exact Hz|exact Hm].
  - destruct (handle_page_fault_serves window window_range ranged_vm the_map (window + 0x5008) _ Hinv Hsup Hr Hf) as (b & s' & E & _ & Hs).
    rewrite Hnone in Hs. destruct Hs as (-> & r & Hrg & Hk). vm_compute in Hrg. injection Hrg as <-.
    exists s'. split; [exact E|exact Hk].
  - destruct (handle_page_fault_serves window window_range ranged_vm the_map 0x500000 _ Hinv Hsup Hr Hf) as (b & s' & E & _ & Hs).
    rewrite Hnone in Hs. destruct Hs as [-> _]. exists s'. exact E.
Defined.

Lemma mmap_then_fault_witness :
  exists s1, syscall_mmap 2000 the_map 0x400000 10 3 9 vm0 = Ret (0x400000, 0x401000, s1) /\
    0x401000 mod 0x1000 = 0 /\ 10 <= 0x1000 /\ ranges_ok s1 the_map [2000] /\ mem s1 = mem vm0 /\
    exists s2 f, handle_page_fault window the_map 0x400008 s1 = Ret (false, s2) /\
      inv window s2 (pml4 the_map) /\ ~ owned (frames vm0) f /\ mem s2 !! (f + window) = Some zero_page /\
      now_maps window s1 s2 (pml4 the_map) 0x400008 (Z.lor f (mmap_flags 3)).
Proof.
  refine (mmap_then_fault window window_range vm0 the_map [] 2000 0x400000 10 3 9 0x400008 (proj1 vm0_inv) vm0_supply
    vm0_ranges _ _ eq_refl _ eq_refl _ eq_refl _ (proj2 vm0_inv _)); try lia.
  - intros p r Hp. by apply not_elem_of_nil in Hp.
  - apply (bool_decide_eq_true_1 _). by vm_compute.
Defined.

(** The upper bound of a range is inclusive: a fault one past the end of an
    [mmap] is served, outside what was asked for. *)
Example fault_past_the_end_is_served :
  (let s := mkVm (mem vm0) (frames vm0) {[1000 := mkListHead 2000 2000; 2000 := mkListHead 1000 1000]}
              {[2000 := mkMappedRange 0x400000 0x1000 7 ANONYMOUS]} [] in
   '(refused, _) ← handle_page_fault window the_map 0x401000 s; Ret refused) = Ret false.
Proof. by vm_compute. Qed.

(** Asking for a physical address allocates the missing tables. *)
Example physical_addr_allocates :
  ('(_, s) ← physical_addr window the_map 0x400000 vm0; Ret (total_allocated (frames s))) = Ret 0x3000.
Proof. by vm_compute. Qed.

(** A start with 16 pages of usable memory and a kernel of two pages: the window
    and the kernel are mapped, and a fault in the heap is served. *)
Example init_maps_window_and_kernel :
  ('(pm, s, cr3) ← init window 1000 1001 1002
       [mkEntry 0 0x10000 LIMINE_MEMMAP_USABLE; mkEntry 0x100000 0x2000 LIMINE_MEMMAP_KERNEL_AND_MODULES]
       0x100000 0xFFFFFFFF80000000 (mkVm ∅ pages64 ∅ ∅ []);
   let t := translate window (mem s) (pml4 pm) in
   '(refused, _) ← handle_page_fault window pm heap_begin s;
   Ret (cr3, t (window + 0x5000), t (0xFFFFFFFF80001234), t 0x400000, refused))
  = Ret (0x2000, Some (Z.lor 0x5003 PAGE_NO_EXECUTE), Some 0x101003, None, false).
Proof. by vm_compute. Qed.
