(* ===== verification/AddressSpace.v ===== *)
(** * Whole address spaces: what vmm::init maps, and how user spaces share the kernel's

    File Paging has the operations, with what each does to one page.  Here they
    are put together as the kernel does: [init] over the boot loader's memory
    map, and [map_kernel] followed by mappings in the lower half. *)
From S2P Require Import Prelude Algorithm Bitmap Pmm List Paging.

Section AddressSpace.
Context {A : Type} `{PageAllocator A}.
Context (hhdm : Z) (hhdm_range : 0 <= hhdm <= 2 ^ 64 - 2 ^ 46).
Implicit Types (s : vm A) (pm : Pagemap).

(** ** The reference: an address space as a function from addresses to entries *)
Definition pages (size : Z) : Z := align_up 0x1000 size / 0x1000.

(** [n] pages mapped from [virt] on; the distance is taken in the 48 bits of an
    address. *)
Definition mapped (phy virt n flags : Z) (f : Z -> option Z) (v : Z) : option Z :=
  let i := (page v - page virt) mod 2 ^ 36 in
  if i <? n then Some (Z.lor (Z.land (u64 (phy + i * 0x1000)) ADDR) flags) else f v.

Fixpoint mapped_entries (es : list limine_memmap_entry) (f : Z -> option Z) : Z -> option Z :=
  match es with
  | [] => f
  | e :: es =>
      mapped_entries es
        (if in_window e then mapped (Pmm.base e) (u64 (Pmm.base e + hhdm)) (pages (len e)) (entry_flags e) f else f)
  end.

Fixpoint kernel_bytes (es : list limine_memmap_entry) (acc : Z) : Z :=
  match es with
  | [] => acc
  | e :: es => kernel_bytes es (if Pmm.type e =? LIMINE_MEMMAP_KERNEL_AND_MODULES then u64 (acc + len e) else acc)
  end.

(** The addresses mapped, and the tables they need: the prefixes of their paths. *)
Definition run_of (virt n : Z) : list Z := (fun i => u64 (virt + i * 0x1000)) <$> seqZ 0 n.

Fixpoint window_addresses (es : list limine_memmap_entry) : list Z :=
  match es with
  | [] => []
  | e :: es => (if in_window e then run_of (u64 (Pmm.base e + hhdm)) (pages (len e)) else []) ++ window_addresses es
  end.

Definition prefixes (v : Z) : list (list Z) := [[index4 v]; [index4 v; index3 v]; indices v].
Definition tables_for (vs : list Z) : gset (list Z) := list_to_set (concat (prefixes <$> vs)).

(** ** Runs of pages *)
Lemma pages_range size : 0 <= size <= 2 ^ 48 -> 0 <= pages size <= 2 ^ 36.
Proof.
  intros Hs. unfold pages. destruct (align_up_spec 0x1000 size ltac:(lia) ltac:(lia) ltac:(lia)) as [Hr Hm].
  pose proof (align_up_le 0x1000 size (2 ^ 48) ltac:(lia) ltac:(lia) eq_refl ltac:(lia) ltac:(lia)).
  split; [apply Z.div_pos; lia|]. apply Z.div_le_upper_bound; lia.
Qed.

Lemma page_run virt i : page (u64 (virt + i * 0x1000)) = (page virt + i) mod 2 ^ 36.
Proof.
  unfold page, wrap. change 0x1000 with (2 ^ 12).
  replace (2 ^ 64) with (2 ^ 12 * 2 ^ 52) by reflexivity.
  rewrite Z.rem_mul_r by lia. rewrite (Z.mul_comm (2 ^ 12) (_ mod _)), Z.div_add, (Z.div_small (_ mod 2 ^ 12)) by
    (try apply Z.mod_pos_bound; lia).
  rewrite Z.div_add, Z.add_0_l by lia. replace (2 ^ 52) with (2 ^ 36 * 2 ^ 16) by reflexivity.
  rewrite Z.rem_mul_r, (Z.mul_comm (2 ^ 36) (_ mod _)), Z.mod_add, Z.mod_mod by lia.
  by rewrite Zplus_mod_idemp_l.
Qed.

Lemma page_distance v virt i :
  0 <= i < 2 ^ 36 -> page v = page (u64 (virt + i * 0x1000)) <-> (page v - page virt) mod 2 ^ 36 = i.
Proof.
  intros Hi. rewrite page_run.
  assert (0 <= page v < 2 ^ 36 /\ 0 <= page virt < 2 ^ 36) as [Hv Hw] by (unfold page; split; apply Z.mod_pos_bound; lia).
  pose proof (Z.div_mod (page v - page virt) (2 ^ 36) ltac:(lia)). pose proof (Z.mod_pos_bound (page v - page virt) (2 ^ 36) ltac:(lia)).
  pose proof (Z.div_mod (page virt + i) (2 ^ 36) ltac:(lia)). pose proof (Z.mod_pos_bound (page virt + i) (2 ^ 36) ltac:(lia)).
  split; intros E; nia.
Qed.

Lemma mapped_step phy virt i flags f v :
  0 <= i < 2 ^ 36 ->
  mapped phy virt (i + 1) flags f v =
  (if decide (page v = page (u64 (virt + i * 0x1000))) then Some (Z.lor (Z.land (u64 (phy + i * 0x1000)) ADDR) flags)
   else mapped phy virt i flags f v).
Proof.
  intros Hi. unfold mapped. pose proof (page_distance v virt i Hi) as Hd. set (j := (page v - page virt) mod 2 ^ 36) in *.
  case_decide as E.
  - rewrite (proj1 Hd E). by rewrite (proj2 (Z.ltb_lt _ _)) by lia.
  - assert (j <> i) by tauto. destruct (Z.ltb_spec j (i + 1)), (Z.ltb_spec j i); try lia; done.
Qed.

(** ** How many pages the tables take *)

(** The tables of [P] that are not there yet. *)
Definition missing s (root : Z) (P : gset (list Z)) : nat :=
  size (filter (fun p => tab hhdm (mem s) root p = None) P).

Definition short (P : gset (list Z)) : Prop := forall p, p ∈ P -> (List.length p <= 3)%nat.

Lemma short_tables vs : short (tables_for vs).
Proof.
  intros p Hp. apply elem_of_list_to_set, list_elem_of_In, in_concat in Hp as (l & Hl%list_elem_of_In & Hp%list_elem_of_In).
  apply list_elem_of_fmap in Hl as (v & -> & _). unfold prefixes, indices in Hp. set_unfold. destruct Hp as [->|[->|[->|[]]]]; cbn; lia.
Qed.

Lemma tables_for_in vs v p : v ∈ vs -> p ∈ prefixes v -> p ∈ tables_for vs.
Proof.
  intros Hv Hp. apply elem_of_list_to_set, list_elem_of_In, in_concat. exists (prefixes v).
  split; apply list_elem_of_In; [by apply list_elem_of_fmap_2|done].
Qed.

Lemma supply_le m n (a : A) : (m <= n)%nat -> supply n a -> supply m a.
Proof. induction 1 as [|n Hle IH]; [done|]. intros Hs. by apply IH, supply_weaken. Qed.

Lemma missing_mono s s' root P :
  short P -> (forall q x, (List.length q <= 3)%nat -> tab hhdm (mem s) root q = Some x -> tab hhdm (mem s') root q = Some x) ->
  forall q, q ∈ filter (fun p => tab hhdm (mem s') root p = None) P -> q ∈ filter (fun p => tab hhdm (mem s) root p = None) P.
Proof.
  intros HP Ht q [Hq HqP]%elem_of_filter. apply elem_of_filter. split; [|done].
  destruct (tab hhdm (mem s) root q) as [x|] eqn:E; [|done]. apply (Ht q x (HP q HqP)) in E. congruence.
Qed.

Lemma next_level_missing s root path t i P k :
  inv hhdm s root -> (List.length path <= 2)%nat -> tab hhdm (mem s) root path = Some t -> 0 <= i < 512 ->
  short P -> path ++ [i] ∈ P -> supply (missing s root P + k) (frames s) ->
  exists t' s', page_table_next_level hhdm t i s = Ret (t', s') /\ extends hhdm root s s' /\
    tab hhdm (mem s') root (path ++ [i]) = Some t' /\ supply (missing s' root P + k) (frames s').
Proof.
  intros Hinv Hl Ht Hi HP Hin Hsup. destruct (tab hhdm (mem s) root (path ++ [i])) as [x|] eqn:Ex.
  - exists x, s. split; [|split; [by apply extends_refl|done]].
    rewrite tab_snoc, Ht in Ex. cbn in Ex. unfold step in Ex. unfold page_table_next_level, read_entry.
    destruct (mem s !! t) as [tb|]; [|done]. cbn in *. destruct (zlookup tb i) as [e|]; [|done]. cbn in *.
    destruct (present e); [|done]. by injection Ex as <-.
  - assert (path ++ [i] ∈ filter (fun p => tab hhdm (mem s) root p = None) P) as Hf by (by apply elem_of_filter).
    assert (missing s root P = S (size (filter (fun p => tab hhdm (mem s) root p = None) P ∖ {[path ++ [i]]}))) as Em.
    { unfold missing. rewrite size_difference by set_solver. rewrite size_singleton.
      assert (size (filter (fun p => tab hhdm (mem s) root p = None) P) <> 0%nat); [|lia].
      apply size_non_empty_iff. set_solver. }
    rewrite Em in Hsup.
    destruct (next_level_spec hhdm hhdm_range s root path t i
      (size (filter (fun p => tab hhdm (mem s) root p = None) P ∖ {[path ++ [i]]}) + k) Hinv Ht Hl Hi Hsup)
      as (t' & s' & E & Hext & Ht' & Hs').
    exists t', s'. split; [done|]. split; [done|]. split; [done|]. eapply supply_le; [|exact Hs'].
    apply Nat.add_le_mono_r. unfold missing. apply subseteq_size. intros q Hq.
    apply elem_of_difference. split; [by apply (missing_mono s s' root P HP (ext_tab _ _ _ _ Hext))|].
    intros ->%elem_of_singleton. apply elem_of_filter in Hq as [Hq _]. congruence.
Qed.

Lemma map_page_missing s pm phy virt flags P k :
  inv hhdm s (pml4 pm) -> present flags = true -> short P -> (forall p, p ∈ prefixes virt -> p ∈ P) ->
  supply (missing s (pml4 pm) P + k) (frames s) ->
  exists s', map_page hhdm pm phy virt flags s = Ret s' /\ inv hhdm s' (pml4 pm) /\
    (forall v, translate hhdm (mem s') (pml4 pm) v =
       if decide (page v = page virt) then Some (Z.lor (Z.land phy ADDR) flags) else translate hhdm (mem s) (pml4 pm) v) /\
    supply (missing s' (pml4 pm) P + k) (frames s').
Proof.
  intros Hinv Hp HP Hin Hsup. unfold map_page, descend.
  destruct (next_level_missing s (pml4 pm) [] (pml4 pm) (index4 virt) P k) as (t1 & s1 & -> & E1 & T1 & S1);
    [done|cbn; lia|done|apply index_range|done|apply Hin; left|done|]. ored.
  destruct (next_level_missing s1 (pml4 pm) [index4 virt] t1 (index3 virt) P k) as (t2 & s2 & -> & E2 & T2 & S2);
    [apply E1|cbn; lia|done|apply index_range|done|apply Hin; right; left|done|]. ored.
  destruct (next_level_missing s2 (pml4 pm) [index4 virt; index3 virt] t2 (index2 virt) P k) as (t & s3 & -> & E3 & T3 & S3);
    [apply E2|cbn; lia|done|apply index_range|done|apply Hin; right; right; left|done|]. ored.
  assert (extends hhdm (pml4 pm) s s3) as Hext by (by eapply extends_trans; [eapply extends_trans|]).
  change (tab hhdm (mem s3) (pml4 pm) (indices virt) = Some t) in T3.
  destruct (read_leaf_spec hhdm s3 (pml4 pm) virt t (ext_inv _ _ _ _ Hext) T3) as (old & -> & _). ored.
  set (e := Z.lor (Z.land phy ADDR) flags).
  destruct (write_leaf_spec hhdm hhdm_range s3 (pml4 pm) virt t e (ext_inv _ _ _ _ Hext) T3)
    as (s4 & -> & Hinv4 & Htr & _ & _ & _ & Hfr & _ & Htab). ored.
  assert (visible e = Some e) as Hvis. { unfold visible, e. by rewrite present_lor, Hp, orb_true_r. }
  set (s5 := if negb (old =? 0) then _ else s4).
  assert (mem s5 = mem s4 /\ frames s5 = frames s4) as [Em Ef] by (unfold s5; by destruct (negb (old =? 0))).
  exists s5. split; [done|]. split; [destruct Hinv4; split; by rewrite ?Em, ?Ef|]. split.
  - intros v. by rewrite Em, Htr, Hvis, (ext_translate _ _ _ _ Hext).
  - rewrite Ef, Hfr. eapply supply_le; [|exact S3]. apply Nat.add_le_mono_r, subseteq_size.
    intros q [Hq HqP]%elem_of_filter. apply elem_of_filter. split; [|done]. rewrite Em, Htab in Hq by (by apply HP). done.
Qed.

Lemma map_pages_spec s pm phy virt size flags P k :
  inv hhdm s (pml4 pm) -> 0 <= size <= 2 ^ 48 -> present flags = true -> short P ->
  (forall v p, v ∈ run_of virt (pages size) -> p ∈ prefixes v -> p ∈ P) ->
  supply (missing s (pml4 pm) P + k) (frames s) ->
  exists s', map_pages hhdm pm phy virt size flags s = Ret s' /\ inv hhdm s' (pml4 pm) /\
    (forall v, translate hhdm (mem s') (pml4 pm) v = mapped phy virt (pages size) flags (translate hhdm (mem s) (pml4 pm)) v) /\
    supply (missing s' (pml4 pm) P + k) (frames s').
Proof.
  intros Hinv Hsize Hp HP Hin Hsup. pose proof (pages_range size Hsize) as Hn. unfold map_pages. fold (pages size).
  destruct (for_range_inv (fun i s' => inv hhdm s' (pml4 pm) /\
      (forall v, translate hhdm (mem s') (pml4 pm) v = mapped phy virt i flags (translate hhdm (mem s) (pml4 pm)) v) /\
      supply (missing s' (pml4 pm) P + k) (frames s'))
    (Z.to_nat (pages size)) 0 (fun i s => map_page hhdm pm (u64 (phy + i * 0x1000)) (u64 (virt + i * 0x1000)) flags s) s)
    as (s' & -> & Hi & Htr & Hs).
  - split; [done|]. split; [|done]. intros v. unfold mapped.
    rewrite (proj2 (Z.ltb_ge _ _)); [done|]. by apply Z.mod_pos_bound.
  - intros i s1 Hi (Hinv1 & Htr & Hs1).
    destruct (map_page_missing s1 pm (u64 (phy + i * 0x1000)) (u64 (virt + i * 0x1000)) flags P k Hinv1 Hp HP)
      as (s2 & -> & Hinv2 & Htr2 & Hs2); [|done|].
    { intros p. apply Hin. unfold run_of. apply list_elem_of_fmap. exists i. split; [done|]. apply elem_of_seqZ. lia. }
    exists s2. split; [done|]. split; [done|]. split; [|done]. intros v. rewrite Htr2, mapped_step by lia.
    case_decide; [done|apply Htr].
  - exists s'. split; [done|]. split; [done|]. by rewrite Z2Nat.id, Z.add_0_l in Htr by lia.
Qed.

(** ** init *)
Lemma entry_flags_present e : present (entry_flags e) = true.
Proof. unfold entry_flags. by repeat case_match; vm_compute. Qed.

Lemma mapped_entries_ext es f f' : (forall v, f v = f' v) -> forall v, mapped_entries es f v = mapped_entries es f' v.
Proof.
  revert f f'. induction es as [|e es IH]; intros f f' Hf v; [apply Hf|]. cbn. apply IH. intros w.
  destruct (in_window e); [|done]. unfold mapped. by rewrite Hf.
Qed.

Lemma init_entries_spec pm P k es : forall s acc,
  inv hhdm s (pml4 pm) -> Forall (fun e => 0 <= len e <= 2 ^ 48) es -> short P ->
  (forall v p, v ∈ window_addresses es -> p ∈ prefixes v -> p ∈ P) ->
  supply (missing s (pml4 pm) P + k) (frames s) ->
  exists s', init_entries hhdm pm es s acc = Ret (s', kernel_bytes es acc) /\ inv hhdm s' (pml4 pm) /\
    (forall v, translate hhdm (mem s') (pml4 pm) v = mapped_entries es (translate hhdm (mem s) (pml4 pm)) v) /\
    supply (missing s' (pml4 pm) P + k) (frames s').
Proof.
  induction es as [|e es IH]; intros s acc Hinv Hes HP Hin Hsup; cbn [init_entries kernel_bytes mapped_entries].
  - by exists s.
  - apply Forall_cons in Hes as [He Hes]. cbn [window_addresses] in Hin.
    set (acc1 := if Pmm.type e =? _ then _ else acc). destruct (in_window e) eqn:Ew.
    + destruct (map_pages_spec s pm (Pmm.base e) (u64 (Pmm.base e + hhdm)) (len e) (entry_flags e) P k Hinv He
        (entry_flags_present e) HP) as (s1 & -> & Hinv1 & Htr1 & Hs1);
        [intros v p Hv; apply Hin, elem_of_app; by left|done|]. ored.
      destruct (IH s1 acc1 Hinv1 Hes HP) as (s' & -> & Hinv' & Htr' & Hs');
        [intros v p Hv; apply Hin, elem_of_app; by right|done|]. exists s'. split; [done|]. split; [done|].
      split; [|done]. intros v. rewrite Htr'. by apply mapped_entries_ext.
    + ored. by apply IH.
Qed.

Lemma add_range_spec s pm p r l :
  ranges_ok s pm l -> p ∉ range_list_head pm :: l ->
  exists s', add_range pm p r s = Ret s' /\ ranges_ok s' pm (p :: l) /\
    mem s' = mem s /\ frames s' = frames s /\ ranges s' = <[p := r]> (ranges s).
Proof.
  intros [Hring Hdom] Hp. unfold add_range. set (h0 := <[p := mkListHead 0 0]> (heads s)).
  assert (ring h0 (range_list_head pm) l) as Hring0.
  { destruct Hring as [Hnd Hl]. split; [done|]. eapply linked_ext; [| |exact Hl]; intros z Hz; unfold nxt, prv, h0;
      rewrite lookup_insert_ne; try done; intros ->; apply Hp; [done|].
    apply elem_of_app in Hz as [Hz|Hz%list_elem_of_singleton]; [by right|subst; left]. }
  destruct (add_entry h0 (range_list_head pm) l p Hring0 Hp) as (h1 & -> & Hring1 & _).
  { unfold h0. rewrite lookup_insert_eq. by eexists. }
  ored. eexists. split; [done|]. split; [|done]. split; [done|]. cbn.
  intros q Hq. destruct (decide (q = p)) as [->|Hne]; [rewrite lookup_insert_eq; by eexists|].
  rewrite lookup_insert_ne by done. apply elem_of_cons in Hq as [|Hq]; [done|]. by apply Hdom.
Qed.

Lemma start_list s pm :
  exists h, List.init (range_list_head pm) (<[range_list_head pm := mkListHead 0 0]> (heads s)) = Ret h /\
    ranges_ok (mkVm (mem s) (frames s) h (ranges s) (flushed s)) pm [].
Proof.
  destruct (init_ring (<[range_list_head pm := mkListHead 0 0]> (heads s)) (range_list_head pm)) as (h & -> & Hr).
  { rewrite lookup_insert_eq. by eexists. }
  exists h. split; [done|]. split; [done|]. intros p Hp. by apply not_elem_of_nil in Hp.
Qed.

(** The frames a page map is started with. *)
Lemma new_root s k :
  good (frames s) -> supply (S k) (frames s) ->
  exists p s1, new_page hhdm s = Ret (p, s1) /\ inv hhdm s1 (u64 (p + hhdm)) /\
    (forall v, translate hhdm (mem s1) (u64 (p + hhdm)) v = None) /\ supply k (frames s1).
Proof.
  intros Hg (p & a' & Ha & Hk). destruct (alloc_page_fresh (frames s) p a' Hg Ha) as (Hg' & Hp & _ & _ & Hown & _).
  unfold new_page. rewrite Ha. ored. eexists p, _. split; [done|]. cbn [frames set_frames set_mem].
  destruct (inv_cleared hhdm (set_mem (<[u64 (p + hhdm) := zero_page]> (mem s)) (set_frames a' s)) (u64 (p + hhdm)) p)
    as [Hinv Htr]; cbn; [done|done|apply wrap_small; lia|apply lookup_insert_eq|]. done.
Qed.

(** The tables [init] can need. *)
Definition init_tables (es : list limine_memmap_entry) (kernel_virt : Z) : gset (list Z) :=
  tables_for (window_addresses es ++ run_of kernel_virt (pages (kernel_bytes es 0))).

Definition kernel_page : Z := Z.lor PAGE_PRESENT PAGE_WRITABLE.
Definition heap_page : Z := Z.lor kernel_page PAGE_NO_EXECUTE.

(** The ranges [init] reserves. *)
Record kernel_ranges (s : vm A) (hhdm_range' heap_range : Z) : Prop := {
  kr_heap : ranges s !! heap_range = Some (mkMappedRange heap_begin heap_size heap_page ANONYMOUS);
  kr_window : ranges s !! hhdm_range' = Some (mkMappedRange hhdm (1024 * 1024 * 1024 * 1024) kernel_page DIRECT) }.

(** [init] with [k] pages to spare. *)
Lemma init_builds k s head hhdm_range' heap_range es kernel_phy kernel_virt :
  good (frames s) -> hhdm_range' <> head -> heap_range ∉ [hhdm_range'; head] ->
  Forall (fun e => 0 <= len e <= 2 ^ 48) es -> 0 <= kernel_bytes es 0 <= 2 ^ 48 ->
  supply (S (size (init_tables es kernel_virt) + k)) (frames s) ->
  exists pm s', Paging.init hhdm head hhdm_range' heap_range es kernel_phy kernel_virt s = Ret (pm, s', activate hhdm pm) /\
    inv hhdm s' (pml4 pm) /\
    (forall v, translate hhdm (mem s') (pml4 pm) v =
       mapped kernel_phy kernel_virt (pages (kernel_bytes es 0)) kernel_page (mapped_entries es (fun _ => None)) v) /\
    ranges_ok s' pm [heap_range; hhdm_range'] /\ kernel_ranges s' hhdm_range' heap_range /\ supply k (frames s').
Proof.
  intros Hg Hne Hheap Hes Hk Hsup. unfold Paging.init. fold kernel_page. fold heap_page.
  destruct (new_root s _ Hg Hsup) as (p & s1 & -> & Hinv1 & Htr1 & Hs1). ored.
  set (pm := mkPagemap (u64 (p + hhdm)) head). set (P := init_tables es kernel_virt) in *.
  assert (short P) as HP by apply short_tables.
  destruct (init_entries_spec pm P k es s1 0 Hinv1 Hes HP) as (s2 & -> & Hinv2 & Htr2 & Hs2).
  { intros v q Hv. apply tables_for_in, elem_of_app. by left. }
  { eapply supply_le; [|exact Hs1]. apply Nat.add_le_mono_r, subseteq_size. set_solver. }
  ored.
  destruct (map_pages_spec s2 pm kernel_phy kernel_virt (kernel_bytes es 0) kernel_page P k Hinv2 Hk eq_refl HP)
    as (s3 & -> & Hinv3 & Htr3 & Hs3).
  { intros v q Hv. apply tables_for_in, elem_of_app. by right. }
  { done. }
  ored.
  destruct (start_list s3 pm) as (h & Eh & Hr4). cbn [range_list_head pm] in Eh. rewrite Eh. ored.
  set (s4 := mkVm (mem s3) (frames s3) h (ranges s3) (flushed s3)) in *.
  destruct (add_range_spec s4 pm hhdm_range' (mkMappedRange hhdm (1024 * 1024 * 1024 * 1024) kernel_page DIRECT) [] Hr4)
    as (s5 & -> & Hr5 & Em5 & Ef5 & Er5). { cbn. set_solver. }
  ored.
  destruct (add_range_spec s5 pm heap_range (mkMappedRange heap_begin heap_size heap_page ANONYMOUS) [hhdm_range'] Hr5)
    as (s6 & -> & Hr6 & Em6 & Ef6 & Er6). { cbn. set_solver. }
  ored. assert (mem s6 = mem s3 /\ frames s6 = frames s3) as [Em Ef] by (by rewrite Em6, Em5, Ef6, Ef5).
  assert (inv hhdm s6 (pml4 pm)) as Hinv6 by (destruct Hinv3; split; by rewrite ?Em, ?Ef).
  exists pm, s6. split; [done|]. split; [done|]. split; [|split; [done|split]].
  - intros v. rewrite Em, Htr3. unfold mapped. case_match; [done|]. rewrite Htr2. by apply mapped_entries_ext.
  - split; rewrite Er6; [by rewrite lookup_insert_eq|]. rewrite lookup_insert_ne by set_solver. by rewrite Er5, lookup_insert_eq.
  - rewrite Ef. eapply supply_le; [|exact Hs3]. lia.
Qed.

(** A page of the heap is made when it is touched. *)
Lemma heap_fault s pm hhdm_range' heap_range virt :
  inv hhdm s (pml4 pm) -> supply 4 (frames s) ->
  ranges_ok s pm [heap_range; hhdm_range'] -> kernel_ranges s hhdm_range' heap_range ->
  heap_begin <= virt <= heap_begin + heap_size -> translate hhdm (mem s) (pml4 pm) virt = None ->
  exists f s2, handle_page_fault hhdm pm virt s = Ret (false, s2) /\ inv hhdm s2 (pml4 pm) /\
    ~ owned (frames s) f /\ mem s2 !! (f + hhdm) = Some zero_page /\
    now_maps hhdm s s2 (pml4 pm) virt (Z.lor f heap_page).
Proof.
  intros Hinv Hsup Hrok [Eheap Ewindow] Hv Hnone.
  destruct (fault_spec hhdm hhdm_range s pm virt [heap_range; hhdm_range'] Hinv Hsup Hrok)
    as (refused & s7 & Hf & Hinv7 & Hres).
  { intros q r [->| ->%list_elem_of_singleton]%elem_of_cons; [rewrite Eheap|rewrite Ewindow]; by intros [= <-]. }
  rewrite Hnone in Hres. cbn [first_range] in Hres. unfold contains in Hres. rewrite Eheap in Hres. cbn in Hres.
  rewrite (proj2 (Z.leb_le _ virt)), (proj2 (Z.leb_le virt _)) in Hres.
  2: { replace (u64 (heap_begin + heap_size)) with (heap_begin + heap_size) by (by vm_compute). lia. }
  2: lia.
  cbn in Hres. destruct Hres as (-> & r & Hr & Hres). rewrite Eheap in Hr. injection Hr as <-. cbn in Hres.
  destruct Hres as (f & ? & ? & ?). by exists f, s7.
Qed.

(** C9. [vmm::init] over the boot loader's memory map gives the kernel an address
    space that translates exactly what the reference [mapped_entries] says: the
    frames of the usable, reclaimable and frame buffer regions in the
    higher-half window with their flags, then the kernel's image; it loads it,
    reserves the window and the heap, and from then on every byte of the heap
    that is not mapped is given a fresh cleared page when it is touched. *)
Theorem init_establishes s head hhdm_range' heap_range es kernel_phy kernel_virt :
  good (frames s) -> hhdm_range' <> head -> heap_range ∉ [hhdm_range'; head] ->
  Forall (fun e => 0 <= len e <= 2 ^ 48) es -> 0 <= kernel_bytes es 0 <= 2 ^ 48 ->
  supply (S (size (init_tables es kernel_virt) + 4)) (frames s) ->
  exists pm s', Paging.init hhdm head hhdm_range' heap_range es kernel_phy kernel_virt s = Ret (pm, s', activate hhdm pm) /\
    inv hhdm s' (pml4 pm) /\
    (forall v, translate hhdm (mem s') (pml4 pm) v =
       mapped kernel_phy kernel_virt (pages (kernel_bytes es 0)) kernel_page (mapped_entries es (fun _ => None)) v) /\
    ranges_ok s' pm [heap_range; hhdm_range'] /\
    forall virt, heap_begin <= virt <= heap_begin + heap_size -> translate hhdm (mem s') (pml4 pm) virt = None ->
      exists f s2, handle_page_fault hhdm pm virt s' = Ret (false, s2) /\ inv hhdm s2 (pml4 pm) /\
        ~ owned (frames s') f /\ mem s2 !! (f + hhdm) = Some zero_page /\
        now_maps hhdm s' s2 (pml4 pm) virt (Z.lor f heap_page).
Proof.
  intros Hg Hne Hheap Hes Hk Hsup.
  destruct (init_builds 4 s head hhdm_range' heap_range es kernel_phy kernel_virt Hg Hne Hheap Hes Hk Hsup)
    as (pm & s' & E & Hinv & Htr & Hrok & Hkr & Hs'). exists pm, s'. split_and!; try done.
  intros virt. by apply (heap_fault s' pm hhdm_range' heap_range).
Qed.

(** ** User spaces share the kernel's upper half *)

(** The table or tables below [path] belong to the half that is not shared. *)
Definition lower (path : list Z) : Prop := match path with [] => True | i :: _ => i < 256 end.

(** [u] is a user's root, [k] the kernel's: what the kernel has in the upper half
    the user has too, and the kernel's other tables are none of the user's. *)
Record sharing s (k u : Z) : Prop := {
  sh_kernel : inv hhdm s k;
  sh_user : inv hhdm s u;
  sh_upper : forall i t, 256 <= i -> step hhdm (mem s) k i = Some t -> step hhdm (mem s) u i = Some t;
  sh_lower : forall p t, (List.length p <= 3)%nat -> lower p -> tab hhdm (mem s) k p = Some t -> data hhdm s u t }.

Lemma upper_path s k u p t :
  sharing s k u -> ~ lower p -> tab hhdm (mem s) k p = Some t -> tab hhdm (mem s) u p = Some t.
Proof.
  intros Hsh Hp. destruct p as [|i p]; [done|]. cbn in *. destruct (step hhdm (mem s) k i) as [t1|] eqn:E; [|done].
  rewrite (sh_upper _ _ _ Hsh i t1) by (done || lia). done.
Qed.

(** A memory that keeps the user's tables where they were and everything that is
    no table of the user's keeps the sharing. *)
Lemma sharing_keeps s s' k u :
  sharing s k u -> good (frames s') -> inv hhdm s' u ->
  (forall q x, (List.length q <= 3)%nat -> tab hhdm (mem s) u q = Some x -> tab hhdm (mem s') u q = Some x) ->
  (forall x, data hhdm s u x -> data hhdm s' u x /\ mem s' !! x = mem s !! x) ->
  (forall q, owned (frames s) q -> owned (frames s') q) ->
  sharing s' k u.
Proof.
  intros Hsh Hg Hu Htab Hdata Hown.
  assert (forall p, (List.length p <= 3)%nat -> lower p -> tab hhdm (mem s') k p = tab hhdm (mem s) k p) as Hlow.
  { intros p. induction p as [|j p IH] using rev_ind; intros Hl Hp; [done|]. rewrite length_app in Hl. cbn in Hl.
    assert (lower p) as Hp' by (by destruct p). rewrite !tab_snoc, IH by (done || lia).
    destruct (tab hhdm (mem s) k p) as [x|] eqn:Ex; [|done]. cbn. apply step_eq.
    apply Hdata, (sh_lower _ _ _ Hsh p); [lia|done..]. }
  assert (forall i t, 256 <= i -> step hhdm (mem s') k i = Some t -> step hhdm (mem s') u i = Some t) as Hup.
  { intros i t Hi Ht. rewrite (step_eq hhdm (mem s)) in Ht.
    - apply (sh_upper _ _ _ Hsh i t Hi) in Ht.
      pose proof (Htab [i] t ltac:(cbn; lia)) as H1. cbn in H1. rewrite Ht in H1. specialize (H1 eq_refl).
      by destruct (step hhdm (mem s') u i).
    - apply Hdata, (sh_lower _ _ _ Hsh []); [cbn; lia|done..]. }
  assert (forall p t, ~ lower p -> tab hhdm (mem s') k p = Some t -> tab hhdm (mem s') u p = Some t) as Hupp.
  { intros p t Hp. destruct p as [|i p]; [done|]. cbn in *. destruct (step hhdm (mem s') k i) as [t1|] eqn:E; [|done].
    rewrite (Hup i t1) by (done || lia). done. }
  assert (forall p, {lower p} + {~ lower p}) as dec.
  { intros [|i p]; cbn; [by left|]. destruct (decide (i < 256)); [by left|by right]. }
  split; [split|done|done|].
  - done.
  - intros p t Hl Ht. destruct (dec p) as [Hp|Hp].
    + rewrite Hlow in Ht by done. destruct (inv_table _ _ _ (sh_kernel _ _ _ Hsh) p t Hl Ht) as (tb & phys & Hm & Hlen & E & Ho).
      exists tb, phys. destruct (Hdata t) as [_ ->]; [by eapply (sh_lower _ _ _ Hsh p)|]. auto.
    + apply (inv_table _ _ _ Hu p); [done|by apply Hupp].
  - assert (forall p q t, (List.length p <= 3)%nat -> (List.length q <= 3)%nat -> lower p -> ~ lower q ->
      tab hhdm (mem s') k p = Some t -> tab hhdm (mem s') k q = Some t -> False) as Hmix.
    { intros p q t H1 H2 Hp Hq Tp Tq. rewrite Hlow in Tp by done. apply Hupp in Tq; [|done].
      destruct (Hdata t) as [[_ Hno] _]; [by eapply (sh_lower _ _ _ Hsh p)|]. by apply (Hno q). }
    intros p q t H1 H2 Tp Tq. destruct (dec p) as [Hp|Hp], (dec q) as [Hq|Hq].
    + rewrite Hlow in Tp, Tq by done. by apply (inv_path _ _ _ (sh_kernel _ _ _ Hsh) p q t).
    + exfalso. by apply (Hmix p q t).
    + exfalso. by apply (Hmix q p t).
    + apply (inv_path _ _ _ Hu p q t); [done|done|by apply Hupp|by apply Hupp].
  - intros p t Hl Hp Ht. rewrite Hlow in Ht by done. by apply Hdata, (sh_lower _ _ _ Hsh p).
Qed.

Definition kernel_view s s' (k : Z) : Prop := forall v, translate hhdm (mem s') k v = translate hhdm (mem s) k v.

Lemma upper_translate s k u v :
  sharing s k u -> 256 <= index4 v ->
  translate hhdm (mem s) k v = if step hhdm (mem s) k (index4 v) is Some _ then translate hhdm (mem s) u v else None.
Proof.
  intros Hsh Hv. unfold translate, indices. cbn. destruct (step hhdm (mem s) k (index4 v)) as [t|] eqn:E; [|done].
  rewrite (sh_upper _ _ _ Hsh _ t) by done. done.
Qed.

Lemma kernel_view_keeps s s' k u :
  sharing s k u -> sharing s' k u ->
  (forall x, data hhdm s u x -> mem s' !! x = mem s !! x) ->
  (forall v, 256 <= index4 v -> translate hhdm (mem s') u v = translate hhdm (mem s) u v) ->
  kernel_view s s' k.
Proof.
  intros Hsh Hsh' Hdata Htr v.
  assert (forall i, step hhdm (mem s') k i = step hhdm (mem s) k i) as Hroot.
  { intros i. apply step_eq, Hdata, (sh_lower _ _ _ Hsh []); [cbn; lia|done..]. }
  destruct (decide (256 <= index4 v)) as [Hv|Hv].
  - rewrite !(upper_translate _ k u) by done. by rewrite Hroot, Htr.
  - assert (forall p, (List.length p <= 3)%nat -> lower p -> tab hhdm (mem s') k p = tab hhdm (mem s) k p) as Hlow.
    { intros p. induction p as [|j p IH] using rev_ind; intros Hl Hp; [done|]. rewrite length_app in Hl. cbn in Hl.
      assert (lower p) as Hp' by (by destruct p). rewrite !tab_snoc, IH by (done || lia).
      destruct (tab hhdm (mem s) k p) as [x|] eqn:Ex; [|done]. cbn. apply step_eq.
      apply Hdata, (sh_lower _ _ _ Hsh p); [lia|done..]. }
    unfold translate. assert (lower (indices v)) as Hi by (unfold indices; cbn; lia).
    assert (List.length (indices v) <= 3)%nat as Hl3 by (unfold indices; cbn; lia).
    rewrite Hlow by done. destruct (tab hhdm (mem s) k (indices v)) as [x|] eqn:Ex; [|done]. cbn.
    by rewrite Hdata by (by eapply (sh_lower _ _ _ Hsh (indices v))).
Qed.

Lemma sharing_same s s' k u : mem s' = mem s -> frames s' = frames s -> sharing s k u -> sharing s' k u.
Proof.
  intros Em Ef [[] [] Hup Hlow]. split; [split|split|..]; unfold data; rewrite ?Em, ?Ef; done.
Qed.

(** Making tables, or taking a page. *)
Lemma extends_isolated s s' k u :
  extends hhdm u s s' -> sharing s k u -> sharing s' k u /\ kernel_view s s' k.
Proof.
  intros [Hi Ht Htr Ho Hd _] Hsh.
  assert (sharing s' k u) as Hsh' by (apply (sharing_keeps s); try done; by apply Hi).
  split; [done|]. apply (kernel_view_keeps s s' k u); [done|done|apply Hd|intros v _; apply Htr].
Qed.

(** Writing the entry of an address in the lower half. *)
Lemma leaf_isolated s k u virt t e :
  sharing s k u -> index4 virt < 256 -> tab hhdm (mem s) u (indices virt) = Some t ->
  exists s', write_entry t (index1 virt) e s = Ret s' /\ sharing s' k u /\ kernel_view s s' k /\ frames s' = frames s.
Proof.
  intros Hsh Hv Ht.
  destruct (write_leaf_spec hhdm hhdm_range s u virt t e (sh_user _ _ _ Hsh) Ht) as (s' & Ew & Hinv & Htr & _ & _ & _ & Hfr & Hoth & Htab).
  exists s'. split; [done|].
  assert (forall x, data hhdm s u x -> data hhdm s' u x /\ mem s' !! x = mem s !! x) as Hdata.
  { intros x [Ho Hx]. split; [split; [by rewrite Hfr|]|].
    - intros q Hq. rewrite Htab by done. by apply Hx.
    - apply Hoth. intros ->. by apply (Hx (indices virt)); [unfold indices; cbn; lia|]. }
  assert (sharing s' k u) as Hsh'.
  { apply (sharing_keeps s); [done| |done| |done|by rewrite Hfr].
    - apply Hinv.
    - intros q x Hq. by rewrite Htab. }
  split; [done|]. split; [|done]. apply (kernel_view_keeps s s' k u); [done|done|apply Hdata|].
  intros v Hup. rewrite Htr, decide_False; [done|]. intros E%page_eq. destruct E as [E _]. unfold indices in E.
  injection E as E _ _. lia.
Qed.

(** What a task does with the lower half of its address space never changes
    what the kernel sees: mapping a page there, and a page fault there whatever
    comes of it, return, keep every translation of the kernel's address space
    as it was, and keep the user's upper half the kernel's. *)
Theorem kernel_is_isolated s k pm virt phy flags l :
  sharing s k (pml4 pm) -> index4 virt < 256 -> supply 4 (frames s) -> ranges_ok s pm l ->
  (exists s', map_page hhdm pm phy virt flags s = Ret s' /\ sharing s' k (pml4 pm) /\ kernel_view s s' k) /\
  (exists refused s', handle_page_fault hhdm pm virt s = Ret (refused, s') /\ sharing s' k (pml4 pm) /\ kernel_view s s' k).
Proof.
  intros Hsh Hv Hsup Hr.
  destruct (descend_spec hhdm hhdm_range s pm virt 1 (sh_user _ _ _ Hsh) Hsup) as (t & s1 & Ed & Hext & Ht & Hs1).
  destruct (extends_isolated s s1 k (pml4 pm) Hext Hsh) as [Hsh1 Hk1].
  assert (forall s2, kernel_view s1 s2 k -> kernel_view s s2 k) as Htrans by (intros s2 H2 v; by rewrite H2, Hk1).
  destruct (read_leaf_spec hhdm s1 (pml4 pm) virt t (sh_user _ _ _ Hsh1) Ht) as (old & Er & _).
  unfold map_page, handle_page_fault. rewrite Ed. ored. rewrite Er. ored. split.
  - destruct (leaf_isolated s1 k (pml4 pm) virt t (Z.lor (Z.land phy ADDR) flags) Hsh1 Hv Ht) as (s2 & -> & Hsh2 & Hk2 & _). ored.
    eexists. split; [done|]. split; [|intros v; rewrite <- (Htrans s2 Hk2 v); by destruct (negb (old =? 0))].
    by apply (sharing_same s2); [destruct (negb (old =? 0))..|].
  - destruct (present old); cbn [negb]; [by exists true, s1|].
    destruct (ext_rest _ _ _ _ Hext) as (Eh & Era & _).
    assert (ranges_ok s1 pm l) as Hr1 by (unfold ranges_ok; by rewrite Eh, Era).
    rewrite (addr_to_range_spec s1 pm virt l Hr1). ored.
    destruct (first_range s1 virt l) as [p|] eqn:Hf; [|by exists true, s1].
    assert (is_Some (ranges s1 !! p)) as [r Hrp].
    { destruct Hr1 as [_ Hdom]. clear -Hf Hdom. induction l as [|q l IH]; [done|]. cbn in Hf.
      destruct (contains s1 virt q); [injection Hf as ->; apply Hdom; left|]. apply IH; try done. intros; apply Hdom; by right. }
    rewrite Hrp. ored. destruct (range_kind r).
    + destruct (leaf_isolated s1 k (pml4 pm) virt t (Z.lor (Z.land (u64 (virt - hhdm)) ADDR) (page_flags r)) Hsh1 Hv Ht)
        as (s2 & -> & Hsh2 & Hk2 & _). ored. exists false, s2. auto.
    + destruct Hs1 as (f & a' & Ha & _).
      destruct (new_page_spec hhdm hhdm_range s1 (pml4 pm) f a' (sh_user _ _ _ Hsh1) Ha) as (s2 & -> & Hext2 & _ & Htab2 & _). ored.
      destruct (extends_isolated s1 s2 k (pml4 pm) Hext2 Hsh1) as [Hsh2 Hk2].
      destruct (leaf_isolated s2 k (pml4 pm) virt t (Z.lor f (page_flags r)) Hsh2 Hv) as (s3 & -> & Hsh3 & Hk3 & _);
        [by rewrite Htab2 by (unfold indices; cbn; lia)|]. ored.
      exists false, s3. split; [done|]. split; [done|]. apply Htrans. intros v. by rewrite Hk3, Hk2.
Qed.

(** *** map_kernel *)
Lemma tab_data s root x ws p :
  data hhdm s root x -> (List.length p <= 3)%nat ->
  tab hhdm (<[x := ws]> (mem s)) root p = tab hhdm (mem s) root p.
Proof.
  intros [_ Hx]. induction p as [|j p IH] using rev_ind; intros Hp; [done|].
  rewrite length_app in Hp. cbn in Hp. rewrite !tab_snoc, IH by lia.
  destruct (tab hhdm (mem s) root p) as [y|] eqn:Hy; [|done]. cbn. apply step_eq.
  rewrite lookup_insert_ne; [done|]. intros ->. by apply (Hx p); [lia|].
Qed.

(** The top table after the copies up to entry [i]. *)
Definition copied (ktb : list Z) (i : Z) (tb : list Z) : Prop :=
  List.length tb = 512%nat /\
  forall j, 0 <= j < 512 -> zlookup tb j = if bool_decide (256 <= j < i) then zlookup ktb j else Some 0.

Lemma map_kernel_copies s kernel pm ktb :
  mem s !! pml4 kernel = Some ktb -> List.length ktb = 512%nat -> pml4 kernel <> pml4 pm ->
  mem s !! pml4 pm = Some zero_page ->
  exists tb, map_kernel kernel pm s = Ret (set_mem (<[pml4 pm := tb]> (mem s)) s) /\ copied ktb 512 tb.
Proof.
  intros Hk Hlk Hne Hu. unfold map_kernel.
  destruct (for_range_inv (fun i s' => exists tb, s' = set_mem (<[pml4 pm := tb]> (mem s)) s /\ copied ktb i tb)
    256 256 (fun i s => e ← read_entry (pml4 kernel) i s; write_entry (pml4 pm) i e s) s) as (s' & -> & tb & -> & Htb).
  - exists zero_page. split; [unfold set_mem; rewrite insert_id by done; by destruct s|]. split; [done|].
    intros j Hj. rewrite bool_decide_false by lia. unfold zero_page, zlookup. rewrite bool_decide_true by lia.
    apply lookup_replicate_2. lia.
  - intros i s1 Hi (tb & -> & Hl & Htb).
    destruct (read_entry_spec (set_mem (<[pml4 pm := tb]> (mem s)) s) (pml4 kernel) i ktb) as (e & -> & He);
      [cbn; by rewrite lookup_insert_ne|done|lia|]. ored.
    rewrite (write_entry_spec _ (pml4 pm) i e tb) by (done || lia || (cbn; apply lookup_insert_eq)).
    eexists. split; [done|]. exists (zinsert i e tb). split; [unfold set_mem; cbn; by rewrite insert_insert_eq|].
    split; [by rewrite length_zinsert|]. intros j Hj. destruct (decide (i = j)) as [->|Hij].
    + rewrite zlookup_zinsert_eq by lia. by rewrite bool_decide_true by lia.
    + rewrite zlookup_zinsert_ne by lia. rewrite Htb by done. by rewrite (bool_decide_ext (256 <= j < i) (256 <= j < i + 1)) by lia.
  - exists tb. by split.
Qed.

(** The tables of the new address space: in the upper half the kernel's. *)
Lemma map_kernel_tables s kernel pm :
  inv hhdm s (pml4 kernel) -> data hhdm s (pml4 kernel) (pml4 pm) -> mem s !! pml4 pm = Some zero_page ->
  exists tb, let s' := set_mem (<[pml4 pm := tb]> (mem s)) s in
    map_kernel kernel pm s = Ret s' /\ List.length tb = 512%nat /\
    forall i p, tab hhdm (mem s') (pml4 pm) (i :: p) = if 256 <=? i then tab hhdm (mem s') (pml4 kernel) (i :: p) else None.
Proof.
  set (k := pml4 kernel). set (u := pml4 pm). intros Hinv Hdata Hz.
  destruct (inv_table _ _ _ Hinv [] k ltac:(cbn; lia) eq_refl) as (ktb & kphys & Hk & Hlk & _ & _).
  assert (k <> u) as Hne by (intros E; apply (proj2 Hdata []); [cbn; lia|by rewrite <- E]).
  destruct (map_kernel_copies s kernel pm ktb Hk Hlk Hne Hz) as (tb & Emk & Hl & Htb). fold u in Emk.
  exists tb. set (s' := set_mem (<[u := tb]> (mem s)) s) in *. split; [done|]. split; [done|].
  assert (forall i, step hhdm (mem s') u i = if 256 <=? i then step hhdm (mem s') k i else None) as Hstep.
  { intros i. unfold step. cbn [s' set_mem mem]. rewrite lookup_insert_eq, lookup_insert_ne, Hk by done. cbn.
    destruct (decide (0 <= i < 512)) as [Hi|Hi].
    - rewrite Htb by done. destruct (Z.leb_spec 256 i); [by rewrite bool_decide_true by lia|by rewrite bool_decide_false by lia].
    - rewrite !zlookup_None by lia. by destruct (256 <=? i). }
  intros i p. cbn. rewrite Hstep. by destruct (256 <=? i).
Qed.

Lemma map_kernel_entry s kernel pm :
  inv hhdm s (pml4 kernel) -> data hhdm s (pml4 kernel) (pml4 pm) -> mem s !! pml4 pm = Some zero_page ->
  exists s', map_kernel kernel pm s = Ret s' /\ sharing s' (pml4 kernel) (pml4 pm) /\ kernel_view s s' (pml4 kernel) /\
    forall v, translate hhdm (mem s') (pml4 pm) v =
              if 256 <=? index4 v then translate hhdm (mem s) (pml4 kernel) v else None.
Proof.
  set (k := pml4 kernel). set (u := pml4 pm). intros Hinv Hdata Hz.
  destruct (map_kernel_tables s kernel pm Hinv Hdata Hz) as (tb & -> & Hl & Hcons). fold u k in Hcons |- *.
  destruct (data_write hhdm s k u tb Hinv Hdata) as (Hinvk & Hview & _).
  set (s' := set_mem (<[u := tb]> (mem s)) s) in *. change (<[u := tb]> (mem s)) with (mem s') in Hview.
  assert (forall p, (List.length p <= 3)%nat -> tab hhdm (mem s') k p = tab hhdm (mem s) k p) as Htab
    by (intros p Hp; by apply tab_data).
  assert (forall p, (List.length p <= 3)%nat -> tab hhdm (mem s') k p <> Some u) as Hno.
  { intros p Hp. rewrite Htab by done. by apply Hdata. }
  exists s'. split; [done|]. split; [split|split; [done|]].
  - done.
  - split; [apply Hinvk| |].
    + intros [|i p] t Hp Ht.
      * injection Ht as <-. destruct Hdata as [(q & Eq & Hq) _]. exists tb, q. cbn. rewrite lookup_insert_eq. done.
      * rewrite Hcons in Ht. destruct (256 <=? i); [|done]. by apply (inv_table _ _ _ Hinvk (i :: p)).
    + intros [|i p] [|j q] t Hp Hq Tp Tq; [done|..].
      * injection Tp as <-. rewrite Hcons in Tq. destruct (256 <=? j); [|done]. by apply Hno in Tq.
      * injection Tq as <-. rewrite Hcons in Tp. destruct (256 <=? i); [|done]. by apply Hno in Tp.
      * rewrite Hcons in Tp, Tq. destruct (256 <=? i), (256 <=? j); try done. by apply (inv_path _ _ _ Hinvk _ _ t).
  - intros i t Hi Ht. pose proof (Hcons i []) as Hi1. cbn in Hi1. rewrite (proj2 (Z.leb_le _ _)) in Hi1 by lia.
    change (<[u:=tb]> (mem s)) with (mem s') in Hi1. rewrite Ht in Hi1. cbn in Hi1. by destruct (step _ _ u i).
  - intros p t Hp Hlow Ht. split.
    + destruct (inv_table _ _ _ Hinvk p t Hp Ht) as (_ & phys & _ & _ & E & Ho). by exists phys.
    + intros [|j q] Hq Tq.
      * injection Tq as <-. by apply (Hno p).
      * rewrite Hcons in Tq. destruct (Z.leb_spec 256 j); [|done].
        rewrite (inv_path _ _ _ Hinvk p (j :: q) t Hp Hq Ht Tq) in Hlow. cbn in Hlow. lia.
  - intros v. rewrite <- Hview. unfold translate, indices. rewrite Hcons. by destruct (256 <=? index4 v).
Qed.

(** [map_kernel] on a cleared top table gives a user the kernel's address
    space in the upper half and nothing in the lower one, leaves the kernel's
    as it was, and makes the two share it as [kernel_is_isolated] asks for. *)
Theorem map_kernel_shares s kernel pm :
  inv hhdm s (pml4 kernel) -> data hhdm s (pml4 kernel) (pml4 pm) -> mem s !! pml4 pm = Some zero_page ->
  exists s', map_kernel kernel pm s = Ret s' /\ sharing s' (pml4 kernel) (pml4 pm) /\ kernel_view s s' (pml4 kernel) /\
    forall v, translate hhdm (mem s') (pml4 pm) v =
              if 256 <=? index4 v then translate hhdm (mem s) (pml4 kernel) v else None.
Proof. apply map_kernel_entry. Qed.

End AddressSpace.

(** ** A concrete kernel and user *)
Fixpoint drain {A : Type} `{PageAllocator A} (n : nat) (a : A) : bool :=
  match n with
  | O => true
  | S n => match alloc_page a with Ret (_, a') => drain n a' | _ => false end
  end.

Lemma drain_supply {A : Type} `{PageAllocator A} n (a : A) : drain n a = true -> supply n a.
Proof.
  revert a. induction n as [|n IH]; intros a; cbn [drain supply]; [done|].
  destruct (alloc_page a) as [[p a']| | |]; [|done..]. intros E. exists p, a'. split; [done|by apply IH].
Qed.

Definition map0 : list limine_memmap_entry :=
  [mkEntry 0 0x10000 LIMINE_MEMMAP_USABLE; mkEntry 0x100000 0x2000 LIMINE_MEMMAP_KERNEL_AND_MODULES].
Definition started : vm pmm := mkVm ∅ pages64 ∅ ∅ [].

Lemma pages64_good : good pages64.
Proof. split; [split; [by vm_compute|split; [split; by vm_compute|by vm_compute]]|]. split; by vm_compute. Qed.

Lemma init_establishes_witness :
  exists pm s', Paging.init window 1000 1001 1002 map0 0x100000 0xFFFFFFFF80000000 started = Ret (pm, s', activate window pm) /\
    translate window (mem s') (pml4 pm) (window + 0x5000) = Some (Z.lor 0x5003 PAGE_NO_EXECUTE) /\
    exists f s2, handle_page_fault window pm 0xFFFFFFFFC0001234 s' = Ret (false, s2) /\
      mem s2 !! (f + window) = Some zero_page.
Proof.
  destruct (init_establishes window window_range started 1000 1001 1002 map0 0x100000 0xFFFFFFFF80000000)
    as (pm & s' & E & _ & Htr & _ & Hheap).
  - exact pages64_good.
  - lia.
  - set_solver.
  - repeat constructor; cbn; lia.
  - vm_compute. split; discriminate.
  - apply drain_supply. vm_compute. reflexivity.
  - exists pm, s'. split; [exact E|]. split; [rewrite Htr; vm_compute; reflexivity|].
    destruct (Hheap 0xFFFFFFFFC0001234) as (f & s2 & Hf & _ & _ & Hz & _);
      [vm_compute; split; discriminate|rewrite Htr; vm_compute; reflexivity|].
    exists f, s2. split; [exact Hf|exact Hz].
Defined.

(** The kernel of [vm0], and a user whose top table is the next page. *)
Definition user_map : Pagemap := mkPagemap (window + 0x2000) 3000.
Definition vm1 : vm pmm :=
  match new_page window vm0 with
  | Ret (_, s) => mkVm (mem s) (frames s) (<[3000 := mkListHead 3000 3000]> (heads s)) (ranges s) []
  | _ => vm0
  end.

Lemma vm1_inv : inv window vm1 (pml4 the_map) /\ data window vm1 (pml4 the_map) (pml4 user_map).
Proof.
  destruct (inv_cleared window vm1 (pml4 the_map) 0x1000) as [Hinv _].
  - split; [split; [by vm_compute|split; [split; by vm_compute|by vm_compute]]|]. split; by vm_compute.
  - split; [done|]. split; [done|]. by vm_compute.
  - done.
  - by vm_compute.
  - split; [done|]. split; [exists 0x2000; split; [done|]; split; [done|]; split; [done|by vm_compute]|].
    assert (mem vm1 !! pml4 the_map = Some zero_page) as Hz by (by vm_compute).
    intros [|i p] Hp; [by vm_compute|]. cbn [tab]. unfold step. rewrite Hz. cbn.
    destruct (zlookup zero_page i) as [e|] eqn:He; [|done]. by apply zlookup_zero_page in He as ->.
Qed.

Lemma map_kernel_shares_witness :
  exists s', map_kernel the_map user_map vm1 = Ret s' /\ sharing window s' (pml4 the_map) (pml4 user_map) /\
    translate window (mem s') (pml4 user_map) 0x400000 = None.
Proof.
  destruct (map_kernel_shares window vm1 the_map user_map (proj1 vm1_inv) (proj2 vm1_inv)) as (s' & E & Hs & _ & Htr);
    [by vm_compute|].
  exists s'. split; [exact E|]. split; [exact Hs|]. rewrite Htr. reflexivity.
Defined.

Definition vm2 : vm pmm := match map_kernel the_map user_map vm1 with Ret s => s | _ => vm1 end.

Lemma vm2_sharing : sharing window vm2 (pml4 the_map) (pml4 user_map).
Proof.
  destruct (map_kernel_entry window vm1 the_map user_map (proj1 vm1_inv) (proj2 vm1_inv)) as (s' & E & Hs & _);
    [by vm_compute|].
  unfold vm2. rewrite E. exact Hs.
Qed.

Lemma kernel_is_isolated_witness :
  exists s', map_page window user_map 0x5000 0x400000 7 vm2 = Ret s' /\
    sharing window s' (pml4 the_map) (pml4 user_map) /\ kernel_view window vm2 s' (pml4 the_map).
Proof.
  apply (kernel_is_isolated window window_range vm2 (pml4 the_map) user_map 0x400000 0x5000 7 []).
  - exact vm2_sharing.
  - vm_compute. reflexivity.
  - apply drain_supply. vm_compute. reflexivity.
  - split; [split; [apply NoDup_singleton|vm_compute; split; reflexivity]|].
    intros p Hp. exfalso. exact (not_elem_of_nil p Hp).
Defined.

(** Tables the kernel makes in the upper half after [map_kernel] are not shared:
    an address first mapped for the kernel then is missing for the user. *)
Example later_kernel_tables_are_not_shared :
  (s ← map_page window the_map 0x5000 (window + 0x5000) 3 vm2;
   Ret (translate window (mem s) (pml4 the_map) (window + 0x5000),
        translate window (mem s) (pml4 user_map) (window + 0x5000))) = Ret (Some 0x5003, None).
Proof. by vm_compute. Qed.
