(* ===== verification/Spaces.v ===== *)
(** * Many address spaces in one memory

    File AddressSpace is about the kernel and one user.  Here any number of
    roots live in one memory, and the tables two of them share hang, in both,
    at the same place of the upper half: [spaces].  Whatever is done through one
    root keeps that, and changes what another root translates only where the
    two share tables. *)
From S2P Require Import Prelude Algorithm Bitmap Pmm List Paging AddressSpace.

Section Spaces.
Context {A : Type} `{PageAllocator A}.
Context (hhdm : Z) (hhdm_range : 0 <= hhdm <= 2 ^ 64 - 2 ^ 46).
Implicit Types (s : vm A) (pm : Pagemap) (u r : Z) (R : Z -> Prop).

Local Abbreviation tables s := (tab hhdm (mem s)).
Local Abbreviation translation s := (translate hhdm (mem s)).

(** [R] are the roots. *)
Record spaces s R : Prop := {
  sp_inv r : R r -> inv hhdm s r;
  sp_apart r1 r2 p1 p2 x : R r1 -> R r2 -> r1 <> r2 -> (List.length p1 <= 3)%nat -> (List.length p2 <= 3)%nat ->
    tables s r1 p1 = Some x -> tables s r2 p2 = Some x -> p1 = p2 /\ ~ lower p1
}.

(** What an operation on the address space [u] may do to a memory: tables stay
    tables, and what is no table of [u]'s stays as it is. *)
Record grows u s s' : Prop := {
  gr_inv : inv hhdm s' u;
  gr_tab p x : (List.length p <= 3)%nat -> tables s u p = Some x -> tables s' u p = Some x;
  gr_owned q : owned (frames s) q -> owned (frames s') q;
  gr_data x : data hhdm s u x -> data hhdm s' u x /\ mem s' !! x = mem s !! x
}.

Lemma grows_trans u s1 s2 s3 : grows u s1 s2 -> grows u s2 s3 -> grows u s1 s3.
Proof.
  intros [_ T1 O1 D1] [Hi T2 O2 D2]. split; [done|eauto|eauto|].
  intros x [Hx E1]%D1. apply D2 in Hx as [Hx E2]. by rewrite E2.
Qed.

Lemma extends_grows u s s' : extends hhdm u s s' -> grows u s s'.
Proof. by intros []. Qed.

Lemma spaces_subset s R R' : (forall r, R' r -> R r) -> spaces s R -> spaces s R'.
Proof. intros Hsub [Hi Ha]. split; [auto|]. intros r1 r2 p1 p2 x H1 H2. apply Ha; auto. Qed.

(** A memory with the same pages and at least the same frames given out. *)
Lemma spaces_same s s' R : mem s' = mem s -> frames s' = frames s -> spaces s R -> spaces s' R.
Proof.
  intros Em Ef [Hi Ha]. split; [|by rewrite Em]. intros r Hr. destruct (Hi r Hr). split; rewrite ?Em, ?Ef; done.
Qed.

(** A table of one root is one of the other's, at the same place of the upper
    half, or nothing of the other's. *)
Lemma table_or_data s R r u p x :
  spaces s R -> R r -> R u -> r <> u -> (List.length p <= 3)%nat -> tables s r p = Some x ->
  tables s u p = Some x /\ ~ lower p \/ data hhdm s u x.
Proof.
  intros Hs Hr Hu Hne Hp Hx. destruct (decide (tables s u p = Some x)) as [E|E].
  - left. split; [done|]. by destruct (sp_apart _ _ Hs r u p p x).
  - right. destruct (inv_table _ _ _ (sp_inv _ _ Hs r Hr) p x Hp Hx) as (_ & phys & _ & _ & Ex & Ho).
    split; [by exists phys|]. intros q Hq Eq. by destruct (sp_apart _ _ Hs r u p q x) as [<- _].
Qed.

Lemma lower_data s R r u p x :
  spaces s R -> R r -> R u -> r <> u -> (List.length p <= 3)%nat -> lower p -> tables s r p = Some x ->
  data hhdm s u x.
Proof. intros Hs Hr Hu Hne Hp Hl Hx. by destruct (table_or_data s R r u p x) as [[_ ?]|?]. Qed.

Section operation.
Context (R : Z -> Prop) (u : Z) (s s' : vm A).
Hypothesis (Hs : spaces s R) (Hu : R u) (Hg : grows u s s').

Section other.
Context (r : Z).
Hypothesis (Hr : R r) (Hne : r <> u).

(** The other root's tables afterwards: its own, as they were, and some of
    [u]'s. *)
Lemma other_tables p x :
  (List.length p <= 3)%nat -> tables s' r p = Some x ->
  tables s r p = Some x /\ data hhdm s u x \/ tables s' u p = Some x /\ ~ lower p.
Proof.
  revert x. induction p as [|i p IH] using rev_ind; intros x Hp.
  - intros [= <-]. left. split; [done|]. by apply (lower_data s R r u []).
  - rewrite length_app in Hp. cbn in Hp. rewrite tab_snoc. destruct (tables s' r p) as [y|] eqn:Ey; [|done]. cbn. intros Hx.
    assert (tables s' u p = Some y /\ ~ lower p -> tables s' u (p ++ [i]) = Some x /\ ~ lower (p ++ [i])) as Hshared.
    { intros [E Hl]. rewrite tab_snoc, E. split; [done|]. by destruct p. }
    destruct (IH y ltac:(lia) eq_refl) as [[E Hd]|]; [|right; by apply Hshared].
    destruct (gr_data _ _ _ Hg y Hd) as [_ Em]. rewrite (step_eq hhdm (mem s)) in Hx by done.
    assert (tables s r (p ++ [i]) = Some x) as Hx0 by (by rewrite tab_snoc, E).
    destruct (table_or_data s R r u (p ++ [i]) x) as [[Ex Hl]|Hdx]; try done.
    + by rewrite length_app; cbn; lia.
    + right. split; [|done]. apply (gr_tab _ _ _ Hg); [rewrite length_app; cbn; lia|done].
    + by left.
Qed.

Lemma other_keeps p x : (List.length p <= 3)%nat -> tables s r p = Some x -> tables s' r p = Some x.
Proof.
  revert x. induction p as [|i p IH] using rev_ind; intros x Hp; [done|].
  rewrite length_app in Hp. cbn in Hp. rewrite !tab_snoc. destruct (tables s r p) as [y|] eqn:Ey; [|done]. cbn. intros Hx.
  rewrite (IH y ltac:(lia) eq_refl). cbn.
  destruct (table_or_data s R r u p y) as [[E Hl]|Hd]; try done; try lia.
  - assert (tables s u (p ++ [i]) = Some x) as Hux by (by rewrite tab_snoc, E).
    apply (gr_tab _ _ _ Hg) in Hux; [|rewrite length_app; cbn; lia]. rewrite tab_snoc in Hux.
    by rewrite (gr_tab _ _ _ Hg p y ltac:(lia) E) in Hux.
  - destruct (gr_data _ _ _ Hg y Hd) as [_ Em]. by rewrite (step_eq hhdm (mem s)).
Qed.

(** A table that was [u]'s already and is now seen from [r] was seen before. *)
Lemma other_back p x :
  (List.length p <= 3)%nat -> tables s' r p = Some x -> tables s u p = Some x -> tables s r p = Some x.
Proof.
  revert x. induction p as [|i p IH] using rev_ind; intros x Hp; [done|].
  rewrite length_app in Hp. cbn in Hp. rewrite !tab_snoc. destruct (tables s' r p) as [y|] eqn:Ey; [|done]. cbn. intros Hx.
  destruct (tables s u p) as [z|] eqn:Ez; [|done]. cbn. intros Hz.
  destruct (other_tables p y ltac:(lia) Ey) as [[-> Hd]|[E Hl]].
  - cbn. destruct (gr_data _ _ _ Hg y Hd) as [_ Em]. by rewrite <- (step_eq hhdm (mem s) (mem s')).
  - assert (z = y) as -> by (apply (gr_tab _ _ _ Hg) in Ez; [congruence|lia]).
    by rewrite (IH y ltac:(lia) eq_refl eq_refl).
Qed.

Lemma other_inv : inv hhdm s' r.
Proof.
  split; [apply (inv_good _ _ _ (gr_inv _ _ _ Hg))| |].
  - intros p t Hp Ht. destruct (other_tables p t Hp Ht) as [[E Hd]|[E _]]; [|by apply (inv_table _ _ _ (gr_inv _ _ _ Hg) p)].
    destruct (inv_table _ _ _ (sp_inv _ _ Hs r Hr) p t Hp E) as (tb & phys & Hm & Hl & Et & Ho).
    exists tb, phys. destruct (gr_data _ _ _ Hg t Hd) as [_ ->]. split_and!; try done. by apply (gr_owned _ _ _ Hg).
  - intros p q t Hp Hq Tp Tq. destruct (other_tables p t Hp Tp) as [[Ep Dp]|[Ep Lp]], (other_tables q t Hq Tq) as [[Eq Dq]|[Eq Lq]].
    + by apply (inv_path _ _ _ (sp_inv _ _ Hs r Hr) p q t).
    + exfalso. by apply (gr_data _ _ _ Hg t Dp) in Eq.
    + exfalso. by apply (gr_data _ _ _ Hg t Dq) in Ep.
    + by apply (inv_path _ _ _ (gr_inv _ _ _ Hg) p q t).
Qed.

(** What [r] translates stays as it was, or is what [u] translates now. *)
Lemma other_translation v :
  translation s' r v = translation s r v \/ 256 <= index4 v /\ translation s' r v = translation s' u v.
Proof.
  assert (List.length (indices v) <= 3)%nat as Hl by (unfold indices; cbn; lia).
  unfold translate. destruct (tables s' r (indices v)) as [x|] eqn:Ex.
  - destruct (other_tables (indices v) x Hl Ex) as [[-> Hd]|[-> Hlow]].
    + left. cbn. by destruct (gr_data _ _ _ Hg x Hd) as [_ ->].
    + right. split; [|done]. unfold indices in Hlow. cbn in Hlow. lia.
  - left. destruct (tables s r (indices v)) as [x|] eqn:E; [|done]. apply (other_keeps (indices v) x Hl) in E. congruence.
Qed.

Lemma other_view v :
  index4 v < 256 \/ translation s' u v = translation s u v -> translation s' r v = translation s r v.
Proof.
  intros Hv. destruct (other_translation v) as [|[Hup E]]; [done|]. destruct Hv as [?|Hv]; [lia|].
  assert (List.length (indices v) <= 3)%nat as Hl by (unfold indices; cbn; lia).
  unfold translate in E, Hv |- *. destruct (tables s' r (indices v)) as [x|] eqn:Ex.
  - destruct (other_tables (indices v) x Hl Ex) as [[-> Hd]|[Eu Hlow]];
      [cbn; by destruct (gr_data _ _ _ Hg x Hd) as [_ ->]|].
    rewrite E, Hv. destruct (tables s u (indices v)) as [y|] eqn:Ey.
    + assert (y = x) as -> by (apply (gr_tab _ _ _ Hg) in Ey; [congruence|done]).
      by rewrite (other_back (indices v) x Hl Ex Ey).
    + destruct (tables s r (indices v)) as [z|] eqn:Ez; [|done]. exfalso.
      pose proof (other_keeps (indices v) z Hl Ez) as Ez'. assert (z = x) as -> by congruence.
      destruct (table_or_data s R r u (indices v) x) as [[? _]|Hd]; try done; [congruence|].
      by apply (gr_data _ _ _ Hg x Hd) in Eu.
  - destruct (tables s r (indices v)) as [x|] eqn:Ez; [|done]. apply (other_keeps (indices v) x Hl) in Ez. congruence.
Qed.
End other.

Lemma grows_spaces : spaces s' R.
Proof.
  assert (forall r p x, R r -> (List.length p <= 3)%nat -> tables s' r p = Some x ->
    r <> u /\ tables s r p = Some x /\ data hhdm s u x \/ tables s' u p = Some x /\ (r = u \/ ~ lower p)) as Hcase.
  { intros r p x Hr Hp Hx. destruct (decide (r = u)) as [->|Hne]; [by right; auto|].
    destruct (other_tables r Hr Hne p x Hp Hx) as [[? ?]|[? ?]]; auto. }
  split.
  - intros r Hr. destruct (decide (r = u)) as [->|Hne]; [apply Hg|by apply other_inv].
  - intros r1 r2 p1 p2 x H1 H2 Hne Hp1 Hp2 T1 T2.
    destruct (Hcase r1 p1 x H1 Hp1 T1) as [(N1 & E1 & D1)|[E1 L1]], (Hcase r2 p2 x H2 Hp2 T2) as [(N2 & E2 & D2)|[E2 L2]].
    + by apply (sp_apart _ _ Hs r1 r2 p1 p2 x).
    + exfalso. by apply (gr_data _ _ _ Hg x D1) in E2.
    + exfalso. by apply (gr_data _ _ _ Hg x D2) in E1.
    + assert (p1 = p2) as <- by (by apply (inv_path _ _ _ (gr_inv _ _ _ Hg) p1 p2 x)).
      split; [done|]. destruct L1 as [->|?]; [|done]. by destruct L2 as [->|?].
Qed.

(** Frames that are no tables of any root stay so, and keep their contents. *)
Lemma grows_data x : (forall r, R r -> data hhdm s r x) -> (forall r, R r -> data hhdm s' r x) /\ mem s' !! x = mem s !! x.
Proof.
  intros Hx. destruct (gr_data _ _ _ Hg x (Hx u Hu)) as [Hux Em]. split; [|done].
  intros r Hr. destruct (decide (r = u)) as [->|Hne]; [done|]. destruct Hux as [(q & Eq & Ho) Hn]. split; [by exists q|].
  intros p Hp Ep. destruct (other_tables r Hr Hne p x Hp Ep) as [[E _]|[E _]]; [|by apply (Hn p)].
  by apply (Hx r Hr) in E.
Qed.

End operation.
(** ** The operations, when they return *)
Lemma next_level_ret s root path t i t' s' :
  inv hhdm s root -> tables s root path = Some t -> (List.length path <= 2)%nat -> 0 <= i < 512 ->
  page_table_next_level hhdm t i s = Ret (t', s') ->
  extends hhdm root s s' /\ tables s' root (path ++ [i]) = Some t'.
Proof.
  intros Hinv Ht Hp Hi E. pose proof E as E0. unfold page_table_next_level in E. apply bind_Ret in E as (e & Er & E).
  destruct (present e) eqn:Hpres.
  - injection E as <- <-. split; [by apply extends_refl|]. rewrite tab_snoc, Ht. cbn. unfold read_entry in Er.
    unfold Paging.step. destruct (mem s !! t) as [tb|]; [|done]. cbn in *. destruct (zlookup tb i) as [e'|]; [|done].
    cbn in *. injection Er as ->. by rewrite Hpres.
  - apply bind_Ret in E as ([p s1] & En & _). unfold new_page in En. apply bind_Ret in En as ([q a] & Ea & _).
    destruct (next_level_spec hhdm hhdm_range s root path t i 0 Hinv Ht Hp Hi) as (t2 & s2 & E2 & Hext & Htab & _);
      [by exists q, a|]. rewrite E0 in E2. by injection E2 as -> ->.
Qed.

Lemma descend_ret s pm virt t s' :
  inv hhdm s (pml4 pm) -> descend hhdm pm virt s = Ret (t, s') ->
  extends hhdm (pml4 pm) s s' /\ tables s' (pml4 pm) (indices virt) = Some t.
Proof.
  intros Hinv E. unfold descend in E. apply bind_Ret in E as ([t1 s1] & E1 & E). apply bind_Ret in E as ([t2 s2] & E2 & E3).
  destruct (next_level_ret s (pml4 pm) [] (pml4 pm) _ _ _ Hinv eq_refl ltac:(cbn; lia) (index_range _ _) E1) as [X1 T1].
  destruct (next_level_ret s1 (pml4 pm) _ _ _ _ _ (ext_inv _ _ _ _ X1) T1 ltac:(cbn; lia) (index_range _ _) E2) as [X2 T2].
  destruct (next_level_ret s2 (pml4 pm) _ _ _ _ _ (ext_inv _ _ _ _ X2) T2 ltac:(cbn; lia) (index_range _ _) E3) as [X3 T3].
  split; [|done]. eapply extends_trans; [eapply extends_trans|]; done.
Qed.

(** [root]'s own view after an operation: one page may be translated anew. *)
Definition remapped s s' (root virt e : Z) : Prop :=
  forall v, translation s' root v = if decide (page v = page virt) then visible e else translation s root v.

Lemma leaf_ret s root virt t e s' :
  inv hhdm s root -> tables s root (indices virt) = Some t -> write_entry t (index1 virt) e s = Ret s' ->
  grows root s s' /\ remapped s s' root virt e /\ heads s' = heads s /\ ranges s' = ranges s /\ frames s' = frames s.
Proof.
  intros Hinv Ht E.
  destruct (write_leaf_spec hhdm hhdm_range s root virt t e Hinv Ht) as (s1 & E1 & Hinv' & Htr & Eh & Er & _ & Ef & Hoth & Htab).
  rewrite E in E1. injection E1 as <-. split; [|done]. split; [done|intros p x Hp; by rewrite Htab|by rewrite Ef|].
  intros x [Ho Hx]. assert (x <> t) as Hne.
  { intros ->. apply (Hx (indices virt)); [unfold indices; cbn; lia|done]. }
  rewrite Hoth by done. split; [|done]. split; [by rewrite Ef|]. intros p Hp. rewrite Htab by done. by apply Hx.
Qed.

Lemma map_page_ret s pm phy virt flags s' :
  inv hhdm s (pml4 pm) -> map_page hhdm pm phy virt flags s = Ret s' ->
  grows (pml4 pm) s s' /\ remapped s s' (pml4 pm) virt (Z.lor (Z.land phy ADDR) flags) /\
  heads s' = heads s /\ ranges s' = ranges s.
Proof.
  intros Hinv E. unfold map_page in E. apply bind_Ret in E as ([t s1] & Ed & E).
  destruct (descend_ret _ _ _ _ _ Hinv Ed) as [Hext Ht]. apply bind_Ret in E as (old & _ & E). apply bind_Ret in E as (s2 & Ew & E).
  destruct (leaf_ret _ _ _ _ _ _ (ext_inv _ _ _ _ Hext) Ht Ew) as (Hg & Hr & Eh & Er & Ef).
  destruct (ext_rest _ _ _ _ Hext) as (Eh1 & Er1 & _).
  assert (mem s' = mem s2 /\ frames s' = frames s2 /\ heads s' = heads s2 /\ ranges s' = ranges s2) as (Em & Ef' & Eh' & Er')
    by (injection E as <-; by destruct (negb (old =? 0))).
  split; [|split; [|split; congruence]].
  - apply (grows_trans _ s s1); [by apply extends_grows|]. destruct Hg as [Hi Ht' Ho Hd].
    split; unfold data; rewrite ?Em, ?Ef'; try done. destruct Hi. split; rewrite ?Em, ?Ef'; done.
  - intros v. rewrite Em, Hr. by rewrite (ext_translate _ _ _ _ Hext).
Qed.

Lemma new_page_ret s root p s' :
  inv hhdm s root -> new_page hhdm s = Ret (p, s') ->
  extends hhdm root s s' /\ mem s' !! (p + hhdm) = Some zero_page /\ 0 < p < 2 ^ 46 /\ p mod 0x1000 = 0 /\
  ~ owned (frames s) p /\ owned (frames s') p /\ (forall x, x <> p + hhdm -> mem s' !! x = mem s !! x) /\
  (forall q, (List.length q <= 3)%nat -> tables s' root q = tables s root q).
Proof.
  intros Hinv E. pose proof E as E0. unfold new_page in E. apply bind_Ret in E as ([q a] & Ea & E).
  injection E as -> Es. destruct (new_page_spec hhdm hhdm_range s root p a Hinv Ea) as (s1 & E1 & Hext & Ef & Htab & Hz).
  rewrite E0 in E1. injection E1 as <-.
  destruct (alloc_page_fresh (frames s) p a (inv_good _ _ _ Hinv) Ea) as (_ & Hp & Hpm & Hno & Hown & _).
  split_and!; try done; try lia; [by rewrite Ef|]. intros x Hx. subst s'. cbn. rewrite wrap_small by lia. by rewrite lookup_insert_ne.
Qed.

Lemma first_range_in s virt l q : first_range s virt l = Some q -> q ∈ l /\ contains s virt q = true.
Proof.
  induction l as [|p l IH]; [done|]. cbn. destruct (contains s virt p) eqn:E; [intros [= <-]; split; [left|done]|].
  intros Hq%IH. split; [right|]; apply Hq.
Qed.

(** A fault on the address space of [pm] whose ranges are [l]. *)
Lemma fault_ret s pm virt l b s' :
  inv hhdm s (pml4 pm) -> ranges_ok s pm l -> handle_page_fault hhdm pm virt s = Ret (b, s') ->
  heads s' = heads s /\ ranges s' = ranges s /\
  if b then extends hhdm (pml4 pm) s s'
  else grows (pml4 pm) s s' /\ translation s (pml4 pm) virt = None /\
    exists q rg, q ∈ l /\ ranges s !! q = Some rg /\ contains s virt q = true /\
      match range_kind rg with
      | DIRECT => remapped s s' (pml4 pm) virt (Z.lor (Z.land (u64 (virt - hhdm)) ADDR) (page_flags rg))
      | ANONYMOUS => exists f, remapped s s' (pml4 pm) virt (Z.lor f (page_flags rg)) /\
          0 < f < 2 ^ 46 /\ f mod 0x1000 = 0 /\ ~ owned (frames s) f /\ owned (frames s') f /\
          data hhdm s' (pml4 pm) (f + hhdm) /\ mem s' !! (f + hhdm) = Some zero_page
      end.
Proof.
  intros Hinv Hrok E. unfold handle_page_fault in E. apply bind_Ret in E as ([t s1] & Ed & E).
  destruct (descend_ret _ _ _ _ _ Hinv Ed) as [Hext Ht]. pose proof (ext_inv _ _ _ _ Hext) as Hinv1.
  destruct (ext_rest _ _ _ _ Hext) as (Eh & Er & _).
  destruct (read_leaf_spec hhdm s1 (pml4 pm) virt t Hinv1 Ht) as (e & Ee & Htr). rewrite Ee in E. cbn [mbind outcome_bind] in E.
  destruct (present e) eqn:Hp; cbn [negb] in E; [by injection E as <- <-|].
  assert (ranges_ok s1 pm l) as Hrok1 by (unfold ranges_ok; by rewrite Eh, Er).
  rewrite (addr_to_range_spec s1 pm virt l Hrok1) in E. cbn [mbind outcome_bind] in E.
  destruct (first_range s1 virt l) as [q|] eqn:Hq; [|by injection E as <- <-].
  rewrite (first_range_same s s1) in Hq by done. apply first_range_in in Hq as [Hql Hc].
  apply bind_Ret in E as (rg & Hrg & E). rewrite Er in Hrg. destruct (ranges s !! q) as [rg'|] eqn:Hrq; [|done].
  injection Hrg as ->.
  assert (translation s (pml4 pm) virt = None) as Hnone
    by (rewrite <- (ext_translate _ _ _ _ Hext), Htr; unfold visible; by rewrite Hp).
  destruct (range_kind rg) eqn:Hk.
  - apply bind_Ret in E as (s2 & Ew & [= <- <-]).
    destruct (leaf_ret _ _ _ _ _ _ Hinv1 Ht Ew) as (Hg & Hrm & Eh2 & Er2 & _). split; [congruence|]. split; [congruence|].
    split; [by eapply grows_trans; [apply extends_grows|]|]. split; [done|]. exists q, rg. split; [done|]. split; [done|].
    split; [done|]. rewrite Hk. intros v. by rewrite Hrm, (ext_translate _ _ _ _ Hext).
  - apply bind_Ret in E as ([f s2] & En & E).
    destruct (new_page_ret s1 (pml4 pm) f s2 Hinv1 En) as (Hext2 & Hz & Hf & Hfm & Hno & Hown & Hoth & Htab2).
    destruct (ext_rest _ _ _ _ Hext2) as (Eh2 & Er2 & _).
    assert (t <> f + hhdm) as Htf.
    { intros ->. destruct (inv_table _ _ _ Hinv1 (indices virt) (f + hhdm)) as (_ & ph & _ & _ & Eph & Ho);
        [unfold indices; cbn; lia|done|]. by assert (ph = f) as -> by lia. }
    assert (tables s2 (pml4 pm) (indices virt) = Some t) as Ht2 by (by rewrite Htab2 by (unfold indices; cbn; lia)).
    apply bind_Ret in E as (s3 & Ew & [= <- <-]).
    destruct (leaf_ret _ _ _ _ _ _ (ext_inv _ _ _ _ Hext2) Ht2 Ew) as (Hg & Hrm & Eh3 & Er3 & Ef3).
    assert (data hhdm s2 (pml4 pm) (f + hhdm)) as Hd.
    { split; [by exists f|]. intros p Hp' Ep. rewrite Htab2 in Ep by done.
      destruct (inv_table _ _ _ Hinv1 p _ Hp' Ep) as (_ & ph & _ & _ & Eph & Ho). by assert (ph = f) as -> by lia. }
    destruct (gr_data _ _ _ Hg _ Hd) as [Hd' Em]. split; [congruence|]. split; [congruence|].
    split; [eapply grows_trans; [by apply extends_grows|eapply grows_trans; [by apply extends_grows|done]]|].
    split; [done|]. exists q, rg. split; [done|]. split; [done|]. split; [done|]. rewrite Hk.
    exists f. split; [intros v; by rewrite Hrm, (ext_translate _ _ _ _ Hext2), (ext_translate _ _ _ _ Hext)|].
    split; [done|]. split; [done|]. split; [intros Ho; by apply Hno, (ext_owned _ _ _ _ Hext)|].
    rewrite Ef3, Em. done.
Qed.
(** ** A frame, and a root, that are no tables yet *)
Lemma frame_write s R x ws :
  spaces s R -> (forall r, R r -> data hhdm s r x) ->
  let s' := set_mem (<[x := ws]> (mem s)) s in
  spaces s' R /\ (forall r p, R r -> (List.length p <= 3)%nat -> tables s' r p = tables s r p) /\
  (forall r v, R r -> translation s' r v = translation s r v) /\
  (forall r y, R r -> data hhdm s r y -> data hhdm s' r y).
Proof.
  intros Hs Hx s'. assert (forall r p, R r -> (List.length p <= 3)%nat -> tables s' r p = tables s r p) as Htab.
  { intros r p Hr Hp. apply (tab_data hhdm s r x ws p); auto. }
  split; [split|split; [done|split]].
  - intros r Hr. by apply (data_write hhdm s r x ws (sp_inv _ _ Hs r Hr) (Hx r Hr)).
  - intros r1 r2 p1 p2 y H1 H2 Hne Hp1 Hp2. rewrite !Htab by done. by apply (sp_apart _ _ Hs).
  - intros r v Hr. by apply (data_write hhdm s r x ws (sp_inv _ _ Hs r Hr) (Hx r Hr)).
  - intros r y Hr. by apply (data_write hhdm s r x ws (sp_inv _ _ Hs r Hr) (Hx r Hr)).
Qed.

(** [map_kernel] on a cleared frame adds a root: in the upper half it sees what
    the kernel sees, and nothing in the lower one; the other roots see what
    they saw. *)
Lemma map_kernel_joins s R kernel pm :
  spaces s R -> R (pml4 kernel) -> (forall r, R r -> data hhdm s r (pml4 pm)) -> mem s !! pml4 pm = Some zero_page ->
  exists s', map_kernel kernel pm s = Ret s' /\ spaces s' (fun r => R r \/ r = pml4 pm) /\
    (forall r v, R r -> translation s' r v = translation s r v) /\
    (forall v, translation s' (pml4 pm) v = if 256 <=? index4 v then translation s (pml4 kernel) v else None) /\
    (forall x, (forall r, R r -> data hhdm s r x) -> x <> pml4 pm ->
      (forall r, R r \/ r = pml4 pm -> data hhdm s' r x) /\ mem s' !! x = mem s !! x) /\
    frames s' = frames s /\ heads s' = heads s /\ ranges s' = ranges s.
Proof.
  intros Hs Hk Hu Hz. set (k := pml4 kernel) in *. set (u := pml4 pm) in *. pose proof (sp_inv _ _ Hs k Hk) as Hinv.
  destruct (map_kernel_tables hhdm s kernel pm Hinv (Hu k Hk) Hz) as (tb & Emk & Hl & Hcons). fold u k in Emk, Hcons.
  destruct (frame_write s R u tb Hs Hu) as (Hs' & Htab & Htr & Hd).
  set (s' := set_mem (<[u := tb]> (mem s)) s) in *.
  assert (forall r p, R r -> (List.length p <= 3)%nat -> tables s' r p <> Some u) as Hno.
  { intros r p Hr Hp. rewrite Htab by done. by apply (Hu r Hr). }
  assert (forall p x, (List.length p <= 3)%nat -> tables s' u p = Some x ->
    p = [] /\ x = u \/ ~ lower p /\ tables s' k p = Some x) as Hup.
  { intros [|i p] x Hp Hx; [left; by injection Hx as <-|]. right. rewrite Hcons in Hx.
    destruct (Z.leb_spec 256 i); [|done]. split; [cbn; lia|done]. }
  assert (inv hhdm s' u) as Hinvu.
  { split; [apply (inv_good _ _ _ (sp_inv _ _ Hs' k Hk))| |].
    - intros p t Hp Ht. destruct (Hup p t Hp Ht) as [[-> ->]|[_ E]]; [|by apply (inv_table _ _ _ (sp_inv _ _ Hs' k Hk) p)].
      destruct (Hu k Hk) as [(q & Eq & Ho) _]. exists tb, q. cbn. by rewrite lookup_insert_eq.
    - intros p q t Hp Hq Tp Tq. destruct (Hup p t Hp Tp) as [[-> ->]|[_ Ep]], (Hup q _ Hq Tq) as [[-> E]|[_ Eq]]; try done.
      + by apply Hno in Eq.
      + subst t. by apply Hno in Ep.
      + by apply (inv_path _ _ _ (sp_inv _ _ Hs' k Hk) p q t). }
  assert (forall r p q x, R r -> (List.length p <= 3)%nat -> (List.length q <= 3)%nat ->
    tables s' r p = Some x -> tables s' u q = Some x -> p = q /\ ~ lower p) as Hmix.
  { intros r p q x Hr Hp Hq Tp Tq. destruct (Hup q x Hq Tq) as [[_ ->]|[Hl' Eq]]; [by apply Hno in Tp|].
    destruct (decide (r = k)) as [->|Hne].
    - by rewrite (inv_path _ _ _ (sp_inv _ _ Hs' k Hk) p q x).
    - by apply (sp_apart _ _ Hs' r k p q x). }
  exists s'. split; [done|]. split; [split|split_and!]; try done.
  - intros r [Hr| ->]; [by apply (sp_inv _ _ Hs')|done].
  - intros r1 r2 p1 p2 x [H1| ->] [H2| ->] Hne Hp1 Hp2 T1 T2; [by apply (sp_apart _ _ Hs' r1 r2 p1 p2 x)|by eapply Hmix| |done].
    destruct (Hmix r2 p2 p1 x H2 Hp2 Hp1 T2 T1) as [-> ?]. done.
  - intros v. unfold translate, indices. rewrite Hcons. destruct (256 <=? index4 v); [|done]. apply (Htr k v Hk).
  - intros x Hx Hne. split; [|cbn; by rewrite lookup_insert_ne].
    intros r [Hr| ->]; [by apply Hd, Hx|]. destruct (Hd k x Hk (Hx k Hk)) as [Ho Hn]. split; [done|].
    intros p Hp Ep. destruct (Hup p x Hp Ep) as [[_ ->]|[_ E]]; [done|]. by apply (Hn p).
Qed.

(** ** Private memory

    [k] is the kernel's root, [U] those of the users. *)
Section privacy.
Context (k : Z) (U : Z -> Prop).

Definition roots r : Prop := r = k \/ U r.

(** The frames the lower halves show are no tables and none is shown twice; no
    page of the kernel's may be used by a program. *)
Record private s : Prop := {
  pv_spaces : spaces s roots;
  pv_users : ~ U k;
  pv_frame u v e : U u -> index4 v < 256 -> translation s u v = Some e ->
    (forall r, roots r -> data hhdm s r (next hhdm e)) /\
    exists ws, mem s !! next hhdm e = Some ws /\ List.length ws = 512%nat;
  pv_once u1 u2 v1 v2 e1 e2 : U u1 -> U u2 -> index4 v1 < 256 -> index4 v2 < 256 ->
    translation s u1 v1 = Some e1 -> translation s u2 v2 = Some e2 -> next hhdm e1 = next hhdm e2 ->
    u1 = u2 /\ page v1 = page v2;
  pv_kernel r v e : roots r -> r = k \/ 256 <= index4 v -> translation s r v = Some e -> Z.land e PAGE_USER = 0
}.

(** What a program sees at [v]: the entry that leads there and the page. *)
Definition shown s u v : option (Z * list Z) :=
  e ← translation s u v; ws ← mem s !! next hhdm e; Some (e, ws).
Definition same_view s s' u : Prop := forall v, index4 v < 256 -> shown s' u v = shown s u v.

Lemma private_same s s' : mem s' = mem s -> frames s' = frames s -> private s -> private s'.
Proof.
  intros Em Ef [Hs Hu Hf Ho Hk]. split; unfold data; rewrite ?Em, ?Ef; try done. by apply (spaces_same s).
Qed.

(** The frame of [e] was not given out before. *)
Definition new_frame s s' e : Prop :=
  (forall q, next hhdm e = q + hhdm -> ~ owned (frames s) q) /\ (forall r, roots r -> data hhdm s' r (next hhdm e)) /\
  exists ws, mem s' !! next hhdm e = Some ws /\ List.length ws = 512%nat.

Lemma private_grows s s' u virt :
  private s -> roots u -> grows u s s' ->
  (forall v e, U u -> index4 v < 256 -> translation s' u v = Some e ->
    translation s u v = Some e \/ page v = page virt /\ new_frame s s' e) ->
  (forall v e, u = k \/ 256 <= index4 v -> translation s' u v = Some e -> Z.land e PAGE_USER = 0) ->
  private s' /\ forall w, U w -> w <> u -> same_view s s' w.
Proof.
  intros Hp Hu Hg Hlow Hup. pose proof (pv_spaces _ Hp) as Hs.
  assert (forall w v e, U w -> index4 v < 256 -> translation s' w v = Some e ->
    translation s w v = Some e \/ w = u /\ page v = page virt /\ new_frame s s' e) as Hcase.
  { intros w v e Hw Hv He. destruct (decide (w = u)) as [->|Hne]; [destruct (Hlow v e Hw Hv He); auto|].
    left. rewrite <- He. symmetry. apply (other_view roots u s s' Hs Hu Hg w); [by right|done|by left]. }
  assert (forall w v e, U w -> index4 v < 256 -> translation s w v = Some e ->
    (forall r, roots r -> data hhdm s' r (next hhdm e)) /\ mem s' !! next hhdm e = mem s !! next hhdm e) as Hkeep.
  { intros w v e Hw Hv He. apply (grows_data roots u s s' Hs Hu Hg). by apply (pv_frame _ Hp w v). }
  assert (forall w v e e', U w -> index4 v < 256 -> translation s w v = Some e -> new_frame s s' e' -> next hhdm e <> next hhdm e') as Hnew.
  { intros w v e e' Hw Hv He [Hno _] E. destruct (pv_frame _ Hp w v e Hw Hv He) as [Hd _].
    destruct (Hd k ltac:(by left)) as [(q & Eq & Hq) _]. apply (Hno q); congruence. }
  split; [split|].
  - by apply (grows_spaces roots u s).
  - apply (pv_users _ Hp).
  - intros w v e Hw Hv He. destruct (Hcase w v e Hw Hv He) as [E|(_ & _ & _ & ?)]; [|done].
    destruct (Hkeep w v e Hw Hv E) as [Hd ->]. split; [done|]. by apply (pv_frame _ Hp w v).
  - intros u1 u2 v1 v2 e1 e2 H1 H2 Hv1 Hv2 T1 T2 E.
    destruct (Hcase u1 v1 e1 H1 Hv1 T1) as [O1|(-> & P1 & N1)], (Hcase u2 v2 e2 H2 Hv2 T2) as [O2|(-> & P2 & N2)].
    + by apply (pv_once _ Hp u1 u2 v1 v2 e1 e2).
    + by destruct (Hnew u1 v1 e1 e2 H1 Hv1 O1 N2).
    + by destruct (Hnew u2 v2 e2 e1 H2 Hv2 O2 N1).
    + split; [done|congruence].
  - intros r v e Hr Hv He. destruct (decide (r = u)) as [->|Hne]; [by apply (Hup v)|].
    destruct (other_translation roots u s s' Hs Hu Hg r Hr Hne v) as [E|[Hv' E]]; rewrite E in He.
    + by apply (pv_kernel _ Hp r v).
    + apply (Hup v); [by right|done].
  - intros w Hw Hne v Hv. unfold shown.
    rewrite (other_view roots u s s' Hs Hu Hg w ltac:(by right) Hne v) by (by left).
    destruct (translation s w v) as [e|] eqn:He; [|done]. cbn. by destruct (Hkeep w v e Hw Hv He) as [_ ->].
Qed.

(** Tables made, or a page taken, on behalf of any root. *)
Lemma private_extends s s' u :
  private s -> roots u -> extends hhdm u s s' -> private s' /\ forall w, U w -> same_view s s' w.
Proof.
  intros Hp Hu Hext. destruct (private_grows s s' u 0 Hp Hu) as [Hp' Hw].
  - by apply extends_grows.
  - intros v e _ _. rewrite (ext_translate _ _ _ _ Hext). auto.
  - intros v e Hv. rewrite (ext_translate _ _ _ _ Hext). by apply (pv_kernel _ Hp u v e).
  - split; [done|]. intros w HUw. destruct (decide (w = u)) as [->|]; [|by apply Hw].
    intros v Hv. unfold shown. rewrite (ext_translate _ _ _ _ Hext). destruct (translation s u v) as [e|] eqn:He; [|done].
    cbn. destruct (pv_frame _ Hp u v e HUw Hv He) as [Hd _]. by destruct (ext_data _ _ _ _ Hext _ (Hd u Hu)) as [_ ->].
Qed.

(** A page that was free, mapped into the lower half of a user. *)
Lemma private_user_page s s' u virt f flags :
  private s -> U u -> grows u s s' -> remapped s s' u virt (Z.lor f flags) -> index4 virt < 256 ->
  0 < f < 2 ^ 46 -> f mod 0x1000 = 0 -> Z.land flags ADDR = 0 -> ~ owned (frames s) f ->
  data hhdm s' u (f + hhdm) -> (exists ws, mem s' !! (f + hhdm) = Some ws /\ List.length ws = 512%nat) ->
  private s' /\ forall w, U w -> w <> u -> same_view s s' w.
Proof.
  intros Hp Hu Hg Hrm Hvirt Hf Hfm Hfl Hno Hd Hws. pose proof (pv_spaces _ Hp) as Hs.
  assert (next hhdm (Z.lor f flags) = f + hhdm) as Hnext.
  { unfold next. rewrite land_ADDR by (done || lia). by rewrite wrap_small by lia. }
  assert (new_frame s s' (Z.lor f flags)) as Hnew.
  { split; [intros q; rewrite Hnext; intros E; by assert (q = f) as -> by lia|]. rewrite Hnext. split; [|done].
    intros r Hr. destruct (decide (r = u)) as [->|Hne]; [done|]. split; [apply Hd|]. intros p Hlp Ep.
    destruct (other_tables roots u s s' Hs ltac:(by right) Hg r Hr Hne p _ Hlp Ep) as [[E _]|[E _]]; [|by apply Hd in E].
    destruct (inv_table _ _ _ (sp_inv _ _ Hs r Hr) p _ Hlp E) as (_ & ph & _ & _ & Eph & Ho). by assert (ph = f) as -> by lia. }
  apply (private_grows s s' u virt Hp); [by right|done| |].
  - intros v e _ Hv He. rewrite Hrm in He. case_decide as Ep; [|by left]. right. split; [done|].
    unfold visible in He. destruct (present _); [|done]. by injection He as <-.
  - intros v e Hv He. rewrite Hrm in He. case_decide as Ep; [|apply (pv_kernel _ Hp u v); [by right|done|done]].
    destruct Hv as [->|Hv]; [by destruct (pv_users _ Hp)|].
    apply page_eq in Ep as [Ei _]. unfold indices in Ei. injection Ei as Ei _ _. lia.
Qed.

(** A page of the kernel's, anywhere. *)
Lemma private_kernel_page s s' virt e :
  private s -> grows k s s' -> remapped s s' k virt e -> Z.land e PAGE_USER = 0 ->
  private s' /\ forall w, U w -> same_view s s' w.
Proof.
  intros Hp Hg Hrm He. destruct (private_grows s s' k virt Hp) as [Hp' Hw]; [by left|done| | |].
  - intros v e' Hu. by destruct (pv_users _ Hp).
  - intros v e' _ Hv. rewrite Hrm in Hv. case_decide; [|apply (pv_kernel _ Hp k v); [by left|by left|done]].
    unfold visible in Hv. destruct (present e); [|done]. by injection Hv as <-.
  - split; [done|]. intros w HUw. apply Hw; [done|]. intros ->. by destruct (pv_users _ Hp).
Qed.

(** A program stores a word in its half. *)
Lemma private_store s u v e i x s' :
  private s -> U u -> index4 v < 256 -> translation s u v = Some e -> write_entry (next hhdm e) i x s = Ret s' ->
  private s' /\ (forall w v', roots w -> translation s' w v' = translation s w v') /\
  frames s' = frames s /\ heads s' = heads s /\ ranges s' = ranges s /\
  (forall w v', U w -> index4 v' < 256 -> w <> u \/ page v' <> page v -> shown s' w v' = shown s w v') /\
  exists ws, shown s u v = Some (e, ws) /\ shown s' u v = Some (e, zinsert i x ws).
Proof.
  intros Hp Hu Hv He Ew. destruct (pv_frame _ Hp u v e Hu Hv He) as [Hd (ws & Hws & Hl)].
  unfold write_entry in Ew. rewrite Hws in Ew. cbn [of_option mbind outcome_bind] in Ew.
  apply bind_Ret in Ew as (old & _ & [= <-]).
  destruct (frame_write s roots (next hhdm e) (zinsert i x ws) (pv_spaces _ Hp) Hd) as (Hs & _ & Htr & Hdata).
  set (s' := set_mem _ s) in *. assert (forall y, y <> next hhdm e -> mem s' !! y = mem s !! y) as Hoth.
  { intros y Hy. cbn. by rewrite lookup_insert_ne. }
  assert (mem s' !! next hhdm e = Some (zinsert i x ws)) as Hhere by apply lookup_insert_eq.
  split; [split|split_and!]; try done.
  - apply (pv_users _ Hp).
  - intros w v' e' Hw Hv' He'. rewrite Htr in He' by (by right). destruct (pv_frame _ Hp w v' e' Hw Hv' He') as [Hd' (ws' & Hws' & Hl')].
    split; [intros r Hr; by apply Hdata, Hd'|]. destruct (decide (next hhdm e' = next hhdm e)) as [->|Hne].
    + exists (zinsert i x ws). by rewrite length_zinsert.
    + exists ws'. by rewrite Hoth.
  - intros u1 u2 v1 v2 e1 e2 H1 H2 Hv1 Hv2. rewrite !Htr by (by right). by apply (pv_once _ Hp).
  - intros r v' e' Hr Hv'. rewrite Htr by done. by apply (pv_kernel _ Hp).
  - intros w v' Hw Hv' Hne. unfold shown. rewrite Htr by (by right). destruct (translation s w v') as [e'|] eqn:He'; [|done].
    cbn. rewrite Hoth; [done|]. intros E. destruct (pv_once _ Hp w u v' v e' e) as [-> Epg]; try done. by destruct Hne.
  - exists ws. unfold shown. rewrite Htr by (by right). rewrite He. cbn. by rewrite Hws, lookup_insert_eq.
Qed.

End privacy.

(** A new user whose upper half is the kernel's, its lower one empty. *)
Lemma private_joins (k : Z) U s kernel pm :
  private k U s -> k = pml4 kernel -> (forall r, roots k U r -> data hhdm s r (pml4 pm)) -> mem s !! pml4 pm = Some zero_page ->
  (forall w v e, U w -> index4 v < 256 -> translation s w v = Some e -> next hhdm e <> pml4 pm) ->
  exists s', map_kernel kernel pm s = Ret s' /\ private k (fun r => U r \/ r = pml4 pm) s' /\
    (forall w, U w -> same_view s s' w) /\ (forall v, index4 v < 256 -> translation s' (pml4 pm) v = None) /\
    (forall r v, roots k U r -> translation s' r v = translation s r v) /\
    frames s' = frames s /\ heads s' = heads s /\ ranges s' = ranges s.
Proof.
  intros Hp -> Hd Hz Hno. set (k := pml4 kernel) in *. set (u := pml4 pm) in *.
  destruct (map_kernel_joins s (roots k U) kernel pm (pv_spaces _ _ _ Hp)) as (s' & E & Hs & Htr & Hnew & Hdata & Ef & Eh & Er);
    [by left|done|done|]. fold u k in Hs, Hnew, Hdata.
  assert (forall w, U w -> same_view s s' w) as Hview.
  { intros w Hw v Hv. unfold shown. rewrite Htr by (by right). destruct (translation s w v) as [e|] eqn:He; [|done]. cbn.
    destruct (pv_frame _ _ _ Hp w v e Hw Hv He) as [Hdw _].
    by destruct (Hdata (next hhdm e)) as [_ ->]; [done|by eapply Hno|]. }
  assert (forall v, index4 v < 256 -> translation s' u v = None) as Hempty.
  { intros v Hv. rewrite Hnew. by rewrite (proj2 (Z.leb_gt _ _)). }
  exists s'. split; [done|]. split; [|done]. split.
  - apply (spaces_subset s' (fun r => roots k U r \/ r = u)); [|done]. intros r [->|[?| ->]]; [left; by left|left; by right|by right].
  - intros [Hk|Hk]; [by apply (pv_users _ _ _ Hp)|]. destruct (Hd k) as [_ Hn]; [by left|]. apply (Hn []); [cbn; lia|]. cbn. by rewrite Hk.
  - intros w v e [Hw| ->] Hv He; [|by rewrite Hempty in He]. rewrite Htr in He by (by right).
    destruct (pv_frame _ _ _ Hp w v e Hw Hv He) as [Hdw Hws].
    destruct (Hdata (next hhdm e)) as [Hd' ->]; [done|by eapply Hno|]. split; [|done].
    intros r [->|[?| ->]]; apply Hd'; [left; by left|left; by right|by right].
  - intros u1 u2 v1 v2 e1 e2 [H1| ->] [H2| ->] Hv1 Hv2; rewrite ?Hempty by done; try done.
    rewrite !Htr by (by right). by apply (pv_once _ _ _ Hp).
  - intros r v e [->|[Hr| ->]] Hv He.
    + rewrite Htr in He by (by left). by apply (pv_kernel _ _ _ Hp k v); [left|left|].
    + rewrite Htr in He by (by right). apply (pv_kernel _ _ _ Hp r v); [by right|done|done].
    + rewrite Hnew in He. destruct (256 <=? index4 v); [|done]. by apply (pv_kernel _ _ _ Hp k v); [left|left|].
Qed.

(** The kernel alone. *)
Lemma private_kernel s (k : Z) :
  inv hhdm s k -> (forall v e, translation s k v = Some e -> Z.land e PAGE_USER = 0) -> private k (fun _ => False) s.
Proof.
  intros Hinv He. split; [split| |done|done|].
  - by intros r [->|[]].
  - intros r1 r2 p1 p2 x [->|[]] [->|[]]. done.
  - by intros [].
  - intros r v e [->|[]] _. apply He.
Qed.

(** A new address space, as [new_user_task] makes it: a cleared page that gets
    the kernel's entries. *)
Lemma private_new_space (k : Z) U s kernel p s1 :
  private k U s -> k = pml4 kernel -> new_page hhdm s = Ret (p, s1) ->
  exists s', (forall pm, pml4 pm = p + hhdm -> map_kernel kernel pm s1 = Ret s') /\
    private k (fun r => U r \/ r = p + hhdm) s' /\ ~ roots k U (p + hhdm) /\
    (forall w, U w -> same_view s s' w) /\ (forall v, index4 v < 256 -> translation s' (p + hhdm) v = None) /\
    0 < p < 2 ^ 46 /\ frames s' = frames s1 /\ heads s' = heads s /\ ranges s' = ranges s.
Proof.
  intros Hp Ek En. pose proof (pv_spaces _ _ _ Hp) as Hs.
  destruct (new_page_ret s k p s1 (sp_inv _ _ Hs k (or_introl eq_refl)) En) as (Hext & Hz & Hpr & _ & Hno & Hown & _ & _).
  destruct (private_extends k U s s1 k Hp (or_introl eq_refl) Hext) as [Hp1 Hv1].
  assert (forall r q, roots k U r -> (List.length q <= 3)%nat -> tables s r q <> Some (p + hhdm)) as Hfree.
  { intros r q Hr Hq E. destruct (inv_table _ _ _ (sp_inv _ _ Hs r Hr) q _ Hq E) as (_ & ph & _ & _ & Eph & Ho).
    by assert (ph = p) as -> by lia. }
  assert (forall r, roots k U r -> data hhdm s1 r (p + hhdm)) as Hd.
  { intros r Hr. split; [by exists p|]. intros q Hq E.
    destruct (new_page_ret s r p s1 (sp_inv _ _ Hs r Hr) En) as (_ & _ & _ & _ & _ & _ & _ & Htab).
    rewrite Htab in E by done. by apply (Hfree r q). }
  destruct (private_joins k U s1 kernel (mkPagemap (p + hhdm) 0) Hp1 Ek Hd Hz) as (s' & Em & Hp' & Hv' & Hempty & _ & Ef & Eh & Er).
  - intros w v e Hw Hv He. destruct (new_page_ret s w p s1 (sp_inv _ _ Hs w (or_intror Hw)) En) as (Hextw & _).
    rewrite (ext_translate _ _ _ _ Hextw) in He. destruct (pv_frame _ _ _ Hp w v e Hw Hv He) as [Hdw _].
    destruct (Hdw k (or_introl eq_refl)) as [(q & Eq & Ho) _]. cbn [pml4]. intros E. by assert (q = p) as -> by lia.
  - destruct (ext_rest _ _ _ _ Hext) as (Eh1 & Er1 & _). exists s'. split_and!; try done; try congruence.
    + intros pm Epm. rewrite <- Em. unfold map_kernel. by rewrite Epm.
    + intros Hr. by apply (Hfree (p + hhdm) [] Hr); [cbn; lia|].
    + intros w Hw v Hv. by rewrite Hv', Hv1.
    + lia.
    + lia.
Qed.

(** ** Filling a frame after it was mapped *)
Lemma grows_fill u s s1 x ws :
  grows u s s1 -> data hhdm s1 u x -> (forall q, x = q + hhdm -> ~ owned (frames s) q) ->
  let s2 := set_mem (<[x := ws]> (mem s1)) s1 in
  grows u s s2 /\ data hhdm s2 u x /\ forall v, translation s2 u v = translation s1 u v.
Proof.
  intros [Hi Ht Ho Hd] Hx Hno s2. destruct (data_write hhdm s1 u x ws Hi Hx) as (Hi2 & Htr2 & Hd2).
  split; [split|split; [by apply Hd2|exact Htr2]].
  - done.
  - intros p y Hp Hy. rewrite <- (Ht p y Hp Hy). by apply tab_data.
  - done.
  - intros y Hy. pose proof Hy as [(q & Eq & Hq) _]. destruct (Hd y Hy) as [Hy1 Em]. split; [by apply Hd2|].
    cbn. rewrite lookup_insert_ne; [done|]. intros ->. by apply (Hno q).
Qed.

(** A page taken, mapped into a user's half and then filled, as the loader of
    programs does. *)
Lemma private_loaded_page (k : Z) U s pm f a virt flags s1 ws :
  private k U s -> U (pml4 pm) -> alloc_page (frames s) = Ret (f, a) ->
  map_page hhdm pm f virt flags (set_frames a s) = Ret s1 -> index4 virt < 256 -> Z.land flags ADDR = 0 ->
  List.length ws = 512%nat ->
  let s2 := set_mem (<[f + hhdm := ws]> (mem s1)) s1 in
  private k U s2 /\ (forall w, U w -> w <> pml4 pm -> same_view s s2 w) /\ heads s2 = heads s /\ ranges s2 = ranges s /\
  0 < f < 2 ^ 46.
Proof.
  intros Hp Hu Ea Em Hv Hfl Hl s2. pose proof (sp_inv _ _ (pv_spaces _ _ _ Hp) _ (or_intror Hu)) as Hinv.
  destruct (alloc_page_fresh (frames s) f a (inv_good _ _ _ Hinv) Ea) as (_ & Hf & Hfm & Hno & _).
  destruct (alloc_spec hhdm s (pml4 pm) f a Hinv Ea) as [Hext Hd].
  destruct (map_page_ret _ _ _ _ _ _ (ext_inv _ _ _ _ Hext) Em) as (Hg & Hrm & Eh & Er).
  destruct (gr_data _ _ _ Hg _ Hd) as [Hd1 _].
  destruct (grows_fill (pml4 pm) s s1 (f + hhdm) ws) as (Hg2 & Hd2 & Htr2);
    [by eapply grows_trans; [apply extends_grows|]|done|intros q E; by assert (q = f) as -> by lia|].
  fold s2 in Hg2, Hd2, Htr2. assert (Z.land f ADDR = f) as Eland.
  { pose proof (land_ADDR f 0 ltac:(lia) Hfm eq_refl) as E. by rewrite Z.lor_0_r in E. }
  destruct (private_user_page k U s s2 (pml4 pm) virt f flags Hp Hu Hg2) as [Hp2 Hview]; try done.
  - intros v. rewrite Htr2, Hrm, (ext_translate _ _ _ _ Hext). by rewrite Eland.
  - exists ws. split; [apply lookup_insert_eq|done].
Qed.

(** A cleared page, mapped, as for the stack. *)
Lemma private_cleared_page (k : Z) U s pm f s0 virt flags s1 :
  private k U s -> U (pml4 pm) -> new_page hhdm s = Ret (f, s0) -> map_page hhdm pm f virt flags s0 = Ret s1 ->
  index4 virt < 256 -> Z.land flags ADDR = 0 ->
  private k U s1 /\ (forall w, U w -> w <> pml4 pm -> same_view s s1 w) /\ heads s1 = heads s /\ ranges s1 = ranges s.
Proof.
  intros Hp Hu En Em Hv Hfl. pose proof (sp_inv _ _ (pv_spaces _ _ _ Hp) _ (or_intror Hu)) as Hinv.
  destruct (new_page_ret s (pml4 pm) f s0 Hinv En) as (Hext & Hz & Hf & Hfm & Hno & Hown & _ & Htab).
  assert (data hhdm s0 (pml4 pm) (f + hhdm)) as Hd.
  { split; [by exists f|]. intros p Hp' Ep. rewrite Htab in Ep by done.
    destruct (inv_table _ _ _ Hinv p _ Hp' Ep) as (_ & ph & _ & _ & Eph & Ho). by assert (ph = f) as -> by lia. }
  destruct (map_page_ret _ _ _ _ _ _ (ext_inv _ _ _ _ Hext) Em) as (Hg & Hrm & Eh & Er).
  destruct (gr_data _ _ _ Hg _ Hd) as [Hd1 Em1]. destruct (ext_rest _ _ _ _ Hext) as (Eh0 & Er0 & _).
  assert (Z.land f ADDR = f) as Eland.
  { pose proof (land_ADDR f 0 ltac:(lia) Hfm eq_refl) as E. by rewrite Z.lor_0_r in E. }
  destruct (private_user_page k U s s1 (pml4 pm) virt f flags Hp Hu) as [Hp2 Hview]; try done.
  - by eapply grows_trans; [apply extends_grows|].
  - intros v. rewrite Hrm, (ext_translate _ _ _ _ Hext). by rewrite Eland.
  - exists zero_page. by rewrite Em1.
  - split; [done|]. split; [done|]. split; congruence.
Qed.

(** A fault on an address of the kernel's, served or not. *)
Lemma private_kernel_fault (k : Z) U s pm l virt b s' :
  private k U s -> k = pml4 pm -> ranges_ok s pm l ->
  (forall r rg, r ∈ l -> ranges s !! r = Some rg -> Z.land (page_flags rg) PAGE_USER = 0) ->
  handle_page_fault hhdm pm virt s = Ret (b, s') ->
  private k U s' /\ (forall w, U w -> same_view s s' w) /\ heads s' = heads s /\ ranges s' = ranges s.
Proof.
  intros Hp -> Hran Hfl E. pose proof (sp_inv _ _ (pv_spaces _ _ _ Hp) _ (or_introl eq_refl)) as Hinv.
  destruct (fault_ret s pm virt l b s' Hinv Hran E) as (Eh & Er & Hb). destruct b.
  - destruct (private_extends _ U s s' _ Hp (or_introl eq_refl) Hb) as [Hp' Hv]. auto.
  - destruct Hb as (Hg & _ & q & rg & Hq & Hrq & _ & Hkind). pose proof (Hfl q rg Hq Hrq) as Hu.
    assert (exists e, remapped s s' (pml4 pm) virt e /\ Z.land e PAGE_USER = 0) as (e & Hrm & He).
    { destruct (range_kind rg).
      - eexists. split; [exact Hkind|]. rewrite Z.land_lor_distr_l, Hu, <- Z.land_assoc. by rewrite Z.land_0_r.
      - destruct Hkind as (f & Hrm & Hf & Hfm & _). eexists. split; [exact Hrm|]. rewrite Z.land_lor_distr_l, Hu, Z.lor_0_r.
        apply Z.bits_inj'. intros i Hi. rewrite Z.land_spec, Z.bits_0. destruct (Z.testbit f i) eqn:Eb; [|done].
        apply (aligned_testbit f i) in Eb as [? _]; [|lia|done|done]. cbn. change PAGE_USER with (2 ^ 2).
        rewrite Z.pow2_bits_eqb by lia. apply Z.eqb_neq. lia. }
    destruct (private_kernel_page _ U s s' virt e Hp Hg Hrm He) as [Hp' Hv]. auto.
Qed.

(** More frames given out. *)
Lemma private_frames (k : Z) U s a :
  private k U s -> good a -> (forall q, owned (frames s) q -> owned a q) -> private k U (set_frames a s).
Proof.
  intros [[Hi Ha] Hu Hf Ho He] Hg Hown.
  assert (forall r x, data hhdm s r x -> data hhdm (set_frames a s) r x) as Hd.
  { intros r x [(q & Eq & Hq) Hn]. split; [exists q; cbn; auto|done]. }
  split; try done; [split; [|done]|].
  - intros r Hr. destruct (Hi r Hr) as [_ Htab Hpath]. split; [done| |done].
    intros p t Hp Ht. destruct (Htab p t Hp Ht) as (tb & ph & ? & ? & ? & ?). exists tb, ph. cbn. auto.
  - intros u v e HU Hv Hx. destruct (Hf u v e HU Hv Hx) as [Hdf Hws]. split; [|done]. intros r Hr. by apply Hd, Hdf.
Qed.

End Spaces.
