(* ===== verification/Demand.v ===== *)
(** * Demand paging: what a program sees of the memory it asked for

    The processor looks an address up in the page tables; when the entry is
    missing or lacks a bit the access needs, it calls the page fault handler and
    tries again.  A fault the kernel refuses, which ends the task or panics (file
    Traps), is [Panic] here.  The reference is a flat memory, a function from the
    numbers of 64-bit words to their values. *)
From S2P Require Import Prelude Algorithm Bitmap Pmm List Paging AddressSpace.

(** ** Halves of words *)
Definition half (a w : Z) : Z := if a mod 8 =? 0 then u32 w else u32 (Z.shiftr w 32).
Definition set_half (a x w : Z) : Z :=
  if a mod 8 =? 0 then Z.lor (Z.shiftl (Z.shiftr w 32) 32) (u32 x) else Z.lor (Z.shiftl (u32 x) 32) (u32 w).

Lemma low_half y x : u32 (Z.lor (Z.shiftl y 32) (u32 x)) = u32 x.
Proof.
  apply Z.bits_inj'. intros i Hi. rewrite !wrap_testbit, Z.lor_spec, Z.shiftl_spec, wrap_testbit by lia.
  case_bool_decide; [|done]. by rewrite (Z.testbit_neg_r y) by lia.
Qed.

Lemma high_half y x : Z.shiftr (Z.lor (Z.shiftl y 32) (u32 x)) 32 = y.
Proof.
  apply Z.bits_inj'. intros i Hi. rewrite Z.shiftr_spec, Z.lor_spec, Z.shiftl_spec, wrap_testbit by lia.
  rewrite bool_decide_false, orb_false_r by lia. f_equal. lia.
Qed.

Lemma half_set a x w : half a (set_half a x w) = u32 x.
Proof.
  unfold half, set_half. destruct (a mod 8 =? 0); [apply low_half|]. rewrite high_half.
  apply wrap_small, wrap_range. lia.
Qed.

Lemma half_set_other a b x w : (a mod 8 =? 0) <> (b mod 8 =? 0) -> half b (set_half a x w) = half b w.
Proof.
  unfold half, set_half. intros Hne. destruct (a mod 8 =? 0), (b mod 8 =? 0); try done.
  - by rewrite high_half.
  - apply low_half.
Qed.

Section Demand.
Context {A : Type} `{PageAllocator A}.
Context (hhdm : Z).
Implicit Types (s : vm A) (pm : Pagemap).

(** ** Accesses *)

(** The bits an access asks of the entry. *)
Definition needs (user write : bool) : Z :=
  Z.lor PAGE_PRESENT (Z.lor (if user then PAGE_USER else 0) (if write then PAGE_WRITABLE else 0)).
Definition allows (bits e : Z) : bool := Z.land e bits =? bits.

Definition entry_for (bits : Z) pm (v : Z) s : option Z :=
  e ← translate hhdm (mem s) (pml4 pm) v; if allows bits e then Some e else None.

(** The entry the access goes through; more than [fuel] faults at one access
    would be a fault served in vain, for ever. *)
Fixpoint access (fuel : nat) (bits : Z) pm (v : Z) s : outcome (Z * vm A) :=
  match entry_for bits pm v s, fuel with
  | Some e, _ => Ret (e, s)
  | None, O => Diverge
  | None, S fuel =>
      '(refused, s) ← handle_page_fault hhdm pm v s;
      if refused : bool then Panic else access fuel bits pm v s
  end.

(** The frame as the window shows it, and the word in it. *)
Definition frame (e : Z) : Z := next hhdm e.
Definition word_index (v : Z) : Z := v mod 0x1000 / 8.

(** A 64-bit load, and a store of what [g] makes of the word. *)
Definition load (user : bool) pm (v : Z) s : outcome (Z * vm A) :=
  '(e, s) ← access 1 (needs user false) pm v s;
  x ← read_entry (frame e) (word_index v) s;
  Ret (x, s).
Definition update (user : bool) pm (v : Z) (g : Z -> Z) s : outcome (vm A) :=
  '(e, s) ← access 1 (needs user true) pm v s;
  x ← read_entry (frame e) (word_index v) s;
  write_entry (frame e) (word_index v) (g x) s.

Inductive operation := Load (w : Z) | Store (w x : Z).

Fixpoint run_on (user : bool) pm (ops : list operation) s : outcome (list Z * vm A) :=
  match ops with
  | [] => Ret ([], s)
  | Load w :: ops =>
      '(x, s) ← load user pm (8 * w) s; '(xs, s) ← run_on user pm ops s; Ret (x :: xs, s)
  | Store w x :: ops => s ← update user pm (8 * w) (fun _ => x) s; run_on user pm ops s
  end.

(** ** The reference *)
Fixpoint flat (ops : list operation) (f : Z -> Z) : list Z * (Z -> Z) :=
  match ops with
  | [] => ([], f)
  | Load w :: ops => let '(xs, f') := flat ops f in (f w :: xs, f')
  | Store w x :: ops => flat ops (fun v => if v =? w then x else f v)
  end.

Definition word_of (o : operation) : Z := match o with Load w | Store w _ => w end.

(** ** A range backed on demand *)
Section range.
Context (window_ok : 0 <= hhdm <= 2 ^ 64 - 2 ^ 46).
Context (user : bool) pm (lo hi fl : Z) (k : nat) (s0 : vm A).

(** The pages from [lo] to [hi], inside one anonymous range with flags [fl]. *)
Record bounds : Prop := {
  b_range : 0 <= lo <= hi /\ hi - lo <= 2 ^ 47;
  b_pages : lo mod 0x1000 = 0 /\ hi mod 0x1000 = 0;
  b_flags : present fl = true /\ Z.land fl ADDR = 0 /\ allows (needs user true) fl = true }.

Definition reserved s : Prop :=
  exists l, ranges_ok s pm l /\ (forall p r, p ∈ l -> ranges s !! p = Some r -> present (page_flags r) = true) /\
    forall v, lo <= v < hi -> exists p r, first_range s v l = Some p /\ ranges s !! p = Some r /\
      range_kind r = ANONYMOUS /\ page_flags r = fl.

Lemma reserved_same s s' : heads s' = heads s -> ranges s' = ranges s -> reserved s -> reserved s'.
Proof.
  intros Eh Er (l & Hrok & Hfl & Hl). exists l. unfold ranges_ok in *. rewrite Eh, Er. split; [done|]. split; [done|].
  intros v Hv. rewrite (first_range_same s s') by done. by apply Hl.
Qed.

(** The pages not touched yet. *)
Definition untouched s : list Z :=
  filter (fun k => translate hhdm (mem s) (pml4 pm) (k * 0x1000) = None) (seqZ (lo / 0x1000) ((hi - lo) / 0x1000)).

(** [f] is what the words of the range hold, there is memory for all of it and
    [k] pages more, and elsewhere all is as in [s0]. *)
Record backed (f : Z -> Z) s : Prop := {
  bk_inv : inv hhdm s (pml4 pm);
  bk_reserved : reserved s;
  bk_words w : lo <= 8 * w < hi ->
    match translate hhdm (mem s) (pml4 pm) (8 * w) with
    | None => f w = 0
    | Some e =>
        allows (needs user true) e = true /\ data hhdm s (pml4 pm) (frame e) /\
        exists ws, mem s !! frame e = Some ws /\ List.length ws = 512%nat /\ zlookup ws (w mod 512) = Some (f w)
    end;
  bk_apart v w e e' : lo <= 8 * v < hi -> lo <= 8 * w < hi ->
    translate hhdm (mem s) (pml4 pm) (8 * v) = Some e -> translate hhdm (mem s) (pml4 pm) (8 * w) = Some e' ->
    frame e = frame e' -> page (8 * v) = page (8 * w);
  bk_rest : heads s = heads s0 /\ ranges s = ranges s0 /\
    forall v, (forall w, lo <= 8 * w < hi -> page v <> page (8 * w)) ->
      translate hhdm (mem s) (pml4 pm) v = translate hhdm (mem s0) (pml4 pm) v;
  bk_supply : supply (4 * List.length (untouched s) + k) (frames s) }.

Hypothesis Hb : bounds.

Lemma same_page v w : lo <= 8 * v < hi -> lo <= 8 * w < hi -> page (8 * v) = page (8 * w) <-> v / 512 = w / 512.
Proof.
  intros Hv Hw. destruct Hb as [[H0 H1] _ _]. unfold page. change (2 ^ 12) with (8 * 512).
  rewrite !Z.div_mul_cancel_l by lia. split; [|by intros ->]. intros E.
  pose proof (Z.div_mod v 512 ltac:(lia)). pose proof (Z.div_mod w 512 ltac:(lia)).
  pose proof (Z.mod_pos_bound v 512 ltac:(lia)). pose proof (Z.mod_pos_bound w 512 ltac:(lia)).
  pose proof (Z.div_mod (v / 512) (2 ^ 36) ltac:(lia)). pose proof (Z.div_mod (w / 512) (2 ^ 36) ltac:(lia)).
  nia.
Qed.

Lemma word_index_spec w : word_index (8 * w) = w mod 512.
Proof.
  unfold word_index. change 0x1000 with (8 * 512). rewrite Z.mul_mod_distr_l by lia.
  by rewrite Z.mul_comm, Z.div_mul by lia.
Qed.
(** ** One fault *)

(** A served fault on an anonymous range: a cleared frame that nobody had, and
    the contents of all other frames kept. *)
Lemma fault_anonymous n v s l p r :
  inv hhdm s (pml4 pm) -> supply (4 + n) (frames s) -> ranges_ok s pm l ->
  translate hhdm (mem s) (pml4 pm) v = None -> first_range s v l = Some p -> ranges s !! p = Some r ->
  range_kind r = ANONYMOUS -> present (page_flags r) = true ->
  exists f s', handle_page_fault hhdm pm v s = Ret (false, s') /\ inv hhdm s' (pml4 pm) /\
    0 <= f < 2 ^ 46 /\ f mod 0x1000 = 0 /\ ~ owned (frames s) f /\
    now_maps hhdm s s' (pml4 pm) v (Z.lor f (page_flags r)) /\
    data hhdm s' (pml4 pm) (f + hhdm) /\ mem s' !! (f + hhdm) = Some zero_page /\
    (forall x, data hhdm s (pml4 pm) x -> data hhdm s' (pml4 pm) x /\ mem s' !! x = mem s !! x) /\
    heads s' = heads s /\ ranges s' = ranges s /\ supply n (frames s').
Proof.
  intros Hinv Hsup Hrok Hnone Hfr Hr Hk Hpr. unfold handle_page_fault.
  destruct (descend_spec hhdm window_ok s pm v (1 + n) Hinv Hsup) as (t & s1 & -> & Hext & Ht & Hsup1). ored.
  pose proof (ext_inv _ _ _ _ Hext) as Hinv1. destruct (ext_rest _ _ _ _ Hext) as (Eh & Er & _).
  destruct (read_leaf_spec hhdm s1 (pml4 pm) v t Hinv1 Ht) as (e & -> & He). ored.
  rewrite (ext_translate _ _ _ _ Hext), Hnone in He. unfold visible in He. destruct (present e); [done|]. cbn [negb].
  assert (ranges_ok s1 pm l) as Hrok1 by (unfold ranges_ok; by rewrite Eh, Er).
  rewrite (addr_to_range_spec s1 pm v l Hrok1). ored.
  assert (first_range s1 v l = Some p) as -> by (by rewrite (first_range_same s s1)).
  rewrite Er, Hr. ored. rewrite Hk. destruct Hsup1 as (f & a' & Ha & Hsup2).
  destruct (alloc_page_fresh (frames s1) f a' (inv_good _ _ _ Hinv1) Ha) as (_ & Hf & Hfm & Hno & Hown & _).
  destruct (new_page_spec hhdm window_ok s1 (pml4 pm) f a' Hinv1 Ha) as (s2 & -> & Hext2 & Efr & Htab2 & Hz). ored.
  assert (tab hhdm (mem s2) (pml4 pm) (indices v) = Some t) as Ht2 by (rewrite Htab2 by (unfold indices; cbn; lia); done).
  assert (data hhdm s2 (pml4 pm) (f + hhdm)) as Hd2.
  { split; [exists f; by rewrite Efr|]. intros q Hq Hx. rewrite Htab2 in Hx by done.
    by apply (fresh_table hhdm s1 (pml4 pm) f a' Hinv1 Ha q _ Hq Hx). }
  destruct (write_leaf_spec hhdm window_ok s2 (pml4 pm) v t (Z.lor f (page_flags r)) (ext_inv _ _ _ _ Hext2) Ht2)
    as (s3 & -> & Hinv3 & Htr & Eh3 & Er3 & _ & Ef3 & Hoth & Htab3). ored.
  assert (Hkeep : forall x, data hhdm s2 (pml4 pm) x -> data hhdm s3 (pml4 pm) x /\ mem s3 !! x = mem s2 !! x).
  { intros x [Hq Hx]. split; [split; [by rewrite Ef3|intros q Hq'; rewrite Htab3 by done; by apply Hx]|].
    apply Hoth. intros ->. by apply (Hx (indices v)); [unfold indices; cbn; lia|]. }
  destruct (ext_rest _ _ _ _ Hext2) as (Eh2 & Er2 & _).
  exists f, s3. split; [done|]. split; [done|]. split; [lia|]. split; [done|]. split.
  { intros Ho. by apply Hno, (ext_owned _ _ _ _ Hext). }
  split; [|split; [by apply Hkeep|split; [by rewrite (proj2 (Hkeep _ Hd2))|split; [|split_and!; try congruence]]]].
  - intros w. rewrite Htr, (ext_translate _ _ _ _ Hext2), (ext_translate _ _ _ _ Hext). unfold visible.
    by rewrite present_lor, Hpr, orb_true_r.
  - intros x [Hx Ex]%(ext_data _ _ _ _ Hext). destruct (ext_data _ _ _ _ Hext2 x Hx) as [Hx2 Ex2].
    destruct (Hkeep x Hx2) as [Hx3 Ex3]. split; [done|]. congruence.
  - rewrite Ef3, Efr. done.
Qed.

Lemma elem_of_untouched x s :
  x ∈ untouched s <->
  translate hhdm (mem s) (pml4 pm) (x * 0x1000) = None /\ lo / 0x1000 <= x < lo / 0x1000 + (hi - lo) / 0x1000.
Proof. unfold untouched. by rewrite list_elem_of_filter, elem_of_seqZ. Qed.

Lemma page_of_untouched v s :
  lo <= v < hi -> v / 0x1000 ∈ untouched s <-> translate hhdm (mem s) (pml4 pm) v = None.
Proof.
  intros Hv. destruct Hb as [[H0 H1] [H2 H3] _]. rewrite elem_of_untouched, (translate_page _ _ _ _ v).
  - pose proof (Z.div_mod v 0x1000 ltac:(lia)). pose proof (Z.mod_pos_bound v 0x1000 ltac:(lia)).
    pose proof (Z.div_mod lo 0x1000 ltac:(lia)). pose proof (Z.div_mod hi 0x1000 ltac:(lia)).
    replace ((hi - lo) / 0x1000) with (hi / 0x1000 - lo / 0x1000); [split; [tauto|split; [done|lia]]|].
    apply (Z.div_unique _ _ _ 0); lia.
  - unfold page. change (2 ^ 12) with 0x1000. by rewrite Z.div_mul.
Qed.

Lemma untouched_less v e s s' :
  lo <= v < hi -> translate hhdm (mem s) (pml4 pm) v = None -> now_maps hhdm s s' (pml4 pm) v e ->
  (S (List.length (untouched s')) <= List.length (untouched s))%nat.
Proof.
  intros Hv Hnone Hmaps. change (S (List.length (untouched s'))) with (List.length (v / 0x1000 :: untouched s')).
  apply submseteq_length, NoDup_submseteq.
  - apply NoDup_cons. split; [|apply NoDup_filter, NoDup_seqZ].
    rewrite (page_of_untouched v s' Hv), Hmaps. by rewrite decide_True.
  - intros x [->|Hk]%elem_of_cons; [by apply page_of_untouched|].
    apply elem_of_untouched in Hk as [Hk Hin]. apply elem_of_untouched. split; [|done].
    rewrite Hmaps in Hk. by case_decide.
Qed.

Lemma allows_lor bits f e : allows bits e = true -> allows bits (Z.lor f e) = true.
Proof.
  unfold allows. rewrite !Z.eqb_eq. intros E. rewrite Z.land_lor_distr_l, E. apply Z.bits_inj'. intros i Hi.
  rewrite Z.lor_spec, Z.land_spec. by destruct (Z.testbit f i), (Z.testbit bits i).
Qed.

Lemma allows_read e : allows (needs user true) e = true -> allows (needs user false) e = true.
Proof.
  unfold allows. rewrite !Z.eqb_eq. intros E. apply Z.bits_inj'. intros i Hi. pose proof (f_equal (fun x => Z.testbit x i) E) as Ei.
  revert Ei. cbn beta. unfold needs. rewrite !Z.land_spec, !Z.lor_spec, Z.bits_0.
  destruct (Z.testbit e i), (Z.testbit PAGE_PRESENT i), (Z.testbit (if user then PAGE_USER else 0) i),
    (Z.testbit PAGE_WRITABLE i); cbn; congruence.
Qed.

(** A page taken into use keeps what the range holds. *)
Lemma backed_fault f s w :
  backed f s -> lo <= 8 * w < hi -> translate hhdm (mem s) (pml4 pm) (8 * w) = None ->
  exists s' e, handle_page_fault hhdm pm (8 * w) s = Ret (false, s') /\ backed f s' /\
    translate hhdm (mem s') (pml4 pm) (8 * w) = Some e /\ allows (needs user true) e = true.
Proof.
  intros [Hinv Hres Hwords Hapart (Rh & Rr & Rt) Hsup] Hw Hnone. pose proof Hres as (l & Hrok & Hfl & Hl). destruct (Hl _ Hw) as (p & r & Hfr & Hr & Hk & Efl).
  destruct Hb as [_ _ (Hpr & Hfa & Hal)].
  destruct (List.length (untouched s)) as [|m] eqn:Ek.
  { apply (page_of_untouched _ s Hw) in Hnone. destruct (untouched s); [by apply not_elem_of_nil in Hnone|done]. }
  replace (4 * S m + k)%nat with (4 + (4 * m + k))%nat in Hsup by lia.
  destruct (fault_anonymous (4 * m + k) (8 * w) s l p r Hinv Hsup Hrok Hnone Hfr Hr Hk) as
    (g & s' & E & Hinv' & Hg & Hgm & Hno & Hmaps & Hd & Hz & Hkeep & Eh & Er & Hs'); [by rewrite Efl|].
  rewrite Efl in Hmaps. set (e := Z.lor g fl) in *.
  assert (frame e = g + hhdm) as Ef.
  { unfold frame, next, e. rewrite land_ADDR by (done || lia). apply wrap_small. lia. }
  assert (allows (needs user true) e = true) as Hae by (by apply allows_lor).
  exists s', e. split; [done|]. split; [|split; [by rewrite Hmaps, decide_True|done]]. split; [done|..].
  - by apply (reserved_same s).
  - intros w' Hw'. specialize (Hwords w' Hw'). rewrite Hmaps. case_decide as Ep.
    + rewrite (translate_page _ _ _ _ _ Ep), Hnone in Hwords. split; [done|]. rewrite Ef. split; [done|].
      exists zero_page. split; [done|]. split; [done|]. rewrite Hwords.
      destruct (zlookup_is_Some zero_page (w' mod 512)) as [x Hx].
      { change (Z.of_nat (List.length zero_page)) with 512. apply Z.mod_pos_bound. lia. }
      by rewrite Hx, (zlookup_zero_page _ _ Hx).
    + destruct (translate _ (mem s) _ (8 * w')) as [e'|]; [|done].
      destruct Hwords as (Ha & [Hd' Ex]%Hkeep & Hws). split; [done|]. split; [done|]. by rewrite Ex.
  - intros v v' e1 e2 Hv Hv'. rewrite !Hmaps.
    assert (Hold : forall u x, lo <= 8 * u < hi -> translate hhdm (mem s) (pml4 pm) (8 * u) = Some x -> frame x <> frame e).
    { intros u x Hu Hx. specialize (Hwords u Hu). rewrite Hx in Hwords. destruct Hwords as (_ & [(q & Eq & Hq) _] & _).
      rewrite Eq, Ef. intros ?. assert (q = g) as -> by lia. done. }
    case_decide as E1; case_decide as E2.
    + by rewrite E1, E2.
    + intros [= <-] H2 Efr. by destruct (Hold v' e2 Hv' H2).
    + intros H1 [= <-] Efr. by destruct (Hold v e1 Hv H1).
    + by apply Hapart.
  - split; [congruence|]. split; [congruence|]. intros v Hv. rewrite Hmaps, decide_False by (by apply Hv). by apply Rt.
  - pose proof (untouched_less (8 * w) e s s' Hw Hnone Hmaps). eapply supply_le; [|exact Hs']. lia.
Qed.
(** ** Loads and stores *)
Lemma access_spec f s w bits :
  backed f s -> lo <= 8 * w < hi -> (forall e, allows (needs user true) e = true -> allows bits e = true) ->
  exists e s', access 1 bits pm (8 * w) s = Ret (e, s') /\ backed f s' /\ translate hhdm (mem s') (pml4 pm) (8 * w) = Some e.
Proof.
  intros Hf Hw Hbits. cbn [access]. unfold entry_for.
  destruct (translate hhdm (mem s) (pml4 pm) (8 * w)) as [e|] eqn:Et;
    cbn [mbind option_bind].
  - pose proof (bk_words _ _ Hf w Hw) as Hx. rewrite Et in Hx. destruct Hx as [Ha _]. rewrite (Hbits e Ha). by exists e, s.
  - destruct (backed_fault f s w Hf Hw Et) as (s' & e & -> & Hf' & Et' & Ha). ored. rewrite Et'. cbn [mbind option_bind].
    rewrite (Hbits e Ha). by exists e, s'.
Qed.

Lemma word_spec f s w e :
  backed f s -> lo <= 8 * w < hi -> translate hhdm (mem s) (pml4 pm) (8 * w) = Some e ->
  data hhdm s (pml4 pm) (frame e) /\ exists ws, mem s !! frame e = Some ws /\ List.length ws = 512%nat /\
    zlookup ws (word_index (8 * w)) = Some (f w) /\ read_entry (frame e) (word_index (8 * w)) s = Ret (f w).
Proof.
  intros Hf Hw Et. pose proof (bk_words _ _ Hf w Hw) as Hx. rewrite Et in Hx. destruct Hx as (_ & Hd & ws & Hm & Hl & Hz).
  split; [done|]. exists ws. rewrite word_index_spec. split; [done|]. split; [done|]. split; [done|].
  unfold read_entry. rewrite Hm. ored. by rewrite Hz.
Qed.

Lemma load_spec f s w :
  backed f s -> lo <= 8 * w < hi -> exists s', load user pm (8 * w) s = Ret (f w, s') /\ backed f s'.
Proof.
  intros Hf Hw. unfold load. destruct (access_spec f s w (needs user false) Hf Hw allows_read) as (e & s' & -> & Hf' & Et). ored.
  destruct (word_spec f s' w e Hf' Hw Et) as (_ & ws & _ & _ & _ & ->). ored. by exists s'.
Qed.

Definition put_word (w x : Z) (f : Z -> Z) (v : Z) : Z := if v =? w then x else f v.

Lemma backed_store f s w e ws x :
  backed f s -> lo <= 8 * w < hi -> translate hhdm (mem s) (pml4 pm) (8 * w) = Some e ->
  mem s !! frame e = Some ws -> List.length ws = 512%nat -> data hhdm s (pml4 pm) (frame e) ->
  backed (put_word w x f) (set_mem (<[frame e := zinsert (word_index (8 * w)) x ws]> (mem s)) s).
Proof.
  intros Hf Hw Et Hm Hl Hd. rewrite word_index_spec. pose proof (bk_inv _ _ Hf) as Hinv.
  destruct (data_write hhdm s (pml4 pm) (frame e) (zinsert (w mod 512) x ws) Hinv Hd) as (Hinv' & Htr & Hdata).
  split; cbn [mem set_mem frames]; [done|by apply (reserved_same s), (bk_reserved _ _ Hf)|..].
  - intros v Hv. rewrite Htr. pose proof (bk_words _ _ Hf v Hv) as Hx.
    destruct (translate hhdm (mem s) (pml4 pm) (8 * v)) as [e'|] eqn:Ev; unfold put_word.
    2: { destruct (Z.eqb_spec v w) as [->|]; [congruence|done]. }
    destruct Hx as (Ha & Hd' & ws' & Hm' & Hl' & Hz'). split; [done|]. split; [by apply Hdata|].
    pose proof (Z.div_mod v 512 ltac:(lia)). pose proof (Z.div_mod w 512 ltac:(lia)).
    pose proof (Z.mod_pos_bound v 512 ltac:(lia)). pose proof (Z.mod_pos_bound w 512 ltac:(lia)).
    destruct (decide (frame e' = frame e)) as [Efr|Efr].
    + assert (v / 512 = w / 512) as Epg by (apply (same_page v w Hv Hw); by eapply (bk_apart _ _ Hf)).
      rewrite Efr in *. rewrite Hm in Hm'. injection Hm' as <-. exists (zinsert (w mod 512) x ws).
      split; [apply lookup_insert_eq|]. rewrite length_zinsert. split; [done|].
      destruct (Z.eqb_spec v w) as [->|Hne].
      * apply zlookup_zinsert_eq. lia.
      * rewrite zlookup_zinsert_ne; [done|lia|lia].
    + exists ws'. rewrite lookup_insert_ne by done. split; [done|]. split; [done|].
      destruct (Z.eqb_spec v w) as [->|Hne]; [congruence|done].
  - intros v v' e1 e2 Hv Hv'. rewrite !Htr. by apply (bk_apart _ _ Hf).
  - destruct (bk_rest _ _ Hf) as (Rh & Rr & Rt). split; [done|]. split; [done|]. intros v Hv. rewrite Htr. by apply Rt.
  - replace (untouched (set_mem (<[frame e:=zinsert (w mod 512) x ws]> (mem s)) s)) with (untouched s); [exact (bk_supply _ _ Hf)|].
    unfold untouched. apply list_filter_iff. intros x'. cbn [mem set_mem]. by rewrite Htr.
Qed.

Lemma update_spec f s w g :
  backed f s -> lo <= 8 * w < hi -> exists s', update user pm (8 * w) g s = Ret s' /\ backed (put_word w (g (f w)) f) s'.
Proof.
  intros Hf Hw. unfold update. destruct (access_spec f s w (needs user true) Hf Hw (fun e He => He)) as (e & s' & -> & Hf' & Et). ored.
  destruct (word_spec f s' w e Hf' Hw Et) as (Hd & ws & Hm & Hl & Hz & ->). ored.
  unfold write_entry. rewrite Hm. ored. rewrite Hz. ored. eexists. split; [done|]. by apply backed_store.
Qed.

Lemma run_on_spec ops : forall f s,
  backed f s -> Forall (fun o => lo <= 8 * word_of o < hi) ops ->
  exists s', run_on user pm ops s = Ret ((flat ops f).1, s') /\ backed (flat ops f).2 s'.
Proof.
  induction ops as [|[w|w x] ops IH]; intros f s Hf Hops; cbn [run_on flat].
  - by exists s.
  - apply Forall_cons in Hops as [Hw Hops]. destruct (load_spec f s w Hf Hw) as (s1 & -> & Hf1). ored.
    destruct (IH f s1 Hf1 Hops) as (s' & -> & Hf'). ored. destruct (flat ops f) as [xs f']. by exists s'.
  - apply Forall_cons in Hops as [Hw Hops]. destruct (update_spec f s w (fun _ => x) Hf Hw) as (s1 & -> & Hf1). ored.
    apply (IH _ s1 Hf1 Hops).
Qed.
End range.

(** ** Memory from mmap *)
Lemma mmap_flags_bounds prot :
  Z.land (mmap_flags prot) ADDR = 0 /\
  (negb (Z.land prot PROT_WRITE =? 0) = true -> allows (needs true true) (mmap_flags prot) = true).
Proof.
  unfold mmap_flags. destruct (negb (Z.land prot PROT_WRITE =? 0)), (Z.land prot PROT_EXEC =? 0);
    (split; [reflexivity|]); intros Hw; (reflexivity || discriminate Hw).
Qed.

Section mmap.
Context (window_ok : 0 <= hhdm <= 2 ^ 64 - 2 ^ 46).

(** The pages from [lo] to [hi] of what a call has reserved hold zeros. *)
Lemma mmap_backed s pm l range base len prot flags lo hi k :
  inv hhdm s (pml4 pm) -> ranges_ok s pm l ->
  (forall p r, p ∈ l -> ranges s !! p = Some r -> present (page_flags r) = true) ->
  range ∉ range_list_head pm :: l ->
  negb (Z.land flags MAP_PRIVATE =? 0) && (Z.land flags MAP_SHARED =? 0)
    && negb (Z.land flags MAP_ANONYMOUS =? 0) = true ->
  negb (Z.land prot PROT_WRITE =? 0) = true ->
  0 <= base -> base mod 0x1000 = 0 -> 0 <= len -> base + len + 0x1000 < 2 ^ 64 ->
  base <= lo <= hi /\ hi <= base + align_up 0x1000 len /\ hi - lo <= 2 ^ 47 -> lo mod 0x1000 = 0 -> hi mod 0x1000 = 0 ->
  (forall v, lo <= v < hi -> translate hhdm (mem s) (pml4 pm) v = None) ->
  supply (4 * Z.to_nat ((hi - lo) / 0x1000) + k) (frames s) ->
  bounds true lo hi (mmap_flags prot) /\
  exists s1, syscall_mmap range pm base len prot flags s = Ret (base, base + align_up 0x1000 len, s1) /\
    ranges_ok s1 pm (range :: l) /\
    (forall p r, p ∈ range :: l -> ranges s1 !! p = Some r -> present (page_flags r) = true) /\ mem s1 = mem s /\
    backed true pm lo hi (mmap_flags prot) k s1 (fun _ => 0) s1.
Proof.
  intros Hinv Hrok Hfl Hrange Hmode Hw Hb0 Hbm Hlen Hov (Hlo & Hhi & Hsize) Hlom Hhim Hnone Hsup.
  destruct (mmap_flags_bounds prot) as [Hadd Hall].
  split; [split; [lia|done|split_and!; [apply mmap_flags_present|done|by apply Hall]]|].
  destruct (mmap_entry s pm l range base len prot flags Hrok Hrange Hmode Hb0 Hbm Hlen Hov)
    as (s1 & -> & Hm & Hal & Hrok1 & Em & Ef & Er).
  assert (ranges s1 !! range = Some (mkMappedRange base (align_up 0x1000 len) (mmap_flags prot) ANONYMOUS)) as Hr
    by (rewrite Er; apply lookup_insert_eq).
  pose proof (flags_present s s1 l range _ Er (mmap_flags_present prot) Hfl) as Hfl1.
  exists s1. split; [done|]. split; [done|]. split; [done|]. split; [done|]. split.
  - by apply (inv_same hhdm s).
  - exists (range :: l). split; [done|]. split; [done|].
    intros v Hv. exists range. eexists. split; [|by split].
    apply (first_range_front s1 range _ l v Hr). cbn. rewrite wrap_small; lia.
  - intros w Hw'. by rewrite Em, Hnone.
  - intros v w e e' Hv _. by rewrite Em, Hnone.
  - done.
  - rewrite Ef. eapply supply_le; [|exact Hsup]. apply Nat.add_le_mono_r, Nat.mul_le_mono_l. unfold untouched.
    rewrite length_filter. by rewrite length_seqZ.
Qed.

(** C19. Memory from [mmap] is memory: after a private anonymous writable [mmap],
    any sequence of 64-bit loads and stores in any pages of the area, each
    going through the page tables and, where a page is missing, through the
    page fault handler, returns and gives for every load the value last stored
    there, zero when there was none; frames are needed for the pages of those
    addresses only. *)
Theorem mmapped_memory_is_flat s pm l range base len prot flags lo hi ops :
  inv hhdm s (pml4 pm) -> ranges_ok s pm l ->
  (forall p r, p ∈ l -> ranges s !! p = Some r -> present (page_flags r) = true) ->
  range ∉ range_list_head pm :: l ->
  negb (Z.land flags MAP_PRIVATE =? 0) && (Z.land flags MAP_SHARED =? 0)
    && negb (Z.land flags MAP_ANONYMOUS =? 0) = true ->
  negb (Z.land prot PROT_WRITE =? 0) = true ->
  0 <= base -> base mod 0x1000 = 0 -> 0 <= len -> base + len + 0x1000 < 2 ^ 64 ->
  base <= lo <= hi /\ hi <= base + align_up 0x1000 len /\ hi - lo <= 2 ^ 47 -> lo mod 0x1000 = 0 -> hi mod 0x1000 = 0 ->
  (forall v, lo <= v < hi -> translate hhdm (mem s) (pml4 pm) v = None) ->
  supply (4 * Z.to_nat ((hi - lo) / 0x1000)) (frames s) ->
  Forall (fun o => lo <= 8 * word_of o < hi) ops ->
  exists s1 s2, syscall_mmap range pm base len prot flags s = Ret (base, base + align_up 0x1000 len, s1) /\
    run_on true pm ops s1 = Ret ((flat ops (fun _ => 0)).1, s2).
Proof.
  intros Hinv Hrok Hfl Hrange Hmode Hw Hb0 Hbm Hlen Hov Hin Hlom Hhim Hnone Hsup Hops.
  destruct (mmap_backed s pm l range base len prot flags lo hi 0) as (Hb & s1 & E & _ & _ & _ & Hbk); rewrite ?Nat.add_0_r; try done.
  destruct (run_on_spec window_ok true pm lo hi (mmap_flags prot) 0 s1 Hb ops _ s1 Hbk Hops) as (s2 & E2 & _).
  by exists s1, s2.
Qed.
End mmap.
End Demand.

(** ** A page of memory on the map of file Paging *)
Lemma mmapped_memory_is_flat_witness :
  exists s1 s2, syscall_mmap 2000 the_map 0x400000 4096 3 9 vm0 = Ret (0x400000, 0x401000, s1) /\
    run_on window true the_map [Load 0x80000; Store 0x80001 77; Load 0x80001; Load 0x80000] s1 = Ret ([0; 77; 0], s2).
Proof.
  apply (mmapped_memory_is_flat window window_range vm0 the_map [] 2000 0x400000 4096 3 9 0x400000 0x401000
    [Load 0x80000; Store 0x80001 77; Load 0x80001; Load 0x80000] (proj1 vm0_inv) vm0_ranges); try reflexivity; try lia.
  - intros p r Hp. by apply not_elem_of_nil in Hp.
  - intros Hp. apply elem_of_cons in Hp as [Hp|Hp]; [cbn in Hp; lia|by apply not_elem_of_nil in Hp].
  - change (align_up 0x1000 4096) with 4096. lia.
  - intros v _. apply (proj2 vm0_inv).
  - exact vm0_supply.
  - repeat constructor; cbn; lia.
Defined.
