(* ===== verification/Initramfs.v ===== *)
(** * fs/initramfs.cpp: the loader of the initial file tree

    [mem] are the bytes found from [file_addr] on; reading past them is a fault.
    The log lines are left out. *)
From S2P Require Import Prelude Algorithm CString HashMap Vector Keyboard Printf Vfs Descriptors Tmpfs Tree Mkfs.

(** [octal_to_bin(str, len)]; the character is looked at before [len]. *)
Fixpoint octal_to_bin (str : list Z) (len : nat) (value : Z) : outcome Z :=
  match str with
  | [] => Fault
  | c :: str =>
      if c =? 0 then Ret value
      else match len with
           | O => Ret value
           | S len => octal_to_bin str len (u64 (value * 8 + u64 (i8 c - 48)))
           end
  end.

(** Bytes and strings in memory, by their offset. *)
Definition bytes_at (mem : list Z) (o n : Z) : outcome (list Z) :=
  if (0 <=? o) && (o + n <=? Z.of_nat (length mem))
  then Ret (take (Z.to_nat n) (drop (Z.to_nat o) mem)) else Fault.

Fixpoint c_string (mem : list Z) : outcome cstring :=
  match mem with
  | [] => Fault
  | c :: mem => if c =? 0 then Ret [] else s ← c_string mem; Ret (c :: s)
  end.

Definition string_at (mem : list Z) (o : Z) : outcome cstring :=
  if 0 <=? o then c_string (drop (Z.to_nat o) mem) else Fault.

(** The fields of [USTARHeader] the loader uses, by their offsets. *)
Definition name_offset : Z := 0.
Definition size_offset : Z := 124.
Definition typeflag_offset : Z := 156.
Definition magic_offset : Z := 257.

Section load.
Context {D : Type} (filesystem : Z -> option (FileSystem D)).

(** One archive member whose header is at offset [o], its size known. *)
Definition load_member (dir : Z) (mem : list Z) (o size : Z) (st : vfs D) : outcome (vfs D) :=
  nm ← string_at mem (o + name_offset);
  if negb (strcmp nm (lit "./") =? 0) then
    result ← path_to_node st nm dir;
    if negb (target result =? 0) then Panic
    else
      match basename result with
      | None => Panic
      | Some basename =>
          flag ← bytes_at mem (o + typeflag_offset) 1;
          d ← Vfs.deref st dir;
          F ← of_option (filesystem (fs d));
          if (CString.deref flag =? 48) || (CString.deref flag =? 0) then
            '(st, file) ← Vfs.create F (fs d) (target_parent result) basename FILE st;
            n ← Vfs.deref st file;
            G ← of_option (filesystem (fs n));
            data ← bytes_at mem (o + 512) size;
            Vfs.write G file data 0 st
          else if CString.deref flag =? 53 then
            '(st, _) ← Vfs.create F (fs d) (target_parent result) basename DIRECTORY st;
            Ret st
          else Panic
      end
  else Ret st.

(** The loop, [current] being an address.  Unless an address wraps around every
    turn moves it by 512 at least. *)
Fixpoint load_loop (fuel : nat) (dir file_addr file_size : Z) (mem : list Z) (current : Z) (st : vfs D) :
    outcome (vfs D) :=
  match fuel with
  | O => Diverge
  | S fuel =>
      let o := current - file_addr in
      magic ← bytes_at mem (o + magic_offset) 6;
      if negb (memcmp magic (lit "ustar" ++ [0]) 6 =? 0) then Ret st
      else
        field ← (if 0 <=? o + size_offset then Ret (drop (Z.to_nat (o + size_offset)) mem) else Fault);
        size ← octal_to_bin field 12 0;
        st ← load_member dir mem o size st;
        let current := u64 (current + 512 + align_up 512 size) in
        if u64 (file_addr + file_size) <=? current then Ret st
        else load_loop fuel dir file_addr file_size mem current st
  end.

Definition load_into (dir file_addr file_size : Z) (mem : list Z) (st : vfs D) : outcome (vfs D) :=
  load_loop (S (Z.to_nat (file_size / 512))) dir file_addr file_size mem file_addr st.

End load.

(** ** Archives *)

(** A member: its header fields, those the loader ignores included. *)
Record member := mkMember {
  m_name : cstring; m_meta1 : list Z; m_meta2 : list Z; m_type : Z; m_meta3 : list Z; m_meta4 : list Z;
  m_data : list Z
}.

Fixpoint octal (n : nat) (v : Z) : list Z :=
  match n with O => [] | S n => octal n (v / 8) ++ [48 + v mod 8] end.

Definition pad (n : nat) (l : list Z) : list Z := l ++ replicate (n - length l) 0.

Definition header (m : member) : list Z :=
  pad 100 (m_name m) ++ m_meta1 m ++ (octal 11 (Z.of_nat (length (m_data m))) ++ [0]) ++ m_meta2 m ++
  [m_type m] ++ m_meta3 m ++ (lit "ustar" ++ [0]) ++ m_meta4 m.

Definition blocks (l : list Z) : list Z := pad (Z.to_nat (align_up 512 (Z.of_nat (length l)))) l.

Definition member_bytes (m : member) : list Z := header m ++ blocks (m_data m).

Record member_ok (m : member) : Prop := {
  mo_name : is_cstring (m_name m) = true /\ (length (m_name m) < 100)%nat;
  mo_meta : length (m_meta1 m) = 24%nat /\ length (m_meta2 m) = 20%nat /\
            length (m_meta3 m) = 100%nat /\ length (m_meta4 m) = 249%nat;
  mo_size : Z.of_nat (length (m_data m)) < 8 ^ 11
}.

(** An archive ends with two cleared blocks. *)
Definition archive (ms : list member) : list Z := concat (member_bytes <$> ms) ++ replicate 1024 0.

Section install.
Context {D : Type} (filesystem : Z -> option (FileSystem D)).

(** What loading a member amounts to. *)
Definition install (dir : Z) (m : member) (st : vfs D) : outcome (vfs D) :=
  if negb (bool_decide (m_name m = lit "./")) then
    result ← path_to_node st (m_name m) dir;
    if negb (target result =? 0) then Panic
    else
      match basename result with
      | None => Panic
      | Some basename =>
          d ← Vfs.deref st dir;
          F ← of_option (filesystem (fs d));
          if (m_type m =? 48) || (m_type m =? 0) then
            '(st, file) ← Vfs.create F (fs d) (target_parent result) basename FILE st;
            n ← Vfs.deref st file;
            G ← of_option (filesystem (fs n));
            Vfs.write G file (m_data m) 0 st
          else if m_type m =? 53 then
            '(st, _) ← Vfs.create F (fs d) (target_parent result) basename DIRECTORY st;
            Ret st
          else Panic
      end
  else Ret st.

Fixpoint install_all (dir : Z) (ms : list member) (st : vfs D) : outcome (vfs D) :=
  match ms with
  | [] => Ret st
  | m :: ms => st ← install dir m st; install_all dir ms st
  end.

(** ** Lemmas *)
Lemma bytes_at_app (l1 l2 l3 : list Z) o n :
  o = Z.of_nat (length l1) -> n = Z.of_nat (length l2) -> bytes_at (l1 ++ l2 ++ l3) o n = Ret l2.
Proof.
  intros -> ->. unfold bytes_at. rewrite !length_app.
  rewrite !(proj2 (Z.leb_le _ _)) by lia. cbn [andb]. rewrite !Nat2Z.id.
  by rewrite drop_app_length, take_app_length.
Qed.

Lemma c_string_spec s rest : is_cstring s = true -> c_string (s ++ 0 :: rest) = Ret s.
Proof.
  induction s as [|c s IH]; intros Hs; [done|]. apply is_cstring_cons in Hs as [Hc Hs]. cbn [app c_string].
  rewrite (proj2 (Z.eqb_neq c 0)) by lia. by rewrite IH.
Qed.

Lemma memcmp_refl l n : memcmp l l n = 0.
Proof. revert l. induction n as [|n IH]; intros l; [done|]. cbn. by rewrite Z.eqb_refl. Qed.

Lemma length_octal n v : length (octal n v) = n.
Proof. revert v. induction n as [|n IH]; intros v; [done|]. cbn. rewrite length_app, IH. cbn. lia. Qed.

Lemma octal_to_bin_octal n : forall v len acc rest,
  0 <= v < 8 ^ Z.of_nat n -> (n <= len)%nat -> 0 <= acc -> acc * 8 ^ Z.of_nat n + v < 2 ^ 62 ->
  octal_to_bin (octal n v ++ rest) len acc = octal_to_bin rest (len - n) (acc * 8 ^ Z.of_nat n + v).
Proof.
  induction n as [|n IH]; intros v len acc rest Hv Hlen Hacc Hb.
  - cbn in Hv. replace (acc * 8 ^ Z.of_nat 0 + v) with acc by (cbn; lia). by rewrite Nat.sub_0_r.
  - cbn [octal]. rewrite <- app_assoc. rewrite Nat2Z.inj_succ, Z.pow_succ_r in * by lia.
    pose proof (Z.div_mod v 8 ltac:(lia)). pose proof (Z.mod_pos_bound v 8 ltac:(lia)).
    assert (0 <= v / 8 < 8 ^ Z.of_nat n) by (split; [apply Z.div_pos; lia|apply Z.div_lt_upper_bound; lia]).
    rewrite IH by (try lia; nia). cbn [app octal_to_bin].
    rewrite (proj2 (Z.eqb_neq _ 0)) by lia.
    replace (len - n)%nat with (S (len - S n)) by lia. f_equal.
    unfold i8. rewrite (wrap_small 8 (48 + v mod 8)) by lia. rewrite (proj2 (Z.ltb_lt _ 128)) by lia.
    replace (48 + v mod 8 - 48) with (v mod 8) by lia. rewrite (wrap_small 64 (v mod 8)) by lia.
    rewrite wrap_small by nia. nia.
Qed.

Lemma length_pad n l : (length l <= n)%nat -> length (pad n l) = n.
Proof. intros. unfold pad. rewrite length_app, length_replicate. lia. Qed.

Lemma length_header m : member_ok m -> length (header m) = 512%nat.
Proof.
  intros [[_ ?] (? & ? & ? & ?) _]. unfold header.
  repeat (rewrite length_app || rewrite length_octal || rewrite length_pad by lia).
  change (length (lit "ustar")) with 5%nat. cbn [length]. lia.
Qed.

(** The header cut at the fields the loader reads. *)
Lemma header_fields m :
  member_ok m ->
  exists a b c d e,
    header m = m_name m ++ 0 :: a /\
    (length (pad 100 (m_name m) ++ m_meta1 m) = 124%nat /\
     header m = (pad 100 (m_name m) ++ m_meta1 m) ++ octal 11 (Z.of_nat (length (m_data m))) ++ 0 :: b) /\
    (length c = 156%nat /\ header m = c ++ [m_type m] ++ d) /\
    (length (c ++ [m_type m] ++ m_meta3 m) = 257%nat /\
     header m = (c ++ [m_type m] ++ m_meta3 m) ++ (lit "ustar" ++ [0]) ++ e).
Proof.
  intros [[_ Hn] (H1 & H2 & H3 & H4) _]. unfold header.
  set (sz := octal 11 (Z.of_nat (length (m_data m)))).
  assert (length sz = 11%nat) as Hsz by apply length_octal.
  assert (length (pad 100 (m_name m)) = 100%nat) as Hp by (apply length_pad; lia).
  eexists _, _, (pad 100 (m_name m) ++ m_meta1 m ++ (sz ++ [0]) ++ m_meta2 m), _, _.
  split; [|split; [|split]].
  - unfold pad. replace (100 - length (m_name m))%nat with (S (99 - length (m_name m))) by lia.
    rewrite replicate_S, <- !app_assoc. cbn [app]. reflexivity.
  - split; [rewrite length_app; lia|]. rewrite <- !app_assoc. reflexivity.
  - split; [rewrite !length_app; cbn; lia|]. rewrite <- !app_assoc. reflexivity.
  - split; [rewrite !length_app; cbn; lia|]. rewrite <- !app_assoc. reflexivity.
Qed.

Lemma align_data m : member_ok m ->
  length (blocks (m_data m)) = Z.to_nat (align_up 512 (Z.of_nat (length (m_data m)))) /\
  Z.of_nat (length (m_data m)) <= align_up 512 (Z.of_nat (length (m_data m))) < 2 ^ 34.
Proof.
  intros [_ _ Hs]. destruct (align_up_spec 512 (Z.of_nat (length (m_data m)))) as [H _]; [lia..|].
  split; [|lia]. unfold blocks. apply length_pad. lia.
Qed.

(** One member: what the loader reads is what was put there. *)
Lemma load_member_install dir pre m post st :
  member_ok m ->
  let mem := pre ++ member_bytes m ++ post in
  let o := Z.of_nat (length pre) in
  bytes_at mem (o + magic_offset) 6 = Ret (lit "ustar" ++ [0]) /\
  octal_to_bin (drop (Z.to_nat (o + size_offset)) mem) 12 0 = Ret (Z.of_nat (length (m_data m))) /\
  load_member filesystem dir mem o (Z.of_nat (length (m_data m))) st = install dir m st.
Proof.
  intros Hok mem o. destruct (header_fields m Hok) as (a & b & c & d & e & Ea & [Lb Eb] & [Lc Ec] & [Le Ee]).
  pose proof (length_header m Hok) as Lh. unfold magic_offset, size_offset.
  assert (mem = pre ++ header m ++ (blocks (m_data m) ++ post)) as Em.
  { subst mem. unfold member_bytes. by rewrite <- !app_assoc. }
  split; [|split].
  - rewrite Em, Ee. rewrite <- !app_assoc. rewrite (app_assoc pre c), (app_assoc (pre ++ c)), (app_assoc ((pre ++ c) ++ _)).
    rewrite (app_assoc (lit "ustar")). apply bytes_at_app; [|done].
    rewrite <- !app_assoc, length_app, Le. lia.
  - rewrite Em, Eb. rewrite <- !app_assoc, (app_assoc pre), (app_assoc (pre ++ _)).
    assert (length ((pre ++ pad 100 (m_name m)) ++ m_meta1 m) = Z.to_nat (o + 124)) as <-.
    { rewrite <- app_assoc, length_app, Lb. lia. }
    rewrite drop_app_length. destruct Hok as [_ _ Hs].
    rewrite octal_to_bin_octal by lia. cbn [octal_to_bin app Z.eqb]. done.
  - unfold load_member, install, name_offset, typeflag_offset, string_at. rewrite Z.add_0_r.
    rewrite (proj2 (Z.leb_le _ _)) by lia. rewrite Em at 1. subst o. rewrite Nat2Z.id, drop_app_length.
    rewrite Ea, <- app_assoc. cbn [app]. destruct Hok as [[Hn Hn100] Hmeta Hs].
    rewrite c_string_spec by done. ored.
    rewrite (strcmp_zero (m_name m) (lit "./")) by done.
    destruct (negb (bool_decide (m_name m = lit "./"))); [|done].
    apply bind_ext; [done|]. intros r. destruct (negb (target r =? 0)); [done|].
    destruct (basename r) as [bn|]; [|done].
    assert (bytes_at mem (Z.of_nat (length pre) + 156) 1 = Ret [m_type m]) as ->.
    { rewrite Em, Ec, <- !app_assoc, (app_assoc pre c). apply bytes_at_app; [|done].
      rewrite length_app, Lc. lia. }
    ored. cbn [CString.deref List.hd]. apply bind_ext; [done|]. intros dn. apply bind_ext; [done|]. intros F.
    destruct ((m_type m =? 48) || (m_type m =? 0)); [|done].
    apply bind_ext; [done|]. intros [st' file]. apply bind_ext; [done|]. intros n.
    apply bind_ext; [done|]. intros G.
    assert (bytes_at mem (Z.of_nat (length pre) + 512) (Z.of_nat (length (m_data m))) = Ret (m_data m)) as ->; [|done].
    rewrite Em. unfold blocks, pad. rewrite <- !app_assoc, (app_assoc pre). apply bytes_at_app; [|done].
    rewrite length_app, Lh. lia.
Qed.

Lemma length_member m : member_ok m ->
  Z.of_nat (length (member_bytes m)) = 512 + align_up 512 (Z.of_nat (length (m_data m))).
Proof.
  intros Hok. destruct (align_data m Hok) as [Hl Ha]. unfold member_bytes.
  rewrite length_app, length_header, Hl by done. lia.
Qed.

Lemma load_loop_spec dir file_addr file_size ms : forall fuel pre st,
  Forall member_ok ms -> (length ms < fuel)%nat -> 0 <= file_addr ->
  let mem := pre ++ archive ms in
  file_size = Z.of_nat (length mem) -> file_addr + file_size < 2 ^ 64 ->
  load_loop filesystem fuel dir file_addr file_size mem (file_addr + Z.of_nat (length pre)) st
  = install_all dir ms st.
Proof.
  induction ms as [|m ms IH]; intros fuel pre st Hok Hf Haddr mem Hsize Hov;
    (destruct fuel as [|fuel]; [cbn in Hf; lia|]); cbn [load_loop install_all];
    replace (file_addr + Z.of_nat (length pre) - file_addr) with (Z.of_nat (length pre)) by lia.
  - assert (bytes_at mem (Z.of_nat (length pre) + magic_offset) 6 = Ret (replicate 6 0)) as ->.
    { subst mem. unfold archive, magic_offset. change (concat (member_bytes <$> [])) with (@nil Z). cbn [app].
      replace (replicate 1024 0) with (replicate 257 (0 : Z) ++ replicate 6 0 ++ replicate 761 0)
        by (by rewrite <- !replicate_add).
      rewrite app_assoc. apply bytes_at_app; [rewrite length_app, length_replicate; lia|by rewrite length_replicate]. }
    ored. done.
  - apply Forall_cons in Hok as [Hm Hok].
    assert (mem = pre ++ member_bytes m ++ archive ms) as Em.
    { subst mem. unfold archive. rewrite fmap_cons. cbn [concat]. by rewrite <- app_assoc. }
    destruct (load_member_install dir pre m (archive ms) st Hm) as (Hmagic & Hoct & Hload).
    rewrite <- Em in Hmagic, Hoct, Hload. rewrite Hmagic. ored. rewrite memcmp_refl. cbn [Z.eqb negb].
    rewrite (proj2 (Z.leb_le 0 _)) by (unfold size_offset; lia). ored. rewrite Hoct. ored. rewrite Hload.
    apply bind_ext; [done|]. intros st'. pose proof (length_member m Hm) as Hl.
    destruct (align_data m Hm) as [_ Ha].
    assert (file_size = Z.of_nat (length pre) + Z.of_nat (length (member_bytes m)) + Z.of_nat (length (archive ms))) as Efs.
    { rewrite Hsize, Em, !length_app. lia. }
    assert (1024 <= Z.of_nat (length (archive ms))) as Hend.
    { unfold archive. rewrite length_app, length_replicate. lia. }
    rewrite !wrap_small by lia. rewrite (proj2 (Z.leb_gt _ _)) by lia.
    specialize (IH fuel (pre ++ member_bytes m) st' Hok ltac:(cbn in Hf; lia) Haddr). cbv zeta in IH.
    rewrite <- app_assoc, <- Em in IH. rewrite <- IH by done. f_equal. rewrite length_app. lia.
Qed.

(** Loading an archive is installing its members in order: every name, type
    and content is read as it was stored, whatever the other header fields and
    the padding hold, the trailer ends the loop, and the loop always ends. *)
Theorem load_archive dir file_addr ms st :
  Forall member_ok ms -> 0 <= file_addr ->
  file_addr + Z.of_nat (length (archive ms)) < 2 ^ 64 ->
  load_into filesystem dir file_addr (Z.of_nat (length (archive ms))) (archive ms) st = install_all dir ms st.
Proof.
  intros Hok Haddr Hov. unfold load_into.
  assert (Z.of_nat (length ms) * 512 + 1024 <= Z.of_nat (length (archive ms))) as Hl.
  { clear Hov. induction Hok as [|m ms Hm Hok IH]; [unfold archive; cbn; lia|].
    unfold archive in *. rewrite fmap_cons. cbn [concat]. rewrite <- app_assoc, length_app.
    pose proof (length_member m Hm). destruct (align_data m Hm) as [_ ?]. cbn [length]. lia. }
  replace file_addr with (file_addr + Z.of_nat (length (@nil Z))) at 2 by (cbn; lia).
  apply (load_loop_spec dir file_addr _ ms _ []); [done| |done|done|done].
  assert (Z.of_nat (length ms) <= Z.of_nat (length (archive ms)) / 512) by (apply Z.div_le_lower_bound; lia). lia.
Qed.

End install.

(** ** A concrete archive: [./], [./etc/] and [./etc/motd] *)
Definition small_member (name : string) (type : Z) (data : list Z) : member :=
  mkMember (lit name) (replicate 24 48) (replicate 20 32) type (replicate 100 0) (replicate 249 7) data.
Definition small : list member :=
  [small_member "./" 53 []; small_member "./etc/" 53 []; small_member "./etc/motd" 48 (lit "hello")].

Lemma small_ok : Forall member_ok small.
Proof. repeat constructor. Qed.

Definition loaded : outcome (vfs NodeData) :=
  load_into (filesystems zero 99) 1 4096 (Z.of_nat (length (archive small))) (archive small) tree0.

Lemma load_archive_witness :
  Forall member_ok small /\
  load_into (filesystems zero 99) 1 4096 (Z.of_nat (length (archive small))) (archive small) tree0
  = install_all (filesystems zero 99) 1 small tree0.
Proof.
  split; [exact small_ok|].
  refine (load_archive (filesystems zero 99) 1 4096 small tree0 small_ok _ _); [lia|].
  apply Z.ltb_lt. vm_compute. reflexivity.
Defined.

(** Loading it makes the tree the names say. *)
Example small_loads :
  match loaded with
  | Ret st => match walk st (root st) [lit "etc"; lit "motd"] with Some p => file_contents st p | None => None end
  | _ => None
  end = Some (Some <$> lit "hello").
Proof. vm_compute. reflexivity. Qed.

(** A member whose directory is not there is created under the directory's name. *)
Example member_of_a_missing_directory :
  match load_into (filesystems zero 99) 1 4096 (Z.of_nat (length (archive [small_member "./etc/motd" 48 (lit "hello")])))
    (archive [small_member "./etc/motd" 48 (lit "hello")]) tree0 with
  | Ret st => match walk st (root st) [lit "etc"] with Some p => file_contents st p | None => None end
  | _ => None
  end = Some (Some <$> lit "hello").
Proof. vm_compute. reflexivity. Qed.

(** [octal_to_bin] looks at the character after the [len]th. *)
Example octal_to_bin_reads_on : octal_to_bin (replicate 12 48) 12 0 = Fault.
Proof. reflexivity. Qed.
