(* ===== verification/Archive.v ===== *)
(** * What unpacking an archive means: fs/initramfs.cpp on tmpfs

    An archive describes a tree of directories and files; [unpacked] says which,
    member by member.  Loading it into a new file system makes exactly that
    tree: every path of the description leads to its directory or to a file with
    its bytes, and no other path leads anywhere. *)
From S2P Require Import Prelude CString HashMap Vector Keyboard Printf Vfs Descriptors Tmpfs Tree Mkfs Initramfs.

Inductive item := Dir | File (bytes : list Z).

(** Paths from the root, as their components. *)
Abbreviation layout := (gmap (list cstring) item).

Definition dot : cstring := lit ".".

(** A name a member may have: no link a directory has by itself. *)
Definition plain (nm : cstring) : bool :=
  good_name nm && negb (bool_decide (nm = dot)) && negb (bool_decide (nm = lit "..")).

(** The member [m] describes [it] at [path]; its name starts with [./] and may
    end with a slash. *)
Definition describes (m : member) (path : list cstring) (it : item) : Prop :=
  (exists trail : bool, m_name m = join (dot :: path) ++ if trail then [47] else []) /\
  match it with
  | Dir => m_type m = 53
  | File bytes => (m_type m = 48 \/ m_type m = 0) /\ m_data m = bytes
  end.

(** The members make [T'] of [T]: each names something new in a directory that
    is there. *)
Inductive unpacked (T : layout) : list member -> layout -> Prop :=
| unpacked_nil : unpacked T [] T
| unpacked_root m ms T' : m_name m = lit "./" -> unpacked T ms T' -> unpacked T (m :: ms) T'
| unpacked_member m ms path nm it T' :
    describes m (path ++ [nm]) it -> plain nm = true ->
    T !! path = Some Dir -> T !! (path ++ [nm]) = None ->
    unpacked (<[path ++ [nm] := it]> T) ms T' -> unpacked T (m :: ms) T'.

Section archive.
Context (junk : Z -> Z) (junk_zero : forall p, junk p = 0) (root_fs : Z).
Implicit Types (st : vfs NodeData) (p q d : Z) (nm : cstring) (path : list cstring) (T : layout).
Abbreviation fss := (filesystems junk root_fs).

(** The file system of the node is tmpfs. *)
Definition served st p : Prop := exists n, nodes st !! p = Some n /\ fs n = root_fs.

Definition holds st p (it : item) : Prop :=
  match it with
  | Dir => is_dir st p
  | File bytes => file_contents st p = Some (Some <$> bytes) /\ served st p
  end.

(** The tree of [st] is [T], as far as plain names lead. *)
Record represents (k : Z) T st : Prop := {
  rp_wf : wf st;
  rp_root : root_ok st;
  rp_small : Mkfs.small k st;
  rp_dot : walk st (root st) [dot] = Some (root st);
  rp_fs : exists n, nodes st !! root st = Some n /\ type n = DIRECTORY /\ fs n = root_fs;
  rp_top : T !! [] = Some Dir;
  rp_path path it : T !! path = Some it -> forallb plain path = true /\ exists p, walk st (root st) path = Some p /\ holds st p it;
  rp_apart path path' p it it' : T !! path = Some it -> T !! path' = Some it' ->
    walk st (root st) path = Some p -> walk st (root st) path' = Some p -> path = path';
  rp_no_more path p nm : T !! path = Some Dir -> walk st (root st) path = Some p -> plain nm = true ->
    T !! (path ++ [nm]) = None -> entry st p nm = None }.

Lemma plain_good nm : plain nm = true -> good_name nm = true /\ nm <> dot /\ nm <> lit "..".
Proof.
  unfold plain. intros [[H1 H2]%andb_true_iff H3]%andb_true_iff.
  apply negb_true_iff, bool_decide_eq_false in H2, H3. done.
Qed.

Lemma plain_goods path : forallb plain path = true -> forallb good_name path = true.
Proof.
  induction path as [|nm path IH]; [done|]. cbn [forallb]. intros [H1 H2]%andb_true_iff.
  apply plain_good in H1 as [-> _]. by apply IH.
Qed.

(** ** Walks *)
Lemma walk_exists st comps : forall d p, wf st -> is_Some (nodes st !! d) -> walk st d comps = Some p -> is_Some (nodes st !! p).
Proof.
  induction comps as [|c cs IH]; intros d p Hwf Hd; cbn [walk]; [by intros [= <-]|].
  destruct (entry st d c) as [q|] eqn:E; cbn; [|done]. intros Hw. apply (IH _ _ Hwf) with (2 := Hw).
  destruct (entry_exists st d c q Hwf E) as [m Hm]. destruct (target_exists st q m Hwf Hm) as (m' & ? & _). by exists m'.
Qed.

Lemma walk_adds st st' d0 nm0 p0 comps :
  wf st -> adds st st' d0 nm0 p0 ->
  forall d p, is_Some (nodes st !! d) -> walk st d comps = Some p -> walk st' d comps = Some p.
Proof.
  intros Hwf (Hno & _ & _ & Hent & Htgt). induction comps as [|c cs IH]; intros d p Hd; cbn [walk]; [done|].
  destruct (entry st d c) as [q|] eqn:E; cbn; [|done]. intros Hw.
  assert ((d, c) <> (d0, nm0)) as Hne by (intros [= -> ->]; congruence).
  destruct (entry_exists st d c q Hwf E) as [m Hm]. destruct (target_exists st q m Hwf Hm) as (m' & Hm' & _).
  rewrite Hent, E by done. cbn. rewrite Htgt by (by exists m). apply IH; [by exists m'|done].
Qed.

(** The last component is missing: the result names the parent. *)
Lemma resolve_missing st nm q : forall path d,
  is_dir st q -> walk st d path = Some q -> entry st q nm = None ->
  resolve st d (path ++ [nm]) = mkPathToNodeResult q 0 (Some nm).
Proof.
  induction path as [|c cs IH]; intros d (n & Hn & Ht) Hw Hno; cbn [walk app resolve] in *.
  - injection Hw as ->. by rewrite Hn, bool_decide_true, Hno.
  - destruct (entry st d c) as [x|] eqn:E; cbn in Hw; [|done]. unfold entry in E.
    destruct (nodes st !! d) as [nd|] eqn:Ed; [|done]. case_bool_decide as Hdir; [|done].
    assert (resolve st (target_of st x) (cs ++ [nm]) = mkPathToNodeResult q 0 (Some nm)) as <-
      by (apply IH; [by exists n|done..]).
    by destruct cs.
Qed.

(** ** A new entry

    What [create] promises, whatever it creates: an entry [nm] in [q] that leads
    to the new node [p], of which [it] holds. *)
Record creates st st' q nm p (it : item) : Prop := {
  cr_wf : wf st';
  cr_adds : adds st st' q nm p;
  cr_target : target_of st' p = p;
  cr_carries : carries st st';
  cr_holds : holds st' p it;
  cr_empty nm' : it = Dir -> plain nm' = true -> entry st' p nm' = None }.

Lemma holds_carries st st' p it : carries st st' -> holds st p it -> holds st' p it.
Proof.
  intros Hc. destruct it as [|bs]; cbn.
  2: { intros [Hcont (n & Hn & Ef)]. split; [by apply (carries_contents st)|].
       destruct (ca_nodes _ _ Hc p n Hn) as (n' & Hn' & _ & _ & _ & Ef' & _). exists n'. split; congruence. }
  intros (n & Hn & Ht). destruct (ca_nodes _ _ Hc p n Hn) as (n' & Hn' & Et & _). exists n'. split; congruence.
Qed.

Lemma path_snoc_inj {A} (path path' : list A) (x y : A) : path ++ [x] = path' ++ [y] -> path = path' /\ x = y.
Proof. by intros [? ?]%app_inj_tail. Qed.

Section new_entry.
Context (k : Z) (T : layout) st st' (path : list cstring) q nm p (it : item).
Context (Hk : 0 <= k) (Hr : represents k T st) (Hq : T !! path = Some Dir) (Hw : walk st (root st) path = Some q).
Context (Hnm : plain nm = true) (Hfree : T !! (path ++ [nm]) = None) (Hc : creates st st' q nm p it).

Lemma root_node : is_Some (nodes st !! root st).
Proof. destruct (rp_root _ _ _ Hr) as (n & Hn & _). by exists n. Qed.

Lemma old_walk comps x : walk st (root st) comps = Some x -> walk st' (root st') comps = Some x.
Proof.
  rewrite (ca_root _ _ (cr_carries _ _ _ _ _ _ Hc)).
  apply (walk_adds _ _ _ _ _ comps (rp_wf _ _ _ Hr) (cr_adds _ _ _ _ _ _ Hc)), root_node.
Qed.

Lemma new_walk : walk st' (root st') (path ++ [nm]) = Some p.
Proof.
  rewrite walk_snoc, (old_walk _ _ Hw). cbn. destruct (cr_adds _ _ _ _ _ _ Hc) as (_ & -> & _). cbn.
  by rewrite (cr_target _ _ _ _ _ _ Hc).
Qed.

(** Where an old path leads in the new tree is where it led. *)
Lemma walk_back path' it' x : T !! path' = Some it' -> walk st' (root st') path' = Some x ->
  walk st (root st) path' = Some x /\ is_Some (nodes st !! x) /\ x <> p.
Proof.
  intros HT Hx. destruct (rp_path _ _ _ Hr path' it' HT) as (_ & y & Hy & _).
  pose proof (old_walk _ _ Hy) as Hy'. rewrite Hx in Hy'. injection Hy' as <-.
  pose proof (walk_exists st path' _ _ (rp_wf _ _ _ Hr) root_node Hy) as Hex. split; [done|]. split; [done|].
  intros ->. destruct (cr_adds _ _ _ _ _ _ Hc) as (_ & _ & Hno & _). rewrite Hno in Hex. by destruct Hex.
Qed.

Lemma represents_more : represents (k + 2) (<[path ++ [nm] := it]> T) st'.
Proof.
  pose proof (cr_carries _ _ _ _ _ _ Hc) as Hca. destruct (cr_adds _ _ _ _ _ _ Hc) as (_ & _ & Hno & Hent & _).
  split.
  - apply Hc.
  - by apply (carries_root st), Hr.
  - by apply (ca_small _ _ Hca), Hr.
  - rewrite (old_walk _ _ (rp_dot _ _ _ Hr)). by rewrite (ca_root _ _ Hca).
  - destruct (rp_fs _ _ _ Hr) as (n & Hn & Ht & Hf). destruct (ca_nodes _ _ Hca _ n Hn) as (n' & Hn' & Et & _ & _ & Ef & _).
    exists n'. rewrite (ca_root _ _ Hca). split; [done|]. split; congruence.
  - rewrite lookup_insert_ne; [apply Hr|]. by destruct path.
  - intros path' it' HT. destruct (decide (path' = path ++ [nm])) as [->|Hne].
    + rewrite lookup_insert_eq in HT. injection HT as <-. split; [|exists p; split; [exact new_walk|apply Hc]].
      rewrite forallb_app. cbn [forallb]. rewrite Hnm. by rewrite (proj1 (rp_path _ _ _ Hr _ _ Hq)).
    + rewrite lookup_insert_ne in HT by done. destruct (rp_path _ _ _ Hr _ _ HT) as (Hp & x & Hx & Hh).
      split; [done|]. exists x. split; [by apply old_walk|by apply (holds_carries st)].
  - intros p1 p2 x i1 i2 H1 H2 W1 W2.
    destruct (decide (p1 = path ++ [nm])) as [->|N1], (decide (p2 = path ++ [nm])) as [->|N2]; [done| | |].
    + rewrite lookup_insert_ne in H2 by done. rewrite new_walk in W1. injection W1 as <-.
      by destruct (walk_back _ _ _ H2 W2) as (_ & _ & ?).
    + rewrite lookup_insert_ne in H1 by done. rewrite new_walk in W2. injection W2 as <-.
      by destruct (walk_back _ _ _ H1 W1) as (_ & _ & ?).
    + rewrite lookup_insert_ne in H1, H2 by done. destruct (walk_back _ _ _ H1 W1) as (V1 & _), (walk_back _ _ _ H2 W2) as (V2 & _).
      by apply (rp_apart _ _ _ Hr p1 p2 x i1 i2).
  - intros path' x nm' HT Hx Hnm' HT'. destruct (decide (path' = path ++ [nm])) as [->|Hne].
    + rewrite new_walk in Hx. injection Hx as <-. rewrite lookup_insert_eq in HT. injection HT as ->.
      by apply (cr_empty _ _ _ _ _ _ Hc).
    + rewrite lookup_insert_ne in HT by done. destruct (walk_back _ _ _ HT Hx) as (Hx' & Hex & _).
      assert (path ++ [nm] <> path' ++ [nm']) as Hne2 by (intros E; rewrite E, lookup_insert_eq in HT'; done).
      rewrite lookup_insert_ne in HT' by done. rewrite Hent; [by apply (rp_no_more _ _ _ Hr path' x nm')|done|].
      intros [= -> ->]. apply Hne2. by rewrite (rp_apart _ _ _ Hr path path' q Dir Dir Hq HT Hw Hx').
Qed.
End new_entry.

(** A directory of the layout, as [create] finds it. *)
Lemma directory_at k T st path q :
  represents k T st -> 0 <= k < 2 ^ 40 -> T !! path = Some Dir -> walk st (root st) path = Some q ->
  exists n h, nodes st !! q = Some n /\ type n = DIRECTORY /\ children n = Some h /\ HashMap.m_capacity h < 2 ^ 47.
Proof.
  intros Hr Hk HT Hw. destruct (rp_path _ _ _ Hr path Dir HT) as (_ & x & Hx & (n & Hn & Ht)).
  assert (x = q) as -> by congruence. pose proof (wf_nodes _ (rp_wf _ _ _ Hr) _ _ Hn) as Hok. unfold node_ok in Hok. rewrite Ht in Hok.
  destruct Hok as (_ & h & Hh & _). exists n, h. split_and!; try done.
  destruct (rp_small _ _ _ Hr q n h Hn Hh). lia.
Qed.

Lemma creates_directory k T st fsp path q nm :
  represents k T st -> 0 <= k < 2 ^ 40 -> T !! path = Some Dir -> walk st (root st) path = Some q ->
  plain nm = true -> T !! (path ++ [nm]) = None ->
  exists st' p, create junk fsp q nm DIRECTORY st = Ret (st', p) /\ creates st st' q nm p Dir.
Proof.
  intros Hr Hk HT Hw Hnm Hfree. destruct (directory_at k T st path q Hr Hk HT Hw) as (n & h & Hn & Ht & Hh & Hcap).
  destruct (plain_good nm Hnm) as (Hgood & _).
  destruct (create_directory_spec junk junk_zero st fsp q nm n h (rp_wf _ _ _ Hr) Hn Ht Hh Hcap Hgood)
    as (st' & p & E & Hwf & Hadds & Htgt & _ & _ & Hempty & _ & Hca & n' & Hn' & Ht' & _).
  { by apply (rp_no_more _ _ _ Hr path). }
  exists st', p. split; [done|]. split; try done; [by exists n'|]. intros nm' _ Hnm'.
  destruct (plain_good nm' Hnm') as (_ & ? & ?). by apply Hempty.
Qed.

Lemma creates_file k T st path q nm :
  represents k T st -> 0 <= k < 2 ^ 40 -> T !! path = Some Dir -> walk st (root st) path = Some q ->
  plain nm = true -> T !! (path ++ [nm]) = None ->
  exists st' p, create junk root_fs q nm FILE st = Ret (st', p) /\ creates st st' q nm p (File []).
Proof.
  intros Hr Hk HT Hw Hnm Hfree. destruct (directory_at k T st path q Hr Hk HT Hw) as (n & h & Hn & Ht & Hh & Hcap).
  destruct (plain_good nm Hnm) as (Hgood & _).
  destruct (create_file_spec junk junk_zero st root_fs q nm n h (rp_wf _ _ _ Hr) Hn Ht Hh Hcap Hgood)
    as (st' & p & E & Hwf & Hadds & Htgt & Hcont & Hca & n' & Hn' & Hf').
  { by apply (rp_no_more _ _ _ Hr path). }
  exists st', p. split; [done|]. split; try done. split; [done|by exists n'].
Qed.

(** ** Writing a file *)
Lemma write_node st p bytes o st' n :
  Tmpfs.write p bytes o st = Ret st' -> nodes st !! p = Some n -> type n = FILE ->
  exists nd, st' = set_node p (mkNode (type n) (fs n) (Some nd) (redirect n) (parent n) (name n) (children n)) st.
Proof.
  unfold Tmpfs.write, Vfs.deref. intros Hw Hn Ht. rewrite Hn in Hw. revert Hw. ored.
  rewrite bool_decide_false by (by rewrite Ht; intros ?). intros (nd & _ & Hw)%bind_Ret.
  apply bind_Ret in Hw as (nd' & _ & Hw). apply bind_Ret in Hw as (cells & _ & Hw). unfold set_data, Vfs.deref in Hw. rewrite Hn in Hw.
  injection Hw as <-. by eexists.
Qed.

Lemma walk_same st st' comps : forall d,
  (forall d c, entry st' d c = entry st d c) -> (forall q, target_of st' q = target_of st q) ->
  walk st' d comps = walk st d comps.
Proof.
  induction comps as [|c cs IH]; intros d He Ht; [done|]. cbn [walk]. rewrite He.
  destruct (entry st d c) as [q|]; cbn; [|done]. rewrite Ht. by apply IH.
Qed.

Lemma write_represents k T st path p bytes :
  represents k T st -> T !! path = Some (File []) -> walk st (root st) path = Some p -> Z.of_nat (length bytes) < 2 ^ 64 ->
  exists st', Tmpfs.write p bytes 0 st = Ret st' /\ represents k (<[path := File bytes]> T) st'.
Proof.
  intros Hr HT Hw Hlen. destruct (rp_path _ _ _ Hr _ _ HT) as (Hpl & x & Hx & Hcont).
  assert (x = p) as -> by congruence. destruct Hcont as [Hcont (n & Hn & Hfs)].
  destruct (write_file st p [] bytes 0 Hcont ltac:(lia) ltac:(lia) eq_refl) as (st' & E & Hcont' & Hother & Hothers & _).
  exists st'. split; [done|]. pose proof Hcont as (m0 & Hm0 & Ht & Hd)%file_contents_Some. rewrite Hn in Hm0. injection Hm0 as <-.
  destruct (write_node _ _ _ _ _ _ E Hn Ht) as (nd & ->). set (n' := mkNode _ _ _ _ _ _ _) in *.
  pose proof (wf_nodes _ (rp_wf _ _ _ Hr) _ _ Hn) as Hok. unfold node_ok in Hok. rewrite Ht in Hok.
  destruct (set_node_wf st p n n' (rp_wf _ _ _ Hr) Hn eq_refl eq_refl eq_refl) as [Hwf Hg].
  { unfold node_ok. cbn. by rewrite Ht. }
  set (st' := set_node p n' st) in *.
  assert (nodes st' !! p = Some n') as Hn' by apply lookup_insert_eq.
  assert (forall q c, entry st' q c = entry st q c) as Hent.
  { intros q c. unfold entry. destruct (decide (q = p)) as [->|Hne]; [|by rewrite Hother].
    rewrite Hn', Hn. cbn. by rewrite Ht. }
  assert (forall q, target_of st' q = target_of st q) as Htgt.
  { intros q. unfold target_of. destruct (decide (q = p)) as [->|Hne]; [by rewrite Hn', Hn|by rewrite Hother]. }
  assert (forall r comps, walk st' r comps = walk st r comps) as Hwalk by (intros; by apply walk_same).
  split.
  - done.
  - by apply (grown_root st), Hr.
  - intros q m h Hq Hm. destruct (decide (q = p)) as [->|Hne].
    + assert (m = n') as -> by congruence. by apply (rp_small _ _ _ Hr p n).
    + rewrite Hother in Hq by done. by apply (rp_small _ _ _ Hr q m).
  - rewrite Hwalk. apply Hr.
  - destruct (rp_fs _ _ _ Hr) as (m & Hm & Hmt & Hmf). exists m. split; [|done]. change (root st') with (root st).
    rewrite Hother; [done|]. intros E'. rewrite E' in Hm. congruence.
  - rewrite lookup_insert_ne; [apply Hr|]. intros ->. rewrite (rp_top _ _ _ Hr) in HT. done.
  - intros path' it' HT'. destruct (decide (path' = path)) as [->|Hne].
    + rewrite lookup_insert_eq in HT'. injection HT' as <-. split; [done|]. exists p. rewrite Hwalk. split; [done|].
      split; [|by exists n']. rewrite Hcont'. f_equal. unfold splice. rewrite take_nil, drop_nil. cbn. by rewrite app_nil_r.
    + rewrite lookup_insert_ne in HT' by done. destruct (rp_path _ _ _ Hr _ _ HT') as (Hp & y & Hy & Hh).
      split; [done|]. exists y. rewrite Hwalk. split; [done|].
      assert (y <> p) as Hyp by (intros ->; apply Hne; by apply (rp_apart _ _ _ Hr _ _ p it' (File [])) with (3 := Hy)).
      destruct it' as [|bs]; [destruct Hh as (m & Hm & Hmt)|destruct Hh as [Hc (m & Hm & Hmt)]; split; [by rewrite Hothers|]];
        exists m; by rewrite Hother.
  - intros p1 p2 y i1 i2 H1 H2. rewrite !Hwalk.
    assert (forall (r : list cstring) i, <[path:=File bytes]> T !! r = Some i -> exists i', T !! r = Some i') as Hback.
    { intros r i Hq. destruct (decide (r = path)) as [->|Hne]; [by eexists|rewrite lookup_insert_ne in Hq by done; by eexists]. }
    destruct (Hback _ _ H1) as [i1' H1'], (Hback _ _ H2) as [i2' H2']. by apply (rp_apart _ _ _ Hr p1 p2 y i1' i2').
  - intros path' y nm HT' Hy Hnm Hno. rewrite Hent. rewrite Hwalk in Hy.
    assert (path' <> path) as Hne by (intros ->; rewrite lookup_insert_eq in HT'; done).
    assert (path' ++ [nm] <> path) as Hne2 by (intros <-; rewrite lookup_insert_eq in Hno; done).
    rewrite lookup_insert_ne in HT', Hno by done. by apply (rp_no_more _ _ _ Hr path').
Qed.

(** ** Members *)

(** The path of a member leads to its parent, where the name is missing. *)
Lemma member_path k T st m path nm it q :
  represents k T st -> describes m (path ++ [nm]) it -> T !! path = Some Dir -> walk st (root st) path = Some q ->
  plain nm = true -> T !! (path ++ [nm]) = None ->
  m_name m <> lit "./" /\ path_to_node st (m_name m) (root st) = Ret (mkPathToNodeResult q 0 (Some nm)).
Proof.
  intros Hr [[trail Em] _] HT Hw Hnm Hfree. destruct (plain_good nm Hnm) as (Hgood & _).
  destruct (rp_path _ _ _ Hr path Dir HT) as (Hpl & x & Hx & Hdir). assert (x = q) as -> by congruence.
  assert (forallb good_name (dot :: path ++ [nm]) = true) as Hg.
  { change (good_name dot && forallb good_name (path ++ [nm]) = true). rewrite forallb_app, (plain_goods path Hpl). cbn. by rewrite Hgood. }
  destruct (path_to_node_spec st (dot :: path ++ [nm]) trail (rp_wf _ _ _ Hr) (rp_root _ _ _ Hr) Hg ltac:(done)) as (Hp & _).
  split.
  - rewrite Em. assert (0 < length (join (path ++ [nm])))%nat as Hl.
    { pose proof (plain_goods path Hpl) as Hgs. destruct path as [|c cs]; cbn [app]; [by apply join_pos|].
      cbn in Hgs. apply andb_true_iff in Hgs as [Hc _]. by apply join_pos. }
    destruct (path ++ [nm]) as [|c cs] eqn:Ep; [by destruct path|].
    change (join (dot :: c :: cs)) with (46 :: 47 :: join (c :: cs)). destruct (join (c :: cs)) as [|b bs]; [cbn in Hl; lia|]. done.
  - rewrite Em. rewrite Hp by (destruct (rp_root _ _ _ Hr) as (n & Hn & _); by exists n). f_equal.
    apply (resolve_missing st nm q (dot :: path) (root st)).
    + exact Hdir.
    + pose proof (rp_dot _ _ _ Hr) as Hdot. cbn [walk] in *. destruct (entry st (root st) dot) as [y|]; [|done].
      cbn in *. by injection Hdot as ->.
    + by apply (rp_no_more _ _ _ Hr path).
Qed.

Lemma installs k T st m path nm it :
  represents k T st -> 0 <= k < 2 ^ 40 -> member_ok m -> describes m (path ++ [nm]) it -> plain nm = true ->
  T !! path = Some Dir -> T !! (path ++ [nm]) = None ->
  exists st', install fss (root st) m st = Ret st' /\ root st' = root st /\ represents (k + 2) (<[path ++ [nm] := it]> T) st'.
Proof.
  intros Hr Hk Hok Hm Hnm HT Hfree. destruct (rp_path _ _ _ Hr path Dir HT) as (_ & q & Hw & _).
  destruct (member_path k T st m path nm it q Hr Hm HT Hw Hnm Hfree) as [Hne Hp].
  destruct (rp_fs _ _ _ Hr) as (rn & Hrn & _ & Hrf).
  assert (filesystems junk root_fs root_fs = Some (instantiate junk)) as Hfs by (unfold filesystems; by rewrite Z.eqb_refl).
  unfold install. rewrite bool_decide_false by done. cbn [negb]. rewrite Hp. ored. cbn [target basename target_parent Z.eqb negb].
  assert (Vfs.deref st (root st) = Ret rn) as -> by (unfold Vfs.deref; by rewrite Hrn). ored. rewrite Hrf, Hfs. ored. cbn [Vfs.create instantiate].
  destruct Hm as [_ Hit]. destruct it as [|bytes].
  - rewrite Hit. cbn [Z.eqb orb Pos.eqb]. destruct (creates_directory k T st root_fs path q nm Hr Hk HT Hw Hnm Hfree) as (st' & p & -> & Hc).
    ored. exists st'. split; [done|]. split; [apply (ca_root _ _ (cr_carries _ _ _ _ _ _ Hc))|]. apply (represents_more k T st st' path q nm p); (done || lia).
  - destruct Hit as [Htype Hdata]. assert ((m_type m =? 48) || (m_type m =? 0) = true) as -> by (destruct Htype as [-> | ->]; done).
    destruct (creates_file k T st path q nm Hr Hk HT Hw Hnm Hfree) as (st' & p & -> & Hc).
    destruct (cr_holds _ _ _ _ _ _ Hc) as [Hcont (n' & Hn' & Hf')].
    ored. assert (Vfs.deref st' p = Ret n') as -> by (unfold Vfs.deref; by rewrite Hn'). ored. rewrite Hf', Hfs. ored. cbn [Vfs.write instantiate].
    pose proof (represents_more k T st st' path q nm p (File []) ltac:(lia) Hr HT Hw Hnm Hfree Hc) as Hr'.
    pose proof (new_walk k T st st' path q nm p (File []) Hr Hw Hc) as Hw'.
    destruct (write_represents (k + 2) _ st' (path ++ [nm]) p (m_data m) Hr') as (st2 & Ew & Hr2); [apply lookup_insert_eq|done| |].
    { destruct Hok. assert (8 ^ 11 < 2 ^ 64) by done. lia. }
    rewrite Ew. exists st2. rewrite insert_insert_eq, Hdata in Hr2. split; [done|]. split; [|done].
    destruct (write_node _ _ _ _ _ _ Ew Hn') as (nd & ->).
    { pose proof Hcont as (n2 & Hn2 & Ht2 & _)%file_contents_Some. congruence. }
    apply (ca_root _ _ (cr_carries _ _ _ _ _ _ Hc)).
Qed.

Lemma installs_all ms : forall k T T' st,
  represents k T st -> 0 <= k -> k + 2 * Z.of_nat (length ms) < 2 ^ 40 -> Forall member_ok ms -> unpacked T ms T' ->
  exists k' st', install_all fss (root st) ms st = Ret st' /\ root st' = root st /\ represents k' T' st'.
Proof.
  induction ms as [|m ms IH]; intros k T T' st Hr Hk Hlen Hok Hu.
  - inversion Hu; subst. by exists k, st.
  - apply Forall_cons in Hok as [Hm Hok]. cbn [length] in Hlen. cbn [install_all].
    inversion Hu as [|? ? ? Hname Hu1|? ? path nm it ? Hd Hnm HT Hfree Hu1]; subst.
    + unfold install at 1. rewrite Hname, bool_decide_true by done. cbn [negb]. ored. apply (IH k T); (done || lia).
    + destruct (installs k T st m path nm it Hr ltac:(lia) Hm Hd Hnm HT Hfree) as (st1 & -> & Er & Hr1). ored.
      rewrite <- Er. apply (IH (k + 2) _ T' st1 Hr1); (done || lia).
Qed.

Lemma starts_empty a : 0 < a ->
  exists st, Tmpfs.init junk root_fs a = Ret st /\ represents 2 {[ [] := Dir ]} st.
Proof.
  intros Ha. destruct (init_root_spec junk junk_zero root_fs a Ha) as (st & E & Hwf & Hroot & Hdot & _ & Hempty & Hsm & n & Hn & Ht & Hf).
  exists st. split; [done|]. split; try done.
  - by exists n.
  - intros path it [<- <-]%lookup_singleton_Some. split; [done|]. exists (root st). split; [done|]. by exists n.
  - intros p1 p2 p i1 i2 [<- _]%lookup_singleton_Some [<- _]%lookup_singleton_Some. done.
  - intros path p nm [<- _]%lookup_singleton_Some [= <-] Hnm _. destruct (plain_good nm Hnm) as (_ & ? & ?). by apply Hempty.
Qed.

(** Nothing is at a path the layout does not have. *)
Lemma no_path k T st path :
  represents k T st -> forallb plain path = true -> T !! path = None -> walk st (root st) path = None.
Proof.
  intros Hr. induction path as [|nm path IH] using rev_ind; intros Hp HT; [by rewrite (rp_top _ _ _ Hr) in HT|].
  rewrite forallb_app in Hp. cbn in Hp. apply andb_true_iff in Hp as [Hp [Hnm _]%andb_true_iff]. rewrite walk_snoc.
  destruct (T !! path) as [[|bs]|] eqn:E.
  - destruct (rp_path _ _ _ Hr _ _ E) as (_ & p & Hw & _). rewrite Hw. cbn. by rewrite (rp_no_more _ _ _ Hr path p nm).
  - destruct (rp_path _ _ _ Hr _ _ E) as (_ & p & Hw & [(n & Hn & Ht & _)%file_contents_Some _]). rewrite Hw. cbn.
    unfold entry. by rewrite Hn, bool_decide_false by (by rewrite Ht; intros ?).
  - by rewrite IH.
Qed.

(** The whole archive. *)
Lemma load_represents a file_addr ms T :
  0 < a -> 0 <= file_addr -> file_addr + Z.of_nat (length (archive ms)) < 2 ^ 64 ->
  Forall member_ok ms -> Z.of_nat (length ms) < 2 ^ 38 -> unpacked {[ [] := Dir ]} ms T ->
  exists st0 st k, Tmpfs.init junk root_fs a = Ret st0 /\
    load_into fss (root st0) file_addr (Z.of_nat (length (archive ms))) (archive ms) st0 = Ret st /\ represents k T st.
Proof.
  intros Ha Haddr Hov Hok Hlen Hu. destruct (starts_empty a Ha) as (st0 & E0 & Hr0).
  destruct (installs_all ms 2 _ T st0 Hr0 ltac:(lia) ltac:(lia) Hok Hu) as (k & st & E & _ & Hr).
  exists st0, st, k. split; [done|]. split; [by rewrite load_archive|done].
Qed.

(** C27. The files the boot loader hands over are the files the system has, as
    long as the memory [new] gives for nodes reads zero ([junk_zero]: the
    constructor of [Node] leaves [redirect] unset, and on other memory the tree
    is wrong, example [fresh_nodes_may_be_links] of file Mkfs).  A new file
    system into which a well-formed archive is loaded, no member of which lies in
    a directory the archive has not made before it, is a well-formed tree in
    which every path the archive describes leads to its directory or to a file
    with exactly its bytes, and any other path leads nowhere. *)
Theorem archive_becomes_the_tree a file_addr ms T :
  0 < a -> 0 <= file_addr -> file_addr + Z.of_nat (length (archive ms)) < 2 ^ 64 ->
  Forall member_ok ms -> Z.of_nat (length ms) < 2 ^ 38 -> unpacked {[ [] := Dir ]} ms T ->
  exists st0 st, Tmpfs.init junk root_fs a = Ret st0 /\
    load_into fss (root st0) file_addr (Z.of_nat (length (archive ms))) (archive ms) st0 = Ret st /\ wf st /\
    forall path, forallb plain path = true ->
      match T !! path with
      | Some it => exists p, walk st (root st) path = Some p /\ holds st p it
      | None => walk st (root st) path = None
      end.
Proof.
  intros Ha Haddr Hov Hok Hlen Hu. destruct (load_represents a file_addr ms T Ha Haddr Hov Hok Hlen Hu) as (st0 & st & k & E0 & E & Hr).
  exists st0, st. split; [done|]. split; [done|]. split; [apply Hr|].
  intros path Hpath. destruct (T !! path) as [it|] eqn:ET; [by apply (rp_path _ _ _ Hr)|by apply (no_path k T)].
Qed.
End archive.

(** ** A concrete archive *)
Definition some_files : list member :=
  [small_member "./" 53 []; small_member "./etc/" 53 []; small_member "./etc/motd" 48 (lit "hello"); small_member "./bin" 53 []].
Definition some_layout : layout :=
  <[[lit "bin"] := Dir]> (<[[lit "etc"; lit "motd"] := File (lit "hello")]> (<[[lit "etc"] := Dir]> {[ [] := Dir ]})).

Lemma some_files_unpack : unpacked {[ [] := Dir ]} some_files some_layout.
Proof.
  apply unpacked_root; [reflexivity|].
  apply (unpacked_member _ _ _ [] (lit "etc") Dir); [split; [by exists true|done]|reflexivity|reflexivity|reflexivity|].
  apply (unpacked_member _ _ _ [lit "etc"] (lit "motd") (File (lit "hello"))); [split; [by exists false|split; [by left|done]]|reflexivity..|].
  apply (unpacked_member _ _ _ [] (lit "bin") Dir); [split; [by exists false|done]|reflexivity..|]. constructor.
Qed.

Lemma archive_becomes_the_tree_witness :
  exists st0 st p, Tmpfs.init zero 99 1 = Ret st0 /\
    load_into (filesystems zero 99) (root st0) 4096 (Z.of_nat (length (archive some_files))) (archive some_files) st0 = Ret st /\
    walk st (root st) [lit "etc"; lit "motd"] = Some p /\ file_contents st p = Some (Some <$> lit "hello") /\
    walk st (root st) [lit "etc"; lit "shadow"] = None.
Proof.
  destruct (archive_becomes_the_tree zero zero_spec 99 1 4096 some_files some_layout) as (st0 & st & H0 & H1 & _ & H2).
  - lia.
  - lia.
  - vm_compute. reflexivity.
  - repeat constructor.
  - vm_compute. reflexivity.
  - exact some_files_unpack.
  - pose proof (H2 [lit "etc"; lit "shadow"] eq_refl) as Hno. destruct (H2 [lit "etc"; lit "motd"] eq_refl) as (p & Hp & Hc).
    exists st0, st, p. split; [exact H0|]. split; [exact H1|]. split; [exact Hp|]. split; [exact (proj1 Hc)|exact Hno].
Defined.
