(* ===== verification/Machine.v ===== *)
(** * cpu/cpu.hpp, cpu/cpu.cpp, cpu/gdt: the processor's registers and segments

    The processor and the devices behind memory-mapped registers and ports are
    known by the interface [Machine]: what a read answers and what a write does
    to the rest of the world is up to the instance. *)
From S2P Require Import Prelude.

Class Machine (M : Type) := {
  mmio_read : Z -> Z -> M -> Z * M;    (** width in bytes, address *)
  mmio_write : Z -> Z -> Z -> M -> M;  (** width, address, value *)
  port_in : Z -> Z -> M -> Z * M;      (** width, port *)
  port_out : Z -> Z -> Z -> M -> M;    (** width, port, value *)
  rdmsr : Z -> M -> Z * Z * M;         (** EAX, EDX *)
  wrmsr : Z -> Z -> Z -> M -> M        (** register, EAX, EDX *)
}.

(** ** Model-specific registers *)
Definition IA32_APIC_BASE : Z := 0x1B.
Definition IA32_PAT : Z := 0x277.
Definition IA32_EFER : Z := 0xC0000080.
Definition IA32_STAR : Z := 0xC0000081.
Definition IA32_LSTAR : Z := 0xC0000082.
Definition IA32_FMASK : Z := 0xC0000084.
Definition IA32_FS_BASE : Z := 0xC0000100.
Definition IA32_GS_BASE : Z := 0xC0000101.
Definition IA32_KERNEL_GS_BASE : Z := 0xC0000102.

(** ** Segments *)
Definition KERNEL_CODE_64 : Z := 0x8.
Definition KERNEL_DATA_64 : Z := 0x10.
Definition USER_DATA_64 : Z := 0x18.
Definition USER_CODE_64 : Z := 0x20.
Definition TSS_segment : Z := 0x28.

Record GDTEntry := mkGDTEntry {
  limit : Z; base_low : Z; base_mid : Z; access : Z; granularity : Z; base_high : Z }.

Definition null_entry : GDTEntry := mkGDTEntry 0 0 0 0 0 0.

(** [gdt[0..4]] as [load_gdt] leaves them; [gdt[5]] and [gdt[6]] are the TSS's. *)
Definition load_gdt (gdt : list GDTEntry) : list GDTEntry :=
  [null_entry;
   mkGDTEntry 0 0 0 0x9A 0x20 0;
   mkGDTEntry 0 0 0 0x92 0 0;
   mkGDTEntry 0 0 0 0xF2 0 0;
   mkGDTEntry 0 0 0 0xFA 0x20 0] ++ drop 5 gdt.

Definition load_tss (tss_addr : Z) (gdt : list GDTEntry) : list GDTEntry :=
  let gdt := zinsert 5 (mkGDTEntry 0x67 (u16 tss_addr) (u8 (Z.shiftr tss_addr 16)) 0x89 0
                          (u8 (Z.shiftr tss_addr 24))) gdt in
  zinsert 6 (mkGDTEntry (u16 (Z.shiftr tss_addr 32)) (u16 (Z.shiftr tss_addr 48)) 0 0 0 0) gdt.

(** The limit [reload_gdt] gives the processor: [sizeof(gdt) - 1]. *)
Definition reload_gdt (gdt : list GDTEntry) : Z := 8 * Z.of_nat (length gdt) - 1.

(** The address a system descriptor of two entries holds. *)
Definition descriptor_base (low high : GDTEntry) : Z :=
  base_low low + base_mid low * 2 ^ 16 + base_high low * 2 ^ 24 + limit high * 2 ^ 32 + base_low high * 2 ^ 48.

Section Machine.
Context {M : Type} `{Machine M}.

Definition MSR_read (msr : Z) (m : M) : Z * M :=
  let '(lo, hi, m) := rdmsr msr m in (Z.lor (Z.shiftl hi 32) lo, m).
Definition MSR_write (msr val : Z) (m : M) : M :=
  wrmsr msr (Z.land val 0xFFFFFFFF) (u32 (Z.shiftr val 32)) m.

Definition write_gs_base (gs : Z) (m : M) : M := MSR_write IA32_GS_BASE gs m.
Definition write_kernel_gs_base (gs : Z) (m : M) : M := MSR_write IA32_KERNEL_GS_BASE gs m.
Definition write_fs_base (fs : Z) (m : M) : M := MSR_write IA32_FS_BASE fs m.
Definition read_gs_base (m : M) : Z * M := MSR_read IA32_GS_BASE m.
Definition read_kernel_gs_base (m : M) : Z * M := MSR_read IA32_KERNEL_GS_BASE m.
Definition read_fs_base (m : M) : Z * M := MSR_read IA32_FS_BASE m.

Definition out8 (port val : Z) (m : M) : M := port_out 1 port val m.
Definition in8 (port : Z) (m : M) : Z * M := port_in 1 port m.

(** The registers [cpu::init] sets for [syscall]; [syscall_entry] is the address
    of the entry stub. *)
Definition PAT : Z := 0x501040600070406.
Definition star : Z :=
  Z.lor (Z.lor 0 (Z.shiftl KERNEL_CODE_64 32)) (Z.shiftl (USER_CODE_64 - 16) 48).

Definition init_msrs (syscall_entry : Z) (m : M) : M :=
  let m := MSR_write IA32_PAT PAT m in
  let '(efer, m) := MSR_read IA32_EFER m in
  let m := MSR_write IA32_EFER (Z.lor efer 1) m in
  let '(fmask, m) := MSR_read IA32_FMASK m in
  let m := MSR_write IA32_FMASK (Z.lor fmask 0x200) m in
  let m := MSR_write IA32_STAR star m in
  MSR_write IA32_LSTAR syscall_entry m.

End Machine.

(** The segments the processor loads from STAR: by [syscall], CS and SS; by
    [sysret] to 64-bit code, CS and SS. *)
Definition syscall_segments (star : Z) : Z * Z :=
  let s := Z.land (Z.shiftr star 32) 0xFFFF in (Z.land s 0xFFFC, s + 8).
Definition sysret_segments (star : Z) : Z * Z :=
  let s := Z.land (Z.shiftr star 48) 0xFFFF in (Z.lor (s + 16) 3, Z.lor (s + 8) 3).

(** What STAR says are the segments tasks are given. *)
Example star_segments :
  syscall_segments star = (KERNEL_CODE_64, KERNEL_DATA_64) /\
  sysret_segments star = (Z.lor USER_CODE_64 3, Z.lor USER_DATA_64 3).
Proof. by vm_compute. Qed.

(** The parts of a 64-bit address put together again. *)
Lemma address_parts a :
  0 <= a < 2 ^ 64 ->
  u16 a + u8 (Z.shiftr a 16) * 2 ^ 16 + u8 (Z.shiftr a 24) * 2 ^ 24
    + u16 (Z.shiftr a 32) * 2 ^ 32 + u16 (Z.shiftr a 48) * 2 ^ 48 = a.
Proof.
  intros Ha. rewrite !Z.shiftr_div_pow2 by lia. unfold wrap.
  change (2 ^ 8) with 256. change (2 ^ 16) with 65536. change (2 ^ 24) with 16777216.
  change (2 ^ 32) with 4294967296. change (2 ^ 48) with 281474976710656 in *.
  change (2 ^ 64) with 18446744073709551616 in Ha.
  Z.div_mod_to_equations. lia.
Qed.

(** The TSS descriptor leads the processor to the TSS. *)
Lemma load_tss_base gdt a :
  length gdt = 7%nat -> 0 <= a < 2 ^ 64 ->
  exists low high, zlookup (load_tss a gdt) (TSS_segment / 8) = Some low /\
    zlookup (load_tss a gdt) (TSS_segment / 8 + 1) = Some high /\ descriptor_base low high = a.
Proof.
  intros Hl Ha. unfold load_tss. change (TSS_segment / 8) with 5. change (5 + 1) with 6. eexists _, _.
  split; [|split].
  - rewrite zlookup_zinsert_ne by lia. apply zlookup_zinsert_eq. lia.
  - apply zlookup_zinsert_eq. rewrite length_zinsert. lia.
  - unfold descriptor_base. cbn [base_low base_mid base_high limit]. by apply address_parts.
Qed.

(** ** A concrete machine: every register and port reads what was last written,
    and what is written is recorded, the latest first. *)
Inductive access_record := Mmio (width addr val : Z) | Port (width port val : Z) | Msr (reg val : Z).

Record board := mkBoard { registers : gmap Z Z; ports : gmap Z Z; msrs : gmap Z Z; trace : list access_record }.

#[export] Instance board_machine : Machine board := {
  mmio_read _ a b := (default 0 (registers b !! a), b);
  mmio_write w a v b := mkBoard (<[a := v]> (registers b)) (ports b) (msrs b) (Mmio w a v :: trace b);
  port_in _ p b := (default 0 (ports b !! p), b);
  port_out w p v b := mkBoard (registers b) (<[p := v]> (ports b)) (msrs b) (Port w p v :: trace b);
  rdmsr r b := let v := default 0 (msrs b !! r) in (v mod 2 ^ 32, v / 2 ^ 32 mod 2 ^ 32, b);
  wrmsr r lo hi b := mkBoard (registers b) (ports b) (<[r := lo + hi * 2 ^ 32]> (msrs b)) (Msr r (lo + hi * 2 ^ 32) :: trace b)
}.

Definition board0 : board := mkBoard ∅ ∅ ∅ [].

(** [cpu::init] enables [syscall], masks interrupts on entry and sets the rest. *)
Example init_msrs_sets :
  trace (init_msrs 0xFFFFFFFF80001000 board0)
  = [Msr IA32_LSTAR 0xFFFFFFFF80001000; Msr IA32_STAR 0x10000800000000; Msr IA32_FMASK 0x200; Msr IA32_EFER 1;
     Msr IA32_PAT 0x501040600070406].
Proof. vm_compute. reflexivity. Qed.

(** ** What the processor promises of the base registers *)
Definition is_base (r : Z) : bool :=
  (r =? IA32_FS_BASE) || (r =? IA32_GS_BASE) || (r =? IA32_KERNEL_GS_BASE).

Class BaseRegisters (M : Type) `{Machine M} := {
  base_read_range : forall r m, is_base r = true ->
    0 <= (rdmsr r m).1.1 < 2 ^ 32 /\ 0 <= (rdmsr r m).1.2 < 2 ^ 32;
  base_read_keeps : forall r m, is_base r = true -> (rdmsr r m).2 = m;
  base_read_write : forall r r' lo hi m, is_base r = true ->
    0 <= lo < 2 ^ 32 -> 0 <= hi < 2 ^ 32 ->
    (rdmsr r (wrmsr r' lo hi m)).1 = if decide (r = r') then (lo, hi) else (rdmsr r m).1;
  base_mmio_write : forall r w a v m, is_base r = true -> (rdmsr r (mmio_write w a v m)).1 = (rdmsr r m).1;
  base_mmio_read : forall r w a m, is_base r = true -> (rdmsr r (mmio_read w a m).2).1 = (rdmsr r m).1;
  base_port_in : forall r w p m, is_base r = true -> (rdmsr r (port_in w p m).2).1 = (rdmsr r m).1
}.

Section base.
Context {M : Type} `{BaseRegisters M}.

Definition base_value (r : Z) (m : M) : Z := (MSR_read r m).1.

Lemma MSR_read_base r m : is_base r = true -> MSR_read r m = (base_value r m, m).
Proof.
  intros Hr. unfold base_value, MSR_read. pose proof (base_read_keeps r m Hr) as E.
  destruct (rdmsr r m) as [[lo hi] m']. cbn in *. by subst.
Qed.

Lemma base_value_eq r m m' : (rdmsr r m).1 = (rdmsr r m').1 -> base_value r m = base_value r m'.
Proof.
  unfold base_value, MSR_read. destruct (rdmsr r m) as [[lo hi] ?], (rdmsr r m') as [[lo' hi'] ?].
  cbn. by intros [= -> ->].
Qed.

Lemma base_value_mmio r w a v m : is_base r = true -> base_value r (mmio_write w a v m) = base_value r m.
Proof. intros Hr. by apply base_value_eq, base_mmio_write. Qed.

Lemma base_value_mmio_read r w a m : is_base r = true -> base_value r (mmio_read w a m).2 = base_value r m.
Proof. intros Hr. by apply base_value_eq, base_mmio_read. Qed.

Lemma base_value_port_in r w p m : is_base r = true -> base_value r (port_in w p m).2 = base_value r m.
Proof. intros Hr. by apply base_value_eq, base_port_in. Qed.

Lemma base_value_range r m : is_base r = true -> 0 <= base_value r m < 2 ^ 64.
Proof.
  intros Hr. pose proof (base_read_range r m Hr) as [Hlo Hhi]. unfold base_value, MSR_read.
  destruct (rdmsr r m) as [[lo hi] m']. cbn [fst snd] in *. split.
  - apply Z.lor_nonneg. rewrite Z.shiftl_nonneg. lia.
  - destruct (decide (Z.lor (Z.shiftl hi 32) lo = 0)) as [->|]; [lia|]. apply Z.log2_lt_pow2.
    + assert (0 <= Z.lor (Z.shiftl hi 32) lo); [|lia]. apply Z.lor_nonneg. rewrite Z.shiftl_nonneg. lia.
    + rewrite Z.log2_lor by (rewrite ?Z.shiftl_nonneg; lia). apply Z.max_lub_lt.
      * destruct (decide (hi = 0)) as [->|]; [done|]. rewrite Z.log2_shiftl by lia.
        assert (Z.log2 hi < 32) by (apply Z.log2_lt_pow2; lia). lia.
      * destruct (decide (lo = 0)) as [->|]; [done|]. assert (Z.log2 lo < 32) by (apply Z.log2_lt_pow2; lia). lia.
Qed.

(** The two halves of a value put together. *)
Lemma halves v : 0 <= v < 2 ^ 64 ->
  0 <= Z.land v 0xFFFFFFFF < 2 ^ 32 /\ 0 <= u32 (Z.shiftr v 32) < 2 ^ 32 /\
  Z.lor (Z.shiftl (u32 (Z.shiftr v 32)) 32) (Z.land v 0xFFFFFFFF) = v.
Proof.
  intros Hv. change 0xFFFFFFFF with (Z.ones 32). rewrite Z.land_ones by lia.
  pose proof (Z.mod_pos_bound v (2 ^ 32) ltac:(lia)). pose proof (wrap_range 32 (Z.shiftr v 32) ltac:(lia)).
  split; [done|]. split; [done|]. rewrite wrap_small.
  2: { rewrite Z.shiftr_div_pow2 by lia. split; [apply Z.div_pos; lia|apply Z.div_lt_upper_bound; lia]. }
  apply Z.bits_inj'. intros i Hi. rewrite Z.lor_spec. destruct (Z.lt_ge_cases i 32).
  - rewrite Z.shiftl_spec_low, Z.mod_pow2_bits_low by lia. done.
  - rewrite Z.shiftl_spec, Z.mod_pow2_bits_high, Z.shiftr_spec by lia. rewrite orb_false_r. f_equal. lia.
Qed.

Lemma base_value_write r r' v m :
  is_base r = true -> 0 <= v < 2 ^ 64 ->
  base_value r (MSR_write r' v m) = if decide (r = r') then v else base_value r m.
Proof.
  intros Hr Hv. destruct (halves v Hv) as (Hlo & Hhi & E). unfold MSR_write.
  pose proof (base_read_write r r' _ _ m Hr Hlo Hhi) as Hrw. case_decide.
  - unfold base_value, MSR_read. destruct (rdmsr r (wrmsr r' _ _ m)) as [[lo hi] m']. cbn in *.
    injection Hrw as -> ->. done.
  - by apply base_value_eq.
Qed.
End base.

#[export] Instance board_base : BaseRegisters board.
Proof.
  split; [intros r m _; cbn [rdmsr board_machine fst snd]; split; apply Z.mod_pos_bound; lia|done| |done..].
  intros r r' lo hi m _ Hlo Hhi. cbn. case_decide as E.
  - subst r'. rewrite lookup_insert_eq. cbn [default from_option]. f_equal.
    + cbv beta delta [id] iota. rewrite Z.mod_add, Z.mod_small by lia. done.
    + cbv beta delta [id] iota. rewrite Z.div_add, Z.div_small, Z.mod_small by lia. lia.
  - by rewrite lookup_insert_ne.
Qed.
