(* ===== verification/Interrupts.v ===== *)
(** * cpu/interrupts: the IDT, vectors, the APICs and the PIC

    A handler is the address of its function.  What [LAPIC::prepare] does to the
    kernel's page map is file Paging's [map_page]; here it sets [reg_base].  Log
    lines are left out. *)
From S2P Require Import Prelude Bitmap Vector Machine.

(** ** The interrupt descriptor table *)
Definition INTERRUPT : Z := 0xE.

Record IDTEntry := mkIDTEntry {
  offset1 : Z; selector : Z; attributes : Z; offset2 : Z; offset3 : Z; reserved : Z }.

Record idt_state := mkIdt { idt : list IDTEntry; idt_handlers : list Z; idt_bitmap : Bitmap }.

(** The loop of [allocate_vector]: [i] is a byte, and 0 ends it. *)
Fixpoint vector_loop (fuel : nat) (i : Z) (s : idt_state) : outcome (Z * idt_state) :=
  match fuel with
  | O => Diverge
  | S fuel =>
      if negb (i =? 0) then
        b ← get (idt_bitmap s) i;
        if b : bool then vector_loop fuel (u8 (i + 1)) s
        else
          bm ← set (idt_bitmap s) i true;
          Ret (i, mkIdt (idt s) (idt_handlers s) bm)
      else Panic
  end.
Definition allocate_vector (s : idt_state) : outcome (Z * idt_state) := vector_loop 225 32 s.

Definition gate (wrapper type : Z) : IDTEntry :=
  mkIDTEntry (Z.land wrapper 0xFFFF) KERNEL_CODE_64 (Z.lor (Z.shiftl 1 15) (Z.shiftl type 8))
    (Z.shiftr (Z.land wrapper 0xFFFF0000) 16) (Z.shiftr (Z.land wrapper 0xFFFFFFFF00000000) 32) 0.

Definition load_idt_entry (index wrapper type : Z) (s : idt_state) : outcome idt_state :=
  _ ← of_option (zlookup (idt s) index);
  Ret (mkIdt (zinsert index (gate wrapper type) (idt s)) (idt_handlers s) (idt_bitmap s)).

Definition load_idt_handler (index handler : Z) (s : idt_state) : outcome idt_state :=
  _ ← of_option (zlookup (idt_handlers s) index);
  Ret (mkIdt (idt s) (zinsert index handler (idt_handlers s)) (idt_bitmap s)).

(** The handler [__idt_handler_common] calls. *)
Definition idt_handler_common (vec : Z) (s : idt_state) : outcome Z :=
  h ← of_option (zlookup (idt_handlers s) vec);
  if h =? 0 then Fault else Ret h.

(** [load_idt]: the tables, and the limit of the IDT register. *)
Definition load_idt (wrappers : list Z) (raw_bitmap exception_handler page_fault_handler : Z) (s : idt_state) :
    outcome (idt_state * Z) :=
  let s := mkIdt (idt s) (idt_handlers s) (mkBitmap raw_bitmap (Bitmap.m_buffer (idt_bitmap s)) 256) in
  s ← for_range 256 0 (fun i s => w ← of_option (zlookup wrappers i); load_idt_entry i w INTERRUPT s) s;
  s ← for_range 32 0 (fun i s =>
        s ← load_idt_handler i (if i =? 0xE then page_fault_handler else exception_handler) s;
        bm ← set (idt_bitmap s) i true;
        Ret (mkIdt (idt s) (idt_handlers s) bm)) s;
  Ret (s, 16 * Z.of_nat (length (idt s)) - 1).

(** Where a gate leads. *)
Definition gate_target (g : IDTEntry) : Z := offset1 g + offset2 g * 2 ^ 16 + offset3 g * 2 ^ 32.

(** ** The local APIC *)
Definition LAPIC_ID : Z := 0x20.
Definition LAPIC_EOI : Z := 0xB0.
Definition LAPIC_SPURIOUS : Z := 0xF0.
Definition LVT_CMCI : Z := 0x2F0.
Definition LVT_TIMER : Z := 0x320.
Definition LVT_THERMAL : Z := 0x330.
Definition LVT_PERF : Z := 0x340.
Definition LVT_LINT0 : Z := 0x350.
Definition LVT_LINT1 : Z := 0x360.
Definition LVT_ERROR : Z := 0x370.
Definition TIMER_INITIAL : Z := 0x380.
Definition TIMER_CURRENT : Z := 0x390.
Definition TIMER_DIVIDE : Z := 0x3E0.

Record LAPIC := mkLAPIC { lapic_id : Z; acpi_id : Z }.
Record IOAPIC := mkIOAPIC { ioapic_id : Z; gsi_base : Z; max_entries : Z; ioregsel : Z; ioregwin : Z }.

Section Interrupts.
Context {M : Type} `{Machine M}.

(** [reg_base + reg] *)
Definition LAPIC_write_reg (reg_base reg val : Z) (m : M) : M := mmio_write 4 (u64 (reg_base + reg)) (u32 val) m.
Definition LAPIC_read_reg (reg_base reg : Z) (m : M) : Z * M := mmio_read 4 (u64 (reg_base + reg)) m.

Definition LAPIC_eoi (reg_base : Z) (m : M) : M := LAPIC_write_reg reg_base LAPIC_EOI 0 m.
Definition LAPIC_read_id (reg_base : Z) (m : M) : Z * M := LAPIC_read_reg reg_base LAPIC_ID m.

Definition lvt_entry (vector : Z) (nmi active_low level_trigger mask : bool) : Z :=
  Z.lor (Z.lor (Z.lor (Z.lor vector (Z.shiftl (Z.b2z nmi) 10)) (Z.shiftl (Z.b2z active_low) 13))
           (Z.shiftl (Z.b2z level_trigger) 15)) (Z.shiftl (Z.b2z mask) 16).
Definition LAPIC_set_vector (reg_base reg vector : Z) (nmi active_low level_trigger mask : bool) (m : M) : M :=
  LAPIC_write_reg reg_base reg (lvt_entry vector nmi active_low level_trigger mask) m.
Definition LAPIC_mask_vector (reg_base reg : Z) (m : M) : M :=
  let '(v, m) := LAPIC_read_reg reg_base reg m in LAPIC_write_reg reg_base reg (Z.lor v (Z.shiftl 1 16)) m.
Definition LAPIC_unmask_vector (reg_base reg : Z) (m : M) : M :=
  let '(v, m) := LAPIC_read_reg reg_base reg m in
  LAPIC_write_reg reg_base reg (Z.land v (u32 (Z.lnot (Z.shiftl 1 16)))) m.

(** The physical base and [reg_base]. *)
Definition LAPIC_prepare (hhdm : Z) (m : M) : Z * Z * M :=
  let '(v, m) := MSR_read IA32_APIC_BASE m in
  let phy_base := Z.ldiff v 0xFFF in (phy_base, u64 (phy_base + hhdm), m).

Definition LAPIC_enable (reg_base spurious : Z) (s : idt_state) (m : M) : outcome (idt_state * M) :=
  let '(v, m) := MSR_read IA32_APIC_BASE m in
  let m := MSR_write IA32_APIC_BASE (Z.lor v (Z.shiftl 1 11)) m in
  '(spurious_vector, s) ← allocate_vector s;
  s ← load_idt_handler spurious_vector spurious s;
  Ret (s, LAPIC_write_reg reg_base LAPIC_SPURIOUS (Z.lor spurious_vector (Z.shiftl 1 8)) m).

(** ** The I/O APICs *)
Definition IOAPIC_write_reg (a : IOAPIC) (reg val : Z) (m : M) : M :=
  mmio_write 4 (ioregwin a) (u32 val) (mmio_write 4 (ioregsel a) (u32 reg) m).
Definition IOAPIC_read_reg (a : IOAPIC) (reg : Z) (m : M) : Z * M :=
  mmio_read 4 (ioregwin a) (mmio_write 4 (ioregsel a) (u32 reg) m).

Definition new_IOAPIC (hhdm id addr base : Z) (m : M) : IOAPIC * M :=
  let sel := u64 (addr + hhdm) in
  let win := u64 (addr + 0x10 + hhdm) in
  let '(v, m) := IOAPIC_read_reg (mkIOAPIC (u8 id) (u32 base) 0 sel win) 1 m in
  (mkIOAPIC (u8 id) (u32 base) (u32 (Z.shiftr v 16 + 1)) sel win, m).

Definition redir_entry (vector delivery_mode : Z) (logic_dest active_low level_trigger mask : bool) : Z :=
  Z.lor (Z.lor (Z.lor (Z.lor (Z.lor vector (Z.shiftl delivery_mode 8)) (Z.shiftl (Z.b2z logic_dest) 11))
           (Z.shiftl (Z.b2z active_low) 13)) (Z.shiftl (Z.b2z level_trigger) 15)) (Z.shiftl (Z.b2z mask) 16).
Definition set_redir_entry (a : IOAPIC) (n vector delivery_mode : Z)
    (logic_dest active_low level_trigger mask : bool) (dest : Z) (m : M) : M :=
  let m := IOAPIC_write_reg a (u64 (n * 2 + 0x10))
             (redir_entry vector delivery_mode logic_dest active_low level_trigger mask) m in
  IOAPIC_write_reg a (u64 (n * 2 + 0x11)) (Z.shiftl dest 24) m.

(** ** Interrupt requests *)
Record irq_state := mkIrq {
  ioapics : Vector IOAPIC;
  lapics : Vector LAPIC;
  irq_to_gsi : list Z;
  irq_flags : list Z;
  reg_base : Z
}.

(** [override_irq_source]: the index is not compared with the arrays' size. *)
Definition override_irq_source (irq gsi flags : Z) (q : irq_state) : outcome irq_state :=
  _ ← of_option (zlookup (irq_to_gsi q) irq);
  _ ← of_option (zlookup (irq_flags q) irq);
  Ret (mkIrq (ioapics q) (lapics q) (zinsert irq gsi (irq_to_gsi q)) (zinsert irq flags (irq_flags q)) (reg_base q)).

Definition serves (gsi : Z) (a : IOAPIC) : bool :=
  (gsi_base a <=? gsi) && (gsi <? u32 (gsi_base a + max_entries a)).

(** The loop of [register_gsi] over the I/O APICs. *)
Fixpoint route (l : list (option IOAPIC)) (reg_base gsi vector : Z) (active_low level_trigger : bool) (m : M) :
    outcome M :=
  match l with
  | [] => Ret m
  | a :: l =>
      a ← of_option a;
      if serves gsi a then
        let '(id, m) := LAPIC_read_id reg_base m in
        Ret (set_redir_entry a gsi vector 0 false active_low level_trigger false (u8 id) m)
      else route l reg_base gsi vector active_low level_trigger m
  end.

Definition register_gsi (gsi : Z) (active_low level_trigger : bool) (handler : Z)
    (q : irq_state) (s : idt_state) (m : M) : outcome (idt_state * M) :=
  '(vector, s) ← allocate_vector s;
  s ← load_idt_handler vector handler s;
  m ← route (elements (ioapics q)) (reg_base q) gsi vector active_low level_trigger m;
  Ret (s, m).

Definition register_irq (irq handler : Z) (q : irq_state) (s : idt_state) (m : M) : outcome (idt_state * M) :=
  gsi ← of_option (zlookup (irq_to_gsi q) irq);
  flags ← of_option (zlookup (irq_flags q) irq);
  register_gsi gsi (Z.land flags 3 =? 3) (Z.land flags 0xC =? 0xC) handler q s m.

Definition eoi (q : irq_state) (m : M) : M := LAPIC_eoi (reg_base q) m.

(** ** The PIC *)
Definition PIC1_COMMAND : Z := 0x20.
Definition PIC1_DATA : Z := 0x21.
Definition PIC2_COMMAND : Z := 0xA0.
Definition PIC2_DATA : Z := 0xA1.
Definition PIC_EOI : Z := 0x20.
Definition ICW1_ICW4 : Z := 1.
Definition ICW1_INIT : Z := 0x10.
Definition ICW4_8086 : Z := 1.

(** One write and the delay after it. *)
Definition out_delay (port val : Z) (m : M) : M := out8 0x80 0 (out8 port val m).

Definition remap (o1 o2 : Z) (m : M) : M :=
  let '(m1, m) := in8 PIC1_DATA m in
  let '(m2, m) := in8 PIC2_DATA m in
  let m := out_delay PIC1_COMMAND (Z.lor ICW1_INIT ICW1_ICW4) m in
  let m := out_delay PIC2_COMMAND (Z.lor ICW1_INIT ICW1_ICW4) m in
  let m := out_delay PIC1_DATA o1 m in
  let m := out_delay PIC2_DATA o2 m in
  let m := out_delay PIC1_DATA 4 m in
  let m := out_delay PIC2_DATA 2 m in
  let m := out_delay PIC1_DATA ICW4_8086 m in
  let m := out_delay PIC2_DATA ICW4_8086 m in
  out8 PIC2_DATA m2 (out8 PIC1_DATA m1 m).

Definition send_eoi (irq : Z) (m : M) : M :=
  out8 PIC1_COMMAND PIC_EOI (if 8 <=? irq then out8 PIC2_COMMAND PIC_EOI m else m).
Definition pic_port (irq : Z) : Z := if irq <? 8 then PIC1_DATA else PIC2_DATA.
Definition set_mask (irq : Z) (m : M) : M :=
  let '(v, m) := in8 (pic_port irq) m in
  out8 (pic_port irq) (Z.lor v (Z.shiftl 1 (Z.land irq 7))) m.
Definition clear_mask (irq : Z) (m : M) : M :=
  let '(v, m) := in8 (pic_port irq) m in
  out8 (pic_port irq) (Z.land v (u8 (Z.lnot (Z.shiftl 1 (Z.land irq 7))))) m.

End Interrupts.

(** ** Vectors *)

(** The tables have their sizes. *)
Record idt_ok (s : idt_state) : Prop := {
  ok_idt : length (idt s) = 256%nat;
  ok_handlers : length (idt_handlers s) = 256%nat;
  ok_bitmap : covers (idt_bitmap s) 256
}.

Lemma vector_loop_spec n : forall i s,
  idt_ok s -> 32 <= i <= 256 -> Z.of_nat n = 256 - i ->
  match vector_loop (S n) (u8 i) s with
  | Ret (v, s') => i <= v < 256 /\ bit (idt_bitmap s) v = false /\
      (forall j, i <= j < v -> bit (idt_bitmap s) j = true) /\
      updates (idt_bitmap s) (idt_bitmap s') (fun j => bool_decide (j = v)) true /\
      idt s' = idt s /\ idt_handlers s' = idt_handlers s
  | Panic => forall j, i <= j < 256 -> bit (idt_bitmap s) j = true
  | _ => False
  end.
Proof.
  induction n as [|n IH]; intros i s Hok Hi Hn.
  - assert (i = 256) as -> by lia. cbn. intros j Hj. lia.
  - remember (S n) as k. cbn [vector_loop]. rewrite wrap_small by lia.
    rewrite (proj2 (Z.eqb_neq i 0)) by lia. cbn [negb].
    rewrite (get_bit _ i 256) by (apply Hok || lia). ored. destruct (bit (idt_bitmap s) i) eqn:Hb.
    + specialize (IH (i + 1) s Hok ltac:(lia) ltac:(lia)). subst k.
      destruct (vector_loop (S n) (u8 (i + 1)) s) as [[v s']| | |]; [|intros j Hj|done..].
      * destruct IH as (Hv & Hf & Hall & Hrest). split; [lia|]. split; [done|]. split; [|done].
        intros j Hj. destruct (decide (j = i)) as [->|]; [done|]. apply Hall. lia.
      * destruct (decide (j = i)) as [->|]; [done|]. apply IH. lia.
    + destruct (set_spec (idt_bitmap s) i true 256) as (bm & -> & Hup); [apply Hok|lia|]. ored.
      split; [lia|]. split; [done|]. split; [intros j Hj; lia|]. done.
Qed.

(** The lowest free vector from 32 on, or a panic when all are taken. *)
Lemma allocate_vector_spec s :
  idt_ok s ->
  match allocate_vector s with
  | Ret (v, s') => 32 <= v < 256 /\ bit (idt_bitmap s) v = false /\
      (forall j, 32 <= j < v -> bit (idt_bitmap s) j = true) /\
      updates (idt_bitmap s) (idt_bitmap s') (fun j => bool_decide (j = v)) true /\
      idt s' = idt s /\ idt_handlers s' = idt_handlers s
  | Panic => forall j, 32 <= j < 256 -> bit (idt_bitmap s) j = true
  | _ => False
  end.
Proof. intros Hok. apply (vector_loop_spec 224 32 s Hok); lia. Qed.

(** ** Gates *)
Lemma gate_spec w : 0 <= w < 2 ^ 64 -> gate_target (gate w INTERRUPT) = w.
Proof.
  intros Hw. unfold gate_target, gate. cbn [offset1 offset2 offset3].
  rewrite !Z.shiftr_land, !(Z.shiftr_div_pow2 w) by lia.
  change (Z.shiftr 0xFFFF0000 16) with (Z.ones 16). change (Z.shiftr 0xFFFFFFFF00000000 32) with (Z.ones 32).
  change 0xFFFF with (Z.ones 16). rewrite !Z.land_ones by lia.
  change (2 ^ 16) with 65536. change (2 ^ 32) with 4294967296. change (2 ^ 64) with 18446744073709551616 in Hw.
  Z.div_mod_to_equations. lia.
Qed.

(** The gates loaded so far. *)
Lemma load_gates wrappers s :
  length (idt s) = 256%nat -> length wrappers = 256%nat ->
  exists s', for_range 256 0 (fun i s => w ← of_option (zlookup wrappers i); load_idt_entry i w INTERRUPT s) s = Ret s' /\
    idt_handlers s' = idt_handlers s /\ idt_bitmap s' = idt_bitmap s /\ length (idt s') = 256%nat /\
    forall v w, 0 <= v < 256 -> zlookup wrappers v = Some w -> zlookup (idt s') v = Some (gate w INTERRUPT).
Proof.
  intros Hl Hw.
  destruct (for_range_inv (fun i s' => idt_handlers s' = idt_handlers s /\ idt_bitmap s' = idt_bitmap s /\
      length (idt s') = 256%nat /\
      forall v w, 0 <= v < i -> zlookup wrappers v = Some w -> zlookup (idt s') v = Some (gate w INTERRUPT))
    256 0 (fun i s => w ← of_option (zlookup wrappers i); load_idt_entry i w INTERRUPT s) s)
    as (s' & E & Hs'); [|  |by exists s'].
  - split; [done|]. split; [done|]. split; [done|]. intros v w Hv. lia.
  - intros i s1 Hi (Hh & Hb & Hl1 & Hg). destruct (zlookup_is_Some wrappers i) as [w Hwi]; [lia|].
    rewrite Hwi. ored. unfold load_idt_entry. destruct (zlookup_is_Some (idt s1) i) as [g ->]; [lia|]. ored.
    eexists. split; [done|]. cbn [idt idt_handlers idt_bitmap]. rewrite length_zinsert. split_and!; try done.
    intros v w' Hv Hw'. destruct (decide (v = i)) as [->|Hvi].
    + rewrite zlookup_zinsert_eq by lia. congruence.
    + rewrite zlookup_zinsert_ne by lia. apply Hg; [lia|done].
Qed.

Definition exception_vector (exception_handler page_fault_handler v : Z) : Z :=
  if v =? 0xE then page_fault_handler else exception_handler.

Lemma load_exceptions eh pfh s :
  idt_ok s ->
  exists s', for_range 32 0 (fun i s =>
        s ← load_idt_handler i (exception_vector eh pfh i) s;
        bm ← set (idt_bitmap s) i true;
        Ret (mkIdt (idt s) (idt_handlers s) bm)) s = Ret s' /\ idt_ok s' /\
    idt s' = idt s /\
    (forall v, 0 <= v -> zlookup (idt_handlers s') v =
       if v <? 32 then Some (exception_vector eh pfh v) else zlookup (idt_handlers s) v) /\
    updates (idt_bitmap s) (idt_bitmap s') (fun j => (0 <=? j) && (j <? 32)) true.
Proof.
  intros Hok.
  destruct (for_range_inv (fun i s' => idt_ok s' /\ idt s' = idt s /\
    (forall v, 0 <= v -> zlookup (idt_handlers s') v =
       if v <? i then Some (exception_vector eh pfh v) else zlookup (idt_handlers s) v) /\
    updates (idt_bitmap s) (idt_bitmap s') (fun j => (0 <=? j) && (j <? i)) true)
    32 0 (fun i s =>
        s ← load_idt_handler i (exception_vector eh pfh i) s;
        bm ← set (idt_bitmap s) i true;
        Ret (mkIdt (idt s) (idt_handlers s) bm)) s)
    as (s' & E & Hs'); [| |by exists s'].
  - split; [done|]. split; [done|]. split; [intros v Hv; by rewrite (proj2 (Z.ltb_ge v 0))|].
    apply updates_none. intros j. destruct (Z.leb_spec 0 j), (Z.ltb_spec j 0); try done. lia.
  - intros i s1 Hi (Hok1 & Hid & Hh & Hup). unfold load_idt_handler.
    destruct (zlookup_is_Some (idt_handlers s1) i) as [h ->]; [rewrite (ok_handlers _ Hok1); lia|]. ored.
    cbn [idt idt_handlers idt_bitmap].
    destruct (set_spec (idt_bitmap s1) i true 256) as (bm & -> & Hbm); [apply Hok1|lia|]. ored.
    eexists. split; [done|]. cbn [idt idt_handlers idt_bitmap]. split_and!; [|done| |].
    + split; cbn [idt idt_handlers idt_bitmap]; [by rewrite (ok_idt _ Hok1)|by rewrite length_zinsert, (ok_handlers _ Hok1)|].
      eapply updates_covers; [exact Hbm|apply Hok1].
    + intros v Hv. destruct (decide (v = i)) as [->|Hvi].
      * rewrite zlookup_zinsert_eq by (rewrite (ok_handlers _ Hok1); lia). by rewrite (proj2 (Z.ltb_lt _ _)) by lia.
      * rewrite zlookup_zinsert_ne, Hh by lia. destruct (Z.ltb_spec v i), (Z.ltb_spec v (i + 1)); done || lia.
    + eapply updates_trans; [exact Hup|exact Hbm|]. intros j Hj. cbv beta. case_bool_decide;
        destruct (Z.leb_spec 0 j), (Z.ltb_spec j i), (Z.ltb_spec j (i + 1)); (done || lia).
Qed.

(** After [load_idt] every vector's gate is a present interrupt gate into the
    kernel's code that leads to that vector's wrapper, the exceptions have their
    handlers, page faults their own, and exactly their vectors are taken in
    addition to those that were. *)
Theorem load_idt_installs wrappers raw eh pfh s :
  idt_ok s -> length wrappers = 256%nat -> Forall (fun w => 0 <= w < 2 ^ 64) wrappers ->
  exists s', load_idt wrappers raw eh pfh s = Ret (s', 4095) /\ idt_ok s' /\
    (forall v w, zlookup wrappers v = Some w ->
       exists g, zlookup (idt s') v = Some g /\ gate_target g = w /\ selector g = KERNEL_CODE_64 /\ attributes g = 0x8E00) /\
    (forall v, 0 <= v -> zlookup (idt_handlers s') v =
       if v <? 32 then Some (exception_vector eh pfh v) else zlookup (idt_handlers s) v) /\
    (forall j, 0 <= j -> bit (idt_bitmap s') j = (j <? 32) || bit (idt_bitmap s) j).
Proof.
  intros Hok Hlw Hw. unfold load_idt.
  set (s0 := mkIdt (idt s) (idt_handlers s) _).
  destruct (load_gates wrappers s0 (ok_idt _ Hok) Hlw) as (s1 & -> & Hh1 & Hb1 & Hl1 & Hg). ored.
  assert (idt_ok s1) as Hok1.
  { split; [done|by rewrite Hh1; apply (ok_handlers _ Hok)|rewrite Hb1; apply (ok_bitmap _ Hok)]. }
  destruct (load_exceptions eh pfh s1 Hok1) as (s2 & E & Hok2 & Hid & Hh2 & Hup).
  unfold exception_vector in E. rewrite E. ored. rewrite (ok_idt _ Hok2).
  exists s2. split; [done|]. split; [done|]. split; [|split].
  - intros v w Hv. pose proof (zlookup_Some_range _ _ _ Hv) as Hr. rewrite Hlw in Hr.
    exists (gate w INTERRUPT). rewrite Hid, (Hg v w) by (done || lia).
    split; [done|]. split; [|by vm_compute]. apply gate_spec. rewrite Forall_forall in Hw.
    by apply (Hw w), (zlookup_elem_of wrappers v).
  - intros v Hv. by rewrite (Hh2 v Hv), Hh1.
  - intros j Hj. destruct Hup as (_ & _ & _ & ->); [|done]. rewrite Hb1.
    destruct (Z.leb_spec 0 j); [cbn|lia]. by destruct (j <? 32).
Qed.

(** ** Requests *)
Section requests.
Context {M : Type} `{Machine M}.

Lemma route_first l1 a l2 rb gsi vector al lt m :
  Forall (fun b => serves gsi b = false) l1 -> serves gsi a = true ->
  route (Some <$> l1 ++ a :: l2) rb gsi vector al lt m
  = (let '(id, m) := LAPIC_read_id rb m in Ret (set_redir_entry a gsi vector 0 false al lt false (u8 id) m)).
Proof.
  intros Hl Ha. induction Hl as [|b l1 Hb _ IH].
  - cbn [app fmap list_fmap route of_option mbind outcome_bind]. by rewrite Ha.
  - cbn [app]. rewrite fmap_cons. cbn [route]. ored. by rewrite Hb, IH.
Qed.

Lemma register_irq_spec q s m irq handler gsi flags l1 a l2 v :
  idt_ok s -> zlookup (irq_to_gsi q) irq = Some gsi -> zlookup (irq_flags q) irq = Some flags ->
  elements (ioapics q) = Some <$> l1 ++ a :: l2 ->
  Forall (fun b => serves gsi b = false) l1 -> serves gsi a = true ->
  32 <= v < 256 -> bit (idt_bitmap s) v = false -> (forall j, 32 <= j < v -> bit (idt_bitmap s) j = true) ->
  handler <> 0 ->
  exists s', register_irq irq handler q s m =
      (let '(id, m) := LAPIC_read_id (reg_base q) m in
       Ret (s', set_redir_entry a gsi v 0 false (Z.land flags 3 =? 3) (Z.land flags 0xC =? 0xC) false (u8 id) m)) /\
    idt_ok s' /\ idt_handler_common v s' = Ret handler /\
    (forall w, 0 <= w -> w <> v -> zlookup (idt_handlers s') w = zlookup (idt_handlers s) w) /\
    (forall j, 0 <= j -> bit (idt_bitmap s') j = (j =? v) || bit (idt_bitmap s) j).
Proof.
  intros Hok Hgsi Hflags Hel Hl1 Ha Hv Hfree Hlow Hh. unfold register_irq, register_gsi. rewrite Hgsi, Hflags. ored.
  pose proof (allocate_vector_spec s Hok) as Hspec. destruct (allocate_vector s) as [[v' s1]| | |]; [|exfalso..]; try done.
  2: { rewrite Hspec in Hfree; done. }
  destruct Hspec as (Hv' & Hf' & Hall' & Hup & Hid & Hhs).
  assert (v' = v) as ->.
  { destruct (Z.lt_total v' v) as [Hlt|[->|Hgt]]; [|done|].
    - rewrite Hlow in Hf' by lia. done.
    - rewrite Hall' in Hfree by lia. done. }
  ored. unfold load_idt_handler. rewrite Hhs.
  destruct (zlookup_is_Some (idt_handlers s) v) as [h ->]; [rewrite (ok_handlers _ Hok); lia|]. ored.
  rewrite Hel, (route_first l1 a l2) by done. destruct (LAPIC_read_id (reg_base q) m) as [id m1]. ored.
  eexists. split; [done|]. unfold idt_handler_common. cbn [idt idt_handlers idt_bitmap]. split_and!.
  - split; cbn [idt idt_handlers idt_bitmap]; [by rewrite Hid, (ok_idt _ Hok)|by rewrite length_zinsert, (ok_handlers _ Hok)|].
    eapply updates_covers; [exact Hup|apply Hok].
  - rewrite zlookup_zinsert_eq by (rewrite (ok_handlers _ Hok); lia). ored. by rewrite (proj2 (Z.eqb_neq handler 0)).
  - intros w Hw Hne. apply zlookup_zinsert_ne; lia.
  - intros j Hj. destruct Hup as (_ & _ & _ & ->); [|done].
    case_bool_decide as E; [subst; by rewrite Z.eqb_refl|by rewrite (proj2 (Z.eqb_neq j v))].
Qed.

(** An unclaimed line can be registered while a vector is free; whether an I/O
    APIC serves it or not, the processor's base registers stay. *)
Lemma route_returns l rb gsi vector al lt : forall m,
  Forall is_Some l -> exists m', route l rb gsi vector al lt m = Ret m'.
Proof.
  induction l as [|a l IH]; intros m Hl; [by eexists|]. apply Forall_cons in Hl as [[b ->] Hl]. cbn [route]. ored.
  destruct (serves gsi b); [|by apply IH]. destruct (LAPIC_read_id rb m). by eexists.
Qed.

Lemma register_irq_returns q s m irq handler :
  idt_ok s -> is_Some (zlookup (irq_to_gsi q) irq) -> is_Some (zlookup (irq_flags q) irq) -> Forall is_Some (elements (ioapics q)) ->
  (exists v, 32 <= v < 256 /\ bit (idt_bitmap s) v = false) -> exists s' m', register_irq irq handler q s m = Ret (s', m').
Proof.
  intros Hok [gsi Hg] [flags Hf] Hel (v & Hv & Hfree). unfold register_irq, register_gsi. rewrite Hg, Hf. ored.
  pose proof (allocate_vector_spec s Hok) as Hspec. destruct (allocate_vector s) as [[v' s1]| | |]; try done.
  2: { by rewrite Hspec in Hfree. }
  destruct Hspec as (Hv' & _ & _ & _ & _ & Hhs). ored. unfold load_idt_handler. rewrite Hhs.
  destruct (zlookup_is_Some (idt_handlers s) v') as [h ->]; [rewrite (ok_handlers _ Hok); lia|]. ored.
  destruct (route_returns _ (reg_base q) gsi v' (Z.land flags 3 =? 3) (Z.land flags 12 =? 12) m Hel) as [m' ->]. ored. by eexists _, _.
Qed.

(** Registering a request line gives it the lowest free vector, connects
    that vector to the handler and no other vector to anything else, and
    programs the first I/O APIC that serves the line's global number with the
    vector and the line's polarity and trigger mode. *)
Theorem register_irq_connects q s m irq handler gsi flags l1 a l2 v :
  idt_ok s -> zlookup (irq_to_gsi q) irq = Some gsi -> zlookup (irq_flags q) irq = Some flags ->
  elements (ioapics q) = Some <$> l1 ++ a :: l2 ->
  Forall (fun b => serves gsi b = false) l1 -> serves gsi a = true ->
  32 <= v < 256 -> bit (idt_bitmap s) v = false -> (forall j, 32 <= j < v -> bit (idt_bitmap s) j = true) ->
  handler <> 0 ->
  exists s', register_irq irq handler q s m =
      (let '(id, m) := LAPIC_read_id (reg_base q) m in
       Ret (s', set_redir_entry a gsi v 0 false (Z.land flags 3 =? 3) (Z.land flags 0xC =? 0xC) false (u8 id) m)) /\
    idt_ok s' /\ idt_handler_common v s' = Ret handler /\
    (forall w, 0 <= w -> w <> v -> zlookup (idt_handlers s') w = zlookup (idt_handlers s) w) /\
    (forall j, 0 <= j -> bit (idt_bitmap s') j = (j =? v) || bit (idt_bitmap s) j).
Proof. apply register_irq_spec. Qed.

End requests.

Section devices.
Context {M : Type} `{BaseRegisters M}.

Lemma IOAPIC_write_base r a reg val m : is_base r = true -> base_value r (IOAPIC_write_reg a reg val m) = base_value r m.
Proof. intros Hr. unfold IOAPIC_write_reg. by rewrite !base_value_mmio. Qed.

Lemma route_base r l rb gsi vector al lt : forall m m',
  is_base r = true -> route l rb gsi vector al lt m = Ret m' -> base_value r m' = base_value r m.
Proof.
  induction l as [|a l IH]; intros m m' Hr; cbn [route]; [by intros [= <-]|]. intros (b & _ & E)%bind_Ret.
  destruct (serves gsi b); [|by apply (IH _ _ Hr)]. unfold LAPIC_read_id, LAPIC_read_reg, set_redir_entry in E.
  pose proof (base_value_mmio_read r 4 (u64 (rb + LAPIC_ID)) m Hr) as Hb. destruct (mmio_read _ _ m) as [id m1].
  injection E as <-. by rewrite !IOAPIC_write_base.
Qed.

Lemma register_irq_base r irq handler q s m s' m' :
  is_base r = true -> register_irq irq handler q s m = Ret (s', m') -> base_value r m' = base_value r m.
Proof.
  unfold register_irq, register_gsi. intros Hr (gsi & _ & (flags & _ & ([v s1] & _ & (s2 & _ & (m1 & E & [= _ <-])%bind_Ret)%bind_Ret)%bind_Ret)%bind_Ret)%bind_Ret.
  by apply (route_base r _ _ _ _ _ _ _ _ Hr E).
Qed.
End devices.

(** ** A concrete boot: empty tables, one I/O APIC for the lines 0 to 23 *)
Definition idt0 : idt_state :=
  mkIdt (replicate 256 (mkIDTEntry 0 0 0 0 0 0)) (replicate 256 0) (mkBitmap 0 (replicate 32 0) 0).
Definition wrappers0 : list Z := (fun i => 0xFFFFFFFF80000000 + 16 * i) <$> seqZ 0 256.
Definition loaded0 : idt_state :=
  match load_idt wrappers0 0 0x1000 0x2000 idt0 with Ret (s, _) => s | _ => idt0 end.
Definition ioapic0 : IOAPIC := mkIOAPIC 0 0 24 0xFFFF8000FEC00000 0xFFFF8000FEC00010.
Definition irq0 : irq_state :=
  mkIrq (mkVector [Some ioapic0] 1 1) (Vector.new 0) (seqZ 0 16) (replicate 16 0) 0xFFFF8000FEE00000.

Lemma idt0_ok : idt_ok idt0.
Proof. split; (reflexivity || (vm_compute; intros ?; discriminate)). Qed.

Lemma wrappers0_ok : Forall (fun w => 0 <= w < 2 ^ 64) wrappers0.
Proof.
  apply Forall_fmap, Forall_forall. intros i Hi%elem_of_seqZ. cbn beta. unfold compose. lia.
Qed.

Lemma load_idt_installs_witness :
  exists s', load_idt wrappers0 0 0x1000 0x2000 idt0 = Ret (s', 4095) /\ idt_ok s' /\
    zlookup (idt_handlers s') 14 = Some 0x2000 /\ bit (idt_bitmap s') 31 = true.
Proof.
  destruct (load_idt_installs wrappers0 0 0x1000 0x2000 idt0 idt0_ok eq_refl wrappers0_ok) as (s' & H1 & H2 & _ & H4 & H5).
  exists s'. split; [exact H1|]. split; [exact H2|]. split.
  - rewrite (H4 14 ltac:(lia)). reflexivity.
  - rewrite (H5 31 ltac:(lia)). reflexivity.
Defined.

Lemma loaded0_ok : idt_ok loaded0.
Proof. split; (vm_compute; (reflexivity || (intros ?; discriminate))). Qed.

Lemma register_irq_connects_witness :
  exists s', register_irq 1 0x5000 irq0 loaded0 board0 =
      Ret (s', set_redir_entry ioapic0 1 32 0 false false false false 0 board0) /\
    idt_ok s' /\ idt_handler_common 32 s' = Ret 0x5000.
Proof.
  destruct (register_irq_connects irq0 loaded0 board0 1 0x5000 1 0 [] ioapic0 [] 32 loaded0_ok eq_refl eq_refl eq_refl)
    as (s' & H1 & H2 & H3 & _).
  - constructor.
  - reflexivity.
  - lia.
  - vm_compute. reflexivity.
  - lia.
  - lia.
  - exists s'. split; [exact H1|]. split; [exact H2|exact H3].
Defined.

(** What that writes: the low word names the vector, the high word the target. *)
Example keyboard_line :
  match register_irq 1 0x5000 irq0 loaded0 board0 with Ret (_, m) => trace m | _ => [] end
  = [Mmio 4 (ioregwin ioapic0) 0; Mmio 4 (ioregsel ioapic0) 0x13;
     Mmio 4 (ioregwin ioapic0) 32; Mmio 4 (ioregsel ioapic0) 0x12].
Proof. vm_compute. reflexivity. Qed.

(** The redirection entry is picked by the global number, not by the number of
    the pin of that I/O APIC: a second I/O APIC gets the wrong entry programmed. *)
Example second_ioapic_gets_a_wrong_entry :
  let second := mkIOAPIC 1 24 24 0x9000 0x9010 in
  match register_gsi 25 false false 0x5000
          (mkIrq (mkVector [Some ioapic0; Some second] 2 2) (Vector.new 0) (seqZ 0 16) (replicate 16 0) 0xFEE00000) loaded0 board0 with
  | Ret (_, m) => trace m
  | _ => []
  end = [Mmio 4 0x9010 0; Mmio 4 0x9000 (2 * 25 + 0x11); Mmio 4 0x9010 32; Mmio 4 0x9000 (2 * 25 + 0x10)].
Proof. vm_compute. reflexivity. Qed.

(** The ID register holds the identifier in its high byte; the low byte is what
    the redirection entry is given as its destination. *)
Example destination_is_always_zero :
  let m := mkBoard {[0xFFFF8000FEE00020 := Z.shiftl 3 24]} ∅ ∅ [] in
  match register_irq 1 0x5000 irq0 loaded0 m with Ret (_, m) => take 1 (trace m) | _ => [] end
  = [Mmio 4 (ioregwin ioapic0) 0].
Proof. vm_compute. reflexivity. Qed.

(** A source override beyond the sixteen lines writes past the arrays. *)
Example override_past_the_lines : override_irq_source 16 20 0 irq0 = Fault.
Proof. reflexivity. Qed.
