(* ===== verification/Cpu.v ===== *)
(** * cpu/cpu.cpp: bringing up the processors

    [locals] are the [Local] objects by address; [new_local] is the address
    [new] gives, the TSS is the member at offset 9 of the packed object.  The
    GDT and the IDT are the kernel's only ones, shared by all processors; each
    processor has its own registers [M].  A processor that is not the first
    ends [init] halted for ever. *)
From S2P Require Import Prelude Bitmap Pmm Machine Interrupts.

Definition stack_size : Z := 0x10000.

Record Local := mkLocal {
  cpu_number : Z; is_bsp : bool; rsp0 : Z; ist1 : Z; local_lapic_id : Z; lapic_timer_freq : Z }.

Record smp_info := mkSmpInfo { smp_lapic_id : Z; extra_argument : Z; goto_init : bool }.

Record cpus := mkCpus { cpu_frames : pmm; locals : gmap Z Local; gdt : list GDTEntry; tables : idt_state }.

(** What a processor has loaded at the end of [init]. *)
Record processor (M : Type) := mkProcessor {
  gdt_limit : Z; idt_limit : Z; loaded_cr3 : Z; task_register : Z; msr_state : M; halted : bool }.
Arguments mkProcessor {M}.

Definition tss_of (local : Z) : Z := local + 9.

Section Cpu.
Context {M : Type} `{Machine M}.
Context (hhdm kernel_cr3 syscall_entry : Z) (wrappers : list Z) (raw_bitmap exception_handler page_fault_handler : Z).

Definition alloc_stack_top (s : pmm) : outcome (Z * pmm) :=
  '(phy, s) ← alloc_pages (stack_size / 0x1000) s; Ret (u64 (phy + stack_size + hhdm), s).

Definition init (info : smp_info) (m : M) (s : cpus) : outcome (processor M * cpus) :=
  '(t, idt_limit) ← load_idt wrappers raw_bitmap exception_handler page_fault_handler (tables s);
  l ← of_option (locals s !! extra_argument info);
  let g := load_tss (tss_of (extra_argument info)) (gdt s) in
  '(sp0, f) ← alloc_stack_top (cpu_frames s);
  '(sp1, f) ← alloc_stack_top f;
  let l := mkLocal (cpu_number l) (is_bsp l) sp0 sp1 (smp_lapic_id info) (lapic_timer_freq l) in
  Ret (mkProcessor (reload_gdt (gdt s)) idt_limit kernel_cr3 (tss_of (extra_argument info)) (init_msrs syscall_entry m)
         (negb (is_bsp l)),
       mkCpus f (<[extra_argument info := l]> (locals s)) g t).

Section smp.
Context (new_local : cpus -> Z).

(** The loop of [smp_init] from processor [i] on: the first processor, known by
    its LAPIC's number, is initialised at once, the others are told to. *)
Fixpoint smp_loop (i bsp : Z) (infos : list smp_info) (m : M) (s : cpus) :
    outcome (list smp_info * list (processor M) * M * cpus) :=
  match infos with
  | [] => Ret ([], [], m, s)
  | info :: infos =>
      let first := smp_lapic_id info =? bsp in
      let p := new_local s in
      let info := mkSmpInfo (smp_lapic_id info) p (goto_init info || negb first) in
      let s := mkCpus (cpu_frames s) (<[p := mkLocal i first 0 0 0 0]> (locals s)) (gdt s) (tables s) in
      '(ps, m, s) ← (if first then '(q, s) ← init info m s; Ret ([q], msr_state _ q, s) else Ret ([], m, s));
      '(infos, qs, m, s) ← smp_loop (i + 1) bsp infos m s;
      Ret (info :: infos, ps ++ qs, m, s)
  end.
Definition smp_init (bsp : Z) (infos : list smp_info) (m : M) (s : cpus) := smp_loop 0 bsp infos m s.
End smp.

(** Processors that go through [init], in the order in which they do. *)
Fixpoint init_all (order : list (smp_info * M)) (s : cpus) : outcome (list (processor M) * cpus) :=
  match order with
  | [] => Ret ([], s)
  | (info, m) :: order => '(p, s) ← init info m s; '(ps, s) ← init_all order s; Ret (p :: ps, s)
  end.

(** ** Stacks *)

(** Sixteen pages each, from the pages [ps] on, none shared and none free. *)
Record stacks_ok (f : pmm) (ps : list Z) : Prop := {
  sk_apart : ForallOrdPairs (fun p q => p + 16 <= q \/ q + 16 <= p) ps;
  sk_taken : Forall (fun p => 0 < p /\ p + 16 <= m_size (page_bitmap f) /\ forall j, p <= j < p + 16 -> bit (page_bitmap f) j = true) ps }.

Definition frames_ok (f : pmm) : Prop := wf f /\ bit (page_bitmap f) 0 = true.

Definition top (p : Z) : Z := u64 (p * 0x1000 + stack_size + hhdm).

Lemma alloc_stack_spec f ps :
  frames_ok f -> stacks_ok f ps ->
  match alloc_stack_top f with
  | Ret (t, f') => exists p, t = top p /\ frames_ok f' /\ stacks_ok f' (p :: ps)
  | Panic => True
  | _ => False
  end.
Proof.
  intros [Hwf H0] [Ha Ht]. unfold alloc_stack_top. change (stack_size / 0x1000) with 16.
  pose proof (alloc_pages_result f 16 Hwf ltac:(lia) H0) as Hr. inversion Hr as [p f' Hp Hps Htook Hwf' Ef|]; ored; [|done].
  destruct Htook as (Hrun & (_ & Hs & _ & Hbits) & _).
  assert (forall j, 0 <= j -> bit (page_bitmap f) j = true -> bit (page_bitmap f') j = true) as Hkeep.
  { intros j Hj Hb. rewrite Hbits by done. by destruct (span p 16 j). }
  exists p. split; [done|]. split; [split; [done|by apply Hkeep]|]. split.
  - constructor; [|done]. eapply Forall_impl; [exact Ht|]. intros q (Hq & _ & Hqb).
    destruct (Z.le_gt_cases (p + 16) q); [by left|]. destruct (Z.le_gt_cases (q + 16) p); [by right|].
    exfalso. assert (bit (page_bitmap f) (Z.max p q) = true) as E1 by (apply Hqb; lia).
    rewrite Hrun in E1 by lia. done.
  - rewrite Hs. constructor.
    + split; [done|]. split; [done|]. intros j Hj. rewrite Hbits by lia. unfold span.
      by rewrite (proj2 (Z.leb_le _ _)), (proj2 (Z.ltb_lt _ _)) by lia.
    + eapply Forall_impl; [exact Ht|]. intros q (Hq & Hqs & Hqb). split; [done|]. split; [done|].
      intros j Hj. apply Hkeep; [lia|by apply Hqb].
Qed.

(** The tops of the stacks of the processors at [addrs], the latest first. *)
Definition tops (s : cpus) (addrs : list Z) : list Z :=
  concat ((fun a => match locals s !! a with Some l => [ist1 l; rsp0 l] | None => [] end) <$> addrs).

Definition placed (s : cpus) (addrs : list Z) : Prop :=
  frames_ok (cpu_frames s) /\ idt_ok (tables s) /\ exists ps, stacks_ok (cpu_frames s) ps /\ tops s addrs = top <$> ps.

Hypothesis wrappers_ok : length wrappers = 256%nat /\ Forall (fun w => 0 <= w < 2 ^ 64) wrappers.

Lemma tops_other s s' addrs a l :
  a ∉ addrs -> locals s' = <[a := l]> (locals s) -> tops s' addrs = tops s addrs.
Proof.
  intros Ha E. unfold tops. f_equal. apply list_fmap_ext. intros i x Hx. rewrite E, lookup_insert_ne; [done|].
  intros ->. apply Ha. by eapply list_elem_of_lookup_2.
Qed.

Lemma cpu_init_spec info m s addrs :
  placed s addrs -> extra_argument info ∉ addrs -> is_Some (locals s !! extra_argument info) ->
  match init info m s with
  | Ret (p, s') =>
      placed s' (extra_argument info :: addrs) /\ dom (locals s') = dom (locals s) /\
      task_register _ p = tss_of (extra_argument info) /\ gdt s' = load_tss (tss_of (extra_argument info)) (gdt s)
  | Panic => True
  | _ => False
  end.
Proof.
  intros (Hf & Hidt & ps & Hps & Htops) Ha [l Hl]. unfold init.
  destruct (load_idt_installs wrappers raw_bitmap exception_handler page_fault_handler (tables s) Hidt) as (t & -> & Hidt' & _);
    [apply wrappers_ok..|]. ored. rewrite Hl. ored.
  pose proof (alloc_stack_spec (cpu_frames s) ps Hf Hps) as H1.
  destruct (alloc_stack_top (cpu_frames s)) as [[t1 f1]| | |]; ored; [|done..]. destruct H1 as (p1 & -> & Hf1 & Hps1).
  pose proof (alloc_stack_spec f1 (p1 :: ps) Hf1 Hps1) as H2.
  destruct (alloc_stack_top f1) as [[t2 f2]| | |]; ored; [|done..]. destruct H2 as (p2 & -> & Hf2 & Hps2).
  split; [|split; [|done]].
  - split; [done|]. split; [done|]. exists (p2 :: p1 :: ps). split; [done|].
    unfold tops. cbn [fmap list_fmap concat locals]. rewrite lookup_insert_eq. cbn [ist1 rsp0 app]. f_equal. f_equal.
    rewrite <- Htops. by eapply (tops_other s (mkCpus f2 _ (gdt s) t)).
  - cbn [locals]. rewrite dom_insert_L. apply elem_of_dom_2 in Hl. set_solver.
Qed.

Lemma init_all_spec order : forall addrs s,
  placed s addrs -> NoDup (reverse addrs ++ (extra_argument ∘ fst <$> order)) ->
  (forall info m, (info, m) ∈ order -> is_Some (locals s !! extra_argument info)) ->
  match init_all order s with
  | Ret (ps, s') =>
      task_register _ <$> ps = tss_of ∘ extra_argument ∘ fst <$> order /\
      placed s' (reverse (extra_argument ∘ fst <$> order) ++ addrs)
  | Panic => True
  | _ => False
  end.
Proof.
  induction order as [|[info m] order IH]; intros addrs s Hs Hnd Hloc; cbn [init_all]; [by split|].
  cbn [fmap list_fmap] in *. change ((extra_argument ∘ fst) (info, m)) with (extra_argument info) in *.
  assert (extra_argument info ∉ addrs) as Ha.
  { apply NoDup_app in Hnd as (_ & Hd & _). intros Hin. apply (Hd (extra_argument info)); [by apply elem_of_reverse|left]. }
  pose proof (cpu_init_spec info m s addrs Hs Ha (Hloc info m ltac:(left))) as Hi.
  destruct (init info m s) as [[p s1]| | |]; ored; [|done..]. destruct Hi as (Hs1 & Hdom & Htr & _).
  assert (forall i x, (i, x) ∈ order -> is_Some (locals s1 !! extra_argument i)) as Hloc1.
  { intros i x Hx. apply elem_of_dom. rewrite Hdom. apply elem_of_dom. apply (Hloc i x). by right. }
  specialize (IH (extra_argument info :: addrs) s1 Hs1). rewrite reverse_cons, <- app_assoc in IH. specialize (IH Hnd Hloc1).
  destruct (init_all order s1) as [[ps s']| | |]; ored; [|done..]. destruct IH as [IH1 IH2].
  rewrite reverse_cons, <- app_assoc. cbn. by rewrite Htr, IH1.
Qed.

(** C39. However many processors come up and in whatever order they go through
    [init], each has two stacks of 64 KiB of its own, one for interrupts from
    user mode and one for the scheduler: no two of all these stacks overlap,
    and their pages are taken in the physical allocator.  The only other
    outcome is the allocator's panic when memory runs out. *)
Theorem processors_have_their_own_stacks order s :
  frames_ok (cpu_frames s) -> idt_ok (tables s) -> NoDup (extra_argument ∘ fst <$> order) ->
  (forall info m, (info, m) ∈ order -> is_Some (locals s !! extra_argument info)) ->
  match init_all order s with
  | Ret (ps, s') =>
      task_register _ <$> ps = tss_of ∘ extra_argument ∘ fst <$> order /\
      exists pages, tops s' (reverse (extra_argument ∘ fst <$> order)) = top <$> pages /\ stacks_ok (cpu_frames s') pages
  | Panic => True
  | _ => False
  end.
Proof.
  intros Hf Hidt Hnd Hloc. pose proof (init_all_spec order [] s) as Hres.
  assert (placed s []) as Hs by (split; [done|]; split; [done|]; exists []; by repeat constructor).
  specialize (Hres Hs Hnd Hloc). destruct (init_all order s) as [[ps s']| | |]; [|done..].
  destruct Hres as [H1 (_ & _ & pages & Hp & Ht)]. rewrite app_nil_r in Ht. split; [done|]. by exists pages.
Qed.
End Cpu.

(** ** Two processors, the second being the first to have come up *)
Definition pages128 : pmm := mkPmm (mkBitmap 0 (1 :: replicate 15 0) 128) 0 0x80000 0x7F000 0.
Definition fresh_local (s : cpus) : Z := 0x900000 + 0x1000 * Z.of_nat (base.size (locals s)).
Definition cpus0 : cpus := mkCpus pages128 ∅ (load_gdt (replicate 7 null_entry)) idt0.
Definition smp0 : list smp_info := [mkSmpInfo 3 0 false; mkSmpInfo 5 0 false].
Definition stubs : list Z := replicate 256 0xFFFFFFFF80001000.

Example smp_init_starts_the_others :
  match smp_init 0xFFFF800000000000 0x1000 0xFFFFFFFF80002000 stubs 0 1 2 fresh_local 5 smp0 board0 cpus0 with
  | Ret (infos, ps, _, s) =>
      (List.map goto_init infos, List.map extra_argument infos, List.map (halted _) ps, List.map (task_register _) ps,
       locals s !! 0x901000)
  | _ => ([], [], [], [], None)
  end
  = ([true; false], [0x900000; 0x901000], [false], [0x901009],
     Some (mkLocal 1 true 0xFFFF800000011000 0xFFFF800000021000 5 0)).
Proof. vm_compute. reflexivity. Qed.

Definition both_locals : cpus :=
  mkCpus pages128 {[0x900000 := mkLocal 0 false 0 0 0 0; 0x901000 := mkLocal 1 true 0 0 0 0]} (gdt cpus0) idt0.
Definition both : list (smp_info * board) :=
  [(mkSmpInfo 5 0x901000 false, board0); (mkSmpInfo 3 0x900000 true, board0)].

Lemma processors_have_their_own_stacks_witness :
  match init_all 0xFFFF800000000000 0x1000 0xFFFFFFFF80002000 stubs 0 1 2 both both_locals with
  | Ret (ps, s') => task_register _ <$> ps = [0x901009; 0x900009] /\ exists pages, stacks_ok (cpu_frames s') pages
  | _ => False
  end.
Proof.
  assert (length stubs = 256%nat /\ Forall (fun w => 0 <= w < 2 ^ 64) stubs) as Hw
    by (split; [reflexivity|apply Forall_replicate; lia]).
  pose proof (processors_have_their_own_stacks (M := board) 0xFFFF800000000000 0x1000 0xFFFFFFFF80002000 stubs 0 1 2
    Hw both both_locals) as Hp.
  destruct (init_all 0xFFFF800000000000 0x1000 0xFFFFFFFF80002000 stubs 0 1 2 both both_locals) as [[ps s']| | |] eqn:E;
    [|vm_compute in E; discriminate E..].
  destruct Hp as [H1 (pages & _ & H2)].
  - split; [unfold wf; split_and!; vm_compute; try reflexivity; intros ?; discriminate|reflexivity].
  - exact idt0_ok.
  - apply (bool_decide_eq_true_1 _). vm_compute. reflexivity.
  - intros info m Hin. apply elem_of_cons in Hin as [Hin|Hin]; [|apply list_elem_of_singleton in Hin]; injection Hin as -> _;
      apply is_Some_alt; vm_compute; exact I.
  - split; [exact H1|]. exists pages. exact H2.
Defined.

(** The descriptor of the TSS is one for all processors: a processor whose
    [ltr] comes after another's stores takes the other's TSS, and its stacks. *)
Example task_registers_race :
  let g := load_tss (tss_of 0x901000) (load_tss (tss_of 0x900000) (gdt cpus0)) in
  match zlookup g 5, zlookup g 6 with
  | Some low, Some high => descriptor_base low high
  | _, _ => 0
  end = tss_of 0x901000.
Proof. vm_compute. reflexivity. Qed.
