(* ===== verification/Elf.v ===== *)
(** * userland/elf.cpp: the loader of programs

    A page of the memory of file Paging is 512 words; what the loader stores in
    it is bytes, so that a page is taken apart and put together again.  [wild]
    is what a byte of the file nobody wrote holds.  Log lines are left out. *)
From S2P Require Import Prelude Algorithm Bitmap Pmm CString HashMap Vector Keyboard Printf List Vfs Descriptors Tmpfs Mkfs Paging.

Definition PT_LOAD : Z := 1.
Definition PF_X : Z := Z.shiftl 1 0.
Definition PF_W : Z := Z.shiftl 1 1.

(** ** Bytes *)
Definition page_bytes (ws : list Z) : list Z := concat (bytes_of 8 <$> ws).
Fixpoint page_words (n : nat) (bs : list Z) : list Z :=
  match n with O => [] | S n => number (take 8 bs) :: page_words n (drop 8 bs) end.

Record Header := mkHeader {
  identifier : list Z;
  eh_type : Z;
  arch : Z;
  version : Z;
  entry_addr : Z;
  ph_table_offset : Z;
  sh_table_offset : Z;
  eh_flags : Z;
  eh_size : Z;
  ph_entry_size : Z;
  ph_count : Z;
  sh_entry_size : Z;
  sh_count : Z;
  sh_str_table_index : Z
}.

Record ProgramHeader := mkProgramHeader {
  ph_type : Z;
  ph_flags : Z;
  offset : Z;
  virt_addr : Z;
  phy_addr : Z;
  file_size : Z;
  mem_size : Z;
  ph_alignment : Z
}.

Definition header_of (bs : list Z) : Header :=
  mkHeader (take 16 bs) (field 16 2 bs) (field 18 2 bs) (field 20 4 bs) (field 24 8 bs) (field 32 8 bs)
    (field 40 8 bs) (field 48 4 bs) (field 52 2 bs) (field 54 2 bs) (field 56 2 bs) (field 58 2 bs)
    (field 60 2 bs) (field 62 2 bs).
Definition program_header_of (bs : list Z) : ProgramHeader :=
  mkProgramHeader (field 0 4 bs) (field 4 4 bs) (field 8 8 bs) (field 16 8 bs) (field 24 8 bs)
    (field 32 8 bs) (field 40 8 bs) (field 48 8 bs).

(** The number of the page of [x] and the place in it, by their equation. *)
Ltac page_of x := pose proof (Z.div_mod x 0x1000 ltac:(lia)); pose proof (Z.mod_pos_bound x 0x1000 ltac:(lia)).

Section Elf.
Context {A : Type} `{PageAllocator A}.
Context (hhdm : Z).
Context {D : Type} (F : FileSystem D) (wild : Z -> Z).

(** The bytes a read at offset [o] of the file stored. *)
Definition stored (o : Z) (bytes : list (option Z)) : list Z :=
  imap (fun k b => default (wild (o + Z.of_nat k)) b) bytes.

(** [T x {}; read(..., &x, sizeof(T), o)] *)
Definition read_struct (file size o : Z) (st : Vfs.vfs D) : outcome (list Z) :=
  '(_, bytes) ← Vfs.read F file size o st;
  let bs := stored o bytes in
  Ret (bs ++ replicate (Z.to_nat size - length bs) 0).

(** Storing bytes at offset [o] of the page at [dst]; no read the loader makes
    goes past the page. *)
Definition store_bytes (dst o : Z) (bs : list Z) (s : vm A) : outcome (vm A) :=
  ws ← of_option (mem s !! dst);
  let old := page_bytes ws in
  if (0 <=? o) && (o + Z.of_nat (length bs) <=? 0x1000) then
    Ret (set_mem (<[dst := page_words 512 (take (Z.to_nat o) old ++ bs ++ drop (Z.to_nat o + length bs) old)]> (mem s)) s)
  else Fault.

Definition segment_flags (flags : Z) : Z :=
  let f := Z.lor PAGE_PRESENT PAGE_USER in
  let f := if negb (Z.land flags PF_W =? 0) then Z.lor f PAGE_WRITABLE else f in
  if Z.land flags PF_X =? 0 then Z.lor f PAGE_NO_EXECUTE else f.

Definition misalign (ph : ProgramHeader) : Z := Z.land (virt_addr ph) 0xFFF.
Definition page_count (ph : ProgramHeader) (size : Z) : Z := u64 (size + misalign ph + 0x1000 - 1) / 0x1000.

(** Where in the page the file's part goes, where it is in the file, and its size. *)
Definition file_part (ph : ProgramHeader) (i : Z) : Z * Z * Z :=
  let o := u64 (offset ph + i * 0x1000) in
  if i =? 0 then (misalign ph, u64 (o + misalign ph), 0x1000 - misalign ph)
  else if i =? u64 (page_count ph (file_size ph) - 1) then (0, o, u64 (file_size ph + misalign ph) mod 0x1000)
  else (0, o, 0x1000).

(** The body of the loop over the pages of a segment. *)
Definition load_page (pm : Pagemap) (file : Z) (st : Vfs.vfs D) (ph : ProgramHeader) (i : Z)
    (x : vm A * Z) : outcome (vm A * Z) :=
  let '(s, first_free_virt) := x in
  '(page_phy, a) ← alloc_page (frames s);
  let page_virt := u64 (virt_addr ph + i * 0x1000) in
  s ← map_page hhdm pm page_phy page_virt (segment_flags (ph_flags ph)) (set_frames a s);
  let dst := u64 (page_phy + hhdm) in
  let s := set_mem (<[dst := zero_page]> (mem s)) s in
  s ← (if i <? page_count ph (file_size ph) then
         let '(in_page, o, size) := file_part ph i in
         '(_, bytes) ← Vfs.read F file size o st;
         store_bytes dst in_page (stored o bytes) s
       else Ret s);
  Ret (s, if first_free_virt <=? page_virt then u64 (page_virt + 0x1000) else first_free_virt).

Definition load_segment (pm : Pagemap) (file : Z) (st : Vfs.vfs D) (ph : ProgramHeader)
    (x : vm A * Z) : outcome (vm A * Z) :=
  for_range (Z.to_nat (page_count ph (mem_size ph))) 0 (load_page pm file st ph) x.

(** The body of the loop over the program headers. *)
Definition load_program_header (pm : Pagemap) (file : Z) (st : Vfs.vfs D) (header : Header) (i : Z)
    (x : vm A * Z) : outcome (vm A * Z) :=
  bs ← read_struct file 56 (u64 (ph_table_offset header + i * ph_entry_size header)) st;
  let ph := program_header_of bs in
  if ph_type ph =? PT_LOAD then load_segment pm file st ph x else Ret x.

Definition supported (h : Header) : bool :=
  bool_decide (zlookup (identifier h) 4 = Some 2) && bool_decide (zlookup (identifier h) 5 = Some 1)
  && bool_decide (zlookup (identifier h) 7 = Some 0) && (arch h =? 62).

(** The entry point, the first free address, and the memory. *)
Definition load (pm : Pagemap) (file : Z) (st : Vfs.vfs D) (s : vm A) : outcome (Z * Z * vm A) :=
  bs ← read_struct file 64 0 st;
  let header := header_of bs in
  if negb (memcmp (identifier header) (127 :: lit "ELF") 4 =? 0) then Panic
  else if negb (supported header) then Panic
  else
    '(s, first_free_virt) ← for_range (Z.to_nat (ph_count header)) 0
        (load_program_header pm file st header) (s, 0);
    Ret (entry_addr header, align_up 0x1000 first_free_virt, s).

(** ** Lemmas on bytes *)
Lemma page_bytes_words n bs : length bs = (8 * n)%nat -> Forall byte bs -> page_bytes (page_words n bs) = bs.
Proof.
  revert bs. induction n as [|n IH]; intros bs Hl Hb; [by destruct bs|]. unfold page_bytes. cbn [page_words].
  rewrite fmap_cons. cbn [concat]. rewrite <- (take_drop 8 bs) in Hb. apply Forall_app in Hb as [H1 H2].
  assert (length (take 8 bs) = 8%nat) as L by (rewrite length_take; lia).
  rewrite <- L at 1. rewrite bytes_of_number by done. fold (page_bytes (page_words n (drop 8 bs))).
  rewrite IH by (done || rewrite length_drop; lia). apply take_drop.
Qed.

Lemma page_bytes_zero : page_bytes zero_page = replicate (Z.to_nat 0x1000) 0.
Proof. vm_compute. reflexivity. Qed.

Lemma length_page_words n bs : length (page_words n bs) = n.
Proof. revert bs. induction n as [|n IH]; intros bs; [done|]. cbn. by rewrite IH. Qed.

Lemma length_stored o bytes : length (stored o bytes) = length bytes.
Proof. apply length_imap. Qed.

(** Storing in a cleared page. *)
Lemma store_bytes_spec dst o bs s :
  mem s !! dst = Some zero_page -> Forall byte bs -> 0 <= o -> o + Z.of_nat (length bs) <= 0x1000 ->
  exists ws, store_bytes dst o bs s = Ret (set_mem (<[dst := ws]> (mem s)) s) /\ length ws = 512%nat /\
    page_bytes ws = replicate (Z.to_nat o) 0 ++ bs ++ replicate (Z.to_nat (0x1000 - o - Z.of_nat (length bs))) 0.
Proof.
  intros Hm Hb Ho Hl. unfold store_bytes. rewrite Hm. ored.
  rewrite !(proj2 (Z.leb_le _ _)) by lia. cbn [andb]. eexists. split; [done|]. split; [apply length_page_words|].
  rewrite page_bytes_zero, take_replicate, drop_replicate.
  replace (Z.to_nat o `min` Z.to_nat 4096)%nat with (Z.to_nat o) by lia.
  replace (Z.to_nat 4096 - (Z.to_nat o + length bs))%nat with (Z.to_nat (4096 - o - Z.of_nat (length bs))) by lia.
  apply page_bytes_words; [rewrite !length_app, !length_replicate; lia|].
  apply Forall_app. split; [by apply Forall_replicate|]. apply Forall_app. split; [done|by apply Forall_replicate].
Qed.

(** ** Segments *)
Context `{!FileContents F} (hhdm_range : 0 <= hhdm <= 2 ^ 64 - 2 ^ 46).

(** A byte of the file as a read finds it in a cleared place. *)
Definition file_byte (c : list (option Z)) (o : Z) : Z :=
  match zlookup c o with Some b => default (wild o) b | None => 0 end.

(** Whether the loader reads the byte that is [x] bytes behind the start of the
    segment's first page: all of the first page from the segment's address on,
    all of the next ones, and of the last one what the remainder says. *)
Definition in_file_part (ph : ProgramHeader) (x : Z) : bool :=
  let i := x / 0x1000 in
  let n := page_count ph (file_size ph) in
  (misalign ph <=? x) && (i <? n)
  && ((i =? 0) || negb (i =? n - 1) || (x mod 0x1000 <? u64 (file_size ph + misalign ph) mod 0x1000)).
Definition page_image (c : list (option Z)) (ph : ProgramHeader) (x : Z) : Z :=
  if in_file_part ph x then file_byte c (offset ph + x) else 0.

(** Byte [j] of the segment in memory as the loader leaves it, and as the file
    format has it. *)
Definition image (c : list (option Z)) (ph : ProgramHeader) (j : Z) : Z := page_image c ph (misalign ph + j).
Definition elf_image (c : list (option Z)) (ph : ProgramHeader) (j : Z) : Z :=
  if j <? file_size ph then file_byte c (offset ph + j) else 0.

(** A segment whose addresses and offsets do not wrap around. *)
Record loadable (ph : ProgramHeader) : Prop := {
  lo_virt : 0 <= virt_addr ph /\ 0 <= mem_size ph /\ virt_addr ph + mem_size ph + 0x2000 <= 2 ^ 48;
  lo_file : 0 <= offset ph /\ offset ph + mem_size ph + 0x2000 < 2 ^ 64;
  lo_size : 0 <= file_size ph < 2 ^ 63
}.

(** A segment the loader is right for, in a file with contents [c]: it starts on
    a page boundary, its part of the file does not end on one unless it is one
    page, and one of less than a page ends the file. *)
Record well_placed (c : list (option Z)) (ph : ProgramHeader) : Prop := {
  wp_aligned : virt_addr ph mod 0x1000 = 0;
  wp_sizes : file_size ph <= mem_size ph;
  wp_file : offset ph + file_size ph <= Z.of_nat (length c);
  wp_short : 0 < file_size ph < 0x1000 -> offset ph + file_size ph = Z.of_nat (length c);
  wp_last : 0x1000 < file_size ph -> file_size ph mod 0x1000 <> 0
}.

Lemma misalign_range ph : 0 <= virt_addr ph -> misalign ph = virt_addr ph mod 0x1000 /\ 0 <= misalign ph < 0x1000.
Proof.
  intros Hv. unfold misalign. change 0xFFF with (Z.ones 12). rewrite Z.land_ones by lia. change (2 ^ 12) with 0x1000.
  split; [done|]. by apply Z.mod_pos_bound.
Qed.

Lemma page_count_spec ph size :
  0 <= virt_addr ph -> 0 <= size < 2 ^ 64 - 0x2000 -> page_count ph size = (size + misalign ph + 0xFFF) / 0x1000.
Proof.
  intros Hv Hs. destruct (misalign_range ph Hv) as [_ Hm]. unfold page_count. rewrite wrap_small by lia. f_equal. lia.
Qed.

(** The loader is right for the segments of [well_placed]. *)
Lemma image_elf c ph j : loadable ph -> well_placed c ph -> 0 <= j < mem_size ph -> image c ph j = elf_image c ph j.
Proof.
  intros [Hv Hf Hs] [Hal Hle Hfile Hshort Hlast] Hj. destruct (misalign_range ph ltac:(lia)) as [Em _]. rewrite Hal in Em.
  unfold image, elf_image, page_image, in_file_part. rewrite page_count_spec, Em by lia. rewrite !Z.add_0_r, !Z.add_0_l.
  rewrite (wrap_small 64 (file_size ph)) by lia. page_of j. page_of (file_size ph). page_of (file_size ph + 0xFFF).
  rewrite (proj2 (Z.leb_le 0 j)) by lia. cbn [andb].
  destruct (Z.ltb_spec j (file_size ph)) as [Hin|Hout].
  - rewrite (proj2 (Z.ltb_lt (j / 0x1000) _)) by lia. cbn [andb].
    destruct (Z.eqb_spec (j / 0x1000) 0) as [|Hz]; [done|]. cbn [orb].
    destruct (Z.eqb_spec (j / 0x1000) ((file_size ph + 0xFFF) / 0x1000 - 1)); [|done]. cbn [negb orb].
    rewrite (proj2 (Z.ltb_lt _ _)); [done|]. specialize (Hlast ltac:(lia)). lia.
  - destruct (Z.ltb_spec (j / 0x1000) ((file_size ph + 0xFFF) / 0x1000)); [|done]. cbn [andb].
    destruct (Z.eqb_spec (j / 0x1000) 0) as [Hz|Hz]; cbn [orb].
    + assert (offset ph + file_size ph = Z.of_nat (length c)) as E by (apply Hshort; lia). unfold file_byte.
      by rewrite zlookup_None by lia.
    + rewrite (proj2 (Z.eqb_eq _ _)) by lia. cbn [negb orb]. by rewrite (proj2 (Z.ltb_ge _ _)) by lia.
Qed.

(** What is read for page [i]. *)
Lemma file_part_spec ph i :
  loadable ph -> 0 <= i < page_count ph (file_size ph) -> i < page_count ph (mem_size ph) ->
  exists k0 size, file_part ph i = (k0, offset ph + i * 0x1000 + k0, size) /\
    0 <= k0 /\ 0 <= size /\ k0 + size <= 0x1000 /\ offset ph + i * 0x1000 + 0x1000 < 2 ^ 64 /\
    forall k, 0 <= k < 0x1000 -> in_file_part ph (i * 0x1000 + k) = (k0 <=? k) && (k <? k0 + size).
Proof.
  intros [Hv Hf Hs] Hi Hm. destruct (misalign_range ph ltac:(lia)) as [_ Hmis].
  rewrite (page_count_spec ph (mem_size ph)) in Hm by lia. unfold in_file_part.
  rewrite page_count_spec in * by lia. page_of (mem_size ph + misalign ph + 0xFFF). page_of (file_size ph + misalign ph + 0xFFF).
  set (n := (file_size ph + misalign ph + 0xFFF) / 0x1000) in *. unfold file_part. rewrite page_count_spec by lia. fold n. cbv zeta.
  rewrite (wrap_small 64 (offset ph + i * 0x1000)) by lia. rewrite (wrap_small 64 (n - 1)), (wrap_small 64 (file_size ph + misalign ph)) by lia.
  assert (forall k, 0 <= k < 0x1000 -> (i * 0x1000 + k) / 0x1000 = i /\ (i * 0x1000 + k) mod 0x1000 = k) as Hk.
  { intros k Hk. split; [rewrite Z.div_add_l, (Z.div_small k) by lia; lia|].
    rewrite Z.add_comm, Z.mod_add by lia. by apply Z.mod_small. }
  page_of (file_size ph + misalign ph).
  destruct (Z.eqb_spec i 0) as [->|Hi0]; [|destruct (Z.eqb_spec i (n - 1)) as [Hl|Hl]].
  - eexists _, _. rewrite wrap_small by lia. split; [done|]. do 4 (split; [lia|]). intros k Hr.
    destruct (Hk k Hr) as [-> _]. rewrite (proj2 (Z.ltb_lt 0 n)) by lia. cbn [Z.eqb orb andb].
    rewrite !andb_true_r, Z.mul_0_l, Z.add_0_l. rewrite (proj2 (Z.ltb_lt k _)) by lia. by rewrite andb_true_r.
  - eexists _, _. rewrite Z.add_0_r. split; [done|]. do 4 (split; [lia|]). intros k Hr. destruct (Hk k Hr) as [-> ->].
    rewrite (proj2 (Z.leb_le (misalign ph) _)), (proj2 (Z.ltb_lt i n)) by lia. cbn [andb].
    rewrite (proj2 (Z.eqb_neq i 0)), (proj2 (Z.eqb_eq i (n - 1))), (proj2 (Z.leb_le 0 k)) by lia. done.
  - eexists _, _. rewrite Z.add_0_r. split; [done|]. do 4 (split; [lia|]). intros k Hr. destruct (Hk k Hr) as [-> ->].
    rewrite (proj2 (Z.leb_le (misalign ph) _)), (proj2 (Z.ltb_lt i n)) by lia. cbn [andb].
    rewrite (proj2 (Z.eqb_neq i 0)), (proj2 (Z.eqb_neq i (n - 1))), (proj2 (Z.leb_le 0 k)), (proj2 (Z.ltb_lt k (0 + 0x1000))) by lia. done.
Qed.

(** The cleared page with what was read for it stored at [k0]. *)
Lemma page_filled c ph i k0 size :
  let o := offset ph + i * 0x1000 + k0 in
  let bs := stored o (take (Z.to_nat size) (drop (Z.to_nat o) c)) in
  0 <= k0 -> 0 <= size -> k0 + size <= 0x1000 -> 0 <= o ->
  (forall k, 0 <= k < 0x1000 -> in_file_part ph (i * 0x1000 + k) = (k0 <=? k) && (k <? k0 + size)) ->
  k0 + Z.of_nat (length bs) <= 0x1000 /\
  replicate (Z.to_nat k0) 0 ++ bs ++ replicate (Z.to_nat (0x1000 - k0 - Z.of_nat (length bs))) 0
  = (fun k => page_image c ph (i * 0x1000 + k)) <$> seqZ 0 0x1000.
Proof.
  intros o bs Hk0 Hsize Hfit Ho Hpart.
  assert (length bs = Nat.min (Z.to_nat size) (length c - Z.to_nat o)) as Hlen by (subst bs; by rewrite length_stored, length_take, length_drop).
  split; [lia|]. apply list_eq. intros k. rewrite list_lookup_fmap.
  destruct (Nat.lt_ge_cases k (Z.to_nat 0x1000)) as [Hk|Hk].
  2: { rewrite !lookup_ge_None_2; [done|rewrite length_seqZ; lia|]. rewrite !length_app, !length_replicate. lia. }
  rewrite lookup_seqZ_lt by lia. cbn. unfold page_image. rewrite Hpart, !Z.add_0_l by lia.
  destruct (Nat.lt_ge_cases k (Z.to_nat k0)) as [Hlo|Hhi].
  { rewrite lookup_app_l, (proj2 (Z.leb_gt _ _)) by (rewrite ?length_replicate; lia). apply lookup_replicate. split; [done|lia]. }
  rewrite (proj2 (Z.leb_le _ _)), lookup_app_r, length_replicate by (rewrite ?length_replicate; lia). cbn [andb].
  unfold file_byte. replace (offset ph + (i * 0x1000 + Z.of_nat k)) with (o + Z.of_nat (k - Z.to_nat k0)) by lia.
  destruct (Nat.lt_ge_cases (k - Z.to_nat k0) (length bs)) as [Hb|Hb].
  - rewrite lookup_app_l, (proj2 (Z.ltb_lt _ _)) by lia. subst bs. unfold stored.
    rewrite list_lookup_imap, lookup_take_lt, lookup_drop by lia. unfold zlookup. rewrite bool_decide_true by lia.
    rewrite Z2Nat.inj_add, Nat2Z.id by lia. destruct (lookup_lt_is_Some_2 c (Z.to_nat o + (k - Z.to_nat k0))) as [b ->]; [lia|]. done.
  - rewrite lookup_app_r by done. rewrite (proj2 (lookup_replicate _ _ _ _)) by (split; [done|lia]). f_equal.
    destruct (Z.ltb_spec (Z.of_nat k) (k0 + size)); [|done]. by rewrite zlookup_None by lia.
Qed.

Lemma stored_byte c o n m :
  Forall (fun b => forall x, b = Some x -> byte x) c -> (forall o, byte (wild o)) ->
  Forall byte (stored o (take n (drop m c))).
Proof.
  intros Hc Hw. apply Forall_lookup. intros j x. unfold stored. rewrite list_lookup_imap.
  destruct (take n (drop m c) !! j) as [b|] eqn:E; [|done]. cbn. intros [= <-].
  destruct b as [x|]; [|apply Hw]. cbn. apply lookup_take_Some in E as [E _]. rewrite lookup_drop in E.
  rewrite Forall_lookup in Hc. by apply (Hc _ _ E).
Qed.

(** The frames of the pages loaded so far: where each is mapped and what it holds. *)
Definition frames_ok (c : list (option Z)) (ph : ProgramHeader) (root : Z) (s : vm A) (fs : list Z) : Prop :=
  NoDup fs /\
  forall k f, fs !! k = Some f ->
    (0 < f < 2 ^ 46 /\ f mod 0x1000 = 0) /\ data hhdm s root (f + hhdm) /\
    translate hhdm (mem s) root (virt_addr ph + Z.of_nat k * 0x1000) = Some (Z.lor f (segment_flags (ph_flags ph))) /\
    exists ws, mem s !! (f + hhdm) = Some ws /\
      page_bytes ws = (fun j => page_image c ph (Z.of_nat k * 0x1000 + j)) <$> seqZ 0 0x1000.

(** The first free address after a page was mapped at [v], and after the first
    [n] pages of a segment. *)
Definition free_after_page (ff v : Z) : Z := if ff <=? v then v + 0x1000 else ff.
Definition free_after (ff : Z) (ph : ProgramHeader) (n : Z) : Z :=
  foldl (fun ff k => free_after_page ff (virt_addr ph + k * 0x1000)) ff (seqZ 0 n).

Lemma free_after_next ff ph n :
  0 <= n -> free_after ff ph (n + 1) = free_after_page (free_after ff ph n) (virt_addr ph + n * 0x1000).
Proof. intros Hn. unfold free_after. by rewrite seqZ_app, foldl_app by lia. Qed.

(** It grows, and lies behind the start of every page. *)
Lemma free_after_spec ff ph n :
  ff <= free_after ff ph (Z.of_nat n) /\
  (forall k, 0 <= k < Z.of_nat n -> virt_addr ph + k * 0x1000 < free_after ff ph (Z.of_nat n)) /\
  free_after ff ph (Z.of_nat n) <= Z.max ff (virt_addr ph + Z.of_nat n * 0x1000).
Proof.
  induction n as [|n (IH1 & IH2 & IH3)]; [change (free_after ff ph (Z.of_nat 0)) with ff; split_and!; [lia|intros k Hk; lia|lia]|].
  replace (Z.of_nat (S n)) with (Z.of_nat n + 1) by lia. rewrite free_after_next by lia. unfold free_after_page.
  destruct (Z.leb_spec (free_after ff ph (Z.of_nat n)) (virt_addr ph + Z.of_nat n * 0x1000)) as [Hb|Hb];
    (split_and!; [lia| |lia]); intros k Hk; (destruct (decide (k = Z.of_nat n)) as [->|]; [lia|]); specialize (IH2 k ltac:(lia)); lia.
Qed.

(** The state after the first [i] of [n] pages. *)
Record loaded_pages (c : list (option Z)) (ph : ProgramHeader) (root : Z) (s0 : vm A) (ff0 n : Z) (spare : nat) (i : Z) (x : vm A * Z) : Prop := {
  lp_inv : inv hhdm x.1 root;
  lp_supply : supply (4 * Z.to_nat (n - i) + spare) (frames x.1);
  lp_frames : exists fs, Z.of_nat (length fs) = i /\ frames_ok c ph root x.1 fs;
  lp_other : forall v, (forall k, 0 <= k < i -> page v <> page (virt_addr ph + k * 0x1000)) ->
    translate hhdm (mem x.1) root v = translate hhdm (mem s0) root v;
  lp_data : forall y, data hhdm s0 root y -> data hhdm x.1 root y /\ mem x.1 !! y = mem s0 !! y;
  lp_free : x.2 = free_after ff0 ph i
}.

Lemma segment_flags_spec flags : present (segment_flags flags) = true.
Proof. unfold segment_flags. by destruct (negb (Z.land flags PF_W =? 0)), (Z.land flags PF_X =? 0). Qed.

Lemma segment_flags_ADDR flags : Z.land (segment_flags flags) ADDR = 0.
Proof. unfold segment_flags. by destruct (negb (Z.land flags PF_W =? 0)), (Z.land flags PF_X =? 0). Qed.

Lemma pages_differ v k i :
  0 <= v -> 0 <= k < i -> v + i * 0x1000 < 2 ^ 48 -> page (v + i * 0x1000) <> page (v + k * 0x1000).
Proof.
  intros H0 Hk Hi. unfold page. change (2 ^ 12) with 0x1000. rewrite !Z.div_add by lia. page_of v.
  rewrite !Z.mod_small by lia. lia.
Qed.

(** What the file's part of a page leaves in the cleared frame. *)
Lemma fill_page file st c ph i dst s :
  contents st file = Some c -> loadable ph -> 0 <= i < page_count ph (mem_size ph) ->
  Forall (fun b => forall x, b = Some x -> byte x) c -> (forall o, byte (wild o)) ->
  mem s !! dst = Some zero_page ->
  exists ws,
    (if i <? page_count ph (file_size ph) then
       let '(in_page, o, size) := file_part ph i in
       '(_, bytes) ← Vfs.read F file size o st;
       store_bytes dst in_page (stored o bytes) s
     else Ret s) = Ret (set_mem (<[dst := ws]> (mem s)) s) /\
    page_bytes ws = (fun j => page_image c ph (i * 0x1000 + j)) <$> seqZ 0 0x1000.
Proof.
  intros Hc Hlo Hi Hb Hw Hz. destruct (Z.ltb_spec i (page_count ph (file_size ph))) as [Hf|Hf].
  - destruct (file_part_spec ph i Hlo) as (k0 & size & -> & Hk0 & Hsize & Hfit & Hov & Hpart); [lia|lia|].
    pose proof (lo_file _ Hlo). rewrite (read_contents st file c) by (done || lia). ored.
    destruct (page_filled c ph i k0 size Hk0 Hsize Hfit ltac:(lia) Hpart) as [Hl E].
    destruct (store_bytes_spec dst k0 _ s Hz (stored_byte c (offset ph + i * 0x1000 + k0) (Z.to_nat size) (Z.to_nat (offset ph + i * 0x1000 + k0)) Hb Hw) Hk0 Hl)
      as (ws & -> & _ & Hws). exists ws. split; [done|]. by rewrite Hws.
  - exists zero_page. rewrite insert_id by done. split; [by destruct s|]. rewrite page_bytes_zero. symmetry.
    apply list_eq. intros k. rewrite list_lookup_fmap. destruct (Nat.lt_ge_cases k (Z.to_nat 0x1000)) as [Hk|Hk].
    2: { rewrite !lookup_ge_None_2; [done|rewrite length_replicate; lia|rewrite length_seqZ; lia]. }
    rewrite lookup_seqZ_lt by lia. rewrite (proj2 (lookup_replicate _ _ _ _)) by done. cbn. f_equal.
    unfold page_image, in_file_part. rewrite Z.div_add_l, (Z.div_small (0 + Z.of_nat k)), Z.add_0_r by lia.
    by rewrite (proj2 (Z.ltb_ge i _)), andb_false_r by done.
Qed.

Lemma load_page_spec pm file st c ph s0 ff0 spare i x :
  contents st file = Some c -> loadable ph -> 0 <= i < page_count ph (mem_size ph) -> 0 <= ff0 <= 2 ^ 48 ->
  Forall (fun b => forall x, b = Some x -> byte x) c -> (forall o, byte (wild o)) ->
  loaded_pages c ph (pml4 pm) s0 ff0 (page_count ph (mem_size ph)) spare i x ->
  exists x', load_page pm file st ph i x = Ret x' /\
    loaded_pages c ph (pml4 pm) s0 ff0 (page_count ph (mem_size ph)) spare (i + 1) x'.
Proof.
  intros Hc Hlo Hi Hff Hb Hw [Hinv Hsup (fs & Hfs & Hnd & Hfr) Hother Hdata Hfree]. destruct x as [s ff].
  cbn [fst snd] in *. pose proof (lo_virt _ Hlo). destruct (misalign_range ph ltac:(lia)) as [_ Hmis].
  assert (virt_addr ph + (i + 1) * 0x1000 <= 2 ^ 48) as Hi48.
  { pose proof Hi as Hi'. rewrite page_count_spec in Hi' by lia. page_of (mem_size ph + misalign ph + 0xFFF). lia. }
  set (n := page_count ph (mem_size ph)) in *.
  replace (4 * Z.to_nat (n - i) + spare)%nat with (S (3 + (4 * Z.to_nat (n - (i + 1)) + spare))) in Hsup by lia.
  destruct Hsup as (p & a' & Ha & Hsup). unfold load_page. rewrite Ha. ored.
  destruct (alloc_page_fresh (frames s) p a' (inv_good _ _ _ Hinv) Ha) as (_ & Hp & Hpm & Hno & _).
  destruct (alloc_spec hhdm s (pml4 pm) p a' Hinv Ha) as [Hext Hpd].
  rewrite (wrap_small 64 (_ + i * _)) by lia.
  destruct (map_page_entry hhdm hhdm_range (set_frames a' s) pm p (virt_addr ph + i * 0x1000) (segment_flags (ph_flags ph))
    (4 * Z.to_nat (n - (i + 1)) + spare) (ext_inv _ _ _ _ Hext) Hsup (segment_flags_spec _))
    as (s1 & -> & Hinv1 & Htr1 & _ & Hsup1 & Hown1 & Hd1). ored.
  rewrite (wrap_small 64 (p + hhdm)) by lia.
  destruct (Hd1 _ Hpd) as [Hpd1 _].
  destruct (data_write hhdm s1 (pml4 pm) (p + hhdm) zero_page Hinv1 Hpd1) as (Hinv2 & Htr2 & Hd2).
  set (s2 := set_mem (<[p + hhdm := zero_page]> (mem s1)) s1) in *.
  destruct (fill_page file st c ph i (p + hhdm) s2 Hc Hlo Hi Hb Hw) as (ws & -> & Hws); [apply lookup_insert_eq|]. ored.
  destruct (data_write hhdm s2 (pml4 pm) (p + hhdm) ws Hinv2 (Hd2 _ Hpd1)) as (Hinv3 & Htr3 & Hd3).
  set (s3 := set_mem (<[p + hhdm := ws]> (mem s2)) s2) in *.
  assert (forall y, data hhdm s (pml4 pm) y -> data hhdm s3 (pml4 pm) y /\ y <> p + hhdm /\ mem s3 !! y = mem s !! y) as Hold.
  { intros y Hy. destruct (ext_data _ _ _ _ Hext y Hy) as [Hy1 Ey1]. destruct (Hd1 y Hy1) as [Hy2 Ey2].
    split; [by apply Hd3, Hd2|]. destruct Hy as [(q & -> & Hq) _].
    assert (q <> p) by congruence. split; [lia|]. cbn [s3 s2 mem set_mem].
    rewrite !lookup_insert_ne by lia. by rewrite Ey2. }
  assert (forall v, translate hhdm (mem s3) (pml4 pm) v =
    if decide (page v = page (virt_addr ph + i * 0x1000)) then Some (Z.lor p (segment_flags (ph_flags ph)))
    else translate hhdm (mem s) (pml4 pm) v) as Htr.
  { intros v. cbn [s3 mem set_mem]. rewrite Htr3. cbn [s2 mem set_mem]. rewrite Htr2, Htr1.
    pose proof (land_ADDR p 0 ltac:(lia) Hpm eq_refl) as Eland. rewrite Z.lor_0_r in Eland.
    by rewrite (ext_translate _ _ _ _ Hext), Eland. }
  eexists. split; [done|]. split; cbn [fst snd].
  - done.
  - done.
  - exists (fs ++ [p]). rewrite length_app. split; [cbn; lia|]. split.
    + apply NoDup_app. split; [done|]. split; [|apply NoDup_singleton].
      intros f [k Hk]%list_elem_of_lookup ->%list_elem_of_singleton.
      destruct (Hfr k p Hk) as (_ & [(q & Eq & Hq) _] & _). assert (q = p) as -> by lia. done.
    + intros k f [Hk|[Hk Ef]]%lookup_snoc_Some.
      * destruct Hk as [Hlt Hk]. destruct (Hfr k f Hk) as (Hf' & Hd & Ht & ws' & Hm & Hw').
        destruct (Hold _ Hd) as (Hd' & _ & Em). split; [done|]. split; [done|]. split; [|exists ws'; by rewrite Em].
        rewrite Htr, decide_False; [done|]. apply not_eq_sym, pages_differ; lia.
      * subst k f. split; [done|]. split; [by apply Hd3, Hd2|]. rewrite Hfs. split; [by rewrite Htr, decide_True|].
        exists ws. split; [apply lookup_insert_eq|done].
  - intros v Hv. rewrite Htr, decide_False by (apply Hv; lia). apply Hother. intros k Hk. apply Hv. lia.
  - intros y Hy. destruct (Hdata y Hy) as [Hy' Ey]. destruct (Hold y Hy') as (? & _ & E). by rewrite E.
  - rewrite free_after_next, <- Hfree by lia. unfold free_after_page. by rewrite wrap_small by lia.
Qed.

(** Loading a segment: its pages, from the one of its address up to its size in
    memory, are mapped to distinct frames with the access its flags ask for,
    their bytes are what the loader reads for them, no other translation and no
    other frame changes, and the first free address is moved past it. *)
Theorem load_segment_loads pm file st c ph ff spare s :
  inv hhdm s (pml4 pm) -> contents st file = Some c -> loadable ph -> 0 <= ff <= 2 ^ 48 ->
  Forall (fun b => forall x, b = Some x -> byte x) c -> (forall o, byte (wild o)) ->
  let n := page_count ph (mem_size ph) in
  supply (4 * Z.to_nat n + spare) (frames s) ->
  exists s' fs, load_segment pm file st ph (s, ff) = Ret (s', free_after ff ph n) /\
    inv hhdm s' (pml4 pm) /\ Z.of_nat (length fs) = n /\ frames_ok c ph (pml4 pm) s' fs /\
    (forall v, (forall k, 0 <= k < n -> page v <> page (virt_addr ph + k * 0x1000)) ->
      translate hhdm (mem s') (pml4 pm) v = translate hhdm (mem s) (pml4 pm) v) /\
    (forall y, data hhdm s (pml4 pm) y -> data hhdm s' (pml4 pm) y /\ mem s' !! y = mem s !! y) /\
    supply spare (frames s').
Proof.
  intros Hinv Hc Hlo Hff Hb Hw n Hsup.
  assert (0 <= n) by (apply Z.div_pos; [apply wrap_range|]; lia).
  destruct (for_range_inv (loaded_pages c ph (pml4 pm) s ff n spare) (Z.to_nat n) 0 (load_page pm file st ph) (s, ff))
    as ([s' ff'] & E & [Hi Hs (fs & Hl & Hfs) Ho Hd Hf]).
  - split; cbn [fst snd]; [done|by rewrite Z.sub_0_r| | | |done].
    + exists []. split; [done|]. split; [apply NoDup_nil; exact I|]. intros k f Hk. by rewrite lookup_nil in Hk.
    + done.
    + done.
  - intros i x Hi Hx. apply (load_page_spec pm file st c ph s ff spare i x); try done. lia.
  - cbn [fst snd] in *. rewrite Z.add_0_l, Z2Nat.id in * by lia. unfold load_segment. fold n. rewrite E. subst ff'.
    rewrite Z.sub_diag in Hs. by exists s', fs.
Qed.

End Elf.

(** ** A concrete program: one segment with four bytes of code, 5000 in memory *)
Definition code : list Z := [0xB8; 0x01; 0x0F; 0x05].
Definition program (file_size mem_size : Z) : list Z :=
  [127; 69; 76; 70; 2; 1; 1; 0] ++ replicate 8 0 ++ bytes_of 2 2 ++ bytes_of 2 62 ++ bytes_of 4 1 ++
  bytes_of 8 0x400000 ++ bytes_of 8 64 ++ bytes_of 8 0 ++ bytes_of 4 0 ++ bytes_of 2 64 ++ bytes_of 2 56 ++
  bytes_of 2 1 ++ replicate 6 0 ++
  bytes_of 4 PT_LOAD ++ bytes_of 4 (Z.lor PF_X 4) ++ bytes_of 8 120 ++ bytes_of 8 0x400000 ++ bytes_of 8 0 ++
  bytes_of 8 file_size ++ bytes_of 8 mem_size ++ bytes_of 8 0x1000.
Definition code_segment : ProgramHeader := mkProgramHeader PT_LOAD 5 120 0x400000 0 4 5000 0x1000.

Definition file_of (bs : list Z) : Vfs.vfs Tmpfs.NodeData :=
  match Tmpfs.write 7 bs 0 Mkfs.tree2 with Ret st => st | _ => Mkfs.empty_vfs end.
Definition tree_elf : Vfs.vfs Tmpfs.NodeData := file_of (program 4 5000 ++ code).
Abbreviation F0 := (Tmpfs.instantiate Mkfs.zero).

Lemma tree_elf_contents : contents (F := F0) tree_elf 7 = Some (Some <$> (program 4 5000 ++ code)).
Proof. vm_compute. reflexivity. Qed.

Lemma code_segment_loadable : loadable code_segment.
Proof. split; cbn; lia. Qed.

Lemma code_segment_placed : well_placed (Some <$> (program 4 5000 ++ code)) code_segment.
Proof. split; vm_compute; done. Qed.

Lemma vm0_supply_segment : supply 8 (frames vm0).
Proof. cbn [supply]. repeat (eexists _, _; split; [vm_compute; reflexivity|]). exact I. Qed.

Lemma written_bytes bs :
  forallb (fun b => (0 <=? b) && (b <? 256)) bs = true ->
  Forall (fun b => forall x, b = Some x -> byte x) (Some <$> bs).
Proof.
  intros Hb. apply Forall_fmap, Forall_forall. intros b Hin x [= <-].
  rewrite forallb_forall in Hb. apply list_elem_of_In, Hb in Hin. unfold byte. lia.
Qed.

(** The whole loader on that file: the entry point, the first free address, and
    the first bytes of the page the entry point is on. *)
Example load_runs :
  ('(entry, free, s) ← load window F0 Mkfs.zero the_map 7 tree_elf vm0;
   e ← of_option (translate window (mem s) (pml4 the_map) entry);
   ws ← of_option (mem s !! (Z.land e ADDR + window));
   Ret (entry, free, take 6 (page_bytes ws), Z.land e (Z.lnot ADDR) =? Z.lor PAGE_PRESENT PAGE_USER))
  = Ret (0x400000, 0x402000, code ++ [0; 0], true).
Proof. vm_compute. reflexivity. Qed.

Example load_refuses_other_files :
  load window F0 Mkfs.zero the_map 7 (file_of (lit "#!/bin/sh")) vm0 = Panic.
Proof. vm_compute. reflexivity. Qed.

(** The part of the file the last page of a segment shows is empty when the
    segment fills its pages. *)
Example last_full_page_is_not_read :
  file_part (mkProgramHeader PT_LOAD 5 0x1000 0x400000 0 0x2000 0x2000 0x1000) 1 = (0, 0x2000, 0).
Proof. reflexivity. Qed.

(** A segment of less than a page is read as a whole page, what follows it in
    the file included. *)
Example short_segment_is_read_as_a_page : file_part code_segment 0 = (0, 120, 0x1000).
Proof. reflexivity. Qed.

(** A segment that starts inside a page gets the wrong part of the file. *)
Example misaligned_segment_is_shifted :
  file_part (mkProgramHeader PT_LOAD 5 0x2010 0x401010 0 0x100 0x100 0x1000) 0 = (0x10, 0x2020, 0xFF0).
Proof. reflexivity. Qed.
