(* ===== verification/Program.v ===== *)
(** * userland/elf.cpp: what loading a whole program means

    The header and the program headers are read from the file's contents; the
    segments to load are the ones of type PT_LOAD, in the order of the table. *)
From S2P Require Import Prelude Algorithm Bitmap Pmm CString HashMap Vector Keyboard Printf List Vfs Descriptors Tmpfs Paging Elf.

Section Program.
Context {A : Type} `{PageAllocator A}.
Context (hhdm : Z) (hhdm_range : 0 <= hhdm <= 2 ^ 64 - 2 ^ 46).
Context {D : Type} (F : FileSystem D) `{!FileContents F} (wild : Z -> Z).

(** What reading a structure of [n] bytes at [o] gives. *)
Definition file_bytes (c : list (option Z)) (o n : Z) : list Z :=
  let bs := stored wild o (take (Z.to_nat n) (drop (Z.to_nat o) c)) in bs ++ replicate (Z.to_nat n - length bs) 0.

Definition elf_header (c : list (option Z)) : Header := header_of (file_bytes c 0 64).
Definition header_offset (c : list (option Z)) (i : Z) : Z :=
  u64 (ph_table_offset (elf_header c) + i * ph_entry_size (elf_header c)).
Definition segment_header (c : list (option Z)) (i : Z) : ProgramHeader :=
  program_header_of (file_bytes c (header_offset c i) 56).

(** The segments from entry [i] of the table on. *)
Definition is_load (ph : ProgramHeader) : bool := ph_type ph =? PT_LOAD.
Definition segments_from (c : list (option Z)) (i n : Z) : list ProgramHeader :=
  filter (fun ph => is_load ph = true) (segment_header c <$> seqZ i n).
Definition segments (c : list (option Z)) : list ProgramHeader := segments_from c 0 (ph_count (elf_header c)).

Definition segment_pages (ph : ProgramHeader) : Z := page_count ph (mem_size ph).
Definition end_of (ff : Z) (ph : ProgramHeader) : Z := free_after ff ph (segment_pages ph).
Definition pages_needed (phs : list ProgramHeader) : nat := sum_list ((fun ph => 4 * Z.to_nat (segment_pages ph))%nat <$> phs).

(** The address [v] is on a page of the segment. *)
Definition on_segment (ph : ProgramHeader) (v : Z) : Prop :=
  exists k, 0 <= k < segment_pages ph /\ page v = page (virt_addr ph + k * 0x1000).
Definition separate (a b : ProgramHeader) : Prop := forall v, on_segment a v -> on_segment b v -> False.

Definition apart (a b : ProgramHeader) : Prop :=
  virt_addr a / 0x1000 + segment_pages a <= virt_addr b / 0x1000 \/ virt_addr b / 0x1000 + segment_pages b <= virt_addr a / 0x1000.
Definition pairwise_separate (phs : list ProgramHeader) : Prop :=
  forall i j a b, phs !! i = Some a -> phs !! j = Some b -> Nat.lt i j -> separate a b.

(** The program sees byte [b] at [v], on a page of these flags. *)
Definition sees (s : vm A) (root v flags b : Z) : Prop :=
  exists e ws, translate hhdm (mem s) root v = Some e /\ Z.ldiff e ADDR = flags /\
    mem s !! (Z.land e ADDR + hhdm) = Some ws /\ zlookup (page_bytes ws) (v mod 0x1000) = Some b.

(** ... and the page is no page table. *)
Definition shows (s : vm A) (root v flags b : Z) : Prop :=
  exists e ws, translate hhdm (mem s) root v = Some e /\ Z.ldiff e ADDR = flags /\ data hhdm s root (Z.land e ADDR + hhdm) /\
    mem s !! (Z.land e ADDR + hhdm) = Some ws /\ zlookup (page_bytes ws) (v mod 0x1000) = Some b.

Lemma shows_sees s root v flags b : shows s root v flags b -> sees s root v flags b.
Proof. intros (e & ws & ? & ? & _ & ? & ?). by exists e, ws. Qed.

Context (pm : Pagemap) (file : Z) (st : Vfs.vfs D) (c : list (option Z)).
Context (Hc : contents st file = Some c).
Context (Hbytes : Forall (fun b => forall x, b = Some x -> byte x) c) (Hwild : forall o, byte (wild o)).

Lemma read_struct_spec size o :
  0 <= size -> 0 <= o -> o + size < 2 ^ 64 -> read_struct F wild file size o st = Ret (file_bytes c o size).
Proof. intros Hs Ho Hov. unfold read_struct. by rewrite (read_contents st file c) by done. Qed.

(** ** The loop over the program headers *)
Record loaded (s0 : vm A) (phs : list ProgramHeader) (x : vm A * Z) : Prop := {
  ld_inv : inv hhdm x.1 (pml4 pm);
  ld_frames : Forall (fun ph => exists fs, Z.of_nat (length fs) = segment_pages ph /\ frames_ok hhdm wild c ph (pml4 pm) x.1 fs) phs;
  ld_other v : (forall ph, ph ∈ phs -> ~ on_segment ph v) ->
    translate hhdm (mem x.1) (pml4 pm) v = translate hhdm (mem s0) (pml4 pm) v;
  ld_free : x.2 = foldl end_of 0 phs /\ 0 <= x.2 <= 2 ^ 48 }.

Lemma segment_pages_spec ph : loadable ph -> segment_pages ph = (mem_size ph + misalign ph + 0xFFF) / 0x1000.
Proof. intros [Hv _ _]. apply page_count_spec; lia. Qed.

Lemma segment_end ph : loadable ph -> 0 <= segment_pages ph /\ virt_addr ph + segment_pages ph * 0x1000 <= 2 ^ 48.
Proof.
  intros Hlo. rewrite segment_pages_spec by done. destruct Hlo as [Hv _ _]. destruct (misalign_range ph ltac:(lia)) as [_ Hm].
  page_of (mem_size ph + misalign ph + 0xFFF). lia.
Qed.

Lemma end_range ff ph : loadable ph -> 0 <= ff <= 2 ^ 48 -> 0 <= end_of ff ph <= 2 ^ 48.
Proof.
  intros Hlo Hff. destruct (segment_end ph Hlo) as [Hn He]. unfold end_of.
  destruct (free_after_spec ff ph (Z.to_nat (segment_pages ph))) as (H1 & _ & H2). rewrite Z2Nat.id in * by done. lia.
Qed.

(** A segment loaded stays as it is while another one is. *)
Lemma frames_stay ph ph' s s' fs :
  frames_ok hhdm wild c ph (pml4 pm) s fs -> Z.of_nat (length fs) = segment_pages ph -> separate ph ph' ->
  (forall v, ~ on_segment ph' v -> translate hhdm (mem s') (pml4 pm) v = translate hhdm (mem s) (pml4 pm) v) ->
  (forall y, data hhdm s (pml4 pm) y -> data hhdm s' (pml4 pm) y /\ mem s' !! y = mem s !! y) ->
  frames_ok hhdm wild c ph (pml4 pm) s' fs.
Proof.
  intros [Hnd Hfr] Hl Hsep Htr Hd. split; [done|]. intros k f Hk. destruct (Hfr k f Hk) as (H0 & H1 & H2 & ws & H3 & H4).
  destruct (Hd _ H1) as [H1' E]. split; [done|]. split; [done|]. split; [|exists ws; by rewrite E].
  rewrite Htr; [done|]. intros Hon. apply (Hsep (virt_addr ph + Z.of_nat k * 0x1000)); [|done].
  exists (Z.of_nat k). split; [|done]. apply lookup_lt_Some in Hk. lia.
Qed.

Lemma loaded_more s0 phs ph s ff spare :
  loaded s0 phs (s, ff) -> loadable ph -> Forall (fun a => separate a ph) phs ->
  supply (4 * Z.to_nat (segment_pages ph) + spare) (frames s) ->
  exists s', load_segment hhdm F wild pm file st ph (s, ff) = Ret (s', end_of ff ph) /\
    loaded s0 (phs ++ [ph]) (s', end_of ff ph) /\ supply spare (frames s').
Proof.
  intros [Hinv Hfr Hoth [Hff Hal]] Hlo Hsep Hsup. cbn [fst snd] in *.
  destruct (load_segment_loads hhdm F wild hhdm_range pm file st c ph ff spare s Hinv Hc Hlo Hal Hbytes Hwild Hsup)
    as (s' & fs & -> & Hinv' & Hl & Hok & Htr & Hd & Hsup').
  assert (forall v, ~ on_segment ph v -> translate hhdm (mem s') (pml4 pm) v = translate hhdm (mem s) (pml4 pm) v) as Htr'.
  { intros v Hv. apply Htr. intros k Hk E. apply Hv. by exists k. }
  exists s'. split; [done|]. split; [|done]. split; cbn [fst snd]; [done| | |].
  - apply Forall_app. split; [|apply Forall_singleton; by exists fs].
    apply Forall_forall. intros a Ha. rewrite Forall_forall in Hfr. rewrite Forall_forall in Hsep.
    destruct (Hfr a Ha) as (fs' & Hl' & Hfs'). exists fs'. split; [done|]. apply (frames_stay a ph s); (done || by apply Hsep).
  - intros v Hv. rewrite Htr'; [apply Hoth|]; [intros a Ha|]; apply Hv; set_solver.
  - rewrite foldl_app, Hff. split; [done|]. rewrite <- Hff. by apply end_range.
Qed.

Lemma segments_from_cons i n :
  0 < n -> segments_from c i n = (if is_load (segment_header c i) then [segment_header c i] else []) ++ segments_from c (i + 1) (n - 1).
Proof.
  intros Hn. unfold segments_from. rewrite seqZ_cons by done. rewrite fmap_cons, filter_cons.
  change (Z.succ i) with (i + 1). change (Z.pred n) with (n + -1). replace (n + -1) with (n - 1) by lia.
  by destruct (is_load (segment_header c i)).
Qed.

Lemma pages_needed_cons ph phs : pages_needed (ph :: phs) = (4 * Z.to_nat (segment_pages ph) + pages_needed phs)%nat.
Proof. reflexivity. Qed.

Lemma load_program_header_spec i x :
  header_offset c i + 56 < 2 ^ 64 ->
  load_program_header hhdm F wild pm file st (elf_header c) i x
  = if is_load (segment_header c i) then load_segment hhdm F wild pm file st (segment_header c i) x else Ret x.
Proof.
  intros Ho. unfold load_program_header. fold (header_offset c i).
  by rewrite read_struct_spec by (done || apply Z.mod_pos_bound; done).
Qed.

Lemma load_program_headers n i s0 phs x spare :
  (forall j, i <= j < i + Z.of_nat n -> header_offset c j + 56 < 2 ^ 64) ->
  let next := segments_from c i (Z.of_nat n) in
  loaded s0 phs x -> Forall loadable next -> pairwise_separate (phs ++ next) ->
  supply (pages_needed next + spare) (frames x.1) ->
  exists x', for_range n i (load_program_header hhdm F wild pm file st (elf_header c)) x = Ret x' /\
    loaded s0 (phs ++ next) x' /\ supply spare (frames x'.1).
Proof.
  revert i phs x. induction n as [|n IH]; intros i phs [s ff] Hoff next Hx Hlo Hsep Hsup.
  { exists (s, ff). split; [done|]. subst next. change (segments_from c i (Z.of_nat 0)) with (@nil ProgramHeader) in *. by rewrite app_nil_r. }
  subst next. rewrite segments_from_cons in * by lia. replace (Z.of_nat (Datatypes.S n) - 1) with (Z.of_nat n) in * by lia.
  cbn [for_range]. rewrite load_program_header_spec by (apply Hoff; lia).
  destruct (is_load (segment_header c i)); cbn [app] in *; ored.
  2: { apply IH; [|exact Hx|exact Hlo|exact Hsep|exact Hsup]. intros j Hj. apply Hoff. lia. }
  apply Forall_cons in Hlo as [Hph Hlo].
  destruct (loaded_more s0 phs (segment_header c i) s ff (pages_needed (segments_from c (i + 1) (Z.of_nat n)) + spare)) as (s' & -> & Hl & Hs'); [done|done| | |].
  - apply Forall_lookup. intros k a Hk. apply (Hsep k (length phs)); [by apply lookup_app_l_Some| |by apply lookup_lt_Some in Hk].
    by apply list_lookup_middle.
  - rewrite pages_needed_cons, <- Nat.add_assoc in Hsup. exact Hsup.
  - ored. rewrite (cons_middle _ phs), app_assoc in Hsep |- *.
    apply IH; [|exact Hl|exact Hlo|exact Hsep|exact Hs']. intros j Hj. apply Hoff. lia.
Qed.

(** ** The bytes the program sees *)
Lemma lor_ldiff_ADDR p f : 0 < p < 2 ^ 46 -> p mod 0x1000 = 0 -> Z.land f ADDR = 0 -> Z.ldiff (Z.lor p f) ADDR = f.
Proof.
  intros Hp Hm Hf. apply Z.bits_inj'. intros i Hi. rewrite Z.ldiff_spec, Z.lor_spec.
  assert (Z.testbit (Z.land f ADDR) i = false) as Ef by (rewrite Hf; apply Z.bits_0).
  assert (Z.testbit (Z.land (Z.lor p 0) ADDR) i = Z.testbit p i) as Ep by (f_equal; apply land_ADDR; [lia|done|done]).
  rewrite Z.lor_0_r in Ep. rewrite Z.land_spec in Ef, Ep.
  by destruct (Z.testbit p i), (Z.testbit f i), (Z.testbit ADDR i).
Qed.

Lemma segment_seen ph s fs j :
  loadable ph -> frames_ok hhdm wild c ph (pml4 pm) s fs -> Z.of_nat (length fs) = segment_pages ph ->
  0 <= j < mem_size ph ->
  shows s (pml4 pm) (virt_addr ph + j) (segment_flags (ph_flags ph)) (image wild c ph j).
Proof.
  intros Hlo [_ Hfr] Hl Hj. rewrite segment_pages_spec in Hl by done. destruct Hlo as [Hv _ _].
  destruct (misalign_range ph ltac:(lia)) as [Em Hm]. set (x := misalign ph + j).
  page_of x. page_of (virt_addr ph). page_of (mem_size ph + misalign ph + 0xFFF).
  assert (0 <= x / 0x1000 < Z.of_nat (length fs)) as Hk by (unfold x in *; lia).
  destruct (lookup_lt_is_Some_2 fs (Z.to_nat (x / 0x1000))) as [f Hf]; [lia|].
  destruct (Hfr _ _ Hf) as ([Hf1 Hf2] & Hd & Ht & ws & Hw & Hb). rewrite Z2Nat.id in Ht, Hb by lia.
  assert (virt_addr ph + j = virt_addr ph / 0x1000 * 0x1000 + x) as Ea by (unfold x; lia).
  pose proof (segment_flags_ADDR (ph_flags ph)) as Hfl.
  exists (Z.lor f (segment_flags (ph_flags ph))), ws. rewrite land_ADDR by (done || lia).
  split; [|split; [by apply lor_ldiff_ADDR|split; [done|split; [done|]]]].
  - rewrite <- Ht. apply translate_page. unfold page. change (2 ^ 12) with 0x1000. f_equal.
    by rewrite Ea, Z.div_add_l, Z.div_add by lia.
  - rewrite Hb, Ea, (Z.add_comm _ x), Z.mod_add by lia. unfold zlookup. rewrite bool_decide_true by lia.
    rewrite list_lookup_fmap, lookup_seqZ_lt by lia. cbn. unfold image. fold x. do 2 f_equal. lia.
Qed.

Lemma foldl_end_of phs ff :
  Forall loadable phs -> ff <= foldl end_of ff phs /\
  forall ph k, ph ∈ phs -> 0 <= k < segment_pages ph -> virt_addr ph + k * 0x1000 < foldl end_of ff phs.
Proof.
  revert ff. induction phs as [|a phs IH]; intros ff Hlo; cbn [foldl]; [split; [lia|set_solver]|].
  apply Forall_cons in Hlo as [Ha Hlo]. destruct (IH (end_of ff a) Hlo) as [H1 H2]. destruct (segment_end a Ha) as [Hn _].
  destruct (free_after_spec ff a (Z.to_nat (segment_pages a))) as (H3 & H4 & _). rewrite Z2Nat.id in * by done. fold (end_of ff a) in *.
  split; [lia|]. intros ph k [->|Hin]%elem_of_cons Hk; [|by apply H2]. specialize (H4 k Hk). lia.
Qed.

(** The first free page is behind every segment. *)
Lemma segment_below phs ph j :
  Forall loadable phs -> ph ∈ phs -> 0 <= j < mem_size ph -> 0 <= foldl end_of 0 phs <= 2 ^ 48 ->
  virt_addr ph + j < align_up 0x1000 (foldl end_of 0 phs).
Proof.
  intros Hlo Hin Hj Hff. destruct (foldl_end_of phs 0 Hlo) as [_ He]. rewrite Forall_forall in Hlo. specialize (Hlo ph Hin).
  destruct Hlo as [Hv Hf Hs]. destruct (misalign_range ph ltac:(lia)) as [Em Hm]. set (x := misalign ph + j).
  page_of x. page_of (virt_addr ph). page_of (mem_size ph + misalign ph + 0xFFF).
  assert (0 <= x / 0x1000 < segment_pages ph) as Hk by (rewrite segment_pages_spec by done; unfold x in *; lia).
  specialize (He ph _ Hin Hk). destruct (align_up_spec 0x1000 (foldl end_of 0 phs)) as [Ha Hal]; [lia..|].
  page_of (align_up 0x1000 (foldl end_of 0 phs)). unfold x in *. lia.
Qed.

Lemma on_segment_range ph v :
  loadable ph -> on_segment ph v -> exists k, 0 <= k < segment_pages ph /\ page v = virt_addr ph / 0x1000 + k.
Proof.
  intros Hlo (k & Hk & ->). exists k. split; [done|]. destruct (segment_end ph Hlo) as [_ He]. destruct Hlo as [Hv _ _].
  unfold page. change (2 ^ 12) with 0x1000. rewrite Z.div_add by lia. page_of (virt_addr ph). apply Z.mod_small. lia.
Qed.

(** Segments whose pages do not overlap are separate. *)
Lemma apart_separate a b : loadable a -> loadable b -> apart a b -> separate a b.
Proof.
  intros Ha Hb Hab v (k & Hk & Ev)%on_segment_range (l & Hl & Ew)%on_segment_range; [|done..]. unfold apart in Hab. lia.
Qed.

(** Loading, with [spare] pages left at the end. *)
Lemma load_program spare s :
  inv hhdm s (pml4 pm) ->
  memcmp (identifier (elf_header c)) (127 :: lit "ELF") 4 = 0 -> supported (elf_header c) = true ->
  (forall i, 0 <= i < ph_count (elf_header c) -> header_offset c i + 56 < 2 ^ 64) ->
  Forall loadable (segments c) -> pairwise_separate (segments c) ->
  supply (pages_needed (segments c) + spare) (frames s) ->
  exists s' free, load hhdm F wild pm file st s = Ret (entry_addr (elf_header c), free, s') /\
    inv hhdm s' (pml4 pm) /\
    (forall ph j, ph ∈ segments c -> 0 <= j < mem_size ph ->
      virt_addr ph + j < free /\
      shows s' (pml4 pm) (virt_addr ph + j) (segment_flags (ph_flags ph)) (image wild c ph j)) /\
    free mod 0x1000 = 0 /\
    (forall v, (forall ph, ph ∈ segments c -> ~ on_segment ph v) ->
      translate hhdm (mem s') (pml4 pm) v = translate hhdm (mem s) (pml4 pm) v) /\
    supply spare (frames s').
Proof.
  intros Hinv Hmagic Hsup Hoff Hlo Hsep Hpages.
  assert (segments_from c 0 (Z.of_nat (Z.to_nat (ph_count (elf_header c)))) = segments c) as En.
  { unfold segments, segments_from. do 2 f_equal. unfold seqZ. by rewrite Nat2Z.id. }
  destruct (load_program_headers (Z.to_nat (ph_count (elf_header c))) 0 s [] (s, 0) spare)
    as ([s' free] & Hrun & [Hi Hf Ho [Hfree Hal]] & Hspare).
  - intros j Hj. apply Hoff. lia.
  - split; cbn [fst snd]; [exact Hinv|by constructor|done|]. split; [done|]. cbn. lia.
  - by rewrite En.
  - by rewrite En.
  - rewrite En. exact Hpages.
  - cbn [fst snd app] in *. rewrite En in *. exists s', (align_up 0x1000 free).
    split; [|split; [exact Hi|split; [|split; [apply align_up_spec; lia|by split]]]].
    + unfold load. rewrite read_struct_spec by done. ored. fold (elf_header c). rewrite Hmagic, Hsup. cbn [Z.eqb negb].
      rewrite Hrun. by ored.
    + intros ph j Hph Hj. pose proof Hlo as Hall. rewrite Forall_forall in Hf, Hlo. destruct (Hf ph Hph) as (fs & Hl & Hfs). split.
      * rewrite Hfree. apply (segment_below _ ph); [done|done|done|]. by rewrite <- Hfree.
      * by apply (segment_seen ph s' fs); [apply Hlo| | |].
Qed.

(** Loading a program: when the file has an ELF header for this machine
    and its segments lie on pages of their own, [load] returns the entry point
    and the first page boundary past every segment, and leaves an address space
    in which each segment shows what the loader reads for it ([image], which for
    a [well_placed] segment is the file's bytes and then zeros), on pages with
    the access its flags ask for; the tables stay well formed and no address
    outside the segments is touched. *)
Theorem load_runs_program s :
  inv hhdm s (pml4 pm) ->
  memcmp (identifier (elf_header c)) (127 :: lit "ELF") 4 = 0 -> supported (elf_header c) = true ->
  (forall i, 0 <= i < ph_count (elf_header c) -> header_offset c i + 56 < 2 ^ 64) ->
  Forall loadable (segments c) -> pairwise_separate (segments c) ->
  supply (pages_needed (segments c)) (frames s) ->
  exists s' free, load hhdm F wild pm file st s = Ret (entry_addr (elf_header c), free, s') /\
    inv hhdm s' (pml4 pm) /\
    (forall ph j, ph ∈ segments c -> 0 <= j < mem_size ph ->
      virt_addr ph + j < free /\
      sees s' (pml4 pm) (virt_addr ph + j) (segment_flags (ph_flags ph)) (image wild c ph j)) /\
    free mod 0x1000 = 0 /\
    (forall v, (forall ph, ph ∈ segments c -> ~ on_segment ph v) ->
      translate hhdm (mem s') (pml4 pm) v = translate hhdm (mem s) (pml4 pm) v).
Proof.
  intros Hinv Hmagic Hsup Hoff Hlo Hsep Hpages. rewrite <- (Nat.add_0_r (pages_needed _)) in Hpages.
  destruct (load_program 0 s Hinv Hmagic Hsup Hoff Hlo Hsep Hpages) as (s' & free & ? & ? & Hs & ? & ? & _).
  exists s', free. split_and!; try done. intros ph j Hph Hj. destruct (Hs ph j Hph Hj). split; [done|by apply shows_sees].
Qed.
End Program.

(** ** A concrete program: code, a note that is not loaded, and memory that
    starts as zeros *)
Definition two_segments : list Z :=
  [127; 69; 76; 70; 2; 1; 1; 0] ++ replicate 8 0 ++ bytes_of 2 2 ++ bytes_of 2 62 ++ bytes_of 4 1 ++
  bytes_of 8 0x400000 ++ bytes_of 8 64 ++ bytes_of 8 0 ++ bytes_of 4 0 ++ bytes_of 2 64 ++ bytes_of 2 56 ++
  bytes_of 2 3 ++ replicate 6 0 ++
  bytes_of 4 PT_LOAD ++ bytes_of 4 (Z.lor PF_X 4) ++ bytes_of 8 232 ++ bytes_of 8 0x400000 ++ bytes_of 8 0 ++
  bytes_of 8 4 ++ bytes_of 8 5000 ++ bytes_of 8 0x1000 ++
  bytes_of 4 4 ++ replicate 52 0 ++
  bytes_of 4 PT_LOAD ++ bytes_of 4 (Z.lor PF_W 4) ++ bytes_of 8 232 ++ bytes_of 8 0x402000 ++ bytes_of 8 0 ++
  bytes_of 8 0 ++ bytes_of 8 100 ++ bytes_of 8 0x1000 ++ code.
Definition tree_two : Vfs.vfs Tmpfs.NodeData := file_of two_segments.
Definition two_contents : list (option Z) := Some <$> two_segments.

Definition text_segment : ProgramHeader := mkProgramHeader PT_LOAD 5 232 0x400000 0 4 5000 0x1000.
Definition data_segment : ProgramHeader := mkProgramHeader PT_LOAD 6 232 0x402000 0 0 100 0x1000.

Lemma tree_two_contents : contents (F := F0) tree_two 7 = Some two_contents.
Proof. vm_compute. reflexivity. Qed.

Lemma two_contents_segments :
  segments Mkfs.zero two_contents
  = [text_segment; data_segment].
Proof. vm_compute. reflexivity. Qed.

Lemma two_loadable : Forall loadable (segments Mkfs.zero two_contents).
Proof. rewrite two_contents_segments. apply Forall_cons; split; [|apply Forall_singleton]; split; cbn; lia. Qed.

Lemma two_separate : pairwise_separate (segments Mkfs.zero two_contents).
Proof.
  pose proof two_loadable as Hlo. rewrite two_contents_segments in *.
  apply Forall_cons in Hlo as [H1 Hlo]. apply Forall_cons in Hlo as [H2 _].
  intros [|[|i]] [|[|j]] a b Ha Hb Hij; try lia; try done.
  injection Ha as <-. injection Hb as <-. eapply apart_separate; [exact H1|exact H2|]. vm_compute. by left.
Qed.

Lemma two_offsets i :
  0 <= i < ph_count (elf_header Mkfs.zero two_contents) -> header_offset Mkfs.zero two_contents i + 56 < 2 ^ 64.
Proof.
  change (ph_count (elf_header Mkfs.zero two_contents)) with 3. intros Hi.
  assert (i = 0 \/ i = 1 \/ i = 2) as [->|[->| ->]] by lia; vm_compute; done.
Qed.

Lemma vm0_supply_two : supply 12 (frames vm0).
Proof. cbn [supply]. repeat (eexists _, _; split; [vm_compute; reflexivity|]). exact I. Qed.

Lemma text_shows :
  virt_addr text_segment + 3 = 0x400003 /\ segment_flags (ph_flags text_segment) = 5 /\
  image Mkfs.zero two_contents text_segment 3 = 5.
Proof. vm_compute. done. Qed.

Lemma data_shows :
  virt_addr data_segment + 99 = 0x402063 /\ segment_flags (ph_flags data_segment) = Z.lor 7 PAGE_NO_EXECUTE /\
  image Mkfs.zero two_contents data_segment 99 = 0.
Proof. vm_compute. done. Qed.

Lemma beyond_two ph : ph ∈ segments Mkfs.zero two_contents -> ~ on_segment ph 0x403000.
Proof.
  intros Hph Hon. pose proof two_loadable as Hlo. rewrite Forall_forall in Hlo.
  apply on_segment_range in Hon as (k & Hk & E); [|by apply Hlo].
  rewrite two_contents_segments in Hph. change (page 0x403000) with 0x403 in E.
  apply elem_of_cons in Hph as [-> | ->%list_elem_of_singleton].
  - change (segment_pages text_segment) with 2 in Hk. change (virt_addr text_segment / 0x1000) with 0x400 in E. lia.
  - change (segment_pages data_segment) with 1 in Hk. change (virt_addr data_segment / 0x1000) with 0x402 in E. lia.
Qed.

Example load_runs_program_witness :
  exists s' free, load window F0 Mkfs.zero the_map 7 tree_two vm0 = Ret (0x400000, free, s') /\
    sees window s' (pml4 the_map) 0x400003 0x5 5 /\
    sees window s' (pml4 the_map) 0x402063 (Z.lor 7 PAGE_NO_EXECUTE) 0 /\
    translate window (mem s') (pml4 the_map) 0x403000 = None.
Proof.
  destruct (load_runs_program window ltac:(vm_compute; done) F0 Mkfs.zero the_map 7 tree_two two_contents
    tree_two_contents (written_bytes two_segments eq_refl) ltac:(vm_compute; done) vm0
    (proj1 vm0_inv) ltac:(vm_compute; reflexivity) ltac:(vm_compute; reflexivity)
    two_offsets two_loadable two_separate ltac:(rewrite two_contents_segments; exact vm0_supply_two))
    as (s' & free & Hr & _ & Hs & _ & Ho).
  destruct text_shows as (Ev & Ef & Ei). destruct data_shows as (Ev' & Ef' & Ei').
  assert (text_segment ∈ segments Mkfs.zero two_contents /\ data_segment ∈ segments Mkfs.zero two_contents) as [Hin Hin'].
  { rewrite two_contents_segments. clear. set_solver. }
  assert (0 <= 3 < mem_size text_segment /\ 0 <= 99 < mem_size data_segment) as [Hj Hj'] by (clear; done).
  apply Hs in Hj as [_ Hj]; [|exact Hin]. apply Hs in Hj' as [_ Hj']; [|exact Hin'].
  rewrite Ev, Ef, Ei in Hj. rewrite Ev', Ef', Ei' in Hj'. exists s', free. split; [exact Hr|]. split; [exact Hj|].
  split; [exact Hj'|]. rewrite Ho by exact beyond_two. apply vm0_inv.
Defined.
