(* ===== verification/Timers.v ===== *)
(** * sched/timer: the APIC timer, the HPET and the PIT

    Log lines and the spinlock of the PIT are left out. *)
From S2P Require Import Prelude Bitmap Vector Machine Interrupts.

(** ** GenericAddr (acpi/tables.hpp) *)
Definition SYSTEM_MEM : Z := 0.
Definition SYSTEM_IO : Z := 1.

Record GenericAddr := mkGenericAddr {
  address_space : Z; bit_width : Z; bit_offset : Z; access_size : Z; addr : Z }.

Section Timers.
Context {M : Type} `{Machine M}.
Context (hhdm : Z).

(** [cpu::out<T>] and [cpu::in<T>]: other widths than those of a port panic. *)
Definition cpu_out (width port val : Z) (m : M) : outcome M :=
  if bool_decide (width = 1 \/ width = 2 \/ width = 4) then Ret (port_out width (u16 port) val m) else Panic.
Definition cpu_in (width port : Z) (m : M) : outcome (Z * M) :=
  if bool_decide (width = 1 \/ width = 2 \/ width = 4) then Ret (port_in width (u16 port) m) else Panic.

Definition generic_write (a : GenericAddr) (width offset val : Z) (m : M) : outcome M :=
  if address_space a =? SYSTEM_MEM then Ret (mmio_write width (u64 (addr a + offset + hhdm)) val m)
  else if address_space a =? SYSTEM_IO then cpu_out width (u64 (addr a + offset)) val m
  else Panic.
Definition generic_read (a : GenericAddr) (width offset : Z) (m : M) : outcome (Z * M) :=
  if address_space a =? SYSTEM_MEM then Ret (mmio_read width (u64 (addr a + offset + hhdm)) m)
  else if address_space a =? SYSTEM_IO then cpu_in width (u64 (addr a + offset)) m
  else Panic.

(** ** HPET *)
Definition GENERAL_INFO : Z := 0.
Definition GENERAL_CONFIG : Z := 0x10.
Definition MAIN_COUNTER : Z := 0xF0.

Record hpet := mkHpet { initialized : bool; period : Z; hpet_freq : Z; regs : GenericAddr }.

Definition hpet_init (address : GenericAddr) (m : M) : outcome (hpet * M) :=
  '(info, m) ← generic_read address 8 GENERAL_INFO m;
  let period := Z.shiftr info 32 in
  if period =? 0 then Fault
  else
    m ← generic_write address 8 GENERAL_CONFIG 0 m;
    m ← generic_write address 8 MAIN_COUNTER 0 m;
    m ← generic_write address 8 GENERAL_CONFIG 1 m;
    Ret (mkHpet true period (10 ^ 15 / period) address, m).

(** The loop waits for the counter; [fuel] bounds how often it is read. *)
Fixpoint wait_loop (fuel : nat) (h : hpet) (target : Z) (m : M) : outcome M :=
  match fuel with
  | O => Diverge
  | S fuel =>
      '(now, m) ← generic_read (regs h) 8 MAIN_COUNTER m;
      if now <? target then wait_loop fuel h target m else Ret m
  end.
Definition stall_ns (fuel : nat) (h : hpet) (ns : Z) (m : M) : outcome M :=
  if negb (initialized h) then Panic
  else
    let fs := u64 (ns * 1000000) in
    '(now, m) ← generic_read (regs h) 8 MAIN_COUNTER m;
    wait_loop fuel h (u64 (now + fs / period h)) m.
Definition stall_us (fuel : nat) (h : hpet) (us : Z) (m : M) : outcome M := stall_ns fuel h (u64 (us * 1000)) m.
Definition stall_ms (fuel : nat) (h : hpet) (ms : Z) (m : M) : outcome M := stall_ns fuel h (u64 (ms * 1000000)) m.

(** ** PIT *)
Record pit := mkPit { sleeping : bool; sleep_ticks : Z }.

Definition pit_irq (q : irq_state) (p : pit) (m : M) : pit * M :=
  (mkPit (sleeping p) (if sleeping p then u64 (sleep_ticks p - 1) else sleep_ticks p), eoi q m).

Definition set_reload (count : Z) (m : M) : M :=
  out8 0x40 (Z.shiftr count 8) (out8 0x40 (Z.land count 0xFF) (out8 0x43 0x34 m)).
Definition set_divide (divide : Z) (m : M) : M :=
  out8 0x40 (Z.shiftr divide 8) (out8 0x40 (Z.land divide 0xFF) (out8 0x43 0x36 m)).
Definition get_current_count (m : M) : Z * M :=
  let m := out8 0x43 0 m in
  let '(lo, m) := in8 0x40 m in
  let '(hi, m) := in8 0x40 m in
  (u16 (Z.lor (Z.shiftl hi 8) lo), m).

Definition prepare_sleep (ms : Z) (p : pit) (m : M) : pit * M :=
  (mkPit (sleeping p) (u64 (ms * 14565) / 100000), set_divide 8192 m).

(** The loop, during which [irqs] interrupts arrive. *)
Fixpoint sleep_loop (irqs : nat) (q : irq_state) (p : pit) (m : M) : outcome (nat * pit * M) :=
  if sleep_ticks p =? 0 then Ret (irqs, p, m)
  else match irqs with
       | O => Diverge
       | S irqs => let '(p, m) := pit_irq q p m in sleep_loop irqs q p m
       end.
Definition perform_sleep (irqs : nat) (q : irq_state) (p : pit) (m : M) : outcome (nat * pit * M) :=
  '(irqs, p, m) ← sleep_loop irqs q (mkPit true (sleep_ticks p)) m;
  Ret (irqs, mkPit false (sleep_ticks p), m).

(** [irq] is the address of the handler. *)
Definition pit_init (irq : Z) (q : irq_state) (s : idt_state) (m : M) : outcome (idt_state * M) :=
  register_irq 0 irq q s m.

(** ** The APIC timer *)
Record apic_timer := mkApicTimer { timer_freq : Z; timer_vector : Z }.

Definition timer_stop (reg_base : Z) (m : M) : M :=
  LAPIC_mask_vector reg_base LVT_TIMER (LAPIC_write_reg reg_base TIMER_INITIAL 0 m).

Definition timer_ticks (freq us : Z) : Z := u32 (us * (freq / 1000000)).

Definition oneshot (reg_base : Z) (t : apic_timer) (us : Z) (m : M) : M :=
  let m := timer_stop reg_base m in
  let m := LAPIC_set_vector reg_base LVT_TIMER (timer_vector t) false false false false m in
  let m := LAPIC_write_reg reg_base TIMER_DIVIDE 0 m in
  LAPIC_write_reg reg_base TIMER_INITIAL (timer_ticks (timer_freq t) us) m.

(** [init]: [interrupt] is the address of the handler, [wait] stalls for 100 ms,
    by the HPET or the PIT. *)
Definition timer_calibrated (current : Z) : Z := u32 (u32 (u32 (0xFFFFFFFF - current) * 10) * 16).

Definition timer_init (q : irq_state) (interrupt : Z) (h : hpet) (p : pit) (fuel : nat)
    (s : idt_state) (m : M) : outcome (apic_timer * idt_state * pit * M) :=
  '(vector, s) ← allocate_vector s;
  s ← load_idt_handler vector interrupt s;
  let b := reg_base q in
  let m := timer_stop b m in
  let m := LAPIC_set_vector b LVT_TIMER vector false false false true m in
  let m := LAPIC_write_reg b TIMER_DIVIDE 3 m in
  '(p, m) ← (if initialized h then
               let m := LAPIC_write_reg b TIMER_INITIAL 0xFFFFFFFF m in
               m ← stall_ms fuel h 100 m; Ret (p, m)
             else
               let '(p, m) := prepare_sleep 100 p m in
               let m := LAPIC_write_reg b TIMER_INITIAL 0xFFFFFFFF m in
               '(_, p, m) ← perform_sleep fuel q p m; Ret (p, m));
  let '(current, m) := LAPIC_read_reg b TIMER_CURRENT m in
  Ret (mkApicTimer (timer_calibrated current) vector, s, p, timer_stop b m).

(** ** Lemmas *)

(** A sleep of the PIT takes as many interrupts as it has ticks. *)
Lemma sleep_loop_takes n q : forall p m,
  sleeping p = true -> sleep_ticks p = Z.of_nat n -> Z.of_nat n < 2 ^ 64 ->
  forall more, exists m', sleep_loop (n + more) q p m = Ret (more, mkPit true 0, m').
Proof.
  induction n as [|n IH]; intros p m Hs Ht Hn more.
  - exists m. destruct p as [b k]. cbn in Hs, Ht. subst. by destruct more.
  - cbn [plus sleep_loop]. rewrite (proj2 (Z.eqb_neq _ _)) by lia. unfold pit_irq. rewrite Hs.
    apply IH; [done| |lia]. cbn [sleep_ticks]. rewrite wrap_small; lia.
Qed.

(** The registers of the divider and the counter are both given [oneshot]'s
    ticks; they fit when the time is below what 32 bits hold. *)
Lemma timer_ticks_exact freq us :
  0 <= us -> 0 <= freq -> us * (freq / 1000000) < 2 ^ 32 -> timer_ticks freq us = us * (freq / 1000000).
Proof.
  intros Hu Hf Hb. unfold timer_ticks. apply wrap_small. split; [|done].
  apply Z.mul_nonneg_nonneg; [done|]. apply Z.div_pos; lia.
Qed.

(** ** Waiting on the HPET *)

(** A counter that only goes up, by at least one between two reads of it. *)
Class RisingCounter (h : hpet) := {
  counter : M -> Z;
  counter_read : forall m, exists m', generic_read (regs h) 8 MAIN_COUNTER m = Ret (counter m', m') /\ counter m < counter m'
}.

Lemma wait_loop_ends (h : hpet) `{!RisingCounter h} target n : forall m,
  target <= counter m + Z.of_nat n + 1 ->
  exists m', wait_loop (S n) h target m = Ret m' /\ target <= counter m'.
Proof.
  induction n as [|n IH]; intros m Hn; cbn [wait_loop];
    destruct (counter_read m) as (m1 & -> & Hup); ored; destruct (Z.ltb_spec (counter m1) target).
  - lia.
  - by exists m1.
  - apply IH. lia.
  - by exists m1.
Qed.

Lemma stall_ends (h : hpet) `{!RisingCounter h} ns m t0 m0 n :
  initialized h = true -> 0 < period h -> 0 <= ns -> ns * 1000000 < 2 ^ 64 ->
  generic_read (regs h) 8 MAIN_COUNTER m = Ret (t0, m0) -> 0 <= t0 -> t0 + ns * 1000000 / period h < 2 ^ 64 ->
  n = Z.to_nat (ns * 1000000 / period h) ->
  exists m', stall_ns (S n) h ns m = Ret m' /\ ns * 1000000 < (counter m' - t0 + 1) * period h.
Proof.
  intros Hi Hp Hns Hov E Ht0 Htop ->. unfold stall_ns. rewrite Hi, E. ored. cbn [negb].
  destruct (counter_read m) as (m1 & E1 & _). rewrite E in E1. injection E1 as -> <-.
  set (fs := ns * 1000000) in *. rewrite (wrap_small 64 fs) by lia.
  assert (0 <= fs / period h) by (apply Z.div_pos; lia). rewrite wrap_small by lia.
  destruct (wait_loop_ends h (counter m0 + fs / period h) (Z.to_nat (fs / period h)) m0) as (m' & -> & Hm'); [lia|].
  exists m'. split; [done|]. pose proof (Z.mul_succ_div_gt fs (period h) Hp). nia.
Qed.

(** C40. [stall_ns] comes back, after reading the counter at most once more than
    there are ticks to wait for, and not early: less than one period of the
    counter is missing from the time asked for. *)
Theorem stall_waits_long_enough (h : hpet) `{!RisingCounter h} ns m t0 m0 n :
  initialized h = true -> 0 < period h -> 0 <= ns -> ns * 1000000 < 2 ^ 64 ->
  generic_read (regs h) 8 MAIN_COUNTER m = Ret (t0, m0) -> 0 <= t0 -> t0 + ns * 1000000 / period h < 2 ^ 64 ->
  n = Z.to_nat (ns * 1000000 / period h) ->
  exists m', stall_ns (S n) h ns m = Ret m' /\ ns * 1000000 < (counter m' - t0 + 1) * period h.
Proof. apply stall_ends. Qed.

End Timers.

(** ** A machine that is nothing but a counter *)
#[export] Instance clock_machine : Machine Z := {
  mmio_read _ _ c := (c + 1, c + 1);
  mmio_write _ _ _ c := c;
  port_in _ _ c := (0, c);
  port_out _ _ _ c := c;
  rdmsr _ c := (0, 0, c);
  wrmsr _ _ _ c := c
}.

Definition hpet0 : hpet := mkHpet true 10000000 100000000 (mkGenericAddr SYSTEM_MEM 64 0 0 0xFED00000).

#[export] Instance clock_rises : RisingCounter 0 hpet0.
Proof. refine {| counter := fun c : Z => c |}. intros m. exists (m + 1). split; [done|lia]. Defined.

Lemma stall_waits_long_enough_witness :
  exists m', stall_ns 0 101 hpet0 1000 7 = Ret m' /\ 1000 * 1000000 < (m' - 8 + 1) * 10000000.
Proof.
  destruct (stall_waits_long_enough 0 hpet0 1000 7 8 8 100) as (m' & E & H); try reflexivity; try lia.
  exists m'. split; [exact E|exact H].
Defined.

(** A counter above about 4.29 GHz does not fit the arithmetic of the calibration. *)
Example calibration_wraps : timer_calibrated (0xFFFFFFFF - 0x2000000) = 0x40000000.
Proof. reflexivity. Qed.
