(* ===== verification/Sched.v ===== *)
(** * sched/sched.cpp: tasks and the round-robin scheduler

    Tasks are found by their address; a task's link in the scheduler's list is
    the [ListHead] at a fixed offset in it, kept with the other list heads of
    file Paging's memory.  [new] is given the address it returns, and [junk] is
    what the memory held: the constructor of [Task] does not set every field.
    Log lines, the processor's interrupt flag and the two demonstration tasks'
    drawing are left out. *)
From S2P Require Import Prelude Algorithm Bitmap Pmm CString HashMap Vector Keyboard Printf List Vfs Descriptors Tmpfs Paging Machine Interrupts Timers Elf.

(** [cpu::InterruptState] *)
Record InterruptState := mkInterruptState {
  ds : Z; es : Z;
  r15 : Z; r14 : Z; r13 : Z; r12 : Z; r11 : Z; r10 : Z; r9 : Z; r8 : Z;
  rbp : Z; rdi : Z; rsi : Z; rdx : Z; rcx : Z; rbx : Z; rax : Z;
  err : Z;
  rip : Z; cs : Z; rflags : Z; rsp : Z; ss : Z
}.

Definition stack_size : Z := 64 * 1024.

(** The state a task starts in: its segments, where it runs and its stack. *)
Definition initial_state (code data ip stack : Z) : InterruptState :=
  mkInterruptState data data 0 0 0 0 0 0 0 0 0 0 0 0 0 0 0 0 ip code 0x202 stack data.

Record Task := mkTask {
  running_on : Z;
  kernel_stack : Z;
  user_stack : Z;
  tid : Z;
  pagemap : Pagemap;
  gpr_state : InterruptState;
  gs_base : Z;
  fs_base : Z;
  stack : Z;
  blocked : bool;
  fds : Vfs.Task;
  mmap_anon_base : Z
}.

(** [&task->sched_list], and [LIST_ENTRY] back. *)
Definition sched_list (task : Z) : Z := task + 32.
Definition list_entry (link : Z) : Z := link - 32.

Section Sched.
Context {M : Type} `{Machine M}.
Context (hhdm : Z) (junk : Z -> Task) (sched_list_head : Z).

Record sched := mkSched { tasks : gmap Z Task; memory : vm pmm; last_tid : Z; cr3 : Z; machine : M }.

Definition task_at (p : Z) (s : sched) : outcome Task := of_option (tasks s !! p).
Definition set_task (p : Z) (t : Task) (s : sched) : sched :=
  mkSched (<[p := t]> (tasks s)) (memory s) (last_tid s) (cr3 s) (machine s).
Definition set_memory (m : vm pmm) (s : sched) : sched :=
  mkSched (tasks s) m (last_tid s) (cr3 s) (machine s).
Definition set_machine (m : M) (s : sched) : sched :=
  mkSched (tasks s) (memory s) (last_tid s) (cr3 s) m.
Definition set_heads (h : gmap Z ListHead) (m : vm pmm) : vm pmm :=
  mkVm (mem m) (frames m) h (ranges m) (flushed m).

(** [new Task()] at [p] *)
Definition new_Task (p : Z) (s : sched) : sched :=
  let j := junk p in
  let t := mkTask (running_on j) (kernel_stack j) (user_stack j) (last_tid s) (pagemap j)
             (mkInterruptState 0 0 0 0 0 0 0 0 0 0 0 0 0 0 0 0 0 0 0 0 0 0 0)
             (gs_base j) (fs_base j) (stack j) false
             (Vfs.mkTask (Vector.new 0) 0 0 (cwd (fds j))) (mmap_anon_base j) in
  let m := set_heads (<[sched_list p := mkListHead 0 0]> (heads (memory s))) (memory s) in
  mkSched (<[p := t]> (tasks s)) m (u16 (last_tid s + 1)) (cr3 s) (machine s).

Definition enqueue_task (p : Z) (s : sched) : outcome sched :=
  h ← List.add_before sched_list_head (sched_list p) (heads (memory s));
  Ret (set_memory (set_heads h (memory s)) s).

(** [alloc_pages(stack_size / 0x1000)] and its address in the window *)
Definition alloc_stack (s : sched) : outcome (Z * sched) :=
  '(phy, a) ← alloc_pages (stack_size / 0x1000) (frames (memory s));
  Ret (u64 (phy + stack_size + hhdm), set_memory (set_frames a (memory s)) s).

Definition new_kernel_task (p : Z) (kernel : Pagemap) (ip : Z) (enqueue : bool) (s : sched) : outcome sched :=
  let s := new_Task p s in
  '(stk, s) ← alloc_stack s;
  t ← task_at p s;
  let t := mkTask 0 (kernel_stack t) (user_stack t) (tid t) kernel
             (initial_state KERNEL_CODE_64 KERNEL_DATA_64 ip stk)
             (gs_base t) (fs_base t) stk (blocked t) (fds t) (mmap_anon_base t) in
  let s := set_task p t s in
  if enqueue then enqueue_task p s else Ret s.

(** The loop that maps the user stack from [mmap_anon_base] on. *)
Definition map_stack (pm : Pagemap) (base : Z) (m : vm pmm) : outcome (vm pmm) :=
  for_range (Z.to_nat (stack_size / 0x1000)) 0
    (fun i m =>
       '(page_phy, m) ← new_page hhdm m;
       map_page hhdm pm page_phy (u64 (base + i * 0x1000))
         (Z.lor (Z.lor (Z.lor PAGE_PRESENT PAGE_USER) PAGE_WRITABLE) PAGE_NO_EXECUTE) m) m.

(** [list_head] is the address of the new page map's list of ranges. *)
Definition new_user_task {D : Type} (F : FileSystem D) (wild : Z -> Z) (p list_head : Z) (kernel : Pagemap)
    (elf_file : Z) (st : Vfs.vfs D) (enqueue : bool) (s : sched) : outcome sched :=
  let s := new_Task p s in
  '(pml4_phy, m) ← new_page hhdm (memory s);
  let pm := mkPagemap (u64 (pml4_phy + hhdm)) list_head in
  m ← map_kernel kernel pm m;
  h ← List.init list_head (<[list_head := mkListHead 0 0]> (heads m));
  '(kstack, s) ← alloc_stack (set_memory (set_heads h m) s);
  '(ip, base, m) ← Elf.load hhdm F wild pm elf_file st (memory s);
  m ← map_stack pm base m;
  let s := set_memory m s in
  t ← task_at p s;
  v ← push_back (file_descriptors (fds t)) (Some (mkFileDescriptor 0 0));
  v ← push_back v (Some (mkFileDescriptor 0 0));
  v ← push_back v (Some (mkFileDescriptor 0 0));
  let t := mkTask 0 kstack (user_stack t) (tid t) pm
             (initial_state (Z.lor USER_CODE_64 3) (Z.lor USER_DATA_64 3) ip base)
             0 0 base (blocked t) (Vfs.mkTask v 3 3 (root_dir st)) (u64 (base + stack_size)) in
  let s := set_task p t s in
  if enqueue then enqueue_task p s else Ret s.

(** [init] with the addresses of the two demonstration tasks. *)
Definition init (p1 p2 : Z) (kernel : Pagemap) (test_task_1 test_task_2 : Z) (s : sched) : outcome sched :=
  h ← List.init sched_list_head (<[sched_list_head := mkListHead 0 0]> (heads (memory s)));
  s ← new_kernel_task p1 kernel test_task_1 true (set_memory (set_heads h (memory s)) s);
  new_kernel_task p2 kernel test_task_2 true s.

Definition start (reg_base : Z) (timer : apic_timer) (s : sched) : sched :=
  set_machine (oneshot reg_base timer 1000 (machine s)) s.

(** What [dequeue_and_die] does before it halts for ever. *)
Definition dequeue_and_die (s : sched) : outcome sched :=
  let '(current, m) := read_gs_base (machine s) in
  h ← List.remove (sched_list current) (heads (memory s));
  Ret (set_machine m (set_memory (set_heads h (memory s)) s)).

(** ** The timer interrupt *)

(** Saving the interrupted task's registers. *)
Definition save_current (current : Z) (regs : InterruptState) (s : sched) : outcome sched :=
  if current =? 0 then Ret s
  else
    t ← task_at current s;
    let '(gs, m) := read_kernel_gs_base (machine s) in
    let '(fs, m) := read_fs_base m in
    Ret (set_machine m (set_task current
      (mkTask (running_on t) (kernel_stack t) (user_stack t) (tid t) (pagemap t) regs gs fs
         (stack t) (blocked t) (fds t) (mmap_anon_base t)) s)).

Definition next_task (current : Z) (s : sched) : outcome Z :=
  let first :=
    e ← List.empty sched_list_head (heads (memory s));
    if e : bool then Panic
    else n ← get_next sched_list_head (heads (memory s)); Ret (list_entry n) in
  if current =? 0 then first
  else
    n ← get_next (sched_list current) (heads (memory s));
    if negb (n =? 0) && negb (n =? sched_list_head) then Ret (list_entry n) else first.

(** Loading a task: the base registers and its page map. *)
Definition switch_to (p : Z) (s : sched) : outcome (InterruptState * sched) :=
  t ← task_at p s;
  let m := machine s in
  let m := if Z.land (cs (gpr_state t)) 3 =? 3 then write_kernel_gs_base (gs_base t) m
           else write_kernel_gs_base p m in
  let m := write_gs_base p m in
  let m := write_fs_base (fs_base t) m in
  Ret (gpr_state t, mkSched (tasks s) (memory s) (last_tid s) (activate hhdm (pagemap t)) m).

(** [scheduler_isr] on the registers the interrupt saved: the registers it
    returns to, and the state. *)
Definition scheduler_isr (reg_base : Z) (timer : apic_timer) (regs : InterruptState) (s : sched) :
    outcome (InterruptState * sched) :=
  let s := set_machine (timer_stop reg_base (machine s)) s in
  let '(current, m) := read_gs_base (machine s) in
  s ← save_current current regs (set_machine m s);
  next ← next_task current s;
  '(regs, s) ← switch_to next s;
  let m := LAPIC_eoi reg_base (machine s) in
  Ret (regs, set_machine (oneshot reg_base timer (1000000 / 300) m) s).

End Sched.
Arguments sched : clear implicits.

(** ** The order of the tasks *)
Fixpoint after (c : Z) (ts : list Z) : option Z :=
  match ts with [] => None | t :: ts => if decide (t = c) then head ts else after c ts end.

(** The task whose turn is after [c]'s: the next in the list, the first one
    after the last and after a task that is not in the list. *)
Definition successor (c : Z) (ts : list Z) : option Z :=
  match after c ts with Some n => Some n | None => head ts end.

Definition saved (regs : InterruptState) (gs fs : Z) (t : Task) : Task :=
  mkTask (running_on t) (kernel_stack t) (user_stack t) (tid t) (pagemap t) regs gs fs
    (stack t) (blocked t) (fds t) (mmap_anon_base t).

Section isr.
Context {M : Type} `{BaseRegisters M}.
Context (hhdm sched_list_head : Z) (reg_base : Z) (timer : apic_timer).
Implicit Types (s : sched M) (ts : list Z) (c : Z).

(** The scheduler's list is [ts], of tasks that exist. *)
Record sched_ok (s : sched M) (ts : list Z) : Prop := {
  so_ring : ring (heads (memory s)) sched_list_head (sched_list <$> ts);
  so_tasks : forall p, p ∈ ts -> is_Some (tasks s !! p);
  so_range : forall p t, tasks s !! p = Some t ->
    0 < p /\ sched_list p < 2 ^ 64 /\ 0 <= gs_base t < 2 ^ 64 /\ 0 <= fs_base t < 2 ^ 64;
  so_head : sched_list_head <> 0
}.

Definition current (s : sched M) : Z := base_value IA32_GS_BASE (machine s).

(** The running task is in the list, or there is none, or it was taken out. *)
Definition running (s : sched M) (ts : list Z) : Prop :=
  current s = 0 \/
  is_Some (tasks s !! current s) /\
  (current s ∈ ts \/ current s ∉ ts /\ nxt (heads (memory s)) (sched_list (current s)) = Some 0).

Lemma get_next_ring m h l : ring m h l -> get_next h m = Ret (List.hd h l).
Proof. intros [_ Hl%linked_next]. by apply get_next_spec. Qed.

(** In the ring the link after a member is its successor, or the head. *)
Lemma linked_after m x l y c :
  linked m x l y -> NoDup l -> c ∈ l -> nxt m c = Some (default y (after c l)).
Proof.
  revert x. induction l as [|e l IH]; intros x Hl Hnd Hc; [by apply not_elem_of_nil in Hc|].
  cbn [linked] in Hl. destruct Hl as (_ & _ & Hl). apply NoDup_cons in Hnd as [He Hnd]. cbn [after].
  destruct (decide (e = c)) as [->|Hne].
  - rewrite (linked_next m c l y Hl). by destruct l.
  - apply (IH e); [done|done|]. apply elem_of_cons in Hc as [->|Hc]; done.
Qed.

Lemma after_in c ts n : after c ts = Some n -> n ∈ ts.
Proof.
  induction ts as [|t ts IH]; [done|]. cbn [after]. destruct (decide (t = c)) as [->|].
  - destruct ts; [done|]. cbn. intros [= ->]. right. left.
  - intros Hn. right. by apply IH.
Qed.

Lemma after_fmap c ts : after (sched_list c) (sched_list <$> ts) = sched_list <$> after c ts.
Proof.
  induction ts as [|t ts IH]; [done|]. rewrite fmap_cons. cbn [after]. destruct (decide (t = c)) as [->|Hne].
  - rewrite decide_True by done. by destruct ts.
  - rewrite decide_False by (unfold sched_list; lia). apply IH.
Qed.

Lemma after_notin c ts : c ∉ ts -> after c ts = None.
Proof.
  induction ts as [|t ts IH]; intros Hc; [done|]. apply not_elem_of_cons in Hc as [Hct Hc]. cbn [after].
  rewrite decide_False by congruence. by apply IH.
Qed.

Lemma successor_in c ts n : successor c ts = Some n -> n ∈ ts.
Proof.
  unfold successor. destruct (after c ts) as [x|] eqn:E.
  - intros [= <-]. by eapply after_in.
  - destruct ts; [done|]. cbn. intros [= <-]. left.
Qed.

(** The first task of the list, or a panic. *)
Lemma first_spec s ts n :
  sched_ok s ts -> head ts = Some n ->
  (e ← List.empty sched_list_head (heads (memory s));
   if e : bool then Panic else n ← get_next sched_list_head (heads (memory s)); Ret (list_entry n)) = Ret n.
Proof.
  intros Hok Hn. rewrite (empty_spec _ _ _ (so_ring _ _ Hok)). ored.
  rewrite (get_next_ring _ _ _ (so_ring _ _ Hok)). destruct ts as [|t ts]; [done|]. cbn in Hn. injection Hn as ->.
  rewrite bool_decide_false by done. cbn. unfold list_entry, sched_list. f_equal. lia.
Qed.

Lemma next_task_spec s ts c n :
  sched_ok s ts -> successor c ts = Some n ->
  c = 0 \/ is_Some (tasks s !! c) /\ (c ∈ ts \/ c ∉ ts /\ nxt (heads (memory s)) (sched_list c) = Some 0) ->
  next_task sched_list_head c s = Ret n.
Proof.
  intros Hok Hn Hc. unfold next_task. pose proof (so_ring _ _ Hok) as [Hnd Hl].
  apply NoDup_cons in Hnd as [Hh Hnd].
  assert (forall n, after c ts = Some n -> 0 < n) as Hpos.
  { intros x Hx%after_in. destruct (so_tasks _ _ Hok x Hx) as [t Ht]. by destruct (so_range _ _ Hok x t Ht). }
  destruct (Z.eqb_spec c 0) as [->|Hc0].
  - destruct (after 0 ts) as [x|] eqn:Ha.
    + exfalso. assert (0 ∈ ts) as Hin.
      { destruct (decide (0 ∈ ts)); [done|]. by rewrite after_notin in Ha. }
      destruct (so_tasks _ _ Hok 0 Hin) as [t Ht]. destruct (so_range _ _ Hok 0 t Ht). lia.
    + apply (first_spec s ts n Hok). unfold successor in Hn. by rewrite Ha in Hn.
  - destruct Hc as [?|[_ Hc]]; [done|]. unfold successor in Hn. destruct Hc as [Hc|[Hc Hz]].
    + assert (sched_list c ∈ sched_list <$> ts) as Hcl by (by apply list_elem_of_fmap_2).
      pose proof (linked_after _ _ _ _ _ Hl Hnd Hcl) as Hx. rewrite after_fmap in Hx.
      destruct (after c ts) as [x|] eqn:Ha; cbn in Hx; rewrite (get_next_spec _ _ _ Hx); ored.
      * injection Hn as ->. unfold id.
        rewrite (proj2 (Z.eqb_neq (sched_list n) 0)) by (pose proof (Hpos n eq_refl); unfold sched_list; lia).
        rewrite (proj2 (Z.eqb_neq (sched_list n) sched_list_head)).
        2: { intros E. apply Hh. rewrite <- E. apply list_elem_of_fmap_2. by eapply after_in. }
        cbn [negb andb]. unfold list_entry, sched_list. f_equal. lia.
      * unfold id. rewrite Z.eqb_refl, andb_false_r. by apply (first_spec s ts).
    + rewrite (get_next_spec _ _ _ Hz). ored. rewrite after_notin in Hn by done. cbn [Z.eqb negb andb].
      by apply (first_spec s ts).
Qed.

(** ** The devices the handler talks to leave the base registers alone *)
Lemma base_write_reg r reg v m : is_base r = true -> base_value r (LAPIC_write_reg reg_base reg v m) = base_value r m.
Proof. apply base_value_mmio. Qed.

Lemma base_stop r m : is_base r = true -> base_value r (timer_stop reg_base m) = base_value r m.
Proof.
  intros Hr. unfold timer_stop, LAPIC_mask_vector, LAPIC_read_reg.
  destruct (mmio_read _ _ _) as [v m'] eqn:E. rewrite base_write_reg by done.
  change m' with (v, m').2. rewrite <- E, base_value_mmio_read, base_write_reg by done. done.
Qed.

Lemma base_oneshot r us m : is_base r = true -> base_value r (oneshot reg_base timer us m) = base_value r m.
Proof.
  intros Hr. unfold oneshot, LAPIC_set_vector. by rewrite !base_write_reg, base_stop.
Qed.

Lemma save_current_spec s ts c regs :
  sched_ok s ts -> c = 0 \/ is_Some (tasks s !! c) ->
  save_current c regs s
  = Ret (mkSched (if decide (c = 0) then tasks s
                  else alter (saved regs (base_value IA32_KERNEL_GS_BASE (machine s))
                                (base_value IA32_FS_BASE (machine s))) c (tasks s))
           (memory s) (last_tid s) (cr3 s) (machine s)).
Proof.
  intros Hok Hc. unfold save_current. destruct (Z.eqb_spec c 0) as [->|Hc0].
  - rewrite decide_True by done. by destruct s.
  - rewrite decide_False by done. destruct Hc as [?|[t Ht]]; [done|]. unfold task_at. rewrite Ht. ored.
    unfold read_kernel_gs_base, read_fs_base. rewrite !MSR_read_base by done. unfold set_machine, set_task. cbn.
    do 2 f_equal. apply map_eq. intros q. destruct (decide (q = c)) as [->|Hq].
    + rewrite lookup_insert_eq, lookup_alter_eq, Ht. done.
    + by rewrite lookup_insert_ne, lookup_alter_ne.
Qed.

Lemma switch_to_spec s ts n :
  sched_ok s ts -> n ∈ ts ->
  exists t s', switch_to hhdm n s = Ret (gpr_state t, s') /\ tasks s !! n = Some t /\
    tasks s' = tasks s /\ memory s' = memory s /\ last_tid s' = last_tid s /\ cr3 s' = activate hhdm (pagemap t) /\
    base_value IA32_GS_BASE (machine s') = n /\ base_value IA32_FS_BASE (machine s') = fs_base t /\
    base_value IA32_KERNEL_GS_BASE (machine s') = (if Z.land (cs (gpr_state t)) 3 =? 3 then gs_base t else n).
Proof.
  intros Hok Hn. destruct (so_tasks _ _ Hok n Hn) as [t Ht].
  destruct (so_range _ _ Hok n t Ht) as (H1 & H2 & H3 & H4). unfold sched_list in H2.
  unfold switch_to, task_at. rewrite Ht. ored. eexists t, _. split; [done|]. split; [done|]. cbn [tasks memory last_tid cr3 machine].
  split_and!; try done; unfold write_fs_base, write_gs_base, write_kernel_gs_base;
    destruct (Z.land (cs (gpr_state t)) 3 =? 3);
    repeat (rewrite base_value_write by (done || lia); try (rewrite decide_True by done; done); rewrite decide_False by done).
Qed.

Lemma isr_spec s ts regs n :
  sched_ok s ts -> running s ts -> successor (current s) ts = Some n ->
  exists t s', scheduler_isr hhdm sched_list_head reg_base timer regs s = Ret (gpr_state t, s') /\
    tasks s' = (if decide (current s = 0) then tasks s
                else alter (saved regs (base_value IA32_KERNEL_GS_BASE (machine s))
                              (base_value IA32_FS_BASE (machine s))) (current s) (tasks s)) /\
    tasks s' !! n = Some t /\ current s' = n /\ memory s' = memory s /\ last_tid s' = last_tid s /\
    cr3 s' = activate hhdm (pagemap t) /\ base_value IA32_FS_BASE (machine s') = fs_base t /\
    base_value IA32_KERNEL_GS_BASE (machine s') = (if Z.land (cs (gpr_state t)) 3 =? 3 then gs_base t else n) /\
    sched_ok s' ts.
Proof.
  intros Hok Hrun Hn. unfold scheduler_isr.
  set (s1 := set_machine (timer_stop reg_base (machine s)) s).
  unfold read_gs_base. rewrite MSR_read_base by done. cbn [machine set_machine s1].
  rewrite base_stop by done. fold (current s). set (c := current s) in *.
  set (s2 := set_machine _ s1).
  assert (sched_ok s2 ts) as Hok2 by (by destruct Hok).
  assert (c = 0 \/ is_Some (tasks s !! c)) as Hc by (destruct Hrun as [?|[? _]]; auto).
  rewrite (save_current_spec s2 ts c regs Hok2 Hc). ored. cbn [s2 s1 set_machine tasks memory last_tid cr3 machine].
  rewrite !base_stop by done. set (tk := if decide (c = 0) then _ else _).
  assert (forall p, is_Some (tk !! p) <-> is_Some (tasks s !! p)) as Hdom.
  { intros p. subst tk. case_decide; [done|]. by rewrite lookup_alter_is_Some. }
  set (s3 := mkSched tk _ _ _ _).
  assert (sched_ok s3 ts) as Hok3.
  { split; [by apply Hok|intros p Hp; by apply Hdom, (so_tasks _ _ Hok)| |by apply Hok].
    intros p t. cbn [tasks s3]. subst tk. case_decide; [apply (so_range _ _ Hok)|].
    intros Ht. destruct (decide (p = c)) as [->|Hpc].
    - rewrite lookup_alter_eq in Ht. apply fmap_Some in Ht as (t0 & Ht0 & ->).
      destruct (so_range _ _ Hok c t0 Ht0) as (? & ? & _). split; [done|]. split; [done|].
      split; by apply base_value_range.
    - rewrite lookup_alter_ne in Ht by done. by apply (so_range _ _ Hok). }
  rewrite (next_task_spec s3 ts c n Hok3 Hn). 2: { destruct Hrun as [?|[Hs Hr]]; [by left|right]. split; [by apply Hdom|done]. }
  ored. destruct (switch_to_spec s3 ts n Hok3) as (t & s4 & -> & Ht & Etk & Emem & Etid & Ecr3 & Hgs & Hfs & Hkgs);
    [by eapply successor_in|]. ored.
  eexists t, _. split; [done|]. unfold current. cbn [tasks set_machine machine memory last_tid cr3].
  unfold LAPIC_eoi. rewrite !base_oneshot, !base_write_reg by done. rewrite Etk, Emem, Etid.
  split_and!; try done. destruct Hok3 as [K1 K2 K3 K4]. split; cbn [tasks set_machine memory]; rewrite ?Etk, ?Emem; done.
Qed.

(** C13. The timer interrupt saves the interrupted task's registers and base
    registers in that task and in no other, passes the turn to its successor in
    the scheduler's list, the first task when there is none running or when the
    running one was taken out, and returns to that task's saved registers with
    its base registers and page map loaded. *)
Theorem scheduler_isr_switches s ts regs n :
  sched_ok s ts -> running s ts -> successor (current s) ts = Some n ->
  exists t s', scheduler_isr hhdm sched_list_head reg_base timer regs s = Ret (gpr_state t, s') /\
    tasks s' = (if decide (current s = 0) then tasks s
                else alter (saved regs (base_value IA32_KERNEL_GS_BASE (machine s))
                              (base_value IA32_FS_BASE (machine s))) (current s) (tasks s)) /\
    tasks s' !! n = Some t /\ current s' = n /\ memory s' = memory s /\ last_tid s' = last_tid s /\
    cr3 s' = activate hhdm (pagemap t) /\ base_value IA32_FS_BASE (machine s') = fs_base t /\
    base_value IA32_KERNEL_GS_BASE (machine s') = (if Z.land (cs (gpr_state t)) 3 =? 3 then gs_base t else n) /\
    sched_ok s' ts.
Proof. apply isr_spec. Qed.

(** ** Taking turns *)

(** A sequence of timer interrupts: the registers each interrupts, and the
    registers each returns to. *)
Fixpoint run (inputs : list InterruptState) (s : sched M) : outcome (list InterruptState * sched M) :=
  match inputs with
  | [] => Ret ([], s)
  | regs :: inputs =>
      '(o, s) ← scheduler_isr hhdm sched_list_head reg_base timer regs s;
      '(os, s) ← run inputs s;
      Ret (o :: os, s)
  end.

Definition regs_of (s : sched M) (p : Z) : option InterruptState := gpr_state <$> tasks s !! p.

Lemma after_split c pre l : c ∉ pre -> after c (pre ++ c :: l) = head l.
Proof.
  induction pre as [|x pre IH]; intros Hc; cbn [app after]; [by rewrite decide_True|].
  apply not_elem_of_cons in Hc as [Hx Hc]. rewrite decide_False by congruence. by apply IH.
Qed.

Lemma sched_ok_nodup s ts : sched_ok s ts -> NoDup ts.
Proof. intros [[Hnd _] _ _ _]. apply NoDup_cons in Hnd as [_ Hnd]. by apply NoDup_fmap_1 in Hnd. Qed.

(** One turn, from a task of the list: what becomes of the saved registers. *)
Lemma turn s ts c n regs :
  sched_ok s ts -> c ∈ ts -> current s = c -> successor c ts = Some n ->
  exists o s', scheduler_isr hhdm sched_list_head reg_base timer regs s = Ret (o, s') /\ sched_ok s' ts /\
    current s' = n /\ regs_of s' c = Some regs /\ (forall p, p <> c -> regs_of s' p = regs_of s p) /\
    regs_of s' n = Some o.
Proof.
  intros Hok Hc Ecur Hn. destruct (so_tasks _ _ Hok c Hc) as [tc Htc].
  destruct (so_range _ _ Hok c tc Htc) as (Hpos & _).
  destruct (isr_spec s ts regs n Hok) as (t & s' & E & Etk & Ht & Ecur' & _ & _ & _ & _ & _ & Hok').
  - right. rewrite Ecur. split; [by eexists|by left].
  - by rewrite Ecur.
  - rewrite Ecur, decide_False in Etk by lia. exists (gpr_state t), s'. split; [done|]. split; [done|]. split; [done|].
    unfold regs_of. split; [|split; [|by rewrite Ht]].
    + by rewrite Etk, lookup_alter_eq, Htc.
    + intros p Hp. by rewrite Etk, lookup_alter_ne.
Qed.

Lemma Forall2_impl_in {X Y} (P Q : X -> Y -> Prop) l k :
  Forall2 P l k -> (forall x y, x ∈ l -> P x y -> Q x y) -> Forall2 Q l k.
Proof.
  induction 1 as [|x y l k Hxy _ IH]; intros HPQ; constructor; [apply HPQ; [left|done]|].
  apply IH. intros x' y' Hx. apply HPQ. by right.
Qed.

Lemma run_app in1 in2 s :
  run (in1 ++ in2) s = ('(o1, s) ← run in1 s; '(o2, s) ← run in2 s; Ret (o1 ++ o2, s)).
Proof.
  revert s. induction in1 as [|r in1 IH]; intros s; cbn [app run].
  - ored. destruct (run in2 s) as [[o2 s']| | |]; done.
  - destruct (scheduler_isr _ _ _ _ _ _) as [[o s1]| | |]; [|done..]. ored. rewrite IH.
    destruct (run in1 s1) as [[o1 s2]| | |]; [|done..]. ored. by destruct (run in2 s2) as [[o2 s3]| | |].
Qed.

Lemma run_segment ts mid : forall pre c post s inputs,
  ts = pre ++ c :: mid ++ post -> sched_ok s ts -> current s = c -> length inputs = length mid ->
  exists outs s', run inputs s = Ret (outs, s') /\ sched_ok s' ts /\ current s' = List.last (c :: mid) 0 /\
    Forall2 (fun p o => regs_of s p = Some o) mid outs /\
    (forall k p r, (c :: mid) !! k = Some p -> inputs !! k = Some r -> regs_of s' p = Some r) /\
    (forall p, p ∉ take (length mid) (c :: mid) -> regs_of s' p = regs_of s p).
Proof.
  induction mid as [|m mid IH]; intros pre c post s inputs Hts Hok Ecur Hl.
  - destruct inputs; [|done]. exists [], s. split; [done|]. split; [done|]. split; [done|].
    split; [constructor|]. split; [intros k p r _ Hr; by rewrite lookup_nil in Hr|done].
  - destruct inputs as [|r inputs]; [done|]. pose proof (sched_ok_nodup _ _ Hok) as Hnd. rewrite Hts in Hnd.
    apply NoDup_app in Hnd as (_ & Hpre & Hnd).
    destruct (turn s ts c m r Hok) as (o & s1 & E1 & Hok1 & Ecur1 & Hc1 & Hother1 & Hm1); [|done| |].
    { rewrite Hts. apply elem_of_app. right. left. }
    { unfold successor. rewrite Hts, after_split; [done|]. intros Hin. apply (Hpre c Hin). left. }
    destruct (IH (pre ++ [c]) m post s1 inputs) as (outs & s' & E & Hok' & Ecur' & Houts & Hins & Hrest);
      [by rewrite Hts, <- app_assoc|done|done|by injection Hl|].
    apply NoDup_cons in Hnd as [Hcm Hnd]. exists (o :: outs), s'. cbn [run]. rewrite E1. ored. rewrite E. ored.
    split; [done|]. split; [done|]. split; [by rewrite Ecur'|]. split; [|split].
    + constructor; [rewrite <- Hm1; symmetry; apply Hother1; intros ->; apply Hcm; left|].
      apply NoDup_cons in Hnd as [Hm Hnd]. eapply Forall2_impl_in; [exact Houts|].
      intros p o' Hp Hpo. rewrite <- Hpo. symmetry. apply Hother1. intros ->. apply Hcm. right.
      apply elem_of_app. by left.
    + intros [|k] p r' Hp Hr'; cbn in Hp, Hr'.
      * injection Hp as <-. injection Hr' as <-. rewrite Hrest; [done|]. intros Hin.
        apply Hcm. apply elem_of_take in Hin as (j & Hj & _). apply list_elem_of_lookup_2 in Hj.
        change (m :: mid ++ post) with ((m :: mid) ++ post). apply elem_of_app. by left.
      * by apply (Hins k p r').
    + intros p Hp. cbn [length take] in Hp. apply not_elem_of_cons in Hp as [Hpc Hp].
      rewrite Hrest by done. by apply Hother1.
Qed.

(** The last task of the list and the turn after it. *)
Lemma wrap_turn s ts c r :
  sched_ok s ts -> head ts = Some c -> current s = List.last ts 0 ->
  exists o s', scheduler_isr hhdm sched_list_head reg_base timer r s = Ret (o, s') /\ sched_ok s' ts /\
    current s' = c /\ regs_of s' (List.last ts 0) = Some r /\
    (forall p, p <> List.last ts 0 -> regs_of s' p = regs_of s p) /\ regs_of s' c = Some o.
Proof.
  intros Hok Hc Ecur. pose proof (sched_ok_nodup _ _ Hok) as Hnd.
  destruct (exists_last (l := ts)) as (pre & e & E); [by destruct ts|]. rewrite E, List.last_last in *.
  apply NoDup_app in Hnd as (_ & Hpre & _). apply (turn s (pre ++ [e]) e c r Hok); [|done|].
  - apply elem_of_app. right. left.
  - unfold successor. rewrite after_split; [done|]. intros Hin. apply (Hpre e Hin). left.
Qed.

Lemma round_robin_spec s c rest first inputs :
  sched_ok s (c :: rest) -> current s = c -> length inputs = length rest ->
  exists outs s', run (first :: inputs) s = Ret (outs ++ [first], s') /\
    Forall2 (fun p o => regs_of s p = Some o) rest outs /\
    current s' = c /\ sched_ok s' (c :: rest) /\
    Forall2 (fun p r => regs_of s' p = Some r) (c :: rest) (first :: inputs).
Proof.
  intros Hok Ecur Hl.
  destruct (exists_last (l := first :: inputs)) as (ins & r & E); [done|]. rewrite E.
  assert (length ins = length rest) as Hli.
  { apply (f_equal length) in E. rewrite length_app in E. cbn in E. lia. }
  destruct (run_segment (c :: rest) rest [] c [] s ins) as (outs & s1 & E1 & Hok1 & Ecur1 & Houts & Hins & _);
    [by rewrite app_nil_r|done|done|done|].
  destruct (wrap_turn s1 (c :: rest) c r Hok1 eq_refl Ecur1) as (o & s2 & E2 & Hok2 & Ecur2 & Hlast & Hother & Hc2).
  assert (o = first) as ->.
  { destruct ins as [|i ins].
    - destruct rest; [|done]. cbn in Hlast, E. congruence.
    - destruct rest as [|m rest]; [done|]. injection E as -> _.
      pose proof (Hins 0%nat c i eq_refl eq_refl) as Hc1. rewrite Hother in Hc2; [congruence|].
      pose proof (sched_ok_nodup _ _ Hok) as [Hcn _]%NoDup_cons. intros Ec. apply Hcn. rewrite Ec.
      change (List.last (c :: m :: rest) 0) with (List.last (m :: rest) 0). rewrite list_elem_of_In.
      destruct (exists_last (l := m :: rest)) as (pre & e & ->); [done|]. rewrite List.last_last.
      apply in_or_app. right. left. done. }
  exists outs, s2. rewrite run_app, E1. ored. cbn [run]. rewrite E2. ored. split; [done|]. split; [done|].
  split; [done|]. split; [done|]. apply Forall2_same_length_lookup. rewrite <- E in *.
  split; [cbn; lia|]. intros k p r' Hp Hr'. rewrite E in Hr'. apply lookup_snoc_Some in Hr' as [[Hk Hr']|[Hk <-]].
  - rewrite Hother; [by apply (Hins k)|]. intros Ep.
    assert ((c :: rest) !! length rest = Some (List.last (c :: rest) 0)) as Hle.
    { destruct (exists_last (l := c :: rest)) as (pre & e & El); [done|]. rewrite El, List.last_last.
      apply (f_equal length) in El. rewrite length_app in El. cbn in El.
      replace (length rest) with (length pre) by lia. by apply list_lookup_middle. }
    rewrite <- Ep in Hle. pose proof (sched_ok_nodup _ _ Hok) as Hnd.
    pose proof (NoDup_lookup _ _ _ _ Hnd Hp Hle). lia.
  - replace p with (List.last (c :: rest) 0); [done|].
    destruct (exists_last (l := c :: rest)) as (pre & e & El); [done|]. rewrite El, List.last_last.
    rewrite El in Hp. apply (f_equal length) in El. rewrite length_app in El. cbn in El.
    rewrite Hk, Hli in Hp. replace (length rest) with (length pre) in Hp by lia. rewrite list_lookup_middle in Hp; [|done]. congruence.
Qed.


End isr.

(** ** A concrete scheduler: two kernel tasks and the boot code *)
Definition dust (p : Z) : Task :=
  mkTask 7 7 7 7 (mkPagemap 7 7) (initial_state 7 7 7 7) 7 7 7 true (Vfs.mkTask (Vector.new 0) 7 7 7) 7.
Definition kernel_map : Pagemap := mkPagemap (window + 0x1000) 1000.
Definition machine0 : board := board0.

(** 512 physical pages, the first two taken. *)
Definition big_memory : vm pmm :=
  mkVm {[window + 0x1000 := zero_page]} (mkPmm (mkBitmap 0 (3 :: replicate 63 0) 512) 0 0x200000 0x1FE000 0)
    {[1000 := mkListHead 1000 1000]} ∅ [].

Definition sched0 : sched board :=
  match init window dust 500 0x10000 0x20000 kernel_map 0xAAAA 0xBBBB (mkSched ∅ big_memory 0 0 machine0) with
  | Ret s => s
  | _ => mkSched ∅ big_memory 0 0 machine0
  end.
Definition timer0 : apic_timer := mkApicTimer 1000000000 33.
Definition lapic0 : Z := 0xFFFF8000FEE00000.

Lemma sched0_ok : sched_ok 500 sched0 [0x10000; 0x20000].
Proof.
  split.
  - split; [|vm_compute; repeat split; reflexivity].
    apply (bool_decide_eq_true_1 _). vm_compute. reflexivity.
  - intros p [->|[->|[]%not_elem_of_nil]%elem_of_cons]%elem_of_cons; apply is_Some_alt; vm_compute; exact I.
  - assert (forallb (fun '(p, t) => (0 <? p) && (sched_list p <? 2 ^ 64) && (0 <=? gs_base t) && (gs_base t <? 2 ^ 64)
        && (0 <=? fs_base t) && (fs_base t <? 2 ^ 64)) (map_to_list (tasks sched0)) = true) as Hall
      by (vm_compute; reflexivity).
    rewrite forallb_forall in Hall. intros p t Ht. apply elem_of_map_to_list, list_elem_of_In, Hall in Ht. lia.
  - done.
Qed.

Lemma sched0_idle : current sched0 = 0.
Proof. vm_compute. reflexivity. Qed.

Lemma sched0_first : successor (current sched0) [0x10000; 0x20000] = Some 0x10000.
Proof. by rewrite sched0_idle. Qed.

Definition regs0 (n : Z) : InterruptState := initial_state KERNEL_CODE_64 KERNEL_DATA_64 n n.

(** The first interrupt, from the boot code, starts the first task. *)
Lemma scheduler_isr_switches_witness :
  exists t s', scheduler_isr window 500 lapic0 timer0 (regs0 1) sched0 = Ret (gpr_state t, s') /\
    tasks s' = tasks sched0 /\ tasks s' !! 0x10000 = Some t /\ current s' = 0x10000 /\
    cr3 s' = activate window (pagemap t) /\ sched_ok 500 s' [0x10000; 0x20000].
Proof.
  destruct (scheduler_isr_switches window 500 lapic0 timer0 sched0 [0x10000; 0x20000] (regs0 1) 0x10000 sched0_ok
    (or_introl sched0_idle) sched0_first) as (t & s' & H1 & H2 & H3 & H4 & _ & _ & H7 & _ & _ & H10).
  rewrite sched0_idle in H2. exists t, s'. split; [exact H1|]. split; [exact H2|]. split; [exact H3|]. split; [exact H4|]. split; [exact H7|exact H10].
Defined.

Definition sched1 : sched board :=
  match scheduler_isr window 500 lapic0 timer0 (regs0 1) sched0 with Ret (_, s) => s | _ => sched0 end.

Lemma sched1_ok : sched_ok 500 sched1 [0x10000; 0x20000] /\ current sched1 = 0x10000.
Proof.
  destruct (isr_spec window 500 lapic0 timer0 sched0 [0x10000; 0x20000] (regs0 1) 0x10000 sched0_ok
    (or_introl sched0_idle) sched0_first) as (t & s' & E & _ & _ & Ecur & _ & _ & _ & _ & _ & Hok).
  unfold sched1. rewrite E. split; [exact Hok|exact Ecur].
Qed.


(** The first run of the two tasks: where they start, on stacks of their own. *)
Example first_turns :
  match run window 500 lapic0 timer0 [regs0 1; regs0 2; regs0 3] sched0 with
  | Ret (outs, _) => (fun r => (rip r, rsp r)) <$> outs
  | _ => []
  end = [(0xAAAA, window + 0x12000); (0xBBBB, window + 0x22000); (2, 2)].
Proof. vm_compute. reflexivity. Qed.

(** After a task took itself out the next interrupt goes to the first task. *)
Example after_a_death :
  match (s ← dequeue_and_die sched1; scheduler_isr window 500 lapic0 timer0 (regs0 4) s) with
  | Ret (r, s) => (rip r, current s)
  | _ => (0, 0)
  end = (0xBBBB, 0x20000).
Proof. vm_compute. reflexivity. Qed.

(** A user task starts with its stack pointer at the low end of the pages mapped
    for its stack: its first push is below them. *)
Definition user_sched : outcome (sched board) :=
  new_user_task window dust 500 F0 Mkfs.zero 0x30000 3000 kernel_map 7 tree_elf true sched0.

Example user_stack_points_below_its_pages :
  match user_sched with
  | Ret s =>
      match tasks s !! 0x30000 with
      | Some t =>
          let page_at v := translate window (mem (memory s)) (pml4 (pagemap t)) v in
          let sp := rsp (gpr_state t) in
          (sp, bool_decide (is_Some (page_at sp)), bool_decide (is_Some (page_at (sp + stack_size - 8))),
           bool_decide (is_Some (page_at (sp + stack_size))),
           (fun e => Z.land e PAGE_WRITABLE) <$> page_at (sp - 8))
      | None => (0, false, false, false, None)
      end
  | _ => (0, false, false, false, None)
  end = (0x402000, true, true, false, Some 0).
Proof. vm_compute. reflexivity. Qed.
