(* ===== verification/Traps.v ===== *)
(** * cpu/interrupts/idt.cpp: what the handlers of exceptions and page faults do

    On the state of file Sched: a handler either returns to what was
    interrupted, or takes the running task out of the scheduler's list and
    halts until the timer, or the kernel panics.  CR2 is an argument.  What is
    printed is in file Report, but for the name of the exception. *)
From S2P Require Import Prelude Algorithm Bitmap Pmm CString Printf List Paging Machine Interrupts Timers Sched AddressSpace.

Definition exception_strings : list cstring :=
  lit <$> ["Division by 0"; "Debug"; "NMI"; "Breakpoint"; "Overflow"; "Bound range exceeded"; "Invalid opcode";
    "Device not available"; "Double fault"; "???"; "Invalid TSS"; "Segment not present"; "Stack-segment fault";
    "General protection fault"; "Page fault"; "???"; "x87 exception"; "Alignment check"; "Machine check";
    "SIMD exception"; "Virtualisation"; "???"; "???"; "???"; "???"; "???"; "???"; "???"; "???"; "???"; "Security"]%string.

(** [err_name] *)
Definition err_name (vec : Z) : outcome cstring :=
  if vec <? 19 then of_option (zlookup exception_strings vec) else Ret (lit "Reserved").

Lemma err_name_returns vec : 0 <= vec -> exists nm, err_name vec = Ret nm.
Proof.
  intros Hv. unfold err_name. destruct (Z.ltb_spec vec 19); [|by eexists].
  destruct (zlookup_is_Some exception_strings vec) as [nm ->]; [cbn; lia|]. by exists nm.
Qed.

Inductive ending := Resumed | Halted.
#[export] Instance ending_eq_dec : EqDecision ending.
Proof. solve_decision. Defined.

Definition user_mode (regs : InterruptState) : bool := Z.land (cs regs) 3 =? 3.

Section Traps.
Context {M : Type} `{BaseRegisters M}.
Context (hhdm : Z) (sched_list_head : Z) (kernel : Pagemap).
Implicit Types (s : sched M) (ts : list Z).

Definition exception_handler (vec : Z) (regs : InterruptState) (s : sched M) : outcome (ending * sched M) :=
  _ ← err_name vec;
  if user_mode regs then
    let '(task, m) := read_gs_base (machine s) in
    t ← task_at task s;
    s ← dequeue_and_die (set_machine m s);
    Ret (Halted, s)
  else Panic.

Definition page_fault_handler (vec cr2 : Z) (regs : InterruptState) (s : sched M) : outcome (ending * sched M) :=
  '(pm, m) ← (if user_mode regs then
                let '(task, m) := read_gs_base (machine s) in
                t ← task_at task s; Ret (pagemap t, m)
              else Ret (kernel, machine s));
  '(refused, v) ← handle_page_fault hhdm pm cr2 (memory s);
  let s := set_machine m (set_memory v s) in
  if refused : bool then exception_handler vec regs s else Ret (Resumed, s).

(** ** Faults leave the lists alone *)
Lemma write_entry_lists t i e (v v' : vm pmm) :
  write_entry t i e v = Ret v' -> heads v' = heads v /\ ranges v' = ranges v.
Proof. unfold write_entry. intros Hw. inv_ret. done. Qed.

Lemma next_level_lists t i (v : vm pmm) t' v' :
  page_table_next_level hhdm t i v = Ret (t', v') -> heads v' = heads v /\ ranges v' = ranges v.
Proof.
  unfold page_table_next_level, new_page. intros Hn. apply bind_Ret in Hn as (e & _ & Hn).
  destruct (present e); [by injection Hn as <- <-|]. apply bind_Ret in Hn as ([p v1] & Ha & Hn).
  apply bind_Ret in Ha as ([q a] & _ & [= <- <-]). apply bind_Ret in Hn as (v2 & Hw%write_entry_lists & [= _ <-]).
  exact Hw.
Qed.

Lemma descend_lists pm virt (v : vm pmm) t v' :
  descend hhdm pm virt v = Ret (t, v') -> heads v' = heads v /\ ranges v' = ranges v.
Proof.
  unfold descend. intros Hd. apply bind_Ret in Hd as ([t1 v1] & [H1 R1]%next_level_lists & Hd).
  apply bind_Ret in Hd as ([t2 v2] & [H2 R2]%next_level_lists & [H3 R3]%next_level_lists). split; congruence.
Qed.

Lemma fault_lists pm virt (v : vm pmm) b v' :
  handle_page_fault hhdm pm virt v = Ret (b, v') -> heads v' = heads v /\ ranges v' = ranges v.
Proof.
  unfold handle_page_fault. intros Hf. apply bind_Ret in Hf as ([t v1] & [Hh1 Hr1]%descend_lists & Hf).
  apply bind_Ret in Hf as (e & _ & Hf). destruct (negb (present e)); [|by injection Hf as _ <-].
  apply bind_Ret in Hf as ([p|] & _ & Hf); [|by injection Hf as _ <-].
  apply bind_Ret in Hf as (r & _ & Hf). destruct (range_kind r).
  - apply bind_Ret in Hf as (v2 & [Hh2 Hr2]%write_entry_lists & [= _ <-]). split; congruence.
  - apply bind_Ret in Hf as ([f v2] & Hn & Hf). unfold new_page in Hn. apply bind_Ret in Hn as ([q a] & _ & [= <- <-]).
    apply bind_Ret in Hf as (v3 & [Hh2 Hr2]%write_entry_lists & [= _ <-]). cbn in *. split; congruence.
Qed.

Lemma sched_ok_heads s s' ts :
  heads (memory s') = heads (memory s) -> tasks s' = tasks s -> sched_ok sched_list_head s ts -> sched_ok sched_list_head s' ts.
Proof. intros Eh Et [Hr Ht Hb Hh]. split; rewrite ?Eh, ?Et; done. Qed.

(** The running task taken out of the list. *)
Lemma dequeue_spec s ts1 p ts2 :
  sched_ok sched_list_head s (ts1 ++ p :: ts2) -> current s = p ->
  exists s', dequeue_and_die s = Ret s' /\ sched_ok sched_list_head s' (ts1 ++ ts2) /\ tasks s' = tasks s /\
    current s' = p /\ running s' (ts1 ++ ts2) /\ mem (memory s') = mem (memory s) /\
    frames (memory s') = frames (memory s) /\ ranges (memory s') = ranges (memory s) /\ cr3 s' = cr3 s /\
    List.frame (heads (memory s)) (heads (memory s')) (sched_list_head :: (sched_list <$> (ts1 ++ p :: ts2))).
Proof.
  intros Hok Hcur. pose proof (so_ring _ _ _ Hok) as Hring. rewrite fmap_app, fmap_cons in Hring.
  destruct (remove_entry _ _ _ _ _ Hring) as (h & Er & Hring' & Hz & _ & Hframe). pose proof Hring as [Hnd _].
  unfold dequeue_and_die, read_gs_base. rewrite MSR_read_base by done. unfold current in Hcur. rewrite Hcur, Er. ored.
  eexists. split; [done|]. cbn [memory tasks set_machine set_memory set_heads mem heads machine].
  assert (p ∉ ts1 ++ ts2) as Hp.
  { intros Hp. apply NoDup_cons in Hnd as [_ Hnd]. rewrite <- Permutation_middle in Hnd. apply NoDup_cons in Hnd as [Hnot _].
    apply Hnot. rewrite <- fmap_app. by apply list_elem_of_fmap_2. }
  assert (is_Some (tasks s !! p)) as Htp by (apply (so_tasks _ _ _ Hok); set_solver).
  split; [split|split; [done|split; [done|split; [|split_and!; try done]]]].
  - cbn. by rewrite fmap_app.
  - cbn. intros q Hq. apply (so_tasks _ _ _ Hok). set_solver.
  - apply (so_range _ _ _ Hok).
  - apply (so_head _ _ _ Hok).
  - right. unfold current. cbn. rewrite Hcur. split; [done|]. right. by split.
  - cbn. by rewrite fmap_app, fmap_cons.
Qed.


(** A fault the kernel takes itself on an address outside its own ranges, the
    running task's memory included, is the end. *)
Lemma kernel_fault_outside_panics s vec cr2 regs l :
  user_mode regs = false -> 0 <= hhdm <= 2 ^ 64 - 2 ^ 46 -> inv hhdm (memory s) (pml4 kernel) ->
  supply 4 (frames (memory s)) -> ranges_ok (memory s) kernel l ->
  (forall q r, q ∈ l -> ranges (memory s) !! q = Some r -> present (page_flags r) = true) ->
  first_range (memory s) cr2 l = None -> 0 <= vec < 19 ->
  page_fault_handler vec cr2 regs s = Panic.
Proof.
  intros Hmode Hh Hinv Hsup Hr Hfl Hnone Hvec. unfold page_fault_handler. rewrite Hmode. ored.
  destruct (fault_spec hhdm Hh (memory s) kernel cr2 l Hinv Hsup Hr Hfl) as (refused & v & -> & _ & Hres). ored.
  rewrite Hnone in Hres. assert (refused = true) as -> by (by destruct (translate _ _ _ _), Hres).
  unfold exception_handler, err_name. rewrite (proj2 (Z.ltb_lt _ _)) by lia.
  destruct (zlookup_is_Some exception_strings vec) as [nm ->]; [cbn; lia|]. ored. by rewrite Hmode.
Qed.

End Traps.

(** ** The two tasks of file Sched, the first with one page reserved *)
Definition reserving (s : sched board) : sched board :=
  let v := memory s in
  set_memory (mkVm (mem v) (frames v) (<[4000 := mkListHead 1000 1000]> (<[1000 := mkListHead 4000 4000]> (heads v)))
                {[4000 := mkMappedRange 0x400000 0x1000 (mmap_flags PROT_WRITE) ANONYMOUS]} []) s.
Definition sched2 : sched board := reserving sched1.
Definition user_regs : InterruptState := initial_state (Z.lor USER_CODE_64 3) (Z.lor USER_DATA_64 3) 0x1234 0x5678.

Lemma reserving_tasks s : tasks (reserving s) = tasks s.
Proof. done. Qed.

Lemma sched2_ok : sched_ok 500 sched2 ([] ++ 0x10000 :: [0x20000]).
Proof.
  destruct sched1_ok as [[Hr Ht Hb Hh] _]. split.
  - split; [exact (proj1 Hr)|]. vm_compute. repeat split; reflexivity.
  - unfold sched2. rewrite reserving_tasks. exact Ht.
  - unfold sched2. rewrite reserving_tasks. exact Hb.
  - exact Hh.
Qed.

Lemma sched2_inv : inv window (memory sched2) (pml4 kernel_map).
Proof.
  apply (inv_cleared window (memory sched2) (pml4 kernel_map) 0x1000).
  - split; [split; [by vm_compute|split; [split; by vm_compute|by vm_compute]]|]. split; by vm_compute.
  - split; [lia|]. split; [reflexivity|vm_compute; reflexivity].
  - reflexivity.
  - vm_compute. reflexivity.
Qed.


(** A fault elsewhere takes the task out, and the timer finds the other one. *)
Example a_crash_leaves_the_other_task :
  match ('(e, s) ← page_fault_handler window kernel_map 14 0x500000 user_regs sched2;
         '(r, s) ← scheduler_isr window 500 lapic0 timer0 (regs0 9) s; Ret (e, rip r, current s)) with
  | Ret x => x
  | _ => (Resumed, 0, 0)
  end = (Halted, 0xBBBB, 0x20000).
Proof. vm_compute. reflexivity. Qed.

(** The kernel's own faults outside its ranges end in a panic. *)
Example kernel_fault_panics : page_fault_handler window kernel_map 14 0x500000 (regs0 9) sched2 = Panic.
Proof. vm_compute. reflexivity. Qed.

(** Vectors from 19 on are called reserved although they have names. *)
Example named_exception_is_reserved :
  zlookup exception_strings 19 = Some (lit "SIMD exception") /\ err_name 19 = Ret (lit "Reserved").
Proof. split; reflexivity. Qed.

(** The kernel serves its own faults from its own ranges only.  While a system
    call runs the tables are the task's, and so are the addresses of its
    buffers: a page that the task reserved and did not touch yet is served when
    the program touches it, and stops the kernel when a call such as read
    does. *)
Definition other_map : Pagemap := mkPagemap (window + 0x2000) 1001.
Definition sched3 : sched board :=
  let v := memory sched2 in
  set_memory (mkVm (<[window + 0x2000 := zero_page]> (mem v)) (frames v) (<[1001 := mkListHead 1001 1001]> (heads v)) (ranges v) []) sched2.

Example system_calls_do_not_fault_pages_in :
  match page_fault_handler window other_map 14 0x400ABC user_regs sched3 with Ret (e, _) => e = Resumed | _ => False end /\
  page_fault_handler window other_map 14 0x400ABC (regs0 9) sched3 = Panic.
Proof. split; vm_compute; reflexivity. Qed.
