(* ===== verification/Processes.v ===== *)
(** * Processes: several programs on one kernel

    The scheduler of file Sched, the traps of file Traps, the page maps of file
    Paging and mmap, put together as the events of a machine that runs any
    number of user tasks.  An event is what the processor does next: an
    instruction that reads or writes memory, of the running program or of the
    kernel in one of the program's system calls, an exception, a page fault of
    the kernel, the timer, and what a system call does to the task.  Of the
    twelve system calls exit and mmap are events of their own.  The ten on files
    reach a program's memory by loads and stores at the addresses it gives and
    change the task's descriptors and working directory, an event each; file
    Calls puts those that store in its memory together from them. *)
From S2P Require Import Prelude Algorithm Bitmap Pmm CString HashMap Vector Keyboard Printf List Vfs Descriptors Tmpfs Paging AddressSpace Spaces Demand Machine Interrupts Cpu Timers Elf Sched Traps.

Section Processes.
Context {M : Type} `{BaseRegisters M}.
Context (hhdm sched_list_head : Z) (kernel : Pagemap) (reg_base : Z) (timer : apic_timer).
Implicit Types (s : sched M) (ts : list Z) (p q : Z).

(** The page map the processor uses is the one CR3 points to. *)
Definition mmu s : Pagemap := mkPagemap (u64 (cr3 s + hhdm)) 0.

(** One attempt at an instruction that reads, or writes, the word [w]; [regs] says
    in which mode.  In the kernel's the processor does not ask for the user's
    right to the page. *)
Definition load_word (regs : InterruptState) (w : Z) s : outcome (ending * sched M) :=
  match entry_for hhdm (needs (user_mode regs) false) (mmu s) (8 * w) (memory s) with
  | Some _ => Ret (Resumed, s)
  | None => page_fault_handler hhdm kernel 14 (8 * w) regs s
  end.
Definition store_word (regs : InterruptState) (w x : Z) s : outcome (ending * sched M) :=
  match entry_for hhdm (needs (user_mode regs) true) (mmu s) (8 * w) (memory s) with
  | Some e => v ← write_entry (Demand.frame hhdm e) (word_index (8 * w)) x (memory s); Ret (Resumed, set_memory v s)
  | None => page_fault_handler hhdm kernel 14 (8 * w) regs s
  end.

(** [syscall_mmap] of the running task; [range] is what [new] returns. *)
Definition set_anon_base (base : Z) (t : Task) : Task :=
  mkTask (running_on t) (kernel_stack t) (user_stack t) (tid t) (pagemap t) (gpr_state t) (gs_base t) (fs_base t)
    (stack t) (blocked t) (fds t) base.
Definition mmap (range len prot flags : Z) s : outcome (Z * sched M) :=
  let '(p, m) := read_gs_base (machine s) in
  t ← task_at p s;
  '(r, base, v) ← syscall_mmap range (pagemap t) (mmap_anon_base t) len prot flags (memory s);
  Ret (r, set_machine m (set_memory v (set_task p (set_anon_base base t) s))).

(** The descriptors and the working directory of the running task. *)
Definition with_fds (f : Vfs.Task) (t : Task) : Task :=
  mkTask (running_on t) (kernel_stack t) (user_stack t) (tid t) (pagemap t) (gpr_state t) (gs_base t) (fs_base t)
    (stack t) (blocked t) f (mmap_anon_base t).
Definition set_fds (f : Vfs.Task) s : outcome (sched M) :=
  let '(p, m) := read_gs_base (machine s) in
  t ← task_at p s;
  Ret (set_machine m (set_task p (with_fds f t) s)).

Inductive event :=
| Load (regs : InterruptState) (w : Z)
| Store (regs : InterruptState) (w x : Z)
| Mmap (range len prot flags : Z)
| Files (f : Vfs.Task)
| Exit
| Exception (vec : Z) (regs : InterruptState)
| KernelFault (vec cr2 : Z) (regs : InterruptState).

(** [syscall_exit] is [dequeue_and_die]. *)
Definition handle (ev : event) s : outcome (ending * sched M) :=
  match ev with
  | Load regs w => load_word regs w s
  | Store regs w x => store_word regs w x s
  | Mmap range len prot flags => '(_, s) ← mmap range len prot flags s; Ret (Resumed, s)
  | Files f => s ← set_fds f s; Ret (Resumed, s)
  | Exit => s ← dequeue_and_die s; Ret (Halted, s)
  | Exception vec regs => exception_handler vec regs s
  | KernelFault vec cr2 regs => page_fault_handler hhdm kernel vec cr2 regs s
  end.

(** The running task is a program: its page map is not the kernel's. *)
Definition program s p : Prop := exists t, tasks s !! p = Some t /\ pagemap t <> kernel.

(** No list head and no task's link is at [range]. *)
Definition fresh (range : Z) s : Prop :=
  heads (memory s) !! range = None /\ forall q t, tasks s !! q = Some t -> range <> sched_list q.

(** Other addresses the processor refuses with an exception of their own. *)
Definition canonical (a : Z) : Prop := 0 <= a < 2 ^ 47 \/ 2 ^ 64 - 2 ^ 47 <= a < 2 ^ 64.

(** Where the kernel stores for a program: in the program's half. *)
Definition in_reach (regs : InterruptState) (w : Z) : Prop :=
  if user_mode regs then canonical (8 * w) else 0 <= 8 * w < 2 ^ 47.

(** The events there can be in [s].  [new] returns an address without a live
    object.  Two conditions are the programs' duty, for the kernel does not
    check: a program asks [mmap] for less than is left of its half of the
    address space, and the buffers it gives to system calls lie in its half. *)
Definition possible (ev : event) s : Prop :=
  match ev with
  | Load _ w => program s (current s) /\ canonical (8 * w)
  | Store regs w _ => program s (current s) /\ in_reach regs w
  | Exception vec regs => program s (current s) /\ user_mode regs = true /\ 0 <= vec
  | Mmap range len _ _ =>
      program s (current s) /\ fresh range s /\ 0 <= len /\
      forall t, tasks s !! current s = Some t -> mmap_anon_base t + len + 0x1000 < 2 ^ 47
  | Files _ | Exit => program s (current s)
  | KernelFault vec _ regs => user_mode regs = false /\ 0 <= vec
  end.

(** A task that was halted waits for the timer.  A panic is no step: the
    machine stops. *)
Inductive moves : ending * sched M -> ending * sched M -> Prop :=
| moves_tick e s regs r s' :
    scheduler_isr hhdm sched_list_head reg_base timer regs s = Ret (r, s') -> moves (e, s) (Resumed, s')
| moves_event ev s st' : possible ev s -> handle ev s = Ret st' -> moves (Resumed, s) st'.

(** ** The invariant *)

(** A range of a program: anonymous and inside the lower half. *)
Record tame (r : MappedRange) : Prop := {
  tm_kind : range_kind r = ANONYMOUS;
  tm_present : present (page_flags r) = true;
  tm_flags : Z.land (page_flags r) ADDR = 0;
  tm_place : 0 <= range_base r /\ 0 <= range_length r /\ range_base r + range_length r < 2 ^ 47 }.

(** [P] are the programs by task, with their page maps and lists of ranges. *)
Implicit Types (P : gmap Z (Pagemap * list Z)) (lk : list Z).

Definition user_root P (r : Z) : Prop := exists p x, P !! p = Some x /\ r = pml4 x.1.
Definition nodes (x : Pagemap * list Z) : list Z := range_list_head x.1 :: x.2.

(** The list heads of the ranges. *)
Definition old_node P lk (z : Z) : Prop := z ∈ nodes (kernel, lk) \/ exists p x, P !! p = Some x /\ z ∈ nodes x.

Record programs_ok P lk s : Prop := {
  po_task p t : tasks s !! p = Some t -> P !! p = None -> pagemap t = kernel;
  po_program p x : P !! p = Some x -> exists t, tasks s !! p = Some t /\ pagemap t = x.1 /\ x.1 <> kernel /\
    0 <= pml4 x.1 < 2 ^ 64 /\ 0 <= mmap_anon_base t < 2 ^ 47;
  po_ranges p x : P !! p = Some x -> ranges_ok (memory s) x.1 x.2 /\
    forall r rg, r ∈ x.2 -> ranges (memory s) !! r = Some rg -> tame rg;
  po_kernel : ranges_ok (memory s) kernel lk /\
    forall r rg, r ∈ lk -> ranges (memory s) !! r = Some rg ->
      present (page_flags rg) = true /\ Z.land (page_flags rg) PAGE_USER = 0;
  po_distinct p1 p2 x1 x2 : P !! p1 = Some x1 -> P !! p2 = Some x2 -> p1 <> p2 ->
    pml4 x1.1 <> pml4 x2.1 /\ forall z, z ∈ nodes x1 -> z ∉ nodes x2;
  po_apart p x z : P !! p = Some x -> z ∈ nodes x -> z ∉ nodes (kernel, lk);
  po_links z : old_node P lk z ->
    z <> sched_list_head /\ forall q t, tasks s !! q = Some t -> z <> sched_list q;
  po_memory : private hhdm (pml4 kernel) (user_root P) (memory s) }.

Record system_ok P lk ts (st : ending * sched M) : Prop := {
  sy_sched : sched_ok sched_list_head st.2 ts;
  sy_running : running st.2 ts;
  sy_live : st.1 = Resumed -> current st.2 = 0 \/ current st.2 ∈ ts;
  sy_dead : st.1 = Halted -> current st.2 ∉ ts;
  sy_programs : programs_ok P lk st.2;
  sy_cr3 t : tasks st.2 !! current st.2 = Some t -> cr3 st.2 = activate hhdm (pagemap t) }.

(** ** Lemmas on the invariant *)

(** What a step leaves alone: every task but the running one, with its ranges
    and what its program sees. *)
Definition quiet P s s' : Prop := forall q x, P !! q = Some x -> same_view hhdm (memory s) (memory s') (pml4 x.1).

(** The word [w] as the program with root [u] finds it; [None]: not there yet. *)
Definition word_seen (v : vm pmm) (u w : Z) : option Z :=
  y ← Spaces.shown hhdm v u (8 * w); zlookup y.2 (w mod 512).

(** The running program's memory after a step that stores [wr]: a word comes
    into being as 0, and only a store changes it. *)
Definition own_words P s s' (wr : option (Z * Z)) : Prop :=
  forall x w, P !! current s = Some x -> 0 <= 8 * w < 2 ^ 47 ->
    let before := word_seen (memory s) (pml4 x.1) w in
    let now := word_seen (memory s') (pml4 x.1) w in
    now = before \/ before = None /\ now = Some 0 \/ exists y, wr = Some (w, y) /\ now = Some y.

Definition keeps P lk ts s (wr : option (Z * Z)) (st' : ending * sched M) : Prop :=
  own_words P s st'.2 wr /\
  exists P' ts', system_ok P' lk ts' st' /\ ts' ⊆ ts /\ (forall q, fst <$> P' !! q = fst <$> P !! q) /\
    forall q, q <> current s ->
      P' !! q = P !! q /\ tasks st'.2 !! q = tasks s !! q /\
      forall x, P !! q = Some x -> same_view hhdm (memory s) (memory st'.2) (pml4 x.1).

Lemma index4_lower v : 0 <= v < 2 ^ 47 -> index4 v < 256.
Proof.
  intros Hv. unfold index4. change 0x1FF with (Z.ones 9). rewrite Z.land_ones, Z.shiftr_div_pow2 by lia.
  assert (v / 2 ^ 39 < 2 ^ 8) by (apply Z.div_lt_upper_bound; lia). assert (0 <= v / 2 ^ 39) by (apply Z.div_pos; lia).
  rewrite Z.mod_small by lia. lia.
Qed.

Lemma same_view_trans (v1 v2 v3 : vm pmm) u : same_view hhdm v1 v2 u -> same_view hhdm v2 v3 u -> same_view hhdm v1 v3 u.
Proof. intros H1 H2 v Hv. by rewrite H2, H1. Qed.

Lemma view_words (v v' : vm pmm) u w : same_view hhdm v v' u -> 0 <= 8 * w < 2 ^ 47 -> word_seen v' u w = word_seen v u w.
Proof. intros Hv Hw. unfold word_seen. rewrite Hv; [done|]. by apply index4_lower. Qed.

Lemma quiet_words P s s' : quiet P s s' -> own_words P s s' None.
Proof. intros Hq x w Hx Hw. left. apply view_words; [by apply (Hq (current s))|done]. Qed.

Lemma private_roots k U U' (v : vm pmm) : (forall r, U r <-> U' r) -> private hhdm k U v -> private hhdm k U' v.
Proof.
  intros HU [Hs Hk Hf Ho He]. split.
  - apply (spaces_subset hhdm v (roots k U)); [|done]. intros r [->|Hr]; [by left|right; by apply HU].
  - by rewrite <- HU.
  - intros u w e Hu Hw Hx. destruct (Hf u w e) as [Hd Hws]; [by apply HU|done|done|]. split; [|done].
    intros r [->|Hr]; apply Hd; [by left|right; by apply HU].
  - intros u1 u2 v1 v2 e1 e2 H1 H2. apply Ho; by apply HU.
  - intros r w e [->|Hr]; apply He; [by left|right; by apply HU].
Qed.

Lemma root_of P q x : P !! q = Some x -> roots (pml4 kernel) (user_root P) (pml4 x.1).
Proof. intros Hx. right. by exists q, x. Qed.

(** A change of pages, and of list heads that are none of the ranges'. *)
Definition task_space (t : Task) : Pagemap * Z := (pagemap t, mmap_anon_base t).

(** [s'] has the tasks of [s], and maybe more of the kernel's. *)
Record more_tasks P lk s s' : Prop := {
  mt_old q t : tasks s !! q = Some t -> exists t', tasks s' !! q = Some t' /\ task_space t' = task_space t;
  mt_new q t' : tasks s' !! q = Some t' -> tasks s !! q = None ->
    pagemap t' = kernel /\ forall z, old_node P lk z -> z <> sched_list q }.

Lemma programs_frame P lk s s' S :
  programs_ok P lk s -> more_tasks P lk s s' ->
  List.frame (heads (memory s)) (heads (memory s')) S -> (forall z, old_node P lk z -> z ∉ S) ->
  ranges (memory s') = ranges (memory s) -> private hhdm (pml4 kernel) (user_root P) (memory s') ->
  programs_ok P lk s'.
Proof.
  intros [Htask Hprog Hran Hker Hdis Hap Hlinks _] [Hold Hnew] Hf HS Er Hp.
  assert (forall q t', tasks s' !! q = Some t' -> (exists t, tasks s !! q = Some t /\ task_space t' = task_space t) \/
    pagemap t' = kernel /\ forall z, old_node P lk z -> z <> sched_list q) as Hcase.
  { intros q t' Hq. destruct (tasks s !! q) as [t|] eqn:E; [|right; by apply Hnew]. left. exists t. split; [done|].
    destruct (Hold q t E) as (t1 & Ht1 & Es). congruence. }
  split.
  - intros p t Hp' HP. destruct (Hcase p t Hp') as [(t1 & Ht1 & [= -> _])|[? _]]; [by apply (Htask p)|done].
  - intros p x HP. destruct (Hprog p x HP) as (t & Ht & Epm & Hrest). destruct (Hold p t Ht) as (t' & Ht' & [= E1 E2]).
    exists t'. by rewrite E1, E2.
  - intros p x HP. destruct (Hran p x HP) as [[Hring Hdom] Htame]. rewrite Er. split; [split|done].
    + apply (ring_frame _ _ _ _ S Hring Hf). intros z Hz. apply HS. right. by exists p, x.
    + by rewrite Er.
  - destruct Hker as [[Hring Hdom] Hfl]. rewrite Er. split; [split|done].
    + apply (ring_frame _ _ _ _ S Hring Hf). intros z Hz. apply HS. by left.
    + by rewrite Er.
  - done.
  - done.
  - intros z Hz. destruct (Hlinks z Hz) as [H1 H2]. split; [done|]. intros q t Hq.
    destruct (Hcase q t Hq) as [(t' & Ht' & _)|[_ Hne]]; [by apply (H2 q t')|by apply Hne].
  - done.
Qed.

Lemma same_tasks P lk s s' : (forall q, task_space <$> tasks s' !! q = task_space <$> tasks s !! q) -> more_tasks P lk s s'.
Proof.
  intros Ht. split.
  - intros q t Hq. specialize (Ht q). rewrite Hq in Ht. by apply fmap_Some in Ht as (t' & ? & ?); exists t'.
  - intros q t' Hq Hn. specialize (Ht q). by rewrite Hq, Hn in Ht.
Qed.

(** Only pages change. *)
Lemma programs_pages P lk s s' :
  programs_ok P lk s -> tasks s' = tasks s -> heads (memory s') = heads (memory s) -> ranges (memory s') = ranges (memory s) ->
  private hhdm (pml4 kernel) (user_root P) (memory s') -> programs_ok P lk s'.
Proof.
  intros Hp Et Eh Er Hpv. apply (programs_frame P lk s s' []); try done.
  - apply same_tasks. intros q. by rewrite Et.
  - intros z _. by rewrite Eh.
  - intros z _. apply not_elem_of_nil.
Qed.

Lemma running_same s s' ts :
  tasks s' = tasks s -> heads (memory s') = heads (memory s) -> current s' = current s -> running s ts -> running s' ts.
Proof. intros Et Eh Ec. unfold running. by rewrite Et, Eh, Ec. Qed.

Lemma system_pages P lk ts s s' :
  system_ok P lk ts (Resumed, s) -> tasks s' = tasks s -> heads (memory s') = heads (memory s) ->
  ranges (memory s') = ranges (memory s) -> current s' = current s -> cr3 s' = cr3 s ->
  private hhdm (pml4 kernel) (user_root P) (memory s') -> system_ok P lk ts (Resumed, s').
Proof.
  intros [Hso Hrun Hlive Hdead Hp Hc] Et Eh Er Ec Ecr Hpv. split; cbn [fst snd] in *.
  - by apply (sched_ok_heads sched_list_head s).
  - by apply (running_same s).
  - by rewrite Ec.
  - done.
  - by apply (programs_pages P lk s).
  - by rewrite Et, Ec, Ecr.
Qed.

Lemma keeps_self P lk ts s wr st' :
  system_ok P lk ts st' -> tasks st'.2 = tasks s -> (forall q x, P !! q = Some x -> q <> current s -> same_view hhdm (memory s) (memory st'.2) (pml4 x.1)) ->
  own_words P s st'.2 wr -> keeps P lk ts s wr st'.
Proof.
  intros Hok Et Hv Hw. split; [done|]. exists P, ts. split; [done|]. split; [done|]. split; [done|]. intros q Hq. rewrite Et. split; [done|].
  split; [done|]. intros x Hx. by apply (Hv q).
Qed.

Lemma keeps_none P lk ts s wr st' : keeps P lk ts s None st' -> keeps P lk ts s wr st'.
Proof. intros [Hw Hk]. split; [|done]. intros x w Hx Hr. destruct (Hw x w Hx Hr) as [?|[?|(y & ? & _)]]; [by left|by right; left|done]. Qed.

Lemma keeps_after P lk ts s s1 wr st' :
  current s1 = current s -> tasks s1 = tasks s -> quiet P s s1 -> keeps P lk ts s1 wr st' -> keeps P lk ts s wr st'.
Proof.
  intros Ec Et Hq (Hw & P' & ts' & Hok & Hts & Hfst & Hoth). split.
  { intros x w Hx Hwr. rewrite <- (view_words (memory s) (memory s1) (pml4 x.1) w) by (done || by apply (Hq (current s))).
    apply Hw; [by rewrite Ec|done]. }
  exists P', ts'. split; [done|]. split; [done|]. split; [done|].
  intros q Hne. rewrite <- Ec in Hne. destruct (Hoth q Hne) as (HP & Htq & Hv). rewrite <- Et. split; [done|]. split; [done|].
  intros x Hx. apply (same_view_trans _ (memory s1)); [by apply (Hq q)|by apply Hv].
Qed.

(** The running program: its task, its page map and its place in the list. *)
Lemma running_program P lk ts s :
  system_ok P lk ts (Resumed, s) -> program s (current s) ->
  exists x t ts1 ts2, P !! current s = Some x /\ tasks s !! current s = Some t /\ pagemap t = x.1 /\
    ts = ts1 ++ current s :: ts2 /\ 0 <= mmap_anon_base t < 2 ^ 47.
Proof.
  intros [Hso Hrun Hlive _ Hp _] (t & Ht & Hpm). cbn [fst snd] in *.
  destruct (P !! current s) as [x|] eqn:HP; [|by destruct Hpm; apply (po_task _ _ _ Hp (current s))].
  destruct (po_program _ _ _ Hp _ x HP) as (t' & Ht' & Epm & _ & _ & Hb). rewrite Ht in Ht'. injection Ht' as <-.
  destruct (Hlive eq_refl) as [E|Hin].
  - rewrite E in Ht. destruct (so_range _ _ _ Hso 0 t Ht). lia.
  - apply list_elem_of_split in Hin as (ts1 & ts2 & ->). by exists x, t, ts1, ts2.
Qed.

(** ** Every event keeps the invariant *)
Hypothesis hhdm_ok : 0 <= hhdm <= 2 ^ 64 - 2 ^ 46.

Lemma die_keeps P lk ts s s' :
  system_ok P lk ts (Resumed, s) -> program s (current s) -> dequeue_and_die s = Ret s' -> keeps P lk ts s None (Halted, s').
Proof.
  intros Hok Hpr E. destruct (running_program _ _ _ _ Hok Hpr) as (x & t & ts1 & ts2 & HP & Ht & Epm & -> & _).
  destruct Hok as [Hso Hrun Hlive Hdead Hp Hc]. cbn [fst snd] in *.
  destruct (dequeue_spec sched_list_head s ts1 (current s) ts2 Hso eq_refl)
    as (s1 & E1 & Hso' & Et & Ec & Hrun' & Em & Ef & Er & Ecr & Hframe).
  rewrite E in E1. injection E1 as <-.
  assert (quiet P s s') as Hq by (intros q y _ v Hv; unfold Spaces.shown; by rewrite Em).
  split; [by apply quiet_words|]. exists P, (ts1 ++ ts2). split; [split; cbn [fst snd]|split; [|split; [done|]]].
  - done.
  - done.
  - done.
  - intros _. rewrite Ec. pose proof (sched_ok_nodup _ _ _ Hso) as Hnd. rewrite <- Permutation_middle in Hnd.
    by apply NoDup_cons in Hnd as [? _].
  - apply (programs_frame P lk s s' (sched_list_head :: (sched_list <$> (ts1 ++ current s :: ts2)))); try done.
    + apply same_tasks. intros q. by rewrite Et.
    + intros z Hz Hin. destruct (po_links _ _ _ Hp z Hz) as [Hh Hq1]. apply elem_of_cons in Hin as [?|Hin]; [done|].
      apply list_elem_of_fmap in Hin as (q & -> & Hq2). destruct (so_tasks _ _ _ Hso q Hq2) as [t' Ht']. by apply (Hq1 q t').
    + by apply (private_same hhdm _ _ (memory s)), (po_memory _ _ _ Hp).
  - by rewrite Et, Ec, Ecr.
  - intros q Hin. set_solver.
  - intros q _. cbn [snd]. rewrite Et. split; [done|]. split; [done|]. by apply Hq.
Qed.

Lemma exception_keeps P lk ts s vec regs st' :
  system_ok P lk ts (Resumed, s) -> program s (current s) -> user_mode regs = true ->
  exception_handler vec regs s = Ret st' -> keeps P lk ts s None st'.
Proof.
  intros Hok Hpr Hm E. unfold exception_handler in E. apply bind_Ret in E as (nm & _ & E). rewrite Hm in E.
  unfold read_gs_base in E. rewrite MSR_read_base in E by done. apply bind_Ret in E as (t & _ & E).
  apply bind_Ret in E as (s' & Ed & [= <-]).
  assert (set_machine (machine s) s = s) as Es by (by destruct s). rewrite Es in Ed. by apply (die_keeps P lk ts).
Qed.

Lemma tame_lower (v : vm pmm) virt q rg :
  contains v virt q = true -> ranges v !! q = Some rg -> tame rg -> index4 virt < 256.
Proof.
  intros Hc Hr [_ _ _ Hp]. unfold contains in Hc. rewrite Hr in Hc. apply andb_prop in Hc as [H1%Z.leb_le H2%Z.leb_le].
  rewrite wrap_small in H2 by lia. apply index4_lower. lia.
Qed.

(** A cleared page that comes where nothing was. *)
Lemma new_page_words P s s' x f flags virt :
  private hhdm (pml4 kernel) (user_root P) (memory s) -> P !! current s = Some x ->
  grows hhdm (pml4 x.1) (memory s) (memory s') -> remapped hhdm (memory s) (memory s') (pml4 x.1) virt (Z.lor f flags) ->
  translate hhdm (mem (memory s)) (pml4 x.1) virt = None -> mem (memory s') !! (f + hhdm) = Some zero_page ->
  0 < f < 2 ^ 46 -> f mod 0x1000 = 0 -> Z.land flags ADDR = 0 -> own_words P s s' None.
Proof.
  intros Hpv HP Hg Hrm Hnone Hz Hf Hfm Hfl y w Hy Hw. rewrite HP in Hy. injection Hy as <-. cbn zeta.
  unfold word_seen, Spaces.shown. rewrite (Hrm (8 * w)). case_decide as Epg.
  - rewrite (translate_page _ _ _ (8 * w) virt Epg), Hnone. unfold visible.
    destruct (present (Z.lor f flags)); [right; left|by left]. split; [done|]. cbn.
    unfold Paging.next. rewrite land_ADDR by (done || lia). rewrite wrap_small by lia. rewrite Hz. cbn.
    destruct (zlookup_is_Some zero_page (w mod 512)) as [z Hzl]; [change (Z.of_nat (length zero_page)) with 512; apply Z.mod_pos_bound; lia|].
    rewrite Hzl. by apply zlookup_zero_page in Hzl as ->.
  - left. destruct (translate hhdm (mem (memory s)) (pml4 x.1) (8 * w)) as [e|] eqn:He; [|done]. cbn.
    destruct (pv_frame _ _ _ _ Hpv (pml4 x.1) (8 * w) e) as [Hd _]; [by exists (current s), x|by apply index4_lower|done|].
    destruct (gr_data _ _ _ _ Hg (Paging.next hhdm e)) as [_ ->]; [by apply Hd, (root_of P (current s))|done].
Qed.

(** A page fault of the running program. *)
Lemma fault_keeps P lk ts s vec cr2 regs st' :
  system_ok P lk ts (Resumed, s) -> program s (current s) -> user_mode regs = true ->
  page_fault_handler hhdm kernel vec cr2 regs s = Ret st' -> keeps P lk ts s None st'.
Proof.
  intros Hok Hpr Hm E. destruct (running_program _ _ _ _ Hok Hpr) as (x & t & ts1 & ts2 & HP & Ht & Epm & _).
  pose proof (sy_programs _ _ _ _ Hok) as Hp. cbn [snd] in Hp.
  unfold page_fault_handler in E. rewrite Hm in E. unfold read_gs_base in E. rewrite MSR_read_base in E by done.
  unfold current in Ht. unfold task_at in E. rewrite Ht in E. cbn [of_option mbind outcome_bind] in E.
  apply bind_Ret in E as ([b v] & Ef & E). rewrite Epm in Ef.
  destruct (po_ranges _ _ _ Hp _ x HP) as [Hran Htame]. pose proof (po_memory _ _ _ Hp) as Hpv.
  pose proof (sp_inv _ _ _ (pv_spaces _ _ _ _ Hpv) _ (root_of P _ x HP)) as Hinv.
  destruct (fault_ret hhdm hhdm_ok (memory s) x.1 cr2 x.2 b v Hinv Hran Ef) as (Eh & Er & Hb).
  set (s1 := set_machine (machine s) (set_memory v s)) in *.
  destruct b.
  - destruct (private_extends hhdm _ _ (memory s) v (pml4 x.1) Hpv (root_of P _ x HP) Hb) as [Hpv' Hview].
    assert (system_ok P lk ts (Resumed, s1)) as Hok1 by (by apply (system_pages P lk ts s)).
    apply (keeps_after P lk ts s s1); [done|done| |].
    + intros q y Hy. apply Hview. by exists q, y.
    + by apply (exception_keeps P lk ts s1 vec regs).
  - injection E as <-. destruct Hb as (Hg & Hnone & q & rg & Hq & Hrq & Hcon & Hkind).
    destruct (Htame q rg Hq Hrq) as [Hk _ Hfl Hpl]. rewrite Hk in Hkind. destruct Hkind as (f & Hrm & Hf & Hfm & Hno & Hown & Hd & Hz).
    destruct (private_user_page hhdm hhdm_ok (pml4 kernel) (user_root P) (memory s) v (pml4 x.1) cr2 f (page_flags rg)) as [Hpv' Hview]; try done.
    + by exists (current s), x.
    + by apply (tame_lower (memory s) cr2 q rg Hcon Hrq), (Htame q rg).
    + by exists zero_page.
    + apply keeps_self; [by apply (system_pages P lk ts s)|done| |by apply (new_page_words P s s1 x f (page_flags rg) cr2)].
      intros q' y Hy Hne. apply Hview; [by exists q', y|]. by apply (po_distinct _ _ _ Hp q' (current s)).
Qed.

(** A page fault of the kernel: of its own ranges, or a panic. *)
Lemma kernel_fault_keeps P lk ts s vec cr2 regs st' :
  system_ok P lk ts (Resumed, s) -> user_mode regs = false ->
  page_fault_handler hhdm kernel vec cr2 regs s = Ret st' -> keeps P lk ts s None st'.
Proof.
  intros Hok Hm E. pose proof (sy_programs _ _ _ _ Hok) as Hp. cbn [snd] in Hp.
  unfold page_fault_handler in E. rewrite Hm in E. apply bind_Ret in E as ([pm m] & [= <- <-] & E).
  apply bind_Ret in E as ([b v] & Ef & E). destruct (po_kernel _ _ _ Hp) as [Hran Hfl].
  destruct (private_kernel_fault hhdm hhdm_ok _ _ (memory s) kernel lk cr2 b v (po_memory _ _ _ Hp) eq_refl Hran
    (fun r rg Hr Hrg => proj2 (Hfl r rg Hr Hrg)) Ef) as (Hpv' & Hview & Eh & Er).
  destruct b.
  - exfalso. unfold exception_handler in E. apply bind_Ret in E as (nm & _ & E). by rewrite Hm in E.
  - injection E as <-.
    assert (quiet P s (set_machine (machine s) (set_memory v s))) as Hqt by (intros q' y Hy; apply Hview; by exists q', y).
    apply keeps_self; [by apply (system_pages P lk ts s)|done| |by apply quiet_words]. intros q' y Hy _. by apply (Hqt q').
Qed.

(** The processor's page map is the running task's. *)
Lemma mmu_program P lk ts s x :
  system_ok P lk ts (Resumed, s) -> program s (current s) -> P !! current s = Some x -> pml4 (mmu s) = pml4 x.1.
Proof.
  intros Hok Hpr HP. destruct (running_program _ _ _ _ Hok Hpr) as (x' & t & _ & _ & HP' & Ht & Epm & _).
  rewrite HP in HP'. injection HP' as <-. destruct (po_program _ _ _ (sy_programs _ _ _ _ Hok) _ x HP) as (_ & _ & _ & _ & Hr & _).
  pose proof (sy_cr3 _ _ _ _ Hok t Ht) as Ecr. cbn [snd] in Ecr. cbn [mmu pml4]. rewrite Ecr, Epm. unfold activate, wrap. rewrite Zplus_mod_idemp_l.
  replace (pml4 x.1 - hhdm + hhdm) with (pml4 x.1) by lia. by apply Z.mod_small.
Qed.

Lemma allows_user write e : allows (needs true write) e = true -> Z.land e PAGE_USER <> 0.
Proof.
  unfold allows. intros Ha%Z.eqb_eq E. assert (Z.land (Z.land e (needs true write)) PAGE_USER = PAGE_USER) as Hu
    by (rewrite Ha; by destruct write).
  rewrite <- Z.land_assoc in Hu. replace (Z.land (needs true write) PAGE_USER) with PAGE_USER in Hu by (by destruct write).
  by rewrite E in Hu.
Qed.

(** What the processor lets a program touch lies in its own half. *)
Lemma entry_lower P lk ts s x write v e :
  system_ok P lk ts (Resumed, s) -> program s (current s) -> P !! current s = Some x ->
  entry_for hhdm (needs true write) (mmu s) v (memory s) = Some e ->
  translate hhdm (mem (memory s)) (pml4 x.1) v = Some e /\ index4 v < 256.
Proof.
  intros Hok Hpr HP He. unfold entry_for in He. rewrite (mmu_program _ _ _ _ x Hok Hpr HP) in He.
  destruct (translate hhdm _ _ _) as [e'|] eqn:Htr; [|done]. cbn in He. destruct (allows _ e') eqn:Ha; [|done].
  injection He as ->. split; [done|]. apply Z.nle_gt. intros Hv. apply (allows_user write e Ha).
  apply (pv_kernel _ _ _ _ (po_memory _ _ _ (sy_programs _ _ _ _ Hok)) (pml4 x.1) v e); [by apply (root_of P (current s))|by right|done].
Qed.

Lemma canonical_lower a : canonical a -> index4 a < 256 -> 0 <= a < 2 ^ 47.
Proof.
  intros [Ha|Ha] Hi; [done|exfalso]. unfold index4 in Hi. change 0x1FF with (Z.ones 9) in Hi.
  rewrite Z.land_ones, Z.shiftr_div_pow2 in Hi by lia.
  assert (2 ^ 25 - 256 <= a / 2 ^ 39 < 2 ^ 25) as Hd by (split; [apply Z.div_le_lower_bound|apply Z.div_lt_upper_bound]; lia).
  rewrite (Z.mod_eq (a / 2 ^ 39)) in Hi by lia. assert (a / 2 ^ 39 / 2 ^ 9 = 2 ^ 16 - 1) as E; [|lia].
  symmetry. apply (Z.div_unique _ _ _ (a / 2 ^ 39 - 2 ^ 9 * (2 ^ 16 - 1))); lia.
Qed.

Lemma word_page w w' :
  0 <= 8 * w < 2 ^ 47 -> 0 <= 8 * w' < 2 ^ 47 -> page (8 * w) = page (8 * w') -> w mod 512 = w' mod 512 -> w = w'.
Proof.
  intros Hw Hw'. unfold page. change (2 ^ 12) with (8 * 512). rewrite !Zdiv_mult_cancel_l by lia.
  assert (0 <= w / 512 < 2 ^ 36 /\ 0 <= w' / 512 < 2 ^ 36) as [H1 H2]
    by (split; (split; [apply Z.div_pos; lia|apply Z.div_lt_upper_bound; lia])).
  rewrite !Z.mod_small by done. intros E1 E2. rewrite (Z.div_mod w 512), (Z.div_mod w' 512) by lia. congruence.
Qed.

Lemma shown_page (v : vm pmm) u a b : page a = page b -> Spaces.shown hhdm v u a = Spaces.shown hhdm v u b.
Proof. intros E. unfold Spaces.shown. by rewrite (translate_page _ _ _ a b E). Qed.

(** What the processor goes through for an access in the program's half. *)
Lemma entry_program P lk ts s x bits v e :
  system_ok P lk ts (Resumed, s) -> program s (current s) -> P !! current s = Some x ->
  entry_for hhdm bits (mmu s) v (memory s) = Some e -> translate hhdm (mem (memory s)) (pml4 x.1) v = Some e.
Proof.
  intros Hok Hpr HP He. unfold entry_for in He. rewrite (mmu_program _ _ _ _ x Hok Hpr HP) in He.
  destruct (translate hhdm _ _ _) as [e'|]; [|done]. cbn in He. destruct (allows _ e'); [|done]. by injection He as ->.
Qed.

(** An access goes through an entry of the program's half, or faults. *)
Lemma store_entry P lk ts s x regs w e :
  system_ok P lk ts (Resumed, s) -> program s (current s) -> P !! current s = Some x -> in_reach regs w ->
  entry_for hhdm (needs (user_mode regs) true) (mmu s) (8 * w) (memory s) = Some e ->
  translate hhdm (mem (memory s)) (pml4 x.1) (8 * w) = Some e /\ 0 <= 8 * w < 2 ^ 47 /\ index4 (8 * w) < 256.
Proof.
  intros Hok Hpr HP Hr He. unfold in_reach in Hr. destruct (user_mode regs).
  - destruct (entry_lower _ _ _ _ x true (8 * w) e Hok Hpr HP He) as [Htr Hv]. split; [done|].
    split; [by apply canonical_lower|done].
  - split; [by apply (entry_program P lk ts s x _ _ _ Hok Hpr HP He)|]. split; [done|by apply index4_lower].
Qed.

(** Storing the word [w] of a program: its words after it. *)
Lemma stored_words U (v v' : vm pmm) u w e x :
  private hhdm (pml4 kernel) U v -> U u -> 0 <= 8 * w < 2 ^ 47 -> translate hhdm (mem v) u (8 * w) = Some e ->
  write_entry (Demand.frame hhdm e) (word_index (8 * w)) x v = Ret v' ->
  forall w', 0 <= 8 * w' < 2 ^ 47 -> word_seen v' u w' = if decide (w' = w) then Some x else word_seen v u w'.
Proof.
  intros Hpv Hu Hw Htr Ew w' Hw'.
  destruct (private_store hhdm (pml4 kernel) U v u (8 * w) e (word_index (8 * w)) x v' Hpv Hu (index4_lower _ Hw) Htr Ew)
    as (_ & _ & _ & _ & _ & Hview & ws & Hb & Ha). unfold word_seen.
  destruct (decide (page (8 * w') = page (8 * w))) as [Epg|Epg].
  - rewrite !(shown_page _ _ _ _ Epg), Hb, Ha. cbn. rewrite word_index_spec.
    destruct (pv_frame _ _ _ _ Hpv u (8 * w) e Hu (index4_lower _ Hw) Htr) as [_ (ws' & Hws & Hl)].
    unfold Spaces.shown in Hb. rewrite Htr in Hb. cbn in Hb. rewrite Hws in Hb. injection Hb as <-.
    case_decide as E; [subst w'; apply zlookup_zinsert_eq; pose proof (Z.mod_pos_bound w 512); lia|].
    apply zlookup_zinsert_ne; [pose proof (Z.mod_pos_bound w 512); lia|].
    intros Em. by destruct E; apply word_page.
  - rewrite Hview; [|done|by apply index4_lower|by right]. by rewrite decide_False by congruence.
Qed.

(** Storing a word of the running program. *)
Lemma store_spec P lk ts s y w e x :
  system_ok P lk ts (Resumed, s) -> P !! current s = Some y -> 0 <= 8 * w < 2 ^ 47 ->
  translate hhdm (mem (memory s)) (pml4 y.1) (8 * w) = Some e ->
  exists v, write_entry (Demand.frame hhdm e) (word_index (8 * w)) x (memory s) = Ret v /\
    system_ok P lk ts (Resumed, set_memory v s) /\
    (forall q z, P !! q = Some z -> q <> current s -> same_view hhdm (memory s) v (pml4 z.1)) /\
    (forall w', 0 <= 8 * w' < 2 ^ 47 ->
      word_seen v (pml4 y.1) w' = if decide (w' = w) then Some x else word_seen (memory s) (pml4 y.1) w') /\
    forall a, translate hhdm (mem v) (pml4 y.1) a = translate hhdm (mem (memory s)) (pml4 y.1) a.
Proof.
  intros Hok HP Hw Htr. pose proof (sy_programs _ _ _ _ Hok) as Hp. cbn [snd] in Hp. pose proof (po_memory _ _ _ Hp) as Hpv.
  assert (user_root P (pml4 y.1)) as Hu by (by exists (current s), y).
  destruct (pv_frame _ _ _ _ Hpv (pml4 y.1) (8 * w) e Hu (index4_lower _ Hw) Htr) as [_ (ws & Hws & Hl)].
  assert (exists v, write_entry (Demand.frame hhdm e) (word_index (8 * w)) x (memory s) = Ret v) as [v Ew].
  { rewrite (write_entry_spec (memory s) (Demand.frame hhdm e) (word_index (8 * w)) x ws Hws Hl); [by eexists|].
    rewrite word_index_spec. apply Z.mod_pos_bound. lia. }
  destruct (private_store hhdm (pml4 kernel) (user_root P) (memory s) (pml4 y.1) (8 * w) e (word_index (8 * w)) x v Hpv Hu (index4_lower _ Hw) Htr Ew)
    as (Hpv' & Htr' & Ef & Eh & Er & Hview & _).
  exists v. split; [done|]. split; [by apply (system_pages P lk ts s)|]. split; [|split].
  - intros q z Hz Hne v' Hv'. apply Hview; [by exists q, z|done|left]. by apply (po_distinct _ _ _ Hp q (current s)).
  - by apply (stored_words _ _ _ _ _ _ _ Hpv Hu Hw Htr Ew).
  - intros a. by apply Htr', (root_of P (current s)).
Qed.

Lemma store_keeps P lk ts s regs w x st' :
  system_ok P lk ts (Resumed, s) -> program s (current s) -> in_reach regs w ->
  store_word regs w x s = Ret st' -> keeps P lk ts s (Some (w, x)) st'.
Proof.
  intros Hok Hpr Hin E. unfold store_word in E. destruct (entry_for _ _ _ _ _) as [e|] eqn:He.
  2: { apply keeps_none. destruct (user_mode regs) eqn:Hm; [by eapply fault_keeps|by eapply kernel_fault_keeps]. }
  destruct (running_program _ _ _ _ Hok Hpr) as (y & t & ts1 & ts2 & HP & _).
  destruct (store_entry _ _ _ _ y regs w e Hok Hpr HP Hin He) as (Htr & Hw & _).
  destruct (store_spec P lk ts s y w e x Hok HP Hw Htr) as (v & Ew & Hok' & Hview & Hwords & _).
  rewrite Ew in E. injection E as <-. apply keeps_self; [done|done|by intros q z Hz Hne; apply (Hview q)|].
  intros z w' Hz Hw'. rewrite HP in Hz. injection Hz as <-. cbn zeta. change (memory (Resumed, set_memory v s).2) with v.
  rewrite (Hwords w' Hw'). case_decide as Ed; [subst w'; right; right; by exists x|by left].
Qed.

Lemma load_keeps P lk ts s regs w st' :
  system_ok P lk ts (Resumed, s) -> program s (current s) ->
  load_word regs w s = Ret st' -> keeps P lk ts s None st'.
Proof.
  intros Hok Hpr E. unfold load_word in E. destruct (entry_for _ _ _ _ _) as [e|] eqn:He.
  - injection E as <-. apply keeps_self; [done..|]. by apply quiet_words.
  - destruct (user_mode regs) eqn:Hm; [by eapply fault_keeps|by eapply kernel_fault_keeps].
Qed.

(** What a system call on files leaves in the running task. *)
Lemma files_spec P lk ts s f t :
  system_ok P lk ts (Resumed, s) -> tasks s !! current s = Some t ->
  exists s', set_fds f s = Ret s' /\ system_ok P lk ts (Resumed, s') /\ memory s' = memory s /\ current s' = current s /\
    cr3 s' = cr3 s /\
    forall q, tasks s' !! q = if decide (q = current s) then Some (with_fds f t) else tasks s !! q.
Proof.
  intros [Hso Hrun Hlive Hdead Hp Hc] Ht. cbn [fst snd] in *.
  assert (set_fds f s = Ret (set_machine (machine s) (set_task (current s) (with_fds f t) s))) as ->.
  { unfold set_fds, read_gs_base. rewrite MSR_read_base by done. fold (current s). unfold task_at. by rewrite Ht. }
  set (s' := set_machine _ _). exists s'. split; [done|].
  assert (forall q, tasks s' !! q = if decide (q = current s) then Some (with_fds f t) else tasks s !! q) as Htk.
  { intros q. cbn. case_decide as Eq; [subst q; apply lookup_insert_eq|by rewrite lookup_insert_ne]. }
  assert (forall q, is_Some (tasks s !! q) -> is_Some (tasks s' !! q)) as Hsome by (intros q Hq; rewrite Htk; by case_decide).
  assert (current s' = current s) as Ec by done. split; [split; cbn [fst snd]|done].
  - split; [apply Hso|intros q Hq; by apply Hsome, (so_tasks _ _ _ Hso)| |apply Hso]. intros q t'. rewrite Htk.
    case_decide as Eq; [intros [= <-]; subst q; by apply (so_range _ _ _ Hso _ t)|apply (so_range _ _ _ Hso)].
  - unfold running in *. rewrite Ec. destruct Hrun as [?|[Hs Hr]]; [by left|right]. by split; [apply Hsome|].
  - by rewrite Ec.
  - done.
  - apply (programs_frame P lk s s' []); try done; [|by intros z _; apply not_elem_of_nil|apply (po_memory _ _ _ Hp)].
    apply same_tasks. intros q. rewrite Htk. case_decide as Eq; [subst q; by rewrite Ht|done].
  - rewrite Ec. intros t'. rewrite Htk, decide_True by done. intros [= <-]. by apply (Hc t).
Qed.

Lemma files_keeps P lk ts s f s' :
  system_ok P lk ts (Resumed, s) -> program s (current s) -> set_fds f s = Ret s' -> keeps P lk ts s None (Resumed, s').
Proof.
  intros Hok (t & Ht & _) E. destruct (files_spec P lk ts s f t Hok Ht) as (s1 & E1 & Hok' & Em & _ & _ & Htk).
  rewrite E in E1. injection E1 as <-.
  split; [apply quiet_words; intros q y Hy v Hv; cbn [snd]; by rewrite Em|]. exists P, ts. split; [done|]. split; [done|].
  split; [done|]. intros q Hq. cbn [snd]. rewrite Htk, decide_False by done. split; [done|]. split; [done|].
  intros x Hx v Hv. by rewrite Em.
Qed.

(** mmap adds a range to the running program's list. *)
Lemma mmap_flags_ADDR prot : Z.land (mmap_flags prot) ADDR = 0.
Proof. unfold mmap_flags. by destruct (negb (Z.land prot PROT_WRITE =? 0)), (Z.land prot PROT_EXEC =? 0). Qed.

Lemma fresh_node range s h l :
  heads (memory s) !! range = None -> ring (heads (memory s)) h l -> range ∉ h :: l.
Proof. intros Hn Hr Hin. destruct (ring_dom _ _ _ _ Hr Hin) as [y Hy]. congruence. Qed.

(** The list heads after a range was added. *)
Lemma add_range_frame range s h l :
  heads (memory s) !! range = None -> ring (heads (memory s)) h l ->
  exists m', List.add h range (<[range := mkListHead 0 0]> (heads (memory s))) = Ret m' /\ ring m' h (range :: l) /\
    List.frame (heads (memory s)) m' (range :: h :: l).
Proof.
  intros Hn Hr. pose proof (fresh_node range s h l Hn Hr) as Hno.
  assert (ring (<[range := mkListHead 0 0]> (heads (memory s))) h l) as Hr0.
  { apply (ring_frame _ _ _ _ [range] Hr (frame_fresh _ _ _)). intros z Hz ->%list_elem_of_singleton. done. }
  destruct (add_entry _ h l range Hr0 Hno) as (m' & Ea & Hr' & Hf); [rewrite lookup_insert_eq; by eexists|].
  exists m'. split; [done|]. split; [done|]. eapply frame_trans; [apply frame_fresh|exact Hf|]. set_solver.
Qed.

Section mmap_step.
Context (P : gmap Z (Pagemap * list Z)) (lk ts : list Z) (s : sched M) (x : Pagemap * list Z) (t : Task).
Context (range len prot : Z) (m : gmap Z ListHead).
Hypothesis Hok : system_ok P lk ts (Resumed, s).
Hypothesis HP : P !! current s = Some x.
Hypothesis Ht : tasks s !! current s = Some t.
Hypothesis Hfresh : fresh range s.
Hypothesis Hlen : 0 <= len /\ mmap_anon_base t + len + 0x1000 < 2 ^ 47.
Hypothesis Hring : ring m (range_list_head x.1) (range :: x.2).
Hypothesis Hframe : List.frame (heads (memory s)) m (range :: nodes x).

Let rg : MappedRange := mkMappedRange (mmap_anon_base t) (align_up 0x1000 len) (mmap_flags prot) ANONYMOUS.
Let v' : vm pmm := mkVm (mem (memory s)) (frames (memory s)) m (<[range := rg]> (ranges (memory s))) (flushed (memory s)).
Let t' : Task := set_anon_base (u64 (mmap_anon_base t + align_up 0x1000 len)) t.
Let P' := <[current s := (x.1, range :: x.2)]> P.

Lemma mmap_rg : 0 <= mmap_anon_base t + align_up 0x1000 len < 2 ^ 47 /\ tame rg.
Proof.
  destruct (po_program _ _ _ (sy_programs _ _ _ _ Hok) _ x HP) as (t0 & Ht0 & _ & _ & _ & Hb). cbn [snd] in Ht0.
  rewrite Ht in Ht0. injection Ht0 as <-.
  destruct (align_up_spec 0x1000 len ltac:(lia) ltac:(lia) ltac:(lia)) as [Hal _]. split; [lia|].
  split; [done|apply mmap_flags_present|apply mmap_flags_ADDR|cbn; lia].
Qed.

Lemma mmap_other_range h l : ring (heads (memory s)) h l -> forall r, r ∈ h :: l -> <[range := rg]> (ranges (memory s)) !! r = ranges (memory s) !! r.
Proof. intros Hr r Hin. rewrite lookup_insert_ne; [done|]. intros <-. by apply (fresh_node range s h l (proj1 Hfresh) Hr). Qed.

(** A list that is none of the program's is as it was. *)
Lemma mmap_ranges_ok pm l :
  ranges_ok (memory s) pm l -> (forall z, z ∈ nodes (pm, l) -> z ∉ nodes x) ->
  ranges_ok v' pm l /\ forall r, r ∈ l -> ranges v' !! r = ranges (memory s) !! r.
Proof.
  intros [Hr Hd] Hno. assert (forall r, r ∈ l -> ranges v' !! r = ranges (memory s) !! r) as Hsame.
  { intros r Hin. apply (mmap_other_range (range_list_head pm) l Hr). by right. }
  split; [split|done].
  - apply (ring_frame _ _ _ _ (range :: nodes x) Hr Hframe). intros z Hz [->|Hx]%elem_of_cons.
    + by apply (fresh_node range s _ _ (proj1 Hfresh) Hr).
    + by apply (Hno z).
  - intros r Hin. cbn [v' ranges]. change (<[range := rg]> (ranges (memory s))) with (ranges v'). rewrite Hsame by done. by apply Hd.
Qed.

Lemma mmap_programs : programs_ok P' lk (set_memory v' (set_task (current s) t' s)).
Proof.
  pose proof (sy_programs _ _ _ _ Hok) as Hp. cbn [snd] in Hp. destruct mmap_rg as [Hbase Htame].
  destruct (po_program _ _ _ Hp _ x HP) as (t0 & Ht0 & Epm & Hne & Hroot & _). rewrite Ht in Ht0. injection Ht0 as <-.
  assert (forall y z, (exists q, q <> current s /\ P !! q = Some y) \/ y = (kernel, lk) -> z ∈ nodes y -> z ∉ range :: nodes x) as Hoff.
  { intros y z Hy Hz. assert (ring (heads (memory s)) (range_list_head y.1) y.2) as Hr.
    { destruct Hy as [(q & _ & Hq)| ->]; [apply (po_ranges _ _ _ Hp q y Hq)|apply (po_kernel _ _ _ Hp)]. }
    intros [->|Hx]%elem_of_cons; [by apply (fresh_node range s _ _ (proj1 Hfresh) Hr)|].
    destruct Hy as [(q & Hqne & Hq)| ->]; [by apply (po_distinct _ _ _ Hp q (current s) y x) in Hx|].
    by apply (po_apart _ _ _ Hp (current s) x z). }
  assert (forall q y, P' !! q = Some y -> q = current s /\ y = (x.1, range :: x.2) \/ q <> current s /\ P !! q = Some y) as HP'.
  { intros q y Hy. subst P'. destruct (decide (q = current s)) as [->|Hq].
    - rewrite lookup_insert_eq in Hy. left. by injection Hy as <-.
    - rewrite lookup_insert_ne in Hy by done. by right. }
  split; cbn [tasks memory set_memory set_task].
  - intros p t1 Hp1 HP1. destruct (decide (p = current s)) as [->|Hq]; [unfold P' in HP1; by rewrite lookup_insert_eq in HP1|].
    unfold P' in HP1. rewrite lookup_insert_ne in Hp1 by done. rewrite lookup_insert_ne in HP1 by done. by apply (po_task _ _ _ Hp p).
  - intros p y [[-> ->]|[Hq Hy]]%HP'.
    + exists t'. rewrite lookup_insert_eq. cbn. rewrite wrap_small by lia. done.
    + rewrite lookup_insert_ne by done. by apply (po_program _ _ _ Hp).
  - intros p y [[-> ->]|[Hq Hy]]%HP'.
    + destruct (po_ranges _ _ _ Hp _ x HP) as [[Hr Hd] Htm]. split; [split; [done|]|].
      * intros r Hin. cbn. destruct (decide (r = range)) as [->|Hrne]; [rewrite lookup_insert_eq; by eexists|].
        rewrite lookup_insert_ne by done. apply Hd. cbn in Hin. set_solver.
      * intros r g Hin. cbn. destruct (decide (r = range)) as [->|Hrne]; [rewrite lookup_insert_eq; by intros [= <-]|].
        rewrite lookup_insert_ne by done. apply Htm. cbn in Hin. set_solver.
    + destruct (po_ranges _ _ _ Hp p y Hy) as [Hran Htm].
      destruct (mmap_ranges_ok y.1 y.2 Hran) as [Hran' Hsame].
      * intros z Hz Hx. apply (Hoff y z); [left; by exists p|by destruct y|by right].
      * split; [done|]. intros r g Hin. rewrite Hsame by done. by apply Htm.
  - destruct (po_kernel _ _ _ Hp) as [Hran Hfl]. destruct (mmap_ranges_ok kernel lk Hran) as [Hran' Hsame].
    + intros z Hz Hx. apply (Hoff (kernel, lk) z); [by right|done|by right].
    + split; [done|]. intros r g Hin. rewrite Hsame by done. by apply Hfl.
  - intros p1 p2 x1 x2 [[-> ->]|[Hq1 Hy1]]%HP' [[-> ->]|[Hq2 Hy2]]%HP' Hpne; [done|..].
    + destruct (po_distinct _ _ _ Hp _ _ x x2 HP Hy2 Hpne) as [Hroots Hnodes]. split; [done|].
      intros z Hz Hz2. apply (Hoff x2 z); [left; by exists p2|done|]. unfold nodes in *. cbn in Hz. set_solver.
    + destruct (po_distinct _ _ _ Hp _ _ x1 x Hy1 HP Hpne) as [Hroots Hnodes]. split; [done|].
      intros z Hz Hz2. apply (Hoff x1 z); [left; by exists p1|done|]. unfold nodes in *. cbn in Hz2. set_solver.
    + by apply (po_distinct _ _ _ Hp p1 p2).
  - intros p y z [[-> ->]|[Hq Hy]]%HP' Hz; [|by apply (po_apart _ _ _ Hp p y)].
    intros Hk. apply (Hoff (kernel, lk) z); [by right|done|]. unfold nodes in *. cbn in Hz. set_solver.
  - intros z Hz. assert (z = range \/ z ∈ nodes (kernel, lk) \/ exists p y, P !! p = Some y /\ z ∈ nodes y) as Hcase.
    { destruct Hz as [?|(p & y & [[-> ->]|[Hq Hy]]%HP' & Hz)]; [by right; left| |right; right; by exists p, y].
      unfold nodes in Hz. cbn in Hz. rewrite !elem_of_cons in Hz. destruct Hz as [Hz|[Hz|Hz]]; [|by left|];
        right; right; exists (current s), x; (split; [done|]); unfold nodes; subst; set_solver. }
    assert (forall q t1, <[current s := t']> (tasks s) !! q = Some t1 -> exists t2, tasks s !! q = Some t2) as Hdom.
    { intros q t1. destruct (decide (q = current s)) as [->|Hq]; [intros _; by exists t|]. rewrite lookup_insert_ne by done. by exists t1. }
    destruct Hcase as [->|Hold].
    + split.
      * intros ->. destruct (ring_dom _ _ _ sched_list_head (so_ring _ _ _ (sy_sched _ _ _ _ Hok))) as [y Hy]; [left|].
        cbn in Hy. destruct Hfresh as [Hn _]. congruence.
      * intros q t1 [t2 Hq]%Hdom. by apply (proj2 Hfresh q t2).
    + destruct (po_links _ _ _ Hp z Hold) as [H1 H2]. split; [done|]. intros q t1 [t2 Hq]%Hdom. by apply (H2 q t2).
  - apply (private_roots _ (user_root P)); [|by apply (private_same hhdm _ _ (memory s)), (po_memory _ _ _ Hp)].
    intros r. split; intros (p & y & Hy & ->).
    + subst P'. destruct (decide (p = current s)) as [->|Hq].
      * exists (current s), (x.1, range :: x.2). rewrite lookup_insert_eq. rewrite HP in Hy. by injection Hy as <-.
      * exists p, y. by rewrite lookup_insert_ne.
    + destruct (HP' p y Hy) as [[-> ->]|[_ Hy']]; [by exists (current s), x|by exists p, y].
Qed.
End mmap_step.

Lemma mmap_keeps P lk ts s range len prot flags r s' :
  system_ok P lk ts (Resumed, s) -> possible (Mmap range len prot flags) s -> mmap range len prot flags s = Ret (r, s') ->
  keeps P lk ts s None (Resumed, s').
Proof.
  intros Hok (Hpr & Hfresh & Hlen & Hfit) E. destruct (running_program _ _ _ _ Hok Hpr) as (x & t & ts1 & ts2 & HP & Ht & Epm & Ets & _).
  unfold mmap, read_gs_base in E. rewrite MSR_read_base in E by done. fold (current s) in E. unfold task_at in E.
  rewrite Ht in E. cbn [of_option mbind outcome_bind] in E. apply bind_Ret in E as ([[r0 b0] v0] & Em & E).
  unfold syscall_mmap in Em. destruct (_ || _ || _).
  - injection Em as <- <- <-. injection E as _ <-.
    assert (set_machine (machine s) (set_memory (memory s) (set_task (current s) (set_anon_base (mmap_anon_base t) t) s)) = s) as ->.
    { assert (set_anon_base (mmap_anon_base t) t = t) as -> by (by destruct t). unfold set_machine, set_memory, set_task. cbn.
      rewrite insert_id by done. by destruct s. }
    apply keeps_self; [done..|]. by apply quiet_words.
  - destruct (po_ranges _ _ _ (sy_programs _ _ _ _ Hok) _ x HP) as [[Hring Hdom] _]. rewrite Epm in Em.
    destruct (add_range_frame range s _ _ (proj1 Hfresh) Hring) as (m & Ea & Hring' & Hframe). cbn [snd] in Ea. rewrite Ea in Em.
    cbn [mbind outcome_bind] in Em. injection Em as <- <- <-. injection E as _ <-. specialize (Hfit t Ht).
    set (s' := set_machine _ _).
    pose proof (mmap_programs P lk ts s x t range len prot m Hok HP Ht Hfresh (conj Hlen Hfit) Hring' Hframe) as Hp'.
    split; [by apply quiet_words|]. exists (<[current s := (x.1, range :: x.2)]> P), ts. destruct Hok as [Hso Hrun Hlive Hdead Hp Hc]. cbn [fst snd] in *.
    assert (forall q, tasks s' !! q = (if decide (q = current s) then Some (set_anon_base (u64 (mmap_anon_base t + align_up 0x1000 len)) t) else tasks s !! q)) as Htk.
    { intros q. cbn. case_decide as Eq; [by rewrite Eq, lookup_insert_eq|by rewrite lookup_insert_ne]. }
    split; [split; cbn [fst snd]|split; [done|split]].
    + destruct Hso as [Hr Ht0 Hb Hh]. split; [| | |done].
      * apply (ring_frame _ _ _ _ (range :: nodes x) Hr Hframe). intros z Hz [->|Hx]%elem_of_cons.
        -- by apply (fresh_node range s _ _ (proj1 Hfresh) Hr).
        -- destruct (po_links _ _ _ Hp z) as [H1 H2]; [right; by exists (current s), x|].
           apply elem_of_cons in Hz as [?|(q & -> & Hq)%list_elem_of_fmap]; [done|]. destruct (Ht0 q Hq) as [t1 Hq1]. by apply (H2 q t1).
      * intros q Hq. rewrite Htk. case_decide; [by eexists|by apply Ht0].
      * intros q t1. rewrite Htk. case_decide as Eq; [|by apply Hb]. subst q. intros [= <-]. by apply (Hb (current s) t).
    + right. change (current s') with (current s). split; [rewrite Htk, decide_True by done; by eexists|left; rewrite Ets; set_solver].
    + done.
    + done.
    + exact Hp'.
    + intros t1. change (current s') with (current s). rewrite Htk, decide_True by done. intros [= <-]. exact (Hc t Ht).
    + intros q. destruct (decide (q = current s)) as [->|Hq]; [by rewrite lookup_insert_eq, HP|by rewrite lookup_insert_ne].
    + intros q Hq. rewrite lookup_insert_ne by done. split; [done|]. cbn [snd]. rewrite Htk, decide_False by done. done.
Qed.

(** The timer finds nobody only when the list is empty, and then the kernel panics. *)
Lemma isr_without_tasks s regs :
  sched_ok sched_list_head s [] -> running s [] -> scheduler_isr hhdm sched_list_head reg_base timer regs s = Panic.
Proof.
  intros Hok Hrun. unfold scheduler_isr. set (s1 := set_machine (timer_stop reg_base (machine s)) s).
  unfold read_gs_base. rewrite MSR_read_base by done. cbn [machine set_machine s1].
  rewrite base_stop by done. fold (current s). set (c := current s) in *.
  set (s2 := set_machine _ s1). assert (sched_ok sched_list_head s2 []) as Hok2 by (by destruct Hok).
  assert (c = 0 \/ is_Some (tasks s !! c)) as Hc by (destruct Hrun as [?|[? _]]; auto).
  rewrite (save_current_spec sched_list_head s2 [] c regs Hok2 Hc). ored. cbn [s2 s1 set_machine tasks memory last_tid cr3 machine].
  unfold next_task. cbn [memory]. rewrite (empty_spec _ _ _ (so_ring _ _ _ Hok)). ored.
  destruct (Z.eqb_spec c 0) as [|Hc0]; [done|].
  destruct Hrun as [?|[_ [Hin|[_ Hz]]]]; [done|by apply not_elem_of_nil in Hin|]. fold c in Hz. by rewrite (get_next_spec _ _ _ Hz).
Qed.

Lemma tick_keeps P lk ts e s regs r s' :
  system_ok P lk ts (e, s) -> scheduler_isr hhdm sched_list_head reg_base timer regs s = Ret (r, s') ->
  keeps P lk ts s None (Resumed, s') /\ current s' ∈ ts.
Proof.
  intros [Hso Hrun Hlive Hdead Hp Hc] E. cbn [fst snd] in *. destruct ts as [|n0 ts]; [by rewrite isr_without_tasks in E|].
  assert (exists n, successor (current s) (n0 :: ts) = Some n) as [n Hn].
  { unfold successor. destruct (after _ _) as [n|]; [by exists n|by exists n0]. }
  destruct (isr_spec hhdm sched_list_head reg_base timer s (n0 :: ts) regs n Hso Hrun Hn)
    as (t & s1 & E1 & Et & Htn & Ecur & Em & _ & Ecr & _ & _ & Hso').
  rewrite E in E1. injection E1 as -> <-. apply successor_in in Hn.
  assert (forall q, task_space <$> tasks s' !! q = task_space <$> tasks s !! q) as Hts.
  { intros q. rewrite Et. case_decide; [done|]. destruct (decide (q = current s)) as [->|Hq];
      [rewrite lookup_alter_eq; by destruct (tasks s !! current s)|by rewrite lookup_alter_ne]. }
  split; [|by rewrite Ecur]. split; [apply quiet_words; intros q x _ v _; cbn [snd]; by rewrite Em|]. exists P, (n0 :: ts). split; [split; cbn [fst snd]|split; [done|split; [done|]]].
  - done.
  - right. rewrite Ecur, Htn. split; [by eexists|by left].
  - intros _. right. by rewrite Ecur.
  - done.
  - apply (programs_frame P lk s s' []); try done; rewrite ?Em; try done.
    + by apply same_tasks.
    + intros z _. apply not_elem_of_nil.
    + apply (po_memory _ _ _ Hp).
  - intros t1. rewrite Ecur, Htn, Ecr. by intros [= <-].
  - intros q Hq. cbn [snd]. split; [done|]. split; [|intros x _ v _; by rewrite Em].
    rewrite Et. case_decide; [done|]. by rewrite lookup_alter_ne.
Qed.

(** What an event stores. *)
Definition stores (ev : event) : option (Z * Z) := match ev with Store _ w x => Some (w, x) | _ => None end.

Lemma event_keeps P lk ts ev s st' :
  system_ok P lk ts (Resumed, s) -> possible ev s -> handle ev s = Ret st' -> keeps P lk ts s (stores ev) st'.
Proof.
  intros Hok Hpos E.
  destruct ev as [regs w|regs w x|range len prot flags|f| |vec regs|vec cr2 regs]; cbn [possible handle stores] in *.
  - destruct Hpos as (? & _). by eapply load_keeps.
  - destruct Hpos as (? & ?). by eapply store_keeps.
  - apply bind_Ret in E as ([r s'] & E & [= <-]). by eapply mmap_keeps.
  - apply bind_Ret in E as (s' & E & [= <-]). by eapply files_keeps.
  - apply bind_Ret in E as (s' & E & [= <-]). by eapply die_keeps.
  - destruct Hpos as (? & ? & _). by eapply exception_keeps.
  - destruct Hpos. by eapply kernel_fault_keeps.
Qed.

Lemma moves_keeps P lk ts st st' : system_ok P lk ts st -> moves st st' -> exists wr, keeps P lk ts st.2 wr st'.
Proof.
  intros Hok Hm. inversion Hm as [e s regs r s' E|ev s st'' Hpos E]; subst; cbn [snd].
  - exists None. by destruct (tick_keeps _ _ _ _ _ _ _ _ Hok E).
  - exists (stores ev). by eapply event_keeps.
Qed.

(** ** Every event is handled *)
Lemma exception_handled P lk ts s vec regs :
  system_ok P lk ts (Resumed, s) -> program s (current s) -> user_mode regs = true -> 0 <= vec ->
  exists s', exception_handler vec regs s = Ret (Halted, s').
Proof.
  intros Hok Hpr Hm Hvec. destruct (running_program _ _ _ _ Hok Hpr) as (x & t & ts1 & ts2 & _ & Ht & _ & -> & _).
  destruct (dequeue_spec sched_list_head s ts1 (current s) ts2 (sy_sched _ _ _ _ Hok) eq_refl) as (s' & Ed & _).
  unfold exception_handler. destruct (err_name_returns vec Hvec) as [nm ->]. ored. rewrite Hm.
  unfold read_gs_base. rewrite MSR_read_base by done. unfold current in Ht. unfold task_at. rewrite Ht. ored.
  assert (set_machine (machine s) s = s) as -> by (by destruct s). rewrite Ed. by exists s'.
Qed.

Lemma fault_handled P lk ts s vec cr2 regs :
  system_ok P lk ts (Resumed, s) -> program s (current s) -> user_mode regs = true -> 0 <= vec ->
  supply 4 (frames (memory s)) -> exists st', page_fault_handler hhdm kernel vec cr2 regs s = Ret st'.
Proof.
  intros Hok Hpr Hm Hvec Hsup. destruct (running_program _ _ _ _ Hok Hpr) as (x & t & ts1 & ts2 & HP & Ht & Epm & _).
  pose proof (sy_programs _ _ _ _ Hok) as Hp. cbn [snd] in Hp. destruct (po_ranges _ _ _ Hp _ x HP) as [Hran Htame].
  pose proof (po_memory _ _ _ Hp) as Hpv. pose proof (sp_inv _ _ _ (pv_spaces _ _ _ _ Hpv) _ (root_of P _ x HP)) as Hinv.
  destruct (fault_spec hhdm hhdm_ok (memory s) x.1 cr2 x.2 Hinv Hsup Hran) as (b & v & Ef & _).
  { intros q rg Hq Hrq. by apply (Htame q rg Hq Hrq). }
  unfold page_fault_handler. rewrite Hm. unfold read_gs_base. rewrite MSR_read_base by done. unfold current in Ht.
  unfold task_at. rewrite Ht. ored. rewrite Epm, Ef. ored. destruct b; [|by eexists].
  destruct (fault_ret hhdm hhdm_ok (memory s) x.1 cr2 x.2 true v Hinv Hran Ef) as (Eh & Er & Hext).
  destruct (private_extends hhdm _ _ (memory s) v (pml4 x.1) Hpv (root_of P _ x HP) Hext) as [Hpv' _].
  set (s1 := set_machine _ _).
  assert (system_ok P lk ts (Resumed, s1)) as Hok1 by (by apply (system_pages P lk ts s)).
  destruct (exception_handled P lk ts s1 vec regs Hok1) as [s' ->]; [done..|]. by eexists.
Qed.

(** A page fault of the kernel is served from its ranges, or stops it. *)
Lemma kernel_fault_handled P lk ts s vec cr2 regs :
  system_ok P lk ts (Resumed, s) -> user_mode regs = false -> 0 <= vec -> supply 4 (frames (memory s)) ->
  (exists st', page_fault_handler hhdm kernel vec cr2 regs s = Ret st') \/ page_fault_handler hhdm kernel vec cr2 regs s = Panic.
Proof.
  intros Hok Hm Hvec Hsup. pose proof (sy_programs _ _ _ _ Hok) as Hp. cbn [snd] in Hp. destruct (po_kernel _ _ _ Hp) as [Hran Hfl].
  pose proof (sp_inv _ _ _ (pv_spaces _ _ _ _ (po_memory _ _ _ Hp)) _ (or_introl eq_refl)) as Hinv.
  destruct (fault_spec hhdm hhdm_ok (memory s) kernel cr2 lk Hinv Hsup Hran) as (b & v & Ef & _).
  { intros q rg Hq Hrq. by apply (Hfl q rg Hq Hrq). }
  unfold page_fault_handler. rewrite Hm. ored. rewrite Ef. ored. destruct b; [right|left; by eexists].
  unfold exception_handler. destruct (err_name_returns vec Hvec) as [nm ->]. ored. by rewrite Hm.
Qed.

(** A page fault in either mode. *)
Lemma access_fault_handled P lk ts s cr2 regs :
  system_ok P lk ts (Resumed, s) -> program s (current s) -> supply 4 (frames (memory s)) ->
  (exists st', page_fault_handler hhdm kernel 14 cr2 regs s = Ret st') \/
  user_mode regs = false /\ page_fault_handler hhdm kernel 14 cr2 regs s = Panic.
Proof.
  intros Hok Hpr Hsup. destruct (user_mode regs) eqn:Hm; [left; by apply (fault_handled P lk ts)|].
  destruct (kernel_fault_handled P lk ts s 14 cr2 regs Hok Hm) as [?|?]; [done|done|by left|by right].
Qed.

(** A page fault, or an access that may fault, of the kernel itself. *)
Definition of_kernel (ev : event) : Prop :=
  match ev with
  | Load regs _ | Store regs _ _ | KernelFault _ _ regs => user_mode regs = false
  | _ => False
  end.

Lemma event_handled P lk ts ev s :
  system_ok P lk ts (Resumed, s) -> possible ev s -> supply 4 (frames (memory s)) ->
  (exists st', handle ev s = Ret st') \/ of_kernel ev /\ handle ev s = Panic.
Proof.
  intros Hok Hpos Hsup. destruct ev as [regs w|regs w x|range len prot flags|f| |vec regs|vec cr2 regs]; cbn [possible handle of_kernel] in *.
  - destruct Hpos as (Hpr & _). unfold load_word. destruct (entry_for _ _ _ _ _); [left; by eexists|].
    by apply (access_fault_handled P lk ts).
  - destruct Hpos as (Hpr & Hin). unfold store_word. destruct (entry_for _ _ _ _ _) as [e|] eqn:He; [left|by apply (access_fault_handled P lk ts)].
    destruct (running_program _ _ _ _ Hok Hpr) as (y & t & ts1 & ts2 & HP & _).
    destruct (store_entry _ _ _ _ y regs w e Hok Hpr HP Hin He) as (Htr & Hw & _).
    destruct (store_spec P lk ts s y w e x Hok HP Hw Htr) as (v & -> & _). by eexists.
  - left. destruct Hpos as (Hpr & Hfr & _). destruct (running_program _ _ _ _ Hok Hpr) as (y & t & ts1 & ts2 & HP & Ht & Epm & _).
    unfold mmap, read_gs_base. rewrite MSR_read_base by done. unfold current in Ht. unfold task_at. rewrite Ht. ored.
    unfold syscall_mmap. destruct (_ || _ || _); [by eexists|].
    destruct (po_ranges _ _ _ (sy_programs _ _ _ _ Hok) _ y HP) as [[Hring _] _].
    destruct (add_range_frame range s _ _ (proj1 Hfr) Hring) as (m & Ea & _). cbn [snd] in Ea. rewrite Epm, Ea. by eexists.
  - left. destruct Hpos as (t & Ht & _). destruct (files_spec P lk ts s f t Hok Ht) as (s' & -> & _). by eexists.
  - left. destruct (running_program _ _ _ _ Hok Hpos) as (y & t & ts1 & ts2 & _ & _ & _ & -> & _).
    destruct (dequeue_spec sched_list_head s ts1 (current s) ts2 (sy_sched _ _ _ _ Hok) eq_refl) as (s' & -> & _). by eexists.
  - left. destruct Hpos as (Hpr & Hm & Hvec). destruct (exception_handled P lk ts s vec regs) as [s' ->]; [done..|]. by eexists.
  - destruct Hpos as [Hm Hvec]. destruct (kernel_fault_handled P lk ts s vec cr2 regs Hok) as [?|?]; [done..|by left|by right].
Qed.

(** ** Runs *)
Lemma run_keeps P lk ts st st' :
  system_ok P lk ts st -> rtc moves st st' ->
  exists P' ts', system_ok P' lk ts' st' /\ ts' ⊆ ts /\ forall q, fst <$> P' !! q = fst <$> P !! q.
Proof.
  intros Hok Hr. revert P ts Hok. induction Hr as [st|st st1 st' Hm _ IH]; intros P ts Hok; [by exists P, ts|].
  destruct (moves_keeps P lk ts st st1 Hok Hm) as (_ & _ & P1 & ts1 & Hok1 & Hts1 & Hfst1 & _).
  destruct (IH P1 ts1 Hok1) as (P' & ts' & Hok' & Hts' & Hfst'). exists P', ts'. split; [done|]. split; [set_solver|].
  intros q. by rewrite Hfst', Hfst1.
Qed.

(** Steps in which [q] does not run. *)
Definition away q (st st' : ending * sched M) : Prop := moves st st' /\ current st.2 <> q.

Lemma away_keeps P lk ts st st' q x :
  system_ok P lk ts st -> P !! q = Some x -> rtc (away q) st st' ->
  exists P' ts', system_ok P' lk ts' st' /\ P' !! q = Some x /\ tasks st'.2 !! q = tasks st.2 !! q /\
    same_view hhdm (memory st.2) (memory st'.2) (pml4 x.1).
Proof.
  intros Hok HP Hr. revert P ts Hok HP. induction Hr as [st|st st1 st' [Hm Hne] _ IH]; intros P ts Hok HP; [by exists P, ts|].
  destruct (moves_keeps P lk ts st st1 Hok Hm) as (_ & _ & P1 & ts1 & Hok1 & _ & _ & Hoth).
  destruct (Hoth q) as (HP1 & Ht1 & Hv1); [done|]. rewrite HP in HP1.
  destruct (IH P1 ts1 Hok1 HP1) as (P' & ts' & Hok' & HP' & Ht' & Hv'). exists P', ts'. split; [done|]. split; [done|].
  split; [congruence|]. apply (same_view_trans _ (memory st1.2)); [by apply Hv1|done].
Qed.

(** The next turn of a program that another task's turn ends for. *)
Lemma next_turn P lk ts st q x regs r s t :
  system_ok P lk ts st -> P !! q = Some x -> current st.2 <> q -> tasks st.2 !! q = Some t ->
  scheduler_isr hhdm sched_list_head reg_base timer regs st.2 = Ret (r, s) -> current s = q ->
  r = gpr_state t /\ pml4 (mmu s) = pml4 x.1 /\ memory s = memory st.2.
Proof.
  destruct st as [e s0]. cbn [snd]. intros Hok HP Hne Ht E Hq.
  destruct (tick_keeps P lk ts e s0 regs r s Hok E) as [(_ & P' & ts' & Hok' & _ & _ & Hoth) _].
  destruct (Hoth q ltac:(done)) as (HP' & Ht' & _). cbn [snd] in Ht'. rewrite HP in HP'.
  pose proof (sy_sched _ _ _ _ Hok) as Hso. pose proof (sy_running _ _ _ _ Hok) as Hrun. cbn [snd] in *.
  destruct ts as [|n0 ts]; [by rewrite isr_without_tasks in E|].
  assert (exists n, successor (current s0) (n0 :: ts) = Some n) as [n Hn].
  { unfold successor. destruct (after _ _) as [n|]; [by exists n|by exists n0]. }
  destruct (isr_spec hhdm sched_list_head reg_base timer s0 (n0 :: ts) regs n Hso Hrun Hn)
    as (t1 & s1 & E1 & _ & Htn & Ecur & Em & _). rewrite E in E1. injection E1 as -> <-.
  assert (n = q) as -> by congruence. assert (t1 = t) as -> by congruence. split; [done|]. split; [|done].
  destruct (po_program _ _ _ (sy_programs _ _ _ _ Hok') q x HP') as (t2 & Ht2 & Epm & Hnk & _).
  rewrite <- Hq in HP'. apply (mmu_program P' lk ts' s x Hok'); [|done]. cbn [snd] in Ht2. exists t2. by rewrite Hq, Epm.
Qed.


(** C3. The memory of a program is made of variables: in any event (an access, a
    system call, a fault or an exception; [handle]), under the same two
    conditions, a word of any program stays as it is, comes
    into being as 0, or is the word that was stored, by the running program
    itself or by the kernel in a system call of it, with the value stored. *)
Theorem words_change_by_stores P lk ts ev s st' q x w :
  system_ok P lk ts (Resumed, s) -> possible ev s -> handle ev s = Ret st' -> P !! q = Some x -> 0 <= 8 * w < 2 ^ 47 ->
  let before := word_seen (memory s) (pml4 x.1) w in
  let now := word_seen (memory st'.2) (pml4 x.1) w in
  now = before \/ before = None /\ now = Some 0 \/
  exists y, q = current s /\ stores ev = Some (w, y) /\ now = Some y.
Proof.
  intros Hok Hpos E HP Hw. destruct (event_keeps P lk ts ev s st' Hok Hpos E) as (Hown & P' & ts' & _ & _ & _ & Hoth).
  cbn zeta. destruct (decide (q = current s)) as [->|Hne].
  - destruct (Hown x w HP Hw) as [?|[?|(y & Hs & Hn)]]; [by left|by right; left|]. right. right. by exists y.
  - left. apply view_words; [|done]. by apply (Hoth q Hne).
Qed.

(** A task that was halted never runs again. *)
Lemma halted_stays P lk ts st st' :
  system_ok P lk ts st -> st.1 = Halted -> rtc moves st st' -> st'.1 = Resumed -> current st.2 <> 0 ->
  current st'.2 <> current st.2.
Proof.
  intros Hok Hh Hr Hres Hnz Ec. destruct (run_keeps P lk ts st st' Hok Hr) as (P' & ts' & Hok' & Hts & _).
  pose proof (sy_dead _ _ _ _ Hok Hh) as Hd. destruct (sy_live _ _ _ _ Hok' Hres); [congruence|].
  apply Hd, Hts. congruence.
Qed.

End Processes.

(** ** Two programs

    They share the kernel's half; each has reserved two pages at 0x400000. *)
Definition program_a : Pagemap := mkPagemap (window + 0x5000) 3000.
Definition program_b : Pagemap := mkPagemap (window + 0x6000) 4000.

Definition kernel_memory : outcome (vm pmm) := map_page window kernel_map 0x5000 0xFFFFFFFF80000000 3 big_memory.
Definition new_space (pm : Pagemap) (m : vm pmm) : outcome (vm pmm) :=
  '(_, m) ← new_page window m; map_kernel kernel_map pm m.
Definition two_spaces : vm pmm :=
  match (m ← kernel_memory; m ← new_space program_a m; new_space program_b m) with Ret m => m | _ => big_memory end.

Definition two_heads : gmap Z ListHead :=
  list_to_map [(500, mkListHead 0x10020 0x20020); (0x10020, mkListHead 0x20020 500); (0x20020, mkListHead 500 0x10020);
    (1000, mkListHead 1000 1000); (3000, mkListHead 3001 3001); (3001, mkListHead 3000 3000);
    (4000, mkListHead 4001 4001); (4001, mkListHead 4000 4000)].
Definition reserved_pages : MappedRange := mkMappedRange 0x400000 0x2000 (mmap_flags PROT_WRITE) ANONYMOUS.
Definition two_memory : vm pmm :=
  mkVm (mem two_spaces) (frames two_spaces) two_heads {[3001 := reserved_pages; 4001 := reserved_pages]} [].
Definition task_of (pm : Pagemap) (regs : InterruptState) : Task :=
  mkTask 0 0 0 0 pm regs 0 0 0 false (Vfs.mkTask (Vector.new 0) 3 3 0) 0x500000.
Definition two_programs : sched board :=
  mkSched {[0x10000 := task_of program_a user_regs; 0x20000 := task_of program_b user_regs]} two_memory 2
    (activate window program_a) (write_gs_base 0x10000 machine0).
Definition programs0 : gmap Z (Pagemap * list Z) := {[0x10000 := (program_a, [3001]); 0x20000 := (program_b, [4001])]}.

Lemma big_memory_inv : inv window big_memory (pml4 kernel_map) /\ forall v, translate window (mem big_memory) (pml4 kernel_map) v = None.
Proof.
  apply (inv_cleared window big_memory (pml4 kernel_map) 0x1000).
  - split; [split; [by vm_compute|split; [split; by vm_compute|by vm_compute]]|]. split; by vm_compute.
  - split; [lia|]. split; [reflexivity|vm_compute; reflexivity].
  - reflexivity.
  - vm_compute. reflexivity.
Qed.

Lemma kernel_memory_private :
  exists m, kernel_memory = Ret m /\ private window (pml4 kernel_map) (fun _ => False) m.
Proof.
  destruct big_memory_inv as [Hinv Hnone].
  destruct (map_page_entry window window_range big_memory kernel_map 0x5000 0xFFFFFFFF80000000 3 0 Hinv) as (m & E & Hinv' & Htr & _);
    [apply drain_supply; vm_compute; reflexivity|done|].
  exists m. split; [exact E|]. apply private_kernel; [done|]. intros v e. rewrite Htr, Hnone. case_decide; [|done].
  by intros [= <-].
Qed.

Lemma two_spaces_private :
  private window (pml4 kernel_map) (fun r => r = pml4 program_a \/ r = pml4 program_b) two_spaces.
Proof.
  destruct kernel_memory_private as (m & Em & Hp).
  assert (exists m1, new_page window m = Ret (0x5000, m1)) as (m1 & Ea).
  { assert (('(p, _) ← m ← kernel_memory; new_page window m; Ret p) = Ret 0x5000) as Hc by (vm_compute; reflexivity).
    rewrite Em in Hc. apply bind_Ret in Hc as ([p m1] & En & Ep). injection Ep as ->. by exists m1. }
  destruct (private_new_space window window_range _ _ m kernel_map 0x5000 m1 Hp eq_refl Ea) as (m2 & Ek & Hp2 & _).
  specialize (Ek program_a eq_refl).
  assert (exists m3, new_page window m2 = Ret (0x6000, m3)) as (m3 & Eb).
  { assert (('(p, _) ← m ← kernel_memory; m ← new_space program_a m; new_page window m; Ret p) = Ret 0x6000) as Hc
      by (vm_compute; reflexivity).
    rewrite Em in Hc. apply bind_Ret in Hc as ([p m3] & En & Ep). injection Ep as ->. cbn [mbind outcome_bind] in En.
    apply bind_Ret in En as (m' & En & Eb). unfold new_space in En. rewrite Ea in En. cbn [mbind outcome_bind] in En. rewrite Ek in En.
    injection En as <-. by exists m3. }
  destruct (private_new_space window window_range _ _ m2 kernel_map 0x6000 m3 Hp2 eq_refl Eb) as (m4 & Ek' & Hp4 & _).
  specialize (Ek' program_b eq_refl).
  assert (two_spaces = m4) as ->.
  { unfold two_spaces, new_space. rewrite Em. cbn [mbind outcome_bind]. rewrite Ea. cbn [mbind outcome_bind]. rewrite Ek.
    cbn [mbind outcome_bind]. rewrite Eb. cbn [mbind outcome_bind]. by rewrite Ek'. }
  eapply private_roots; [|exact Hp4]. intros r. unfold program_a, program_b. cbn [pml4]. rewrite !(Z.add_comm window). tauto.
Qed.

Lemma programs0_cases p x :
  programs0 !! p = Some x -> p = 0x10000 /\ x = (program_a, [3001]) \/ p = 0x20000 /\ x = (program_b, [4001]).
Proof.
  unfold programs0. intros [[<- <-]|[_ [<- <-]%lookup_singleton_Some]]%lookup_insert_Some; auto.
Qed.

Lemma two_programs_cases p t :
  tasks two_programs !! p = Some t ->
  p = 0x10000 /\ t = task_of program_a user_regs \/ p = 0x20000 /\ t = task_of program_b user_regs.
Proof. cbn [tasks two_programs]. intros [[<- <-]|[_ [<- <-]%lookup_singleton_Some]]%lookup_insert_Some; auto. Qed.

Lemma two_programs_sched : sched_ok 500 two_programs [0x10000; 0x20000].
Proof.
  split.
  - split; [apply (bool_decide_eq_true_1 _); vm_compute; reflexivity|vm_compute; repeat split; reflexivity].
  - intros p [->|[->|[]%not_elem_of_nil]%elem_of_cons]%elem_of_cons; apply is_Some_alt; vm_compute; exact I.
  - intros p t [[-> ->]|[-> ->]]%two_programs_cases; vm_compute; repeat split; discriminate || reflexivity.
  - done.
Qed.

Lemma two_rings :
  ring two_heads 1000 [] /\ ring two_heads 3000 [3001] /\ ring two_heads 4000 [4001].
Proof.
  split; [|split]; (split; [apply (bool_decide_eq_true_1 _); vm_compute; reflexivity|vm_compute; repeat split; reflexivity]).
Qed.

Lemma reserved_tame : tame reserved_pages.
Proof. split; [reflexivity|vm_compute; reflexivity|vm_compute; reflexivity|cbn; lia]. Qed.

Lemma two_programs_ok : programs_ok window 500 kernel_map programs0 [] two_programs.
Proof.
  destruct two_rings as (Hk & Ha & Hb). split.
  - intros p t [[-> ->]|[-> ->]]%two_programs_cases; intros Hn; vm_compute in Hn; discriminate Hn.
  - intros p x [[-> ->]|[-> ->]]%programs0_cases.
    + exists (task_of program_a user_regs). split; [by vm_compute|]. split; [done|]. split; [done|]. split; vm_compute; split; discriminate || reflexivity.
    + exists (task_of program_b user_regs). split; [by vm_compute|]. split; [done|]. split; [done|]. split; vm_compute; split; discriminate || reflexivity.
  - intros p x [[-> ->]|[-> ->]]%programs0_cases.
    + split; [split; [exact Ha|]|].
      * intros r ->%list_elem_of_singleton. by exists reserved_pages.
      * intros r rg ->%list_elem_of_singleton. intros Hr. vm_compute in Hr. injection Hr as <-. exact reserved_tame.
    + split; [split; [exact Hb|]|].
      * intros r ->%list_elem_of_singleton. by exists reserved_pages.
      * intros r rg ->%list_elem_of_singleton. intros Hr. vm_compute in Hr. injection Hr as <-. exact reserved_tame.
  - split; [split; [exact Hk|]|]; [intros p []%not_elem_of_nil|intros r rg []%not_elem_of_nil].
  - intros p1 p2 x1 x2 [[-> ->]|[-> ->]]%programs0_cases [[-> ->]|[-> ->]]%programs0_cases Hne; try done;
      (split; [done|]); unfold nodes; cbn; set_solver by lia.
  - intros p x z [[-> ->]|[-> ->]]%programs0_cases; unfold nodes; cbn; set_solver by lia.
  - intros z Hz. assert (z = 1000 \/ z = 3000 \/ z = 3001 \/ z = 4000 \/ z = 4001) as Hcase.
    { destruct Hz as [Hz|(p & x & [[-> ->]|[-> ->]]%programs0_cases & Hz)]; unfold nodes in Hz; cbn in Hz; set_solver. }
    split; [lia|]. intros q t [[-> _]|[-> _]]%two_programs_cases; unfold sched_list; lia.
  - apply (private_same window _ _ two_spaces); [done|done|].
    eapply private_roots; [|exact two_spaces_private]. intros r. split.
    + intros [->| ->]; [exists 0x10000, (program_a, [3001])|exists 0x20000, (program_b, [4001])]; done.
    + intros (p & x & [[-> ->]|[-> ->]]%programs0_cases & ->); auto.
Qed.

Lemma two_programs_system : system_ok window 500 kernel_map programs0 [] [0x10000; 0x20000] (Resumed, two_programs).
Proof.
  assert (current two_programs = 0x10000) as Ec by (vm_compute; reflexivity). split; cbn [fst snd].
  - exact two_programs_sched.
  - right. rewrite Ec. split; [by exists (task_of program_a user_regs)|left; left].
  - intros _. right. rewrite Ec. left.
  - done.
  - exact two_programs_ok.
  - rewrite Ec. intros t [[_ ->]|[? _]]%two_programs_cases; done.
Qed.

(** The first program writes 42 to a word it reserved: the first attempt brings
    the page, the second stores. *)
Definition write_42 : event := Store user_regs 0x80000 42.
Definition do_event (ev : event) (s : sched board) : sched board :=
  let '(_, s') := result (Halted, s) (handle window kernel_map ev s) in s'.
Definition touched : sched board := do_event write_42 two_programs.
Definition after_store : sched board := do_event write_42 touched.

Lemma write_42_possible (s : sched board) :
  tasks s !! current s = Some (task_of program_a user_regs) -> possible kernel_map write_42 s.
Proof.
  intros Ht. split; [exists (task_of program_a user_regs); split; [exact Ht|discriminate]|]. left. lia.
Qed.

(** An event after which the program goes on. *)
Lemma event_runs ev (s : sched board) :
  bool_decide ((result (Halted, s) (handle window kernel_map ev s)).1 = Resumed) = true ->
  handle window kernel_map ev s = Ret (Resumed, do_event ev s).
Proof.
  unfold do_event. destruct (handle _ _ _ _) as [[e s']| | |]; cbn; [|by intros [=]%bool_decide_eq_true..].
  by intros ->%bool_decide_eq_true.
Qed.

Lemma touched_runs : handle window kernel_map write_42 two_programs = Ret (Resumed, touched) /\
  tasks touched !! current touched = Some (task_of program_a user_regs).
Proof. split; [apply event_runs|]; vm_compute; reflexivity. Qed.

Lemma two_programs_runs : tasks two_programs !! current two_programs = Some (task_of program_a user_regs).
Proof. vm_compute. reflexivity. Qed.

Lemma touched_moves : moves window 500 kernel_map lapic0 timer0 (Resumed, two_programs) (Resumed, touched).
Proof. apply (moves_event _ _ _ _ _ write_42); [exact (write_42_possible two_programs two_programs_runs)|apply touched_runs]. Qed.

Lemma touched_system : exists P ts, system_ok window 500 kernel_map P [] ts (Resumed, touched) /\
  exists x, P !! 0x10000 = Some x /\ pml4 x.1 = pml4 program_a.
Proof.
  destruct (run_keeps window 500 kernel_map lapic0 timer0 window_range _ _ _ _ _ two_programs_system (rtc_once _ _ touched_moves))
    as (P & ts & Hok & _ & Hfst).
  exists P, ts. split; [exact Hok|]. specialize (Hfst 0x10000). change (programs0 !! 0x10000) with (Some (program_a, [3001])) in Hfst.
  destruct (P !! 0x10000) as [x|]; [|discriminate Hfst]. exists x. split; [reflexivity|]. cbn in Hfst. by injection Hfst as ->.
Qed.

Lemma stored_runs : handle window kernel_map write_42 touched = Ret (Resumed, after_store).
Proof. apply event_runs. vm_compute. reflexivity. Qed.


Lemma words_change_by_stores_witness :
  word_seen window (memory touched) (pml4 program_a) 0x80000 = Some 0 /\
  word_seen window (memory after_store) (pml4 program_a) 0x80000 = Some 42.
Proof.
  destruct touched_system as (P & ts & Hok & x & HP & Ex).
  assert (word_seen window (memory touched) (pml4 program_a) 0x80000 = Some 0) as Hb by (vm_compute; reflexivity).
  assert (word_seen window (memory after_store) (pml4 program_a) 0x80000 <> Some 0) as Hn by (vm_compute; discriminate).
  pose proof (words_change_by_stores window 500 kernel_map window_range P [] ts write_42 touched (Resumed, after_store)
    0x10000 x 0x80000 Hok) as Hw.
  rewrite Ex, Hb in Hw. destruct Hw as [Hw|[[Hw _]|(y & _ & Hy & Hw)]].
  - exact (write_42_possible touched (proj2 touched_runs)).
  - exact stored_runs.
  - exact HP.
  - lia.
  - destruct (Hn Hw).
  - discriminate Hw.
  - split; [exact Hb|]. injection Hy as <-. exact Hw.
Defined.

(** What is asked of [mmap] is needed.  A program may reserve more than its
    half of the address space: the range reaches over the kernel's half, and a
    fault there maps a page, for the program to use, in a table all address
    spaces share.  Its stores then appear in the other program. *)
Definition shared_word : Z := 0xFFFFFFFF80001000 / 8.
Definition grab : event := Mmap 5000 0xFFFFFFFFFFAFE000 PROT_WRITE 9.
Definition intrude : event := Store user_regs shared_word 42.
Example a_program_writes_into_another :
  let s := do_event intrude (do_event intrude (do_event grab two_programs)) in
  translate window (mem (memory two_programs)) (pml4 program_b) (8 * shared_word) = None /\
  match translate window (mem (memory s)) (pml4 program_b) (8 * shared_word) with
  | Some e =>
      allows (needs true true) e = true /\
      (ws ← mem (memory s) !! Demand.frame window e; zlookup ws (word_index (8 * shared_word))) = Some 42
  | None => False
  end.
Proof. vm_compute. repeat split; reflexivity. Qed.

(** So is what is asked of buffers: the kernel stores wherever a program says,
    here in a page of the kernel's, which programs may not touch. *)
Definition kernel_regs : InterruptState := initial_state KERNEL_CODE_64 KERNEL_DATA_64 0 0.
Definition kernel_word : Z := 0xFFFFFFFF80000000 / 8.
Definition kernel_word_of (o : outcome (ending * sched board)) : option Z :=
  match o with
  | Ret (Resumed, s) =>
      e ← translate window (mem (memory s)) (pml4 kernel_map) (8 * kernel_word);
      ws ← mem (memory s) !! Demand.frame window e; zlookup ws 0
  | _ => None
  end.
Example a_buffer_in_the_kernel :
  kernel_word_of (handle window kernel_map (Store kernel_regs kernel_word 42) two_programs) = Some 42 /\
  kernel_word_of (handle window kernel_map (Store user_regs kernel_word 42) two_programs) = None.
Proof. vm_compute. split; reflexivity. Qed.
