(* ===== verification/Calls.v ===== *)
(** * System calls that store in a program's memory: fs/vfs.cpp on many programs

    read, pread and getcwd store at an address the program gives, through the
    page tables of the running program and without a look at the address.  Here
    they are the functions of files Vfs and Tree on the machine of file
    Processes, with the bytes stored one after the other: each is a run of that
    machine, and what read stores is what the program then finds.  The seven
    other calls on files only load from the program's memory. *)
From S2P Require Import Prelude Algorithm Bitmap Pmm CString HashMap Vector Keyboard Printf List Vfs Descriptors Tmpfs Tree Mkfs Paging AddressSpace Spaces Demand Machine Interrupts Cpu Timers Elf Sched Traps Processes.

(** Byte [k] of a word, and the word with another one. *)
Definition word_byte (x k : Z) : option Z := zlookup (bytes_of 8 x) k.
Definition put_word_byte (x k b : Z) : Z := number (zinsert k b (bytes_of 8 x)).

Lemma bytes_of_byte n : forall w, Forall byte (bytes_of n w).
Proof.
  induction n as [|n IH]; intros w; [constructor|]. cbn [bytes_of]. constructor; [|apply IH].
  apply Z.mod_pos_bound. lia.
Qed.

Lemma put_word_byte_spec x k b j :
  byte b -> 0 <= k < 8 -> word_byte (put_word_byte x k b) j = if decide (j = k) then Some b else word_byte x j.
Proof.
  intros Hb Hk. unfold word_byte, put_word_byte. pose proof (length_bytes_of 8 x) as Hl.
  assert (bytes_of 8 (number (zinsert k b (bytes_of 8 x))) = zinsert k b (bytes_of 8 x)) as ->.
  { assert (length (zinsert k b (bytes_of 8 x)) = 8%nat) as Hlen by by rewrite length_zinsert.
    rewrite <- Hlen at 1. apply bytes_of_number, Forall_insert; [apply bytes_of_byte|done]. }
  case_decide as E; [subst j; apply zlookup_zinsert_eq; rewrite Hl; lia|by apply zlookup_zinsert_ne; [lia|congruence]].
Qed.

Section Calls.
Context {M : Type} `{BaseRegisters M}.
Context (hhdm : Z) (hhdm_ok : 0 <= hhdm <= 2 ^ 64 - 2 ^ 46) (sched_list_head : Z) (kernel : Pagemap) (reg_base : Z) (timer : apic_timer).
Context {D S : Type} (filesystem : Z -> option (FileSystem D)) (wild : Z -> Z).
Implicit Types (s : sched M) (y : sys D S) (bs : list Z).

(** The registers in the kernel; those of a fault say what mode it was in. *)
Context (regs : InterruptState) (Hregs : user_mode regs = false).

(** The entry a store at [a] goes through.  A fault that is served from the
    kernel's ranges, of which the running program's tables know nothing, comes
    again and again: [fuel] attempts stand for any number of them. *)
Fixpoint kernel_entry (fuel : nat) (a : Z) s : outcome (Z * sched M) :=
  match fuel with
  | O => Diverge
  | Datatypes.S fuel =>
      match entry_for hhdm (needs false true) (mmu hhdm s) a (memory s) with
      | Some e => Ret (e, s)
      | None => '(_, s) ← page_fault_handler hhdm kernel 14 a regs s; kernel_entry fuel a s
      end
  end.

Definition store_byte (a b : Z) s : outcome (sched M) :=
  '(e, s) ← kernel_entry 2 a s;
  ws ← of_option (mem (memory s) !! Demand.frame hhdm e);
  x ← of_option (zlookup ws (word_index a));
  v ← write_entry (Demand.frame hhdm e) (word_index a) (put_word_byte x (a mod 8) b) (memory s);
  Ret (set_memory v s).

(** [memcpy(buf, ..., bs.size())] *)
Fixpoint copy_to (buf : Z) bs s : outcome (sched M) :=
  match bs with
  | [] => Ret s
  | b :: bs => s ← store_byte buf b s; copy_to (u64 (buf + 1)) bs s
  end.

(** A cell of a file nobody wrote holds what was in the heap. *)
Definition filled (bytes : list (option Z)) : list Z := imap (fun k b => default (wild (Z.of_nat k)) b) bytes.

(** The running task's part of a system call on files. *)
Definition on_files {A} (f : sys D S -> outcome (A * sys D S)) s y : outcome (A * sched M * sys D S) :=
  let '(p, m) := read_gs_base (machine s) in
  t ← task_at p s;
  '(r, y) ← f (mkSys (files y) (fds t) (keyboard y) (screen y));
  s ← set_fds (task y) (set_machine m s);
  Ret (r, s, y).

Definition syscall_read (fd buf count : Z) (incoming : list Z) s y : outcome (list Z * sched M * sys D S) :=
  '(r, s, y) ← on_files (fun y => '(bytes, incoming, y) ← Vfs.syscall_read filesystem fd count incoming y; Ret ((bytes, incoming), y)) s y;
  s ← copy_to buf (filled (fst r)) s; Ret (snd r, s, y).
Definition syscall_pread (fd buf count offset : Z) s y : outcome (sched M * sys D S) :=
  '(bytes, s, y) ← on_files (fun y => bytes ← Vfs.syscall_pread filesystem fd count offset y; Ret (bytes, y)) s y;
  s ← copy_to buf (filled bytes) s; Ret (s, y).
Definition syscall_getcwd (buf size : Z) s y : outcome (Z * sched M * sys D S) :=
  '(r, s, y) ← on_files (fun y => '(cs, r) ← Vfs.syscall_getcwd size (files y) (task y); Ret ((cs, r), y)) s y;
  s ← copy_to buf (fst r) s; Ret (snd r, s, y).

(** ** They are runs of the machine *)
Abbreviation moves := (Processes.moves hhdm sched_list_head kernel reg_base timer).
Abbreviation program := (Processes.program kernel).

Lemma program_same s s' : tasks s' = tasks s -> current s' = current s -> program s (current s) -> program s' (current s').
Proof. intros Et Ec. unfold Processes.program. by rewrite Et, Ec. Qed.

(** A fault of the kernel changes memory only, or stops it. *)
Lemma kernel_fault_returns vec cr2 s e s' :
  page_fault_handler hhdm kernel vec cr2 regs s = Ret (e, s') -> e = Resumed /\ tasks s' = tasks s /\ current s' = current s.
Proof.
  unfold page_fault_handler. rewrite Hregs. intros ([pm m] & [= <- <-] & E)%bind_Ret.
  apply bind_Ret in E as ([b v] & _ & E). destruct b; [|by injection E as <- <-].
  unfold exception_handler in E. apply bind_Ret in E as (nm & _ & E). by rewrite Hregs in E.
Qed.

Lemma entry_moves fuel a : forall s e s',
  program s (current s) -> kernel_entry fuel a s = Ret (e, s') ->
  rtc moves (Resumed, s) (Resumed, s') /\ program s' (current s') /\
  entry_for hhdm (needs false true) (mmu hhdm s') a (memory s') = Some e.
Proof.
  induction fuel as [|fuel IH]; intros s e s' Hpr E; [done|]. cbn [kernel_entry] in E.
  destruct (entry_for _ _ _ _ _) as [e1|] eqn:He; [injection E as <- <-; by split; [apply rtc_refl|]|].
  apply bind_Ret in E as ([e1 s1] & Ef & E). destruct (kernel_fault_returns _ _ _ _ _ Ef) as (-> & Et & Ec).
  destruct (IH s1 e s' (program_same s s1 Et Ec Hpr) E) as (Hr & Hp & He'). split; [|done].
  eapply rtc_l; [|exact Hr]. apply (moves_event _ _ _ _ _ (KernelFault 14 a regs)); [by split|exact Ef].
Qed.

Lemma word_index_byte a : word_index a = word_index (8 * (a / 8)).
Proof.
  rewrite word_index_spec. unfold word_index. change 0x1000 with (8 * 512). rewrite Z.rem_mul_r, Z.mul_comm, Z.div_add by lia.
  rewrite (Z.div_small (a mod 8)) by (apply Z.mod_pos_bound; lia). lia.
Qed.

Lemma word_page_of a : page (8 * (a / 8)) = page a.
Proof.
  unfold page. change (2 ^ 12) with (8 * 512). rewrite <- !Z.div_div by lia. f_equal. f_equal.
  by rewrite (Z.mul_comm 8), Z.div_mul.
Qed.

Lemma entry_word s a bits : entry_for hhdm bits (mmu hhdm s) (8 * (a / 8)) (memory s) = entry_for hhdm bits (mmu hhdm s) a (memory s).
Proof. unfold entry_for. by rewrite (translate_page _ _ _ _ a (word_page_of a)). Qed.

Lemma store_byte_moves a b s s' :
  program s (current s) -> 0 <= a < 2 ^ 47 -> store_byte a b s = Ret s' ->
  rtc moves (Resumed, s) (Resumed, s') /\ program s' (current s').
Proof.
  intros Hpr Ha E. apply bind_Ret in E as ([e s1] & E1 & E). destruct (entry_moves 2 a s e s1 Hpr E1) as (Hr & Hpr1 & He).
  apply bind_Ret in E as (ws & Ews & E). apply bind_Ret in E as (x & Ex & E). apply bind_Ret in E as (v & Ew & [= <-]).
  split; [|by apply (program_same s1)]. eapply rtc_r; [exact Hr|].
  apply (moves_event _ _ _ _ _ (Store regs (a / 8) (put_word_byte x (a mod 8) b))).
  - split; [done|]. unfold in_reach. rewrite Hregs. pose proof (Z.div_mod a 8 ltac:(lia)). pose proof (Z.mod_pos_bound a 8 ltac:(lia)).
    split; [assert (0 <= a / 8) by (apply Z.div_pos; lia)|]; lia.
  - cbn [handle]. unfold store_word. rewrite Hregs, entry_word, He, <- word_index_byte, Ew. done.
Qed.

Lemma copy_moves bs : forall buf s s',
  program s (current s) -> 0 <= buf -> buf + Z.of_nat (length bs) <= 2 ^ 47 -> copy_to buf bs s = Ret s' ->
  rtc moves (Resumed, s) (Resumed, s').
Proof.
  induction bs as [|b bs IH]; intros buf s s' Hpr Hb Hfit E; cbn [copy_to length] in *; [injection E as <-; apply rtc_refl|].
  apply bind_Ret in E as (s1 & E1 & E2). destruct (store_byte_moves buf b s s1 Hpr ltac:(lia) E1) as [Hr Hpr1].
  rewrite wrap_small in E2 by lia. etrans; [exact Hr|]. apply (IH (buf + 1)); (done || lia).
Qed.

Lemma on_files_moves {A} (f : sys D S -> outcome (A * sys D S)) s y r s' y' :
  program s (current s) -> on_files f s y = Ret (r, s', y') ->
  rtc moves (Resumed, s) (Resumed, s') /\ program s' (current s') /\
  exists t, tasks s !! current s = Some t /\ f (mkSys (files y) (fds t) (keyboard y) (screen y)) = Ret (r, y').
Proof.
  intros Hpr E. unfold on_files, read_gs_base in E. rewrite MSR_read_base in E by done. fold (current s) in E.
  apply bind_Ret in E as (t & Et & E). apply bind_Ret in E as ([r1 y1] & Ef & E). apply bind_Ret in E as (s1 & Es & [= <- <- <-]).
  assert (set_machine (machine s) s = s) as Em by (by destruct s). rewrite Em in Es.
  assert (tasks s !! current s = Some t) as Ht by (unfold task_at in Et; destruct (tasks s !! current s); [by injection Et as ->|done]).
  split; [|split; [|by exists t]].
  - apply rtc_once, (moves_event _ _ _ _ _ (Files (task y1))); [done|]. cbn [handle]. by rewrite Es.
  - destruct Hpr as (t0 & Ht0 & Hk). rewrite Ht in Ht0. injection Ht0 as <-.
    unfold set_fds, read_gs_base in Es. rewrite MSR_read_base in Es by done. fold (current s) in Es. rewrite Et in Es.
    cbn [mbind outcome_bind] in Es. injection Es as <-. exists (with_fds (task y1) t). split; [apply lookup_insert_eq|done].
Qed.

(** What a read answers is no longer than what was asked for. *)
Definition reads_within : Prop := forall p F node count offset st r bytes,
  filesystem p = Some F -> 0 <= count -> 0 <= offset -> Vfs.read F node count offset st = Ret (r, bytes) ->
  Z.of_nat (length bytes) <= count.

Lemma read_loop_length fuel : forall count incoming k cs rest k',
  Keyboard.read_loop fuel count incoming k = Ret (cs, rest, k') -> (length cs <= count)%nat.
Proof.
  induction fuel as [|fuel IH]; intros count incoming k cs rest k' E; [done|]. cbn [Keyboard.read_loop] in E.
  destruct count as [|count]; [injection E as <- <- <-; cbn; lia|]. destruct (_ =? _).
  - destruct incoming as [|sc incoming]; [done|]. apply bind_Ret in E as (k1 & _ & E). by apply (IH _ _ _ _ _ _ E).
  - apply bind_Ret in E as ([c k1] & _ & E). destruct (c =? 10); [injection E as <- <- <-; cbn; lia|].
    apply bind_Ret in E as ([[cs1 rest1] k2] & E & [= <- <- <-]). apply IH in E. cbn. lia.
Qed.

Lemma length_filled bytes : length (filled bytes) = length bytes.
Proof. apply length_imap. Qed.

(** The descriptors' cursors are addresses in files, no negative numbers. *)
Definition cursors_ok (t : Vfs.Task) : Prop :=
  forall fd d, at_ (file_descriptors t) fd = Ret (Some d) -> 0 <= cursor d.

Lemma read_length fd count incoming y bytes rest y' :
  reads_within -> 0 <= count -> cursors_ok (task y) ->
  Vfs.syscall_read filesystem fd count incoming y = Ret (bytes, rest, y') -> Z.of_nat (length bytes) <= count.
Proof.
  intros Hw Hc Hcur E. unfold Vfs.syscall_read in E. destruct (bad_fd _ _); [injection E as <- <- <-; cbn; lia|].
  destruct (fd =? 0).
  - apply bind_Ret in E as ([[cs rest1] k] & E & [= <- <- <-]). apply read_loop_length in E. rewrite length_fmap. lia.
  - apply bind_Ret in E as (od & Ed & E). destruct od as [d|]; [|injection E as <- <- <-; cbn; lia].
    apply bind_Ret in E as (F & EF & E). apply bind_Ret in E as ([r bs] & Er & E). apply bind_Ret in E as (t & _ & [= <- <- <-]).
    unfold fs_of in EF. apply bind_Ret in EF as (n & _ & EF). destruct (filesystem (fs n)) as [F'|] eqn:Ef; [|done]. injection EF as ->.
    by apply (Hw _ _ _ _ _ _ _ _ Ef Hc (Hcur fd d Ed) Er).
Qed.

Lemma store_chars_length cs : forall i size, (length (store_chars cs i size).1 <= Z.to_nat (Z.max 1 (size - i)))%nat.
Proof.
  induction cs as [|c cs IH]; intros i size; cbn [store_chars]; [cbn; lia|].
  destruct (Z.leb_spec size (i + 1)); [cbn; lia|]. specialize (IH (i + 1) size).
  destruct (store_chars cs (i + 1) size) as [out e]. cbn [fst length] in *. lia.
Qed.

(** The calls that store in the program's memory, with a buffer in its half, are
    runs of the machine of file Processes. *)
Theorem memory_calls_are_runs s y buf n :
  reads_within -> program s (current s) -> (forall t, tasks s !! current s = Some t -> cursors_ok (fds t)) ->
  0 <= buf -> 0 <= n -> buf + n <= 2 ^ 47 ->
  (forall fd incoming r s' y', syscall_read fd buf n incoming s y = Ret (r, s', y') -> rtc moves (Resumed, s) (Resumed, s')) /\
  (forall fd offset s' y', 0 <= offset -> syscall_pread fd buf n offset s y = Ret (s', y') -> rtc moves (Resumed, s) (Resumed, s')) /\
  (forall r s' y', 0 < n -> syscall_getcwd buf n s y = Ret (r, s', y') -> rtc moves (Resumed, s) (Resumed, s')).
Proof.
  intros Hw Hpr Hcur Hb Hn Hfit. split; [|split].
  - intros fd incoming r s' y' E. unfold syscall_read in E. apply bind_Ret in E as ([[r1 s1] y1] & Ef & E).
    destruct (on_files_moves _ _ _ _ _ _ Hpr Ef) as (Hr & Hpr1 & t & Ht & Ec).
    apply bind_Ret in Ec as ([[bytes rest] y2] & Ec & [= <- <-]). apply bind_Ret in E as (s2 & Es & [= <- <- <-]).
    pose proof (read_length _ _ _ (mkSys (files y) (fds t) (keyboard y) (screen y)) _ _ _ Hw Hn (Hcur t Ht) Ec). etrans; [exact Hr|].
    apply (copy_moves (filled bytes) buf); [done|done|rewrite length_filled; lia|done].
  - intros fd offset s' y' Ho E. unfold syscall_pread in E. apply bind_Ret in E as ([[bytes s1] y1] & Ef & E).
    destruct (on_files_moves _ _ _ _ _ _ Hpr Ef) as (Hr & Hpr1 & t & Ht & Ec).
    apply bind_Ret in Ec as (bs & Ec & [= -> _]). apply bind_Ret in E as (s2 & Es & [= <- <-]).
    assert (Z.of_nat (length bytes) <= n) as Hl.
    { unfold Vfs.syscall_pread in Ec. apply bind_Ret in Ec as (od & _ & Ec). destruct od as [d|]; [|injection Ec as <-; cbn; lia].
      apply bind_Ret in Ec as (F & EF & Ec). apply bind_Ret in Ec as ([r bs] & Er & [= ->]). unfold fs_of in EF.
      apply bind_Ret in EF as (nd & _ & EF). destruct (filesystem (fs nd)) as [F'|] eqn:Efs; [|done]. injection EF as ->.
      by apply (Hw _ _ _ _ _ _ _ _ Efs Hn Ho Er). }
    etrans; [exact Hr|]. apply (copy_moves (filled bytes) buf); [done|done|rewrite length_filled; lia|done].
  - intros r s' y' Hn1 E. unfold syscall_getcwd in E. apply bind_Ret in E as ([[r1 s1] y1] & Ef & E).
    destruct (on_files_moves _ _ _ _ _ _ Hpr Ef) as (Hr & Hpr1 & t & Ht & Ec).
    apply bind_Ret in Ec as ([cs e] & Ec & [= <- <-]). apply bind_Ret in E as (s2 & Es & [= <- <- <-]).
    unfold Vfs.syscall_getcwd in Ec. apply bind_Ret in Ec as (names & _ & Ec).
    pose proof (store_chars_length (getcwd_text names) 0 n) as Hl. destruct (store_chars _ _ _) as [out e1]. injection Ec as <- <-.
    cbn [fst] in *. etrans; [exact Hr|]. apply (copy_moves out buf); [done|done|lia|done].
Qed.

(** ** What the program finds *)

(** The byte at [a] as the program on the page tables [u] finds it. *)
Definition byte_seen (v : vm pmm) (u a : Z) : option Z := x ← word_seen hhdm v u (a / 8); word_byte x (a mod 8).

(** A page the kernel can store in for the running program. *)
Definition storable s (a : Z) : Prop := is_Some (entry_for hhdm (needs false true) (mmu hhdm s) a (memory s)).

Abbreviation system_ok := (Processes.system_ok hhdm sched_list_head kernel).

Lemma word_range a : 0 <= a < 2 ^ 47 -> 0 <= 8 * (a / 8) < 2 ^ 47.
Proof.
  intros Ha. pose proof (Z.div_mod a 8 ltac:(lia)). pose proof (Z.mod_pos_bound a 8 ltac:(lia)).
  assert (0 <= a / 8) by (apply Z.div_pos; lia). lia.
Qed.

Lemma store_byte_spec P lk ts s x a b :
  system_ok P lk ts (Resumed, s) -> program s (current s) -> P !! current s = Some x -> byte b -> 0 <= a < 2 ^ 47 -> storable s a ->
  exists v, store_byte a b s = Ret (set_memory v s) /\ system_ok P lk ts (Resumed, set_memory v s) /\
    (forall q z, P !! q = Some z -> q <> current s -> same_view hhdm (memory s) v (pml4 z.1)) /\
    (forall a', 0 <= a' < 2 ^ 47 -> byte_seen v (pml4 x.1) a' = if decide (a' = a) then Some b else byte_seen (memory s) (pml4 x.1) a') /\
    forall a', storable s a' -> storable (set_memory v s) a'.
Proof.
  intros Hok Hpr HP Hb Ha [e He]. pose proof (word_range a Ha) as Hw.
  pose proof (entry_program hhdm sched_list_head kernel P lk ts s x _ a e Hok Hpr HP He) as Htr.
  rewrite <- (translate_page _ _ _ _ _ (word_page_of a)) in Htr. pose proof (index4_lower _ Hw) as Hi.
  destruct (pv_frame _ _ _ _ (po_memory _ _ _ _ _ _ (sy_programs _ _ _ _ _ _ _ Hok)) (pml4 x.1) (8 * (a / 8)) e) as [_ (ws & Hws & Hl)];
    [by exists (current s), x|done|done|]. cbn [snd] in Hws.
  change (mem (memory s) !! Demand.frame hhdm e = Some ws) in Hws.
  destruct (zlookup_is_Some ws (word_index a)) as [old Hold].
  { rewrite word_index_byte, word_index_spec, Hl. apply Z.mod_pos_bound. lia. }
  destruct (store_spec hhdm sched_list_head kernel P lk ts s x (a / 8) e (put_word_byte old (a mod 8) b) Hok HP Hw Htr)
    as (v & Ew & Hok' & Hview & Hwords & Htrs).
  exists v. split; [|split; [done|split; [done|split]]].
  - unfold store_byte. cbn [kernel_entry]. rewrite He. ored. rewrite Hws. ored. rewrite Hold. ored. by rewrite word_index_byte, Ew.
  - intros a' Ha'. unfold byte_seen. rewrite Hwords by (by apply word_range).
    assert (word_seen hhdm (memory s) (pml4 x.1) (a / 8) = Some old) as Hseen.
    { unfold word_seen, Spaces.shown. rewrite Htr. cbn [mbind option_bind]. change (next hhdm e) with (Demand.frame hhdm e). rewrite Hws. cbn [mbind option_bind snd].
      by rewrite <- word_index_spec, <- word_index_byte. }
    pose proof (Z.div_mod a 8 ltac:(lia)). pose proof (Z.div_mod a' 8 ltac:(lia)). pose proof (Z.mod_pos_bound a 8 ltac:(lia)).
    destruct (decide (a' / 8 = a / 8)) as [Ed|Ed]; [|by rewrite decide_False by congruence].
    cbn [mbind option_bind]. rewrite put_word_byte_spec, Ed, Hseen by done. cbn [mbind option_bind]. case_decide as E1; case_decide as E2; (done || lia).
  - intros a' [e' He']. exists e'. unfold entry_for in *. rewrite (mmu_program hhdm sched_list_head kernel P lk ts s x Hok Hpr HP) in He'.
    change (mmu hhdm (set_memory v s)) with (mmu hhdm s). rewrite (mmu_program hhdm sched_list_head kernel P lk ts s x Hok Hpr HP).
    cbn [memory set_memory]. by rewrite Htrs.
Qed.

Lemma copy_spec P lk ts x bs : forall buf s,
  system_ok P lk ts (Resumed, s) -> program s (current s) -> P !! current s = Some x -> Forall byte bs ->
  0 <= buf -> buf + Z.of_nat (length bs) <= 2 ^ 47 -> (forall a, buf <= a < buf + Z.of_nat (length bs) -> storable s a) ->
  exists v, copy_to buf bs s = Ret (set_memory v s) /\ system_ok P lk ts (Resumed, set_memory v s) /\
    (forall q z, P !! q = Some z -> q <> current s -> same_view hhdm (memory s) v (pml4 z.1)) /\
    forall a, 0 <= a < 2 ^ 47 -> byte_seen v (pml4 x.1) a =
      match zlookup bs (a - buf) with Some b => Some b | None => byte_seen (memory s) (pml4 x.1) a end.
Proof.
  induction bs as [|b bs IH]; intros buf s Hok Hpr HP Hbs Hb Hfit Hst; cbn [copy_to length] in *.
  { exists (memory s). assert (set_memory (memory s) s = s) as -> by (by destruct s). split_and!; try done.
    intros a Ha. unfold zlookup. case_bool_decide; [by rewrite lookup_nil|done]. }
  apply Forall_cons in Hbs as [Hbyte Hbs].
  destruct (store_byte_spec P lk ts s x buf b Hok Hpr HP Hbyte ltac:(lia) (Hst buf ltac:(lia))) as (v1 & -> & Hok1 & Hv1 & Hb1 & Hs1). ored.
  rewrite wrap_small by lia.
  destruct (IH (buf + 1) (set_memory v1 s) Hok1 Hpr HP Hbs) as (v & E & Hok' & Hv & Hbv); [lia|lia|intros a Ha; apply Hs1, Hst; lia|].
  exists v. split; [exact E|]. split; [exact Hok'|]. split.
  - intros q z Hz Hne. apply (same_view_trans _ _ v1); [by apply (Hv1 q)|by apply (Hv q)].
  - intros a Ha. rewrite (Hbv a Ha). cbn [memory set_memory]. rewrite (Hb1 a Ha). unfold zlookup.
    case_decide as Ea; [subst a; rewrite bool_decide_false, bool_decide_true by lia; by rewrite Z.sub_diag|].
    repeat case_bool_decide; try lia; [|done].
    replace (Z.to_nat (a - buf)) with (Datatypes.S (Z.to_nat (a - (buf + 1)))) by lia. done.
Qed.

Lemma storable_same P lk ts s s' x a :
  system_ok P lk ts (Resumed, s) -> system_ok P lk ts (Resumed, s') -> program s (current s) -> program s' (current s') ->
  current s' = current s -> memory s' = memory s -> P !! current s = Some x -> storable s a -> storable s' a.
Proof.
  intros Hok Hok' Hpr Hpr' Ec Em HP. unfold storable, entry_for.
  rewrite (mmu_program hhdm sched_list_head kernel P lk ts s x Hok Hpr HP).
  rewrite (mmu_program hhdm sched_list_head kernel P lk ts s' x Hok' Hpr') by (by rewrite Ec). by rewrite Em.
Qed.

(** The bytes a call was given are in the buffer, the others as they were. *)
Lemma given_spec {A} P lk ts s x t y (f : sys D S -> outcome (A * sys D S)) r y' buf bs :
  system_ok P lk ts (Resumed, s) -> program s (current s) -> P !! current s = Some x -> tasks s !! current s = Some t ->
  f (mkSys (files y) (fds t) (keyboard y) (screen y)) = Ret (r, y') -> Forall byte bs ->
  0 <= buf -> buf + Z.of_nat (length bs) <= 2 ^ 47 -> (forall a, buf <= a < buf + Z.of_nat (length bs) -> storable s a) ->
  exists s1 s', on_files f s y = Ret (r, s1, y') /\ copy_to buf bs s1 = Ret s' /\
    system_ok P lk ts (Resumed, s') /\ rtc moves (Resumed, s) (Resumed, s') /\
    (forall q z, P !! q = Some z -> q <> current s -> same_view hhdm (memory s) (memory s') (pml4 z.1)) /\
    (forall q, fds <$> tasks s' !! q = if decide (q = current s) then Some (task y') else fds <$> tasks s !! q) /\
    forall a, 0 <= a < 2 ^ 47 -> byte_seen (memory s') (pml4 x.1) a =
      match zlookup bs (a - buf) with Some b => Some b | None => byte_seen (memory s) (pml4 x.1) a end.
Proof.
  intros Hok Hpr HP Ht Ef Hbs Hb Hfit Hst.
  destruct (files_spec hhdm sched_list_head kernel P lk ts s (task y') t Hok Ht) as (s1 & Es & Hok1 & Em & Ec & _ & Htk).
  assert (on_files f s y = Ret (r, s1, y')) as Eon.
  { unfold on_files, read_gs_base. rewrite MSR_read_base by done. fold (current s). unfold task_at. rewrite Ht. ored. rewrite Ef. ored.
    assert (set_machine (machine s) s = s) as -> by (by destruct s). by rewrite Es. }
  destruct (on_files_moves f s y r s1 y' Hpr Eon) as (Hr & Hpr1 & _).
  assert (P !! current s1 = Some x) as HP1 by (by rewrite Ec).
  destruct (copy_spec P lk ts x bs buf s1 Hok1 Hpr1 HP1 Hbs Hb Hfit) as (v & Ecp & Hok' & Hv & Hbv).
  { intros a Ha. apply (storable_same P lk ts s s1 x); auto. }
  exists s1, (set_memory v s1). split; [exact Eon|]. split; [exact Ecp|]. split; [exact Hok'|]. split.
  { etrans; [exact Hr|]. exact (copy_moves bs buf s1 _ Hpr1 Hb Hfit Ecp). }
  cbn [memory set_memory tasks]. rewrite Em in Hv, Hbv. split; [intros q z Hz Hne; apply (Hv q z Hz); by rewrite Ec|].
  split; [|exact Hbv]. intros q. rewrite Htk. by case_decide.
Qed.

Lemma byte_filled b count c : (forall k, byte (wild k)) -> Forall (fun z => forall w, z = Some w -> byte w) b ->
  Forall byte (filled (take count (drop c b))).
Proof.
  intros Hw Hb. apply Forall_lookup. intros k w Hk. unfold filled in Hk. rewrite list_lookup_imap in Hk.
  apply fmap_Some in Hk as (z & Hz & ->). destruct z as [w|]; [|apply Hw]. cbn.
  apply (Forall_lookup_1 _ _ k (Some w) (Forall_take _ _ _ (Forall_drop _ _ _ Hb)) Hz). done.
Qed.

(** C31. What read gives reaches the program: for a descriptor of a file, its
    number neither 0 nor 1, and a buffer in the lower half whose pages are
    already mapped for writing, the call returns and is a run of the machine;
    the program then finds in its buffer the bytes of the file from the cursor
    on (a cell nobody ever wrote as whatever the heap held), every other byte of
    its half and every byte of the other programs is as it was, no file
    changes, and the cursor has moved by the count. *)
Theorem read_reaches_the_program P lk ts s x t y (F : FileSystem D) `{!FileContents F} l fd p c b buf count incoming :
  system_ok P lk ts (Resumed, s) -> program s (current s) -> P !! current s = Some x -> tasks s !! current s = Some t ->
  fds_ok (fds t) l -> names_file filesystem F (mkSys (files y) (fds t) (keyboard y) (screen y)) l fd p c b ->
  Forall (fun z => forall w, z = Some w -> byte w) b -> (forall k, byte (wild k)) ->
  0 <= c -> 0 <= count -> c + count < 2 ^ 64 -> 0 <= buf -> buf + count <= 2 ^ 47 ->
  (forall a, buf <= a < buf + count -> storable s a) ->
  let bytes := filled (take (Z.to_nat count) (drop (Z.to_nat c) b)) in
  exists s' y', syscall_read fd buf count incoming s y = Ret (incoming, s', y') /\
    system_ok P lk ts (Resumed, s') /\ rtc moves (Resumed, s) (Resumed, s') /\ files y' = files y /\
    (forall a, 0 <= a < 2 ^ 47 -> byte_seen (memory s') (pml4 x.1) a =
       match zlookup bytes (a - buf) with Some z => Some z | None => byte_seen (memory s) (pml4 x.1) a end) /\
    (forall q z, P !! q = Some z -> q <> current s -> same_view hhdm (memory s) (memory s') (pml4 z.1)) /\
    exists t', tasks s' !! current s = Some t' /\ fds_ok (fds t') (at_cursor fd p (c + count) l) /\ cwd (fds t') = cwd (fds t).
Proof.
  intros Hok Hpr HP Ht Hfds Hn Hb Hwild Hc Hcount Hov Hbuf Hfit Hst bytes.
  destruct (read_through filesystem F (mkSys (files y) (fds t) (keyboard y) (screen y)) l fd p c b count incoming Hfds Hn Hc Hcount Hov)
    as (t' & E & Hfds' & Hcwd).
  assert (Z.of_nat (length bytes) <= count) as Hlen by (unfold bytes; rewrite length_filled, length_take; lia).
  set (raw := take (Z.to_nat count) (drop (Z.to_nat c) b)) in *.
  set (f := fun y : sys D S => '(bytes, incoming, y) ← Vfs.syscall_read filesystem fd count incoming y; Ret ((bytes, incoming), y)).
  destruct (given_spec P lk ts s x t y f (raw, incoming) (mkSys (files y) t' (keyboard y) (screen y)) buf bytes Hok Hpr HP Ht)
    as (s1 & s' & Eon & Ecp & Hok' & Hr & Hv & Hf & Hbv); [unfold f; by rewrite E|by apply byte_filled|done|lia|intros a Ha; apply Hst; lia|].
  exists s', (mkSys (files y) t' (keyboard y) (screen y)).
  split; [unfold syscall_read; fold f; rewrite Eon; ored; cbn [fst snd]; fold bytes; by rewrite Ecp|].
  split; [done|]. split; [done|]. split; [done|]. split; [done|]. split; [done|].
  specialize (Hf (current s)). rewrite decide_True in Hf by done. apply fmap_Some in Hf as (t1 & Ht1 & Et1).
  exists t1. split; [done|]. by rewrite <- Et1.
Qed.
End Calls.

(** tmpfs reads no more than it is asked for. *)
Lemma tmpfs_reads_within junk root_fs : reads_within (filesystems junk root_fs).
Proof.
  intros p F node count offset st r bytes EF Hc Ho E. unfold filesystems in EF. destruct (p =? root_fs); [|done]. injection EF as <-.
  cbn [instantiate Vfs.read] in E. unfold Tmpfs.read in E. apply bind_Ret in E as (n & _ & E).
  case_bool_decide; [injection E as <- <-; cbn; lia|]. apply bind_Ret in E as (d & _ & E).
  assert (forall k bs, copy_out (storage d) offset k = Ret bs -> (length bs <= Z.to_nat k)%nat) as Hcopy.
  { intros k bs Ek. unfold copy_out in Ek. clear E; destruct (offset + k <=? Z.of_nat (length (storage d))); [|done]. injection Ek as <-. rewrite length_take. lia. }
  destruct (Z.leb_spec (nd_size d) offset); [injection E as <- <-; cbn; lia|].
  destruct (Z.ltb_spec (nd_size d) (u64 (offset + count))) as [Hlt|_]; apply bind_Ret in E as (bs & Eb & [= _ <-]);
    pose proof (Hcopy _ _ Eb); [|lia]. pose proof (Z.mod_le (offset + count) (2 ^ 64) ltac:(lia) ltac:(lia)). unfold u64, wrap in Hlt. lia.
Qed.

(** ** The first program reads a file into the page it stored in *)
Definition greeting : list Z := [104; 101; 108; 108; 111; 33].
Definition greeting_files : vfs NodeData := match Tmpfs.write 7 greeting 0 tree2 with Ret st => st | _ => tree2 end.
Definition table5 : table := [std; std; std; Some (mkFileDescriptor 7 1)].
Definition task5 : Vfs.Task := Vfs.mkTask (Vector.mkVector (Some <$> table5) 4 4) 4 4 4.
Lemma task5_ok : fds_ok task5 table5.
Proof. by repeat split. Qed.

Definition sys5 : sys NodeData (list Z) := mkSys greeting_files task5 Keyboard.init [].
Definition reader : sched board := do_event (Files task5) touched.

Lemma reader_system : exists P ts, system_ok window 500 kernel_map P [] ts (Resumed, reader) /\
  exists x, P !! current reader = Some x /\ pml4 x.1 = pml4 program_a.
Proof.
  destruct touched_system as (P & ts & Hok & x & HP & Ex). exists P, ts.
  destruct (files_spec window 500 kernel_map P [] ts touched task5 _ Hok (proj2 touched_runs)) as (s' & Es & Hok' & _ & Ec & _).
  assert (reader = s') as -> by (unfold reader, do_event; cbn [handle]; by rewrite Es).
  split; [exact Hok'|]. exists x. split; [|exact Ex]. rewrite Ec.
  assert (current touched = 0x10000) as -> by (vm_compute; reflexivity). exact HP.
Qed.

Lemma reader_storable a : 0x400000 <= a < 0x401000 -> storable window reader a.
Proof.
  intros Ha. unfold storable, entry_for. rewrite (translate_page _ _ _ _ 0x400000) by (unfold page; change (0x400000 `div` 2 ^ 12) with 0x400; rewrite (Z.div_unique_pos a (2 ^ 12) 0x400 (a - 0x400000)) at 1 by lia; done).
  apply (bool_decide_eq_true_1 _). vm_compute. reflexivity.
Qed.

Lemma sys5_file : names_file (filesystems zero 99) (instantiate zero) sys5 table5 3 7 1 (Some <$> greeting).
Proof.
  split; [lia|]. split; [reflexivity|]. split; [vm_compute; reflexivity|].
  exists (the_node greeting_files 7). split; [vm_compute; reflexivity|].
  assert (fs (the_node greeting_files 7) = 99) as -> by (vm_compute; reflexivity). reflexivity.
Qed.

(** Ten bytes are asked for at the second one; five are there, and the sixth
    byte behind the buffer's start is the 0 the page came with. *)
Lemma read_reaches_the_program_witness :
  exists s' y', syscall_read window kernel_map (filesystems zero 99) zero kernel_regs 3 0x400005 10 [] reader sys5 = Ret ([], s', y') /\
    (fun k => byte_seen window (memory s') (pml4 program_a) (0x400005 + Z.of_nat k)) <$> seq 0 6
      = [Some 101; Some 108; Some 108; Some 111; Some 33; Some 0].
Proof.
  destruct reader_system as (P & ts & Hok & x & HP & Ex).
  destruct (read_reaches_the_program window 500 kernel_map lapic0 timer0 (filesystems zero 99) zero kernel_regs eq_refl
    P [] ts reader x (with_fds task5 (task_of program_a user_regs)) sys5 (instantiate zero) table5 3 7 1 (Some <$> greeting) 0x400005 10 [] Hok)
    as (s' & y' & E & _ & _ & _ & Hb & _).
  - exists (with_fds task5 (task_of program_a user_regs)). split; [vm_compute; reflexivity|discriminate].
  - exact HP.
  - vm_compute. reflexivity.
  - exact task5_ok.
  - exact sys5_file.
  - unfold greeting. cbn [fmap list_fmap]. repeat (apply Forall_cons; split; [intros w [= <-]; split; reflexivity || discriminate|]). apply Forall_nil. exact I.
  - intros k. split; reflexivity || discriminate.
  - lia.
  - lia.
  - lia.
  - lia.
  - lia.
  - intros a Ha. apply reader_storable. lia.
  - exists s', y'. split; [exact E|]. rewrite Ex in Hb.
    etrans; [apply list_fmap_ext; intros i k Hk; apply lookup_seq in Hk as [Hk0 Hk]; apply Hb; lia|].
    vm_compute. reflexivity.
Defined.
