(* ===== verification/Spawn.v ===== *)
(** * A new program joins

    [new_user_task] of file Sched in the machine of file Processes: the new
    address space, the loader's pages, the stack and the task keep the
    invariant, and no other program notices.  The lemmas are about a task that
    [new_user_task] returned; that it returns is in file Launch. *)
From S2P Require Import Prelude Algorithm Bitmap Pmm CString HashMap Vector Keyboard Printf List Vfs Descriptors Tmpfs Paging AddressSpace Spaces Demand Machine Interrupts Cpu Timers Elf Sched Traps Processes.

(** ** Where a program goes *)

(** The end of the part of the address space segments may take, which leaves
    room for the stack. *)
Definition segments_end : Z := 2 ^ 47 - 0x20000.

(** The segments [load] reads lie below: the loader does not check. *)
Definition segment_fits (ph : ProgramHeader) : bool :=
  negb (ph_type ph =? PT_LOAD) ||
  (0 <=? virt_addr ph) && (0 <=? mem_size ph) && (virt_addr ph + mem_size ph + 0x2000 <=? segments_end).

Definition program_fits {D : Type} (F : FileSystem D) (wild : Z -> Z) (file : Z) (st : Vfs.vfs D) : bool :=
  match read_struct F wild file 64 0 st with
  | Ret bs =>
      let header := header_of bs in
      forallb (fun i =>
        match read_struct F wild file 56 (u64 (ph_table_offset header + i * ph_entry_size header)) st with
        | Ret bs => segment_fits (program_header_of bs)
        | _ => true
        end) (seqZ 0 (ph_count header))
  | _ => true
  end.

(** ** The loader in a user's half *)
Section loading.
Context (hhdm : Z) (hhdm_ok : 0 <= hhdm <= 2 ^ 64 - 2 ^ 46) {D : Type} (F : FileSystem D) (wild : Z -> Z).
Context (k : Z) (U : Z -> Prop) (pm : Pagemap) (file : Z) (st : Vfs.vfs D).
Hypothesis Hu : U (pml4 pm).
Implicit Types (s : vm pmm).

(** The memory after something was done in the new address space. *)
Record enters s s' : Prop := {
  en_private : private hhdm k U s';
  en_view w : U w -> w <> pml4 pm -> same_view hhdm s s' w;
  en_heads : heads s' = heads s;
  en_ranges : ranges s' = ranges s }.

Lemma enters_refl s : private hhdm k U s -> enters s s.
Proof. by split. Qed.

Lemma enters_trans s1 s2 s3 : enters s1 s2 -> enters s2 s3 -> enters s1 s3.
Proof.
  intros [_ V1 H1 R1] [P V2 H2 R2]. split; [done| |congruence|congruence].
  intros w Hw Hne v Hv. by rewrite V2, V1.
Qed.

(** What storing in a page leaves is a page. *)
Lemma store_bytes_page dst o bs s s' :
  store_bytes dst o bs s = Ret s' -> exists ws, s' = set_mem (<[dst := ws]> (mem s)) s /\ length ws = 512%nat.
Proof.
  unfold store_bytes. intros E. apply bind_Ret in E as (old & _ & E). destruct (_ && _); [|discriminate E].
  remember (Elf.page_words 512 _) as ws eqn:Ews in E. exists ws. injection E as <-. split; [reflexivity|].
  rewrite Ews. apply Elf.length_page_words.
Qed.

Lemma load_page_enters ph i s ff s' ff' :
  private hhdm k U s -> index4 (u64 (virt_addr ph + i * 0x1000)) < 256 ->
  load_page hhdm F wild pm file st ph i (s, ff) = Ret (s', ff') ->
  enters s s' /\ ff' = (if ff <=? u64 (virt_addr ph + i * 0x1000) then u64 (u64 (virt_addr ph + i * 0x1000) + 0x1000) else ff).
Proof.
  intros Hp Hv E. unfold load_page in E. apply bind_Ret in E as ([f a] & Ea & E). apply bind_Ret in E as (s1 & Em & E).
  apply bind_Ret in E as (s2 & Ef & [= <- <-]). split; [|done].
  pose proof (sp_inv _ _ _ (pv_spaces _ _ _ _ Hp) _ (or_intror Hu)) as Hinv.
  destruct (alloc_page_fresh (frames s) f a (inv_good _ _ _ Hinv) Ea) as (_ & Hf & _).
  rewrite (wrap_small 64 (f + hhdm)) in Ef by lia.
  assert (exists ws, s2 = set_mem (<[f + hhdm := ws]> (mem s1)) s1 /\ length ws = 512%nat) as (ws & -> & Hl).
  { destruct (i <? _).
    - destruct (file_part ph i) as [[in_page o] size]. apply bind_Ret in Ef as ([? bytes] & _ & Ef).
      destruct (store_bytes_page _ _ _ _ _ Ef) as (ws & -> & Hl). exists ws. split; [|done].
      unfold set_mem. cbn [mem frames heads ranges flushed]. by rewrite insert_insert_eq.
    - injection Ef as <-. by exists zero_page. }
  destruct (private_loaded_page hhdm hhdm_ok k U s pm f a _ _ s1 ws Hp Hu Ea Em Hv (segment_flags_ADDR _) Hl)
    as (Hp' & Hview & Eh & Er & _). by split.
Qed.

(** Where the first free address may be while segments are loaded. *)
Definition in_place (ff : Z) : Prop := 0 <= ff <= segments_end.

Lemma segment_pages_low ph i :
  0 <= virt_addr ph -> 0 <= mem_size ph -> virt_addr ph + mem_size ph + 0x2000 <= segments_end ->
  0 <= i < Z.of_nat (Z.to_nat (page_count ph (mem_size ph))) ->
  0 <= virt_addr ph + i * 0x1000 /\ virt_addr ph + i * 0x1000 + 0x1000 <= segments_end.
Proof.
  unfold segments_end, page_count, misalign. intros Hv Hm Hend Hi.
  change 0xFFF with (Z.ones 12) in Hi. rewrite Z.land_ones in Hi by lia. change (2 ^ 12) with 0x1000 in Hi.
  pose proof (Z.mod_pos_bound (virt_addr ph) 0x1000 ltac:(lia)) as Hmod.
  rewrite wrap_small in Hi by lia. assert (0 <= (mem_size ph + virt_addr ph mod 0x1000 + 0x1000 - 1) / 0x1000) by (apply Z.div_pos; lia).
  rewrite Z2Nat.id in Hi by done.
  pose proof (Z.mul_div_le (mem_size ph + virt_addr ph mod 0x1000 + 0x1000 - 1) 0x1000 ltac:(lia)). lia.
Qed.

Lemma load_segment_enters ph s ff s' ff' :
  segment_fits ph = true -> ph_type ph = PT_LOAD -> private hhdm k U s -> in_place ff ->
  load_segment hhdm F wild pm file st ph (s, ff) = Ret (s', ff') -> enters s s' /\ in_place ff'.
Proof.
  intros Hfit Ht Hp Hff E. unfold segment_fits in Hfit. rewrite Ht in Hfit. cbn [Z.eqb negb orb PT_LOAD] in Hfit.
  apply andb_prop in Hfit as [[Hv%Z.leb_le Hm%Z.leb_le]%andb_prop Hend%Z.leb_le].
  apply (for_range_ret (fun _ x => enters s x.1 /\ in_place x.2)) in E; [done|split; [by apply enters_refl|done]|].
  intros i [s1 ff1] [s2 ff2] Hi [He Hf] E1. cbn [fst snd] in *.
  destruct (segment_pages_low ph i Hv Hm Hend ltac:(lia)) as [H1 H2]. unfold in_place, segments_end in *.
  apply load_page_enters in E1 as [He1 ->]; [|apply He|rewrite wrap_small by lia; apply index4_lower; lia].
  split; [by eapply enters_trans|]. rewrite !wrap_small by (rewrite ?wrap_small; lia). destruct (Z.leb_spec ff1 (virt_addr ph + i * 0x1000)); lia.
Qed.

Lemma load_enters s ip base s' :
  program_fits F wild file st = true -> private hhdm k U s -> Elf.load hhdm F wild pm file st s = Ret (ip, base, s') ->
  enters s s' /\ 0 <= base <= segments_end.
Proof.
  intros Hfit Hp E. unfold Elf.load in E. unfold program_fits in Hfit. apply bind_Ret in E as (bs & Eb & E).
  rewrite Eb in Hfit. cbn zeta in *. set (header := header_of bs) in *.
  destruct (negb _); [done|]. destruct (negb _); [done|]. apply bind_Ret in E as ([s1 ff] & Er & [= <- <- <-]).
  apply (for_range_ret (fun _ x => enters s x.1 /\ in_place x.2)) in Er;
    [|split; [by apply enters_refl|unfold in_place, segments_end; cbn; lia]|].
  - destruct Er as [He [Hf1 Hf2]]. split; [done|]. cbn [snd] in *. unfold segments_end in *.
    destruct (align_up_spec 0x1000 ff ltac:(lia) ltac:(lia) ltac:(lia)) as [Ha _].
    pose proof (align_up_le 0x1000 ff (2 ^ 47 - 0x20000) ltac:(lia) ltac:(lia) eq_refl ltac:(lia) ltac:(lia)). lia.
  - intros i [s2 f2] [s3 f3] Hi [He Hf] E1. cbn [fst snd] in *. unfold load_program_header in E1.
    apply bind_Ret in E1 as (pb & Ep & E1). rewrite forallb_forall in Hfit. specialize (Hfit i). rewrite Ep in Hfit.
    destruct (Z.eqb_spec (ph_type (program_header_of pb)) PT_LOAD) as [Ht|]; [|by injection E1 as <- <-].
    destruct (load_segment_enters _ _ _ _ _ (Hfit ltac:(apply list_elem_of_In, elem_of_seqZ; lia)) Ht (en_private _ _ He) Hf E1) as [He1 Hf1].
    split; [by eapply enters_trans|done].
Qed.

Lemma map_stack_enters base s s' :
  0 <= base <= segments_end -> private hhdm k U s -> map_stack hhdm pm base s = Ret s' -> enters s s'.
Proof.
  intros Hb Hp E. unfold map_stack in E. unfold segments_end in *.
  apply (for_range_ret (fun _ x => enters s x)) in E; [done|by apply enters_refl|].
  intros i s1 s2 Hi He E1. apply bind_Ret in E1 as ([f s3] & En & Em). change (Z.to_nat (stack_size / 0x1000)) with 16%nat in Hi.
  rewrite wrap_small in Em by lia.
  destruct (private_cleared_page hhdm hhdm_ok k U s1 pm f s3 _ _ s2 (en_private _ _ He) Hu En Em) as (Hp2 & Hview & Eh & Er);
    [apply index4_lower; lia|done|]. eapply enters_trans; [exact He|by split].
Qed.
End loading.

(** ** The task *)
Section Spawn.
Context {M : Type} `{BaseRegisters M}.
Context (hhdm : Z) (hhdm_ok : 0 <= hhdm <= 2 ^ 64 - 2 ^ 46) (junk : Z -> Task) (sched_list_head : Z) (kernel : Pagemap).
Implicit Types (s : sched M) (ts lk : list Z) (P : gmap Z (Pagemap * list Z)).

Abbreviation old_node := (old_node kernel).

(** One program more. *)
Lemma programs_join P lk s s' p pm t S :
  programs_ok hhdm sched_list_head kernel P lk s -> tasks s !! p = None -> tasks s' = <[p := t]> (tasks s) ->
  pagemap t = pm -> 0 <= pml4 pm < 2 ^ 64 -> 0 <= mmap_anon_base t < 2 ^ 47 ->
  List.frame (heads (memory s)) (heads (memory s')) S -> (forall z, old_node P lk z -> z ∉ S /\ z <> sched_list p) ->
  ranges (memory s') = ranges (memory s) -> ring (heads (memory s')) (range_list_head pm) [] ->
  ~ old_node P lk (range_list_head pm) -> range_list_head pm <> sched_list_head ->
  (forall q t1, tasks s' !! q = Some t1 -> range_list_head pm <> sched_list q) ->
  ~ roots (pml4 kernel) (user_root P) (pml4 pm) ->
  private hhdm (pml4 kernel) (fun r => user_root P r \/ r = pml4 pm) (memory s') ->
  programs_ok hhdm sched_list_head kernel (<[p := (pm, [])]> P) lk s'.
Proof.
  intros Hp Hnew Et Epm Hroot Hbase Hf HS Er Hring Hno Hhead Hlink Hfresh Hpv. set (P' := <[p := (pm, [])]> P).
  assert (forall q x, P' !! q = Some x -> q = p /\ x = (pm, []) \/ q <> p /\ P !! q = Some x) as HP'.
  { intros q x. unfold P'. intros [[<- <-]|[Hne Hx]]%lookup_insert_Some; auto. }
  assert (forall pm' l, ranges_ok (memory s) pm' l -> (forall z, z ∈ nodes (pm', l) -> old_node P lk z) -> ranges_ok (memory s') pm' l) as Hkeep.
  { intros pm' l [Hr Hd] Hold. split; [|by rewrite Er]. apply (ring_frame _ _ _ _ S Hr Hf). intros z Hz. by apply HS, Hold. }
  split.
  - intros q t1 Hq HPq. rewrite Et in Hq. unfold P' in HPq. apply lookup_insert_None in HPq as [HPq Hne].
    rewrite lookup_insert_ne in Hq by done. by apply (po_task _ _ _ _ _ _ Hp q).
  - intros q x [[-> ->]|[Hne Hx]]%HP'.
    + exists t. rewrite Et, lookup_insert_eq. split; [done|]. split; [done|]. split; [|done]. cbn. intros E. apply Hfresh. left. by rewrite E.
    + destruct (po_program _ _ _ _ _ _ Hp q x Hx) as (t1 & Ht1 & Hrest). exists t1. by rewrite Et, lookup_insert_ne.
  - intros q x [[-> ->]|[Hne Hx]]%HP'; [split; [split; [done|]|]; [intros r []%not_elem_of_nil|intros r rg []%not_elem_of_nil]|].
    destruct (po_ranges _ _ _ _ _ _ Hp q x Hx) as [Hran Htm]. rewrite Er. split; [|done]. apply Hkeep; [done|].
    intros z Hz. right. exists q, x. split; [done|]. by destruct x.
  - destruct (po_kernel _ _ _ _ _ _ Hp) as [Hran Hfl]. rewrite Er. split; [|done]. apply Hkeep; [done|]. intros z Hz. by left.
  - intros p1 p2 x1 x2 [[-> ->]|[Hn1 Hx1]]%HP' [[-> ->]|[Hn2 Hx2]]%HP' Hne; [done|..].
    + split; [intros E; apply Hfresh; right; by exists p2, x2|]. intros z ->%list_elem_of_singleton Hz. apply Hno. right. by exists p2, x2.
    + split; [intros E; apply Hfresh; right; by exists p1, x1|]. intros z Hz ->%list_elem_of_singleton. apply Hno. right. by exists p1, x1.
    + by apply (po_distinct _ _ _ _ _ _ Hp p1 p2).
  - intros q x z [[-> ->]|[Hne Hx]]%HP'; [|by apply (po_apart _ _ _ _ _ _ Hp q)].
    intros ->%list_elem_of_singleton Hz. apply Hno. by left.
  - intros z Hz. assert (z = range_list_head pm \/ old_node P lk z) as [->|Hold].
    { destruct Hz as [?|(q & x & [[-> ->]|[Hne Hx]]%HP' & Hz)]; [by right; left|left; by apply list_elem_of_singleton in Hz|right; right; by exists q, x]. }
    + by split.
    + destruct (po_links _ _ _ _ _ _ Hp z Hold) as [H1 H2]. split; [done|]. intros q t1. rewrite Et.
      intros [[<- _]|[_ Hq]]%lookup_insert_Some; [by apply HS|by apply (H2 q t1)].
  - eapply private_roots; [|exact Hpv]. intros r. split.
    + intros [(q & x & Hx & ->)| ->].
      * exists q, x. split; [|done]. unfold P'. apply lookup_insert_Some. right. split; [|done]. intros <-.
        destruct (po_program _ _ _ _ _ _ Hp p x Hx) as (t1 & Ht1 & _). congruence.
      * exists p, (pm, []). split; [apply lookup_insert_eq|done].
    + intros (q & x & [[-> ->]|[Hne Hx]]%HP' & ->); [by right|left; by exists q, x].
Qed.

(** What [new] returns for the task and for the list of ranges. *)
Record fresh_program p list_head s : Prop := {
  fp_task : tasks s !! p = None;
  fp_place : 0 < p /\ sched_list p < 2 ^ 64;
  fp_link : heads (memory s) !! sched_list p = None;
  fp_list : fresh list_head s;
  fp_apart : list_head <> sched_list p }.

Lemma old_node_head P lk s z :
  programs_ok hhdm sched_list_head kernel P lk s -> old_node P lk z -> is_Some (heads (memory s) !! z).
Proof.
  intros Hp [Hz|(q & x & Hx & Hz)].
  - by apply (ring_dom _ _ _ z (proj1 (proj1 (po_kernel _ _ _ _ _ _ Hp)))).
  - by apply (ring_dom _ _ _ z (proj1 (proj1 (po_ranges _ _ _ _ _ _ Hp q x Hx)))).
Qed.

(** The links of the new task and of its list of ranges. *)
Lemma join_heads ts s p list_head h3 :
  sched_ok sched_list_head s ts -> fresh_program p list_head s ->
  List.init list_head (<[list_head := mkListHead 0 0]> (<[sched_list p := mkListHead 0 0]> (heads (memory s)))) = Ret h3 ->
  exists h4, add_before sched_list_head (sched_list p) h3 = Ret h4 /\ ring h4 sched_list_head (sched_list <$> ts ++ [p]) /\
    ring h4 list_head [] /\
    List.frame (heads (memory s)) h4 (list_head :: sched_list p :: sched_list_head :: (sched_list <$> ts)).
Proof.
  intros Hso [Ht [Hp0 Hp1] Hl [Hlh Hlq] Hap] Ei. pose proof (so_ring _ _ _ Hso) as Hring.
  set (h1 := <[sched_list p := mkListHead 0 0]> (heads (memory s))) in *. set (h2 := <[list_head := mkListHead 0 0]> h1) in *.
  assert (forall z, z ∈ sched_list_head :: (sched_list <$> ts) -> z <> sched_list p /\ z <> list_head) as Hz.
  { intros z Hz. destruct (ring_dom _ _ _ z Hring Hz) as [y Hy]. split; intros ->; congruence. }
  assert (List.frame (heads (memory s)) h3 [list_head; sched_list p]) as Hf3.
  { intros z Hin. destruct (init_frame _ _ _ Ei z) as [-> ->]; [set_solver|]. unfold nxt, prv, h2, h1.
    by rewrite !lookup_insert_ne by set_solver. }
  assert (ring h3 sched_list_head (sched_list <$> ts)) as Hring3.
  { apply (ring_frame _ _ _ _ _ Hring Hf3). intros z Hin. destruct (Hz z Hin). set_solver. }
  assert (sched_list p ∉ sched_list_head :: (sched_list <$> ts)) as Hpn by (intros Hin; by destruct (Hz _ Hin)).
  destruct (init_ring h2 list_head) as (h3' & Ei' & Hrl); [unfold h2; rewrite lookup_insert_eq; by eexists|].
  rewrite Ei in Ei'. injection Ei' as <-.
  assert (is_Some (h3 !! sched_list p)) as Hd3.
  { assert (nxt h3 (sched_list p) = Some 0) as Hn; [|by eapply nxt_dom].
    destruct (init_frame _ _ _ Ei (sched_list p)) as [-> _]; [set_solver|]. unfold nxt, h2, h1.
    by rewrite lookup_insert_ne, lookup_insert_eq. }
  destruct (add_before_entry h3 sched_list_head (sched_list <$> ts) (sched_list p) Hring3 Hpn Hd3) as (h4 & -> & Hring4 & Hf4).
  exists h4. split; [done|]. split; [by rewrite fmap_app|]. split.
  - apply (ring_frame _ _ _ _ _ Hrl Hf4). intros z ->%list_elem_of_singleton Hin. apply elem_of_cons in Hin as [?|Hin]; [done|].
    by destruct (Hz _ Hin).
  - apply (frame_trans _ h3 _ [list_head; sched_list p] _ Hf3).
    + intros z Hin. apply Hf4. intros Hin2. apply Hin. by right.
    + intros z [->|[->|[]%not_elem_of_nil]%elem_of_cons]%elem_of_cons; [left|right; left].
Qed.

(** The scheduler's side of a new task at the end of the list. *)
Lemma join_sched ts s s' p t S :
  sched_ok sched_list_head s ts -> running s ts -> tasks s !! p = None -> tasks s' = <[p := t]> (tasks s) ->
  current s' = current s -> 0 < p /\ sched_list p < 2 ^ 64 /\ 0 <= gs_base t < 2 ^ 64 /\ 0 <= fs_base t < 2 ^ 64 ->
  ring (heads (memory s')) sched_list_head (sched_list <$> ts ++ [p]) ->
  List.frame (heads (memory s)) (heads (memory s')) S ->
  (forall q tq, tasks s !! q = Some tq -> sched_list q ∈ S -> sched_list q = sched_list p \/ sched_list q ∈ sched_list_head :: (sched_list <$> ts)) ->
  sched_ok sched_list_head s' (ts ++ [p]) /\ running s' (ts ++ [p]).
Proof.
  intros Hso Hrun Hnew Etk Ecur Hrange Hring Hframe HS.
  assert (current s <> p) as Hcp by (intros Ecp; destruct Hrun as [E0|[[t1 Ht1] _]]; [lia|congruence]). split.
  - destruct Hso as [Hr Hts Hb Hh]. split; [exact Hring| | |done].
    + intros q Hq. rewrite Etk. destruct (decide (q = p)) as [->|Hne]; [rewrite lookup_insert_eq; by eexists|].
      rewrite lookup_insert_ne by done. apply Hts. set_solver.
    + intros q t1. rewrite Etk. intros [[<- <-]|[_ Hq]]%lookup_insert_Some; [lia|by apply Hb].
  - unfold running. rewrite Ecur, Etk, lookup_insert_ne by done. destruct Hrun as [?|[Hcs Hr]]; [by left|right]. split; [done|].
    destruct Hr as [Hr|[Hnin Hn]]; [left; set_solver|right]. split; [set_solver|]. destruct Hcs as [tc Htc].
    rewrite <- Hn. apply Hframe. intros Hin. destruct (HS _ tc Htc Hin) as [E|Hin']; [unfold sched_list in E; lia|].
    apply elem_of_cons in Hin' as [Eh|(q & Eq & Hq)%list_elem_of_fmap].
    + destruct (so_ring _ _ _ Hso) as [_ Hl1]. apply linked_next in Hl1. rewrite <- Eh, Hn in Hl1. injection Hl1 as Hl1.
      destruct ts as [|t1 ts']; cbn in Hl1; [destruct (so_head _ _ _ Hso); congruence|].
      destruct (so_tasks _ _ _ Hso t1) as [t2 Ht2]; [left|]. destruct (so_range _ _ _ Hso t1 t2 Ht2) as [? _]. unfold sched_list in Hl1. lia.
    + apply Hnin. unfold sched_list in Eq. by replace (current s) with q by lia.
Qed.

(** The whole invariant, given the programs. *)
Lemma join_system P P' lk ts e s s' p t S :
  system_ok hhdm sched_list_head kernel P lk ts (e, s) -> tasks s !! p = None -> tasks s' = <[p := t]> (tasks s) ->
  current s' = current s -> cr3 s' = cr3 s -> 0 < p /\ sched_list p < 2 ^ 64 /\ 0 <= gs_base t < 2 ^ 64 /\ 0 <= fs_base t < 2 ^ 64 ->
  ring (heads (memory s')) sched_list_head (sched_list <$> ts ++ [p]) ->
  List.frame (heads (memory s)) (heads (memory s')) S ->
  (forall q tq, tasks s !! q = Some tq -> sched_list q ∈ S -> sched_list q = sched_list p \/ sched_list q ∈ sched_list_head :: (sched_list <$> ts)) ->
  programs_ok hhdm sched_list_head kernel P' lk s' ->
  system_ok hhdm sched_list_head kernel P' lk (ts ++ [p]) (e, s').
Proof.
  intros [Hso Hrun Hlive Hdead Hp Hc] Hnew Etk Ecur Ecr Hrange Hring Hframe HS Hp'. cbn [fst snd] in *.
  assert (current s <> p) as Hcp by (intros Ecp; destruct Hrun as [E0|[[t1 Ht1] _]]; [lia|congruence]).
  destruct (join_sched ts s s' p t S Hso Hrun Hnew Etk Ecur Hrange Hring Hframe HS) as [Hso' Hrun'].
  split; cbn [fst snd]; [done|done| | |done|].
  - intros He. rewrite Ecur. destruct (Hlive He); [by left|right; set_solver].
  - intros He. rewrite Ecur. specialize (Hdead He). set_solver.
  - intros t1. rewrite Ecur, Ecr, Etk, lookup_insert_ne by done. apply Hc.
Qed.

(** A task of the kernel's.  Its base registers are what the memory held. *)
Record fresh_kernel_task p s : Prop := {
  fk_task : tasks s !! p = None;
  fk_place : 0 < p /\ sched_list p < 2 ^ 64;
  fk_link : heads (memory s) !! sched_list p = None;
  fk_junk : 0 <= gs_base (junk p) < 2 ^ 64 /\ 0 <= fs_base (junk p) < 2 ^ 64 }.

Lemma new_kernel_task_joins P lk ts e s p ip s' :
  system_ok hhdm sched_list_head kernel P lk ts (e, s) -> fresh_kernel_task p s ->
  new_kernel_task hhdm junk sched_list_head p kernel ip true s = Ret s' ->
  exists sp t, system_ok hhdm sched_list_head kernel P lk (ts ++ [p]) (e, s') /\ tasks s' = <[p := t]> (tasks s) /\
    pagemap t = kernel /\ gpr_state t = initial_state KERNEL_CODE_64 KERNEL_DATA_64 ip sp /\
    forall q x, P !! q = Some x -> same_view hhdm (memory s) (memory s') (pml4 x.1).
Proof.
  intros Hok [Hnew [Hp0 Hp1] Hl [Hj1 Hj2]] E. unfold new_kernel_task in E. apply bind_Ret in E as ([sp s2] & Es & E).
  unfold alloc_stack in Es. apply bind_Ret in Es as ([phy a] & Ea & [= <- <-]).
  apply bind_Ret in E as (t0 & Et0 & E). unfold task_at in Et0. cbn [tasks set_memory new_Task] in Et0.
  rewrite lookup_insert_eq in Et0. injection Et0 as <-. cbn [blocked fds mmap_anon_base gs_base fs_base kernel_stack user_stack tid] in E.
  set (t := mkTask _ _ _ _ _ _ _ _ _ _ _ _) in E.
  pose proof (sy_sched _ _ _ _ _ _ _ Hok) as Hso. pose proof (sy_programs _ _ _ _ _ _ _ Hok) as Hp. cbn [snd] in Hso, Hp.
  pose proof (po_memory _ _ _ _ _ _ Hp) as Hpv. pose proof (so_ring _ _ _ Hso) as Hring.
  assert (sched_list p ∉ sched_list_head :: (sched_list <$> ts)) as Hpn.
  { intros Hin. destruct (ring_dom _ _ _ _ Hring Hin). congruence. }
  set (h1 := <[sched_list p := mkListHead 0 0]> (heads (memory s))).
  assert (ring h1 sched_list_head (sched_list <$> ts)) as Hring1.
  { apply (ring_frame _ _ _ _ _ Hring (frame_fresh _ _ _)). intros z Hz ->%list_elem_of_singleton. done. }
  destruct (add_before_entry h1 sched_list_head (sched_list <$> ts) (sched_list p) Hring1 Hpn) as (h2 & Eh2 & Hring2 & Hf2);
    [unfold h1; rewrite lookup_insert_eq; by eexists|].
  unfold enqueue_task in E. cbn [memory set_task set_memory new_Task set_frames set_heads heads] in E. fold h1 in E. rewrite Eh2 in E.
  cbn [mbind outcome_bind] in E. injection E as <-. set (s' := set_memory _ _).
  assert (List.frame (heads (memory s)) h2 (sched_list p :: sched_list_head :: (sched_list <$> ts))) as Hframe.
  { apply (frame_trans _ h1 _ [sched_list p]); [apply frame_fresh|exact Hf2|]. intros z ->%list_elem_of_singleton. left. }
  assert (tasks s' = <[p := t]> (tasks s)) as Etk by (cbn; by rewrite insert_insert_eq).
  destruct (pmm_alloc (stack_size / 0x1000) (frames (memory s)) phy a) as [Hg Hown];
    [exact (inv_good _ _ _ (sp_inv _ _ _ (pv_spaces _ _ _ _ Hpv) _ (or_introl eq_refl)))|done|exact Ea|].
  assert (forall z, old_node P lk z -> z <> sched_list p) as Hold.
  { intros z Hz ->. destruct (old_node_head P lk s _ Hp Hz) as [y Hy]. congruence. }
  exists (u64 (phy + stack_size + hhdm)), t. split; [|done].
  apply (join_system P P lk ts e s s' p t (sched_list p :: sched_list_head :: (sched_list <$> ts)));
    [done|done|done|done|done|cbn; lia|by rewrite fmap_app|exact Hframe|intros q tq _; by rewrite elem_of_cons|].
  apply (programs_frame hhdm sched_list_head kernel P lk s s' (sched_list p :: sched_list_head :: (sched_list <$> ts))); [done| |exact Hframe| |done|].
  - split.
    + intros q t1 Hq. exists t1. rewrite Etk, lookup_insert_ne; [done|]. congruence.
    + intros q t1 Hq Hn. rewrite Etk in Hq. apply lookup_insert_Some in Hq as [[<- <-]|[_ Hq]]; [by split|congruence].
  - intros z Hz Hin. apply elem_of_cons in Hin as [Hin|Hin]; [by apply (Hold z)|]. destruct (po_links _ _ _ _ _ _ Hp z Hz) as [H1 H2].
    apply elem_of_cons in Hin as [?|(q & -> & Hq)%list_elem_of_fmap]; [done|].
    destruct (so_tasks _ _ _ Hso q Hq) as [t1 Ht1]. by apply (H2 q t1).
  - apply (private_same hhdm _ _ (set_frames a (memory s))); [done|done|]. by apply private_frames.
Qed.

(** ** A program *)
Context {D : Type} (F : FileSystem D) (wild : Z -> Z).

(** The new address space and the kernel's stack. *)
Lemma new_program_space P lk ts e s p list_head s1 pml4_phy m m2 h3 kstack s2 :
  system_ok hhdm sched_list_head kernel P lk ts (e, s) ->
  s1 = new_Task junk p s -> new_page hhdm (memory s1) = Ret (pml4_phy, m) ->
  let pm := mkPagemap (u64 (pml4_phy + hhdm)) list_head in
  map_kernel kernel pm m = Ret m2 ->
  alloc_stack hhdm (set_memory (set_heads h3 m2) s1) = Ret (kstack, s2) ->
  heads m2 = <[sched_list p := mkListHead 0 0]> (heads (memory s)) /\
  heads (memory s2) = h3 /\ ranges (memory s2) = ranges (memory s) /\
  0 <= pml4 pm < 2 ^ 64 /\ ~ roots (pml4 kernel) (user_root P) (pml4 pm) /\
  private hhdm (pml4 kernel) (fun r => user_root P r \/ r = pml4 pm) (memory s2) /\
  (forall w, user_root P w -> same_view hhdm (memory s) (memory s2) w).
Proof.
  intros Hok -> En pm Ek Es. pose proof (sy_programs _ _ _ _ _ _ _ Hok) as Hp. cbn [snd] in Hp.
  assert (private hhdm (pml4 kernel) (user_root P) (memory (new_Task junk p s))) as Hpv
    by (by apply (private_same hhdm _ _ (memory s)), (po_memory _ _ _ _ _ _ Hp)).
  destruct (private_new_space hhdm hhdm_ok _ _ _ kernel _ _ Hpv eq_refl En) as (m2' & Ek' & Hpv2 & Hroot & Hview & _ & Hphy & _ & Eh & Er).
  assert (pml4 pm = pml4_phy + hhdm) as Epm by (cbn; apply wrap_small; lia).
  rewrite (Ek' pm Epm) in Ek. injection Ek as <-. rewrite <- Epm in Hpv2, Hroot.
  unfold alloc_stack in Es. apply bind_Ret in Es as ([phy a] & Ea & [= _ <-]). cbn [memory set_memory set_frames frames set_heads] in *.
  destruct (pmm_alloc (stack_size / 0x1000) (frames m2') phy a) as [Hg Hown];
    [exact (inv_good _ _ _ (sp_inv _ _ _ (pv_spaces _ _ _ _ Hpv2) _ (or_introl eq_refl)))|done|exact Ea|].
  split; [by rewrite Eh|]. split; [done|]. split; [cbn; by rewrite Er|]. split; [rewrite Epm; lia|]. split; [done|].
  split; [|exact Hview].
  apply (private_frames hhdm _ _ (set_heads h3 m2')); [by apply (private_same hhdm _ _ m2')|done|exact Hown].
Qed.

(** Everything [new_user_task] does to memory before the task is queued. *)
Lemma new_program_memory P lk ts e s p list_head elf_file st s1 pml4_phy m m2 h3 kstack s2 ip base m3 m4 :
  system_ok hhdm sched_list_head kernel P lk ts (e, s) ->
  program_fits F wild elf_file st = true ->
  s1 = new_Task junk p s -> new_page hhdm (memory s1) = Ret (pml4_phy, m) ->
  let pm := mkPagemap (u64 (pml4_phy + hhdm)) list_head in
  map_kernel kernel pm m = Ret m2 ->
  alloc_stack hhdm (set_memory (set_heads h3 m2) s1) = Ret (kstack, s2) ->
  Elf.load hhdm F wild pm elf_file st (memory s2) = Ret (ip, base, m3) -> map_stack hhdm pm base m3 = Ret m4 ->
  heads m2 = <[sched_list p := mkListHead 0 0]> (heads (memory s)) /\ heads m4 = h3 /\ ranges m4 = ranges (memory s) /\
  0 <= base <= segments_end /\ 0 <= pml4 pm < 2 ^ 64 /\ ~ roots (pml4 kernel) (user_root P) (pml4 pm) /\
  private hhdm (pml4 kernel) (fun r => user_root P r \/ r = pml4 pm) m4 /\
  (forall w, user_root P w -> same_view hhdm (memory s) m4 w).
Proof.
  intros Hok Hfit E1 En pm Ek Es El Em.
  destruct (new_program_space P lk ts e s p list_head s1 pml4_phy m m2 h3 kstack s2 Hok E1 En Ek Es) as (Eh & Eh2 & Er2 & Hpm & Hroot & Hpv & Hview).
  fold pm in Hpm, Hroot, Hpv.
  destruct (load_enters hhdm hhdm_ok F wild _ _ pm elf_file st (or_intror eq_refl) _ _ _ _ Hfit Hpv El) as [He Hbase].
  pose proof (map_stack_enters hhdm hhdm_ok _ _ pm (or_intror eq_refl) base m3 m4 Hbase (en_private _ _ _ _ _ _ He) Em) as He4.
  destruct (enters_trans _ _ _ _ _ _ _ He He4) as [Hpv4 Hview4 Eh4 Er4].
  split; [done|]. split; [congruence|]. split; [congruence|]. split; [done|]. split; [done|]. split; [done|]. split; [done|].
  intros w Hw v Hv. rewrite (Hview4 w) by (by left || done || (intros ->; apply Hroot; by right)).
  exact (Hview w Hw v Hv).
Qed.

(** A new program joins a running machine: the machine is sound with one program
    more, last in the scheduler's list, which starts in user mode; no other task
    and nothing any other program sees has changed. *)
Lemma user_task_joins P lk ts e s p list_head elf_file st s' :
  system_ok hhdm sched_list_head kernel P lk ts (e, s) -> fresh_program p list_head s ->
  program_fits F wild elf_file st = true ->
  new_user_task hhdm junk sched_list_head F wild p list_head kernel elf_file st true s = Ret s' ->
  exists pm t ip sp, system_ok hhdm sched_list_head kernel (<[p := (pm, [])]> P) lk (ts ++ [p]) (e, s') /\
    tasks s' = <[p := t]> (tasks s) /\ pagemap t = pm /\
    gpr_state t = initial_state (Z.lor USER_CODE_64 3) (Z.lor USER_DATA_64 3) ip sp /\
    forall q x, P !! q = Some x -> same_view hhdm (memory s) (memory s') (pml4 x.1).
Proof.
  intros Hok Hfr Hfit E. unfold new_user_task in E. apply bind_Ret in E as ([pml4_phy m] & En & E).
  apply bind_Ret in E as (m2 & Ek & E). apply bind_Ret in E as (h3 & Ei & E). apply bind_Ret in E as ([kstack s2] & Es & E).
  apply bind_Ret in E as ([[ip base] m3] & El & E). apply bind_Ret in E as (m4 & Em & E).
  apply bind_Ret in E as (t0 & Et0 & E). apply bind_Ret in E as (v1 & _ & E). apply bind_Ret in E as (v2 & _ & E).
  apply bind_Ret in E as (v3 & _ & E). set (pm := mkPagemap (u64 (pml4_phy + hhdm)) list_head) in *. set (t := mkTask _ _ _ _ _ _ _ _ _ _ _ _) in E.
  destruct (new_program_memory P lk ts e s p list_head elf_file st _ _ _ _ _ _ _ _ _ _ _ Hok Hfit eq_refl En Ek Es El Em)
    as (Eh2 & Eh4 & Er4 & Hbase & Hroot & Hnew & Hpv & Hview).
  destruct Hok as [Hso Hrun Hlive Hdead Hp Hc]. cbn [fst snd] in *. rewrite Eh2 in Ei.
  destruct (join_heads ts s p list_head h3 Hso Hfr Ei) as (h4 & Ea & Hring & Hrl & Hframe).
  unfold alloc_stack in Es. apply bind_Ret in Es as ([phy a] & _ & [= _ <-]).
  unfold enqueue_task in E. cbn [memory set_task set_memory heads] in E. rewrite Eh4, Ea in E. ored. cbn [mbind outcome_bind] in E.
  injection E as <-. destruct Hfr as [Ht [Hp0 Hp1] Hl Hfl Hap].
  set (s' := set_memory _ _). assert (tasks s' = <[p := t]> (tasks s)) as Etk.
  { cbn. by rewrite insert_insert_eq. }
  assert (current s' = current s) as Ecur by done.
  assert (current s <> p) as Hcp.
  { intros Ecp. destruct Hrun as [E0|[[t1 Ht1] _]]; [lia|congruence]. }
  assert (forall z, old_node P lk z -> z ∉ list_head :: sched_list p :: sched_list_head :: (sched_list <$> ts) /\ z <> sched_list p) as Hold.
  { intros z Hz. destruct (old_node_head P lk s z Hp Hz) as [y Hy]. destruct (po_links _ _ _ _ _ _ Hp z Hz) as [H1 H2].
    assert (z <> sched_list p) by (intros ->; congruence). split; [|done]. rewrite !not_elem_of_cons. split; [intros ->; destruct Hfl; congruence|].
    split; [done|]. split; [done|]. intros (q & -> & Hq)%list_elem_of_fmap. destruct (so_tasks _ _ _ Hso q Hq) as [t1 Ht1]. by apply (H2 q t1). }
  assert (programs_ok hhdm sched_list_head kernel (<[p := (pm, [])]> P) lk s') as Hp'.
  { apply (programs_join P lk s s' p pm t (list_head :: sched_list p :: sched_list_head :: (sched_list <$> ts)));
      [done|done|done|done|done| |exact Hframe|done|done|exact Hrl| | | |done|].
    - unfold segments_end in Hbase. cbn. change stack_size with 0x10000. rewrite wrap_small; lia.
    - intros Hz. destruct (old_node_head P lk s _ Hp Hz) as [y Hy]. destruct Hfl. cbn in Hy. congruence.
    - cbn. intros ->. destruct (ring_dom _ _ _ sched_list_head (so_ring _ _ _ Hso)) as [y Hy]; [left|]. destruct Hfl. congruence.
    - intros q t1. rewrite Etk. intros [[<- _]|[_ Hq]]%lookup_insert_Some; [done|by apply (proj2 Hfl q t1)].
    - by apply (private_same hhdm _ _ m4). }
  exists pm, t, ip, base. split; [|split; [done|split; [done|split; [done|]]]].
  - apply (join_system P _ lk ts e s s' p t (list_head :: sched_list p :: sched_list_head :: (sched_list <$> ts)));
      [by split|done|done|done|done|cbn; lia|exact Hring|exact Hframe| |exact Hp'].
    intros q tq Hq. rewrite (elem_of_cons _ _ list_head), (elem_of_cons _ _ (sched_list p)).
    intros [Eq|[?|?]]; [by destruct (proj2 Hfl q tq Hq)|by left|by right].
  - intros q x Hx. apply (Hview (pml4 x.1)). by exists q, x.
Qed.

End Spawn.

(** ** A third program next to the two *)
Abbreviation spawn_third :=
  (new_user_task window dust 500 F0 Mkfs.zero 0x30000 6000 kernel_map 7 tree_elf true two_programs).
Lemma third_fresh : fresh_program 0x30000 6000 two_programs.
Proof.
  split; [reflexivity|split; reflexivity|vm_compute; reflexivity| |vm_compute; discriminate].
  split; [vm_compute; reflexivity|]. intros q t [[-> _]|[-> _]]%two_programs_cases; unfold sched_list; lia.
Qed.

(** The hypothesis on the file is needed: the loader takes a segment of the
    kernel's half, and maps it, for programs to use, in a table all address
    spaces share.  It appears in the other programs. *)
Definition high_segment : Z := 0xFFFFFFFF80001000.
Definition high_file : list Z :=
  let bs := Elf.program 4 5000 ++ code in take 80 bs ++ bytes_of 8 high_segment ++ drop 88 bs.
Example a_program_loads_into_all :
  program_fits F0 Mkfs.zero 7 (file_of high_file) = false /\
  translate window (mem (memory two_programs)) (pml4 program_b) high_segment = None /\
  match new_user_task window dust 500 F0 Mkfs.zero 0x30000 6000 kernel_map 7 (file_of high_file) true two_programs with
  | Ret s =>
      match translate window (mem (memory s)) (pml4 program_b) high_segment with
      | Some e =>
          allows (needs true false) e = true /\
          (take 4 ∘ page_bytes <$> mem (memory s) !! Demand.frame window e) = Some code
      | None => False
      end
  | _ => False
  end.
Proof. vm_compute. repeat split; reflexivity. Qed.
