(* ===== verification/Launch.v ===== *)
(** * Starting a program

    [new_user_task] from end to end: on a file that is a program, and with pages
    enough, it returns; the new task joins the machine of file Processes (file
    Spawn), and its address space shows the segments of the file (file Program)
    and a stack of zeros. *)
From S2P Require Import Prelude Algorithm Bitmap Pmm CString HashMap Vector Keyboard Printf List Vfs Descriptors Tmpfs Paging AddressSpace Spaces Demand Machine Interrupts Cpu Timers Elf Program Sched Traps Processes Spawn.

(** ** Pages in a row *)
Lemma alloc_room (a : pmm) n k :
  pmm_good a -> 0 < n -> 0 <= k -> room a (n + k) ->
  exists p a', alloc_pages n a = Ret (p, a') /\ pmm_good a' /\ room a' k.
Proof.
  intros Hg Hn Hk Hr. pose proof Hg as (Hwf & H0 & _).
  destruct (alloc_pages_room a n k Hwf Hn Hk H0 Hr) as (p & a' & E & Hr'). exists (p * 0x1000), a'. split; [done|].
  split; [by apply (pmm_alloc n a (p * 0x1000) a')|done].
Qed.

Lemma room_supply k : forall a : pmm, pmm_good a -> room a (Z.of_nat k) -> supply k a.
Proof.
  induction k as [|k IH]; intros a Hg Hr; [done|]. cbn [supply].
  destruct (alloc_room a 1 (Z.of_nat k) Hg) as (p & a' & E & Hg' & Hr'); [lia|lia|by replace (1 + Z.of_nat k) with (Z.of_nat (Datatypes.S k)) by lia|].
  exists p, a'. split; [exact E|by apply IH].
Qed.

(** ** The stack *)
Section stack.
Context (hhdm : Z) (hhdm_ok : 0 <= hhdm <= 2 ^ 64 - 2 ^ 46) (pm : Pagemap).
Implicit Types (m : vm pmm).

Definition stack_flags : Z := Z.lor (Z.lor (Z.lor PAGE_PRESENT PAGE_USER) PAGE_WRITABLE) PAGE_NO_EXECUTE.

(** A cleared page at [virt]: what was there stays. *)
Record adds_page m m' virt : Prop := {
  ap_inv : inv hhdm m' (pml4 pm);
  ap_page : exists e, translate hhdm (mem m') (pml4 pm) virt = Some e /\ Z.ldiff e ADDR = stack_flags /\
    data hhdm m' (pml4 pm) (Z.land e ADDR + hhdm) /\ mem m' !! (Z.land e ADDR + hhdm) = Some zero_page;
  ap_other v : page v <> page virt -> translate hhdm (mem m') (pml4 pm) v = translate hhdm (mem m) (pml4 pm) v;
  ap_data x : data hhdm m (pml4 pm) x -> data hhdm m' (pml4 pm) x /\ mem m' !! x = mem m !! x }.

Lemma stack_page m virt n :
  inv hhdm m (pml4 pm) -> supply (4 + n) (frames m) ->
  exists f m1 m', new_page hhdm m = Ret (f, m1) /\ map_page hhdm pm f virt stack_flags m1 = Ret m' /\
    adds_page m m' virt /\ supply n (frames m').
Proof.
  intros Hinv (f & a & Ea & Hsup). destruct (new_page_spec hhdm hhdm_ok m (pml4 pm) f a Hinv Ea) as (m1 & En & _).
  destruct (new_page_ret hhdm hhdm_ok m (pml4 pm) f m1 Hinv En) as (Hext & Hz & Hf & Hfm & Hno & Hown & _ & Htab).
  assert (frames m1 = a) as Ef.
  { unfold new_page in En. rewrite Ea in En. cbn [mbind outcome_bind] in En. by injection En as <-. }
  rewrite <- Ef in Hsup. destruct (map_page_entry hhdm hhdm_ok m1 pm f virt stack_flags n (ext_inv _ _ _ _ Hext) Hsup eq_refl)
    as (m' & Em & Hinv' & Htr & _ & Hsup' & _ & Hd).
  assert (data hhdm m1 (pml4 pm) (f + hhdm)) as Hdf.
  { split; [by exists f|]. intros p Hp Ep. rewrite Htab in Ep by done.
    destruct (inv_table _ _ _ Hinv p _ Hp Ep) as (_ & ph & _ & _ & Eph & Ho). by assert (ph = f) as -> by lia. }
  exists f, m1, m'. split; [done|]. split; [done|]. split; [|done]. destruct (Hd _ Hdf) as [Hd1 Hd2]. split.
  - done.
  - exists (Z.lor (Z.land f ADDR) stack_flags). rewrite Htr, decide_True by done. split; [done|].
    assert (Z.land f ADDR = f) as -> by (rewrite <- (Z.lor_0_r f) at 1; apply land_ADDR; [lia|done|done]).
    rewrite land_ADDR by (done || lia). split; [by apply lor_ldiff_ADDR|]. by rewrite Hd2.
  - intros v Hv. rewrite Htr, decide_False by done. apply (ext_translate _ _ _ _ Hext).
  - intros x Hx. destruct (ext_data _ _ _ _ Hext x Hx) as [Hx1 E1]. destruct (Hd x Hx1) as [Hx2 E2]. by rewrite E2.
Qed.

(** The byte at [v] in a page that is kept. *)
Lemma shows_kept m m' v flags b :
  shows hhdm m (pml4 pm) v flags b -> translate hhdm (mem m') (pml4 pm) v = translate hhdm (mem m) (pml4 pm) v ->
  (forall x, data hhdm m (pml4 pm) x -> mem m' !! x = mem m !! x) -> sees hhdm m' (pml4 pm) v flags b.
Proof. intros (e & ws & He & Hf & Hd & Hws & Hb) Ht Hm. exists e, ws. by rewrite Ht, Hm. Qed.

Lemma zero_byte i : 0 <= i < 0x1000 -> zlookup (page_bytes zero_page) i = Some 0.
Proof.
  intros Hi. assert (page_bytes zero_page = replicate (Z.to_nat 0x1000) 0) as -> by (vm_compute; reflexivity).
  unfold zlookup. rewrite bool_decide_true by lia. apply lookup_replicate. split; [done|lia].
Qed.

Lemma page_below v base i :
  0 <= v < base -> base mod 0x1000 = 0 -> 0 <= i -> base + i * 0x1000 < 2 ^ 48 -> page v <> page (base + i * 0x1000).
Proof.
  intros Hv Hal Hi Hend. unfold page. change (2 ^ 12) with 0x1000. rewrite Z.div_add by done.
  pose proof (Z.div_mod base 0x1000 ltac:(lia)) as Eb. rewrite Hal in Eb.
  assert (v / 0x1000 < base / 0x1000) by (apply Z.div_lt_upper_bound; lia).
  assert (0 <= v / 0x1000) by (apply Z.div_pos; lia). rewrite !Z.mod_small by lia. lia.
Qed.

Lemma map_stack_runs base m :
  0 <= base <= segments_end -> base mod 0x1000 = 0 -> inv hhdm m (pml4 pm) -> supply 64 (frames m) ->
  exists m', map_stack hhdm pm base m = Ret m' /\
    (forall j, 0 <= j < stack_size -> sees hhdm m' (pml4 pm) (base + j) stack_flags 0) /\
    (forall v, 0 <= v < base -> translate hhdm (mem m') (pml4 pm) v = translate hhdm (mem m) (pml4 pm) v) /\
    forall x, data hhdm m (pml4 pm) x -> mem m' !! x = mem m !! x.
Proof.
  intros Hb Hal Hinv Hsup. unfold segments_end in Hb.
  destruct (for_range_inv (fun i m' =>
      inv hhdm m' (pml4 pm) /\ supply (4 * Z.to_nat (16 - i)) (frames m') /\
      (forall k, 0 <= k < i -> exists e, translate hhdm (mem m') (pml4 pm) (base + k * 0x1000) = Some e /\ Z.ldiff e ADDR = stack_flags /\
        data hhdm m' (pml4 pm) (Z.land e ADDR + hhdm) /\ mem m' !! (Z.land e ADDR + hhdm) = Some zero_page) /\
      (forall v, 0 <= v < base -> translate hhdm (mem m') (pml4 pm) v = translate hhdm (mem m) (pml4 pm) v) /\
      forall x, data hhdm m (pml4 pm) x -> data hhdm m' (pml4 pm) x /\ mem m' !! x = mem m !! x)
    16 0 (fun i m => '(page_phy, m) ← new_page hhdm m; map_page hhdm pm page_phy (u64 (base + i * 0x1000)) stack_flags m) m)
    as (m' & E & _ & _ & Hpages & Hbelow & Hdata).
  - split; [done|]. split; [exact Hsup|]. split; [intros k Hk; lia|]. done.
  - intros i m1 Hi (Hinv1 & Hsup1 & Hpages & Hbelow & Hdata). rewrite wrap_small by lia.
    assert (Z.to_nat (16 - i) = Datatypes.S (Z.to_nat (16 - (i + 1)))) as En by lia.
    rewrite En, Nat.mul_succ_r, Nat.add_comm in Hsup1.
    destruct (stack_page m1 (base + i * 0x1000) _ Hinv1 Hsup1) as (f & m2 & m3 & -> & Em & [Hi3 Hp3 Ho3 Hd3] & Hsup3). ored.
    exists m3. split; [exact Em|]. split; [done|]. split; [exact Hsup3|]. split; [|split].
    + intros k Hk. destruct (decide (k = i)) as [->|Hne]; [done|].
      destruct (Hpages k ltac:(lia)) as (e & He & Hfl & Hde & Hz). exists e. destruct (Hd3 _ Hde) as [Hde' ->].
      rewrite Ho3 by (apply not_eq_sym, pages_differ; lia). done.
    + intros v Hv. rewrite Ho3, Hbelow by (done || (apply page_below; done || lia)). done.
    + intros x Hx. destruct (Hdata x Hx) as [Hx1 <-]. by apply Hd3.
  - exists m'. split; [exact E|]. split; [|split; [done|intros x Hx; by apply Hdata]].
    intros j Hj. change stack_size with 0x10000 in Hj.
    pose proof (Z.div_mod j 0x1000 ltac:(lia)) as Ej. pose proof (Z.mod_pos_bound j 0x1000 ltac:(lia)) as Hr.
    assert (0 <= j / 0x1000 < 16) as Hk by (split; [apply Z.div_pos; lia|apply Z.div_lt_upper_bound; lia]).
    destruct (Hpages (j / 0x1000) ltac:(lia)) as (e & He & Hfl & _ & Hz). exists e, zero_page. split; [|split; [done|split; [done|]]].
    + rewrite <- He. apply translate_page. unfold page. change (2 ^ 12) with 0x1000. f_equal. rewrite Z.div_add by done.
      rewrite Ej at 1. replace (base + (0x1000 * (j / 0x1000) + j mod 0x1000)) with (base + j mod 0x1000 + j / 0x1000 * 0x1000) by lia.
      rewrite Z.div_add by done. f_equal. pose proof (Z.div_mod base 0x1000 ltac:(lia)) as Eb. rewrite Hal, Z.add_0_r in Eb.
      rewrite Eb at 1. rewrite Z.mul_comm, Z.div_add_l by done. rewrite (Z.div_small (j mod 0x1000)) by done. lia.
    + rewrite <- Z.add_mod_idemp_l, Hal, Z.add_0_l by done. apply zero_byte. done.
Qed.
End stack.

(** ** Programs in files *)
Section Launch.
Context {M : Type} `{BaseRegisters M}.
Context (hhdm : Z) (hhdm_ok : 0 <= hhdm <= 2 ^ 64 - 2 ^ 46) (junk : Z -> Task) (sched_list_head : Z) (kernel : Pagemap).
Context {D : Type} (F : FileSystem D) `{!FileContents F} (wild : Z -> Z) (Hwild : forall o, byte (wild o)).
Implicit Types (s : sched M) (ts lk : list Z) (P : gmap Z (Pagemap * list Z)) (c : list (option Z)).

(** The contents of a file that can be run: an ELF file for this machine whose
    segments lie on pages of their own in the lower half, below the place of the
    stack, without an address or an offset that wraps around.  [load] checks the
    header only. *)
Record runnable c : Prop := {
  ru_bytes : Forall (fun b => forall x, b = Some x -> byte x) c;
  ru_magic : memcmp (identifier (elf_header wild c)) (127 :: lit "ELF") 4 = 0;
  ru_kind : supported (elf_header wild c) = true;
  ru_headers i : 0 <= i < ph_count (elf_header wild c) -> header_offset wild c i + 56 < 2 ^ 64;
  ru_segments : Forall loadable (segments wild c);
  ru_place ph : ph ∈ segments wild c -> virt_addr ph + mem_size ph + 0x2000 <= segments_end;
  ru_apart : pairwise_separate (segments wild c) }.

Lemma runnable_fits file st c : contents st file = Some c -> runnable c -> program_fits F wild file st = true.
Proof.
  intros Hc [Hb _ _ Hoff Hlo Hplace _]. unfold program_fits. rewrite (read_struct_spec F wild file st c Hc) by done. cbn zeta.
  fold (elf_header wild c). apply forallb_forall. intros i Hi%list_elem_of_In%elem_of_seqZ. fold (header_offset wild c i).
  rewrite (read_struct_spec F wild file st c Hc);
    [|done|by apply Z.mod_pos_bound|apply Hoff; lia].
  fold (segment_header wild c i). set (ph := segment_header wild c i). unfold segment_fits.
  destruct (ph_type ph =? PT_LOAD) eqn:Ht; [|done]. cbn [negb orb].
  assert (ph ∈ segments wild c) as Hin.
  { apply list_elem_of_filter. split; [exact Ht|]. apply list_elem_of_fmap_2, elem_of_seqZ. lia. }
  rewrite Forall_forall in Hlo. destruct (lo_virt _ (Hlo ph Hin)) as (? & ? & _). pose proof (Hplace ph Hin). lia.
Qed.

(** The pages that starting the program takes: the top table, the kernel's
    stack, the segments and the stack with their tables. *)
Definition launch_pages c : Z := 1 + (16 + Z.of_nat (pages_needed (segments wild c) + 64)).

(** The memory of the new program. *)
Lemma launch_memory P lk ts e s p list_head h3 elf_file st c :
  system_ok hhdm sched_list_head kernel P lk ts (e, s) -> contents st elf_file = Some c -> runnable c ->
  room (frames (memory s)) (launch_pages c) ->
  exists pml4_phy m m2 kstack s2 base m3 m4,
    let pm := mkPagemap (u64 (pml4_phy + hhdm)) list_head in
    new_page hhdm (memory (new_Task junk p s)) = Ret (pml4_phy, m) /\ map_kernel kernel pm m = Ret m2 /\
    heads m2 = <[sched_list p := mkListHead 0 0]> (heads (memory s)) /\
    alloc_stack hhdm (set_memory (set_heads h3 m2) (new_Task junk p s)) = Ret (kstack, s2) /\
    Elf.load hhdm F wild pm elf_file st (memory s2) = Ret (entry_addr (elf_header wild c), base, m3) /\
    map_stack hhdm pm base m3 = Ret m4 /\ heads m4 = h3 /\
    (forall ph j, ph ∈ segments wild c -> 0 <= j < mem_size ph ->
      sees hhdm m4 (pml4 pm) (virt_addr ph + j) (segment_flags (ph_flags ph)) (image wild c ph j)) /\
    (forall j, 0 <= j < stack_size -> sees hhdm m4 (pml4 pm) (base + j) stack_flags 0).
Proof.
  intros Hok Hc Hru Hroom. pose proof (po_memory _ _ _ _ _ _ (sy_programs _ _ _ _ _ _ _ Hok)) as Hpv0. cbn [snd] in Hpv0.
  pose proof (sp_inv _ _ _ (pv_spaces _ _ _ _ Hpv0) _ (or_introl eq_refl)) as Hinv0.
  set (s1 := new_Task junk p s). assert (inv hhdm (memory s1) (pml4 kernel)) as Hinv by (by apply (inv_same hhdm (memory s))).
  assert (private hhdm (pml4 kernel) (user_root P) (memory s1)) as Hpv by (by apply (private_same hhdm _ _ (memory s))).
  destruct (alloc_room (frames (memory s1)) 1 (16 + Z.of_nat (pages_needed (segments wild c) + 64)))
    as (phy & a & Ea & Hg & Hr1); [exact (inv_good _ _ _ Hinv0)|lia|lia|exact Hroom|].
  destruct (new_page_spec hhdm hhdm_ok (memory s1) (pml4 kernel) phy a Hinv Ea) as (m & En & _ & Ef & _).
  destruct (private_new_space hhdm hhdm_ok _ _ _ kernel _ _ Hpv eq_refl En) as (m2 & Ek & _ & _ & _ & _ & Hphy & Ef2 & _ & _).
  set (pm := mkPagemap (u64 (phy + hhdm)) list_head). specialize (Ek pm (wrap_small 64 (phy + hhdm) ltac:(lia))).
  destruct (alloc_room a 16 (Z.of_nat (pages_needed (segments wild c) + 64)) Hg) as (stk & a2 & Ea2 & Hg2 & Hr2); [lia|lia|exact Hr1|].
  set (s2 := set_memory (set_frames a2 (set_heads h3 m2)) (set_memory (set_heads h3 m2) s1)).
  assert (alloc_stack hhdm (set_memory (set_heads h3 m2) s1) = Ret (u64 (stk + stack_size + hhdm), s2)) as Es.
  { unfold alloc_stack. cbn [memory set_memory set_heads frames]. rewrite Ef2, Ef. change (stack_size / 0x1000) with 16. by rewrite Ea2. }
  destruct (new_program_space hhdm hhdm_ok junk sched_list_head kernel P lk ts e s p list_head s1 phy m m2 h3 _ s2 Hok eq_refl En Ek Es)
    as (Eh & Eh2 & _ & _ & _ & Hpv2 & _). fold pm in Hpv2.
  destruct (load_program hhdm hhdm_ok F wild pm elf_file st c Hc (ru_bytes _ Hru) Hwild 64 (memory s2)) as (m3 & base & El & Hinv3 & Hseg & Hal & _ & Hsup);
    [exact (sp_inv _ _ _ (pv_spaces _ _ _ _ Hpv2) _ (or_intror (or_intror eq_refl)))|apply Hru..|by apply room_supply|].
  destruct (load_enters hhdm hhdm_ok F wild _ _ pm elf_file st (or_intror eq_refl) _ _ _ _ (runnable_fits _ _ _ Hc Hru) Hpv2 El) as [He3 Hbase].
  destruct (map_stack_runs hhdm hhdm_ok pm base m3 Hbase Hal Hinv3 Hsup) as (m4 & Em & Hstack & Hbelow & Hdata).
  pose proof (map_stack_enters hhdm hhdm_ok _ _ pm (or_intror eq_refl) base m3 m4 Hbase (en_private _ _ _ _ _ _ He3) Em) as He4.
  exists phy, m, m2, (u64 (stk + stack_size + hhdm)), s2, base, m3, m4. cbn zeta. fold pm. split_and!; try done.
  - rewrite (en_heads _ _ _ _ _ _ He4), (en_heads _ _ _ _ _ _ He3). done.
  - intros ph j Hph Hj. destruct (Hseg ph j Hph Hj) as [Hlt Hsh]. apply (shows_kept hhdm pm m3); [done| |done]. apply Hbelow.
    pose proof (ru_segments _ Hru) as Hlo. rewrite Forall_forall in Hlo. destruct (lo_virt _ (Hlo ph Hph)). lia.
Qed.

(** The three descriptors of a new program. *)
Lemma three_descriptors :
  exists v, (v ← push_back (Vector.new 0) (Some (mkFileDescriptor 0 0)); v ← push_back v (Some (mkFileDescriptor 0 0));
    push_back v (Some (mkFileDescriptor 0 0))) = Ret v.
Proof. eexists. vm_compute. reflexivity. Qed.

Lemma launch_spec P lk ts e s p list_head elf_file st c :
  system_ok hhdm sched_list_head kernel P lk ts (e, s) -> fresh_program p list_head s ->
  contents st elf_file = Some c -> runnable c -> room (frames (memory s)) (launch_pages c) ->
  exists s' pm t sp,
    new_user_task hhdm junk sched_list_head F wild p list_head kernel elf_file st true s = Ret s' /\
    system_ok hhdm sched_list_head kernel (<[p := (pm, [])]> P) lk (ts ++ [p]) (e, s') /\
    tasks s' = <[p := t]> (tasks s) /\ pagemap t = pm /\
    gpr_state t = initial_state (Z.lor USER_CODE_64 3) (Z.lor USER_DATA_64 3) (entry_addr (elf_header wild c)) sp /\
    (forall ph j, ph ∈ segments wild c -> 0 <= j < mem_size ph ->
      sees hhdm (memory s') (pml4 pm) (virt_addr ph + j) (segment_flags (ph_flags ph)) (image wild c ph j) /\
      (well_placed c ph -> image wild c ph j = elf_image wild c ph j)) /\
    (forall j, 0 <= j < stack_size -> sees hhdm (memory s') (pml4 pm) (sp + j) stack_flags 0) /\
    forall q x, P !! q = Some x -> same_view hhdm (memory s) (memory s') (pml4 x.1).
Proof.
  intros Hok Hfr Hc Hru Hroom.
  destruct (init_ring (<[list_head := mkListHead 0 0]> (<[sched_list p := mkListHead 0 0]> (heads (memory s)))) list_head)
    as (h3 & Ei & _); [rewrite lookup_insert_eq; by eexists|].
  destruct (launch_memory P lk ts e s p list_head h3 elf_file st c Hok Hc Hru Hroom)
    as (phy & m & m2 & kstack & s2 & base & m3 & m4 & En & Ek & Eh & Es & El & Em & Eh4 & Hseg & Hstack).
  set (pm := mkPagemap (u64 (phy + hhdm)) list_head) in *.
  destruct (join_heads hhdm hhdm_ok junk sched_list_head ts s p list_head h3 (sy_sched _ _ _ _ _ _ _ Hok) Hfr Ei) as (h4 & Ea & _).
  destruct three_descriptors as [v Ev]. apply bind_Ret in Ev as (v1 & Ev1 & Ev). apply bind_Ret in Ev as (v2 & Ev2 & Ev3).
  assert (exists s' t, new_user_task hhdm junk sched_list_head F wild p list_head kernel elf_file st true s = Ret s' /\
    tasks s' !! p = Some t /\ pagemap t = pm /\ mem (memory s') = mem m4 /\
    gpr_state t = initial_state (Z.lor USER_CODE_64 3) (Z.lor USER_DATA_64 3) (entry_addr (elf_header wild c)) base)
    as (s' & t & E & Ht & Epm & Emem & Eg).
  { unfold new_user_task. rewrite En. ored. fold pm. rewrite Ek. ored. rewrite Eh, Ei. ored. rewrite Es. ored. rewrite El. ored.
    rewrite Em. ored. unfold alloc_stack in Es. apply bind_Ret in Es as ([q a] & _ & [= _ <-]).
    unfold task_at. cbn [tasks set_memory new_Task]. rewrite lookup_insert_eq. ored. cbn [fds file_descriptors]. rewrite Ev1. ored.
    rewrite Ev2. ored. rewrite Ev3. ored. unfold enqueue_task. cbn [memory set_task set_memory heads]. rewrite Eh4, Ea. ored.
    eexists _, _. split; [reflexivity|]. cbn [tasks set_memory set_task]. rewrite lookup_insert_eq. done. }
  destruct (user_task_joins hhdm hhdm_ok junk sched_list_head kernel F wild P lk ts e s p list_head elf_file st s' Hok Hfr
    (runnable_fits _ _ _ Hc Hru) E) as (pm' & t' & ip & sp & Hok' & Et & Epm' & _ & Hview).
  rewrite Et, lookup_insert_eq in Ht. injection Ht as ->. rewrite Epm in Epm'. subst pm'.
  exists s', pm, t, base. split; [done|]. split; [done|]. split; [done|]. split; [done|]. split; [done|].
  unfold sees in *. rewrite Emem. split; [|done]. intros ph j Hph Hj. split; [by apply Hseg|]. intros Hwp.
  pose proof (ru_segments _ Hru) as Hlo. rewrite Forall_forall in Hlo. by apply image_elf; [apply Hlo| |].
Qed.

(** C5. Starting a program: on a file that is an ELF file for this machine whose
    segments lie on pages of their own in the lower half ([runnable]), and with
    pages enough, [new_user_task] returns; the machine is sound with one program
    more, last in the scheduler's list, that starts in user mode at the file's
    entry point; in its address space each segment shows what the loader reads
    for it, with the access its flags ask for, which is the file's bytes and
    then zeros for a segment that is [well_placed] (on a page boundary, its last
    page neither full nor followed by other bytes of the file); from its stack
    pointer on there is a stack of zeros it may write; no other task and nothing
    another program sees has changed. *)
Theorem new_user_task_starts_it P lk ts e s p list_head elf_file st c :
  system_ok hhdm sched_list_head kernel P lk ts (e, s) -> fresh_program p list_head s ->
  contents st elf_file = Some c -> runnable c -> room (frames (memory s)) (launch_pages c) ->
  exists s' pm t sp,
    new_user_task hhdm junk sched_list_head F wild p list_head kernel elf_file st true s = Ret s' /\
    system_ok hhdm sched_list_head kernel (<[p := (pm, [])]> P) lk (ts ++ [p]) (e, s') /\
    tasks s' = <[p := t]> (tasks s) /\ pagemap t = pm /\
    gpr_state t = initial_state (Z.lor USER_CODE_64 3) (Z.lor USER_DATA_64 3) (entry_addr (elf_header wild c)) sp /\
    (forall ph j, ph ∈ segments wild c -> 0 <= j < mem_size ph ->
      sees hhdm (memory s') (pml4 pm) (virt_addr ph + j) (segment_flags (ph_flags ph)) (image wild c ph j) /\
      (well_placed c ph -> image wild c ph j = elf_image wild c ph j)) /\
    (forall j, 0 <= j < stack_size -> sees hhdm (memory s') (pml4 pm) (sp + j) stack_flags 0) /\
    forall q x, P !! q = Some x -> same_view hhdm (memory s) (memory s') (pml4 x.1).
Proof. apply launch_spec. Qed.
End Launch.

(** ** The program of file Elf, started next to two others *)
Definition code_file : list (option Z) := Some <$> (Elf.program 4 5000 ++ code).

Lemma code_segments : segments Mkfs.zero code_file = [code_segment].
Proof. vm_compute. reflexivity. Qed.

Lemma code_runnable : runnable Mkfs.zero code_file.
Proof.
  split.
  - exact (written_bytes (Elf.program 4 5000 ++ code) eq_refl).
  - vm_compute. reflexivity.
  - vm_compute. reflexivity.
  - change (ph_count (elf_header Mkfs.zero code_file)) with 1. intros i Hi. assert (i = 0) as -> by lia. vm_compute. reflexivity.
  - rewrite code_segments. apply Forall_singleton. exact code_segment_loadable.
  - rewrite code_segments. intros ph ->%list_elem_of_singleton. vm_compute. discriminate.
  - rewrite code_segments. intros [|i] [|j] a b Ha Hb Hij; done || lia.
Qed.

(** The pages from the scan position on are free. *)
Definition has_room (s : pmm) (k : Z) : bool :=
  (page_bitmap_index s + k <=? Bitmap.m_size (page_bitmap s)) &&
  forallb (fun i => negb (bit (page_bitmap s) i)) (seqZ (page_bitmap_index s) k).

Lemma has_room_spec s k : has_room s k = true -> room s k.
Proof.
  intros [Hk%Z.leb_le Hb]%andb_prop. exists (page_bitmap_index s). split; [lia|]. split; [done|]. intros i Hi.
  rewrite forallb_forall in Hb. apply negb_true_iff, Hb, list_elem_of_In, elem_of_seqZ. lia.
Qed.

Lemma new_user_task_starts_it_witness :
  exists s' pm t, spawn_third = Ret s' /\
    system_ok window 500 kernel_map (<[0x30000 := (pm, [])]> programs0) [] [0x10000; 0x20000; 0x30000] (Resumed, s') /\
    tasks s' !! 0x30000 = Some t /\ rip (gpr_state t) = 0x400000 /\
    sees window (memory s') (pml4 pm) 0x400003 0x5 5 /\ sees window (memory s') (pml4 pm) (rsp (gpr_state t) + 8) stack_flags 0 /\
    same_view window (memory two_programs) (memory s') (pml4 program_a).
Proof.
  destruct (new_user_task_starts_it window window_range dust 500 kernel_map F0 Mkfs.zero ltac:(vm_compute; done) programs0 []
    [0x10000; 0x20000] Resumed two_programs 0x30000 6000 7 tree_elf code_file two_programs_system third_fresh
    tree_elf_contents code_runnable) as (s' & pm & t & sp & E & Hok & Et & _ & Eg & Hseg & Hstack & Hv).
  - apply has_room_spec. vm_compute. reflexivity.
  - exists s', pm, t. split; [exact E|]. split; [exact Hok|]. split; [rewrite Et; apply lookup_insert_eq|].
    assert (entry_addr (elf_header Mkfs.zero code_file) = 0x400000) as Ee by (vm_compute; reflexivity).
    assert (0 <= 8 < stack_size) as H8 by (change stack_size with 0x10000; clear; lia).
    rewrite Eg, Ee. cbn [rip rsp initial_state]. split; [reflexivity|]. split; [|split; [exact (Hstack 8 H8)|]].
    + assert (virt_addr code_segment + 3 = 0x400003 /\ segment_flags (ph_flags code_segment) = 0x5 /\
        elf_image Mkfs.zero code_file code_segment 3 = 5) as (Ea & Ef & Ei) by (clear; vm_compute; done).
      destruct (Hseg code_segment 3 ltac:(rewrite code_segments; left) ltac:(clear; cbn; lia)) as [Hs Hi].
      rewrite Ea, Ef, (Hi code_segment_placed), Ei in Hs. exact Hs.
    + exact (Hv 0x10000 (program_a, [3001]) eq_refl).
Defined.
