(* ===== verification/Reachable.v ===== *)
(** * From boot on

    The states the kernel can be in from the return of [vmm::init] on: the boot
    code and the kernel's tasks use memory and devices, tasks and programs are
    started, and the machine of file Processes runs.  Every such state satisfies
    the invariant of that file, whatever the order of these steps.  Three things
    are the programs' duty, for the kernel does not check them: a program's file
    has its segments in the lower half ([program_fits]), and programs ask mmap
    for no more than is left of their half and give system calls buffers in it
    ([possible]). *)
From S2P Require Import Prelude Algorithm Bitmap Pmm CString HashMap Vector Keyboard Printf List Vfs Descriptors Tmpfs Paging AddressSpace Spaces Demand Machine Interrupts Cpu Timers Elf Sched Traps Processes Spawn.

Section Reachable.
Context {M : Type} `{BaseRegisters M}.
Context (hhdm : Z) (hhdm_ok : 0 <= hhdm <= 2 ^ 64 - 2 ^ 46).
Context (junk : Z -> Task) (sched_list_head : Z) (kernel : Pagemap) (reg_base : Z) (timer : apic_timer).
Context (hhdm_range heap_range : Z) (es : list limine_memmap_entry) (kernel_phy kernel_virt : Z).
Implicit Types (s : sched M) (ts lk : list Z) (P : gmap Z (Pagemap * list Z)) (v : vm pmm).

(** ** Memory before there are tasks *)

(** [vmm::init] returned this; then the heap and the drivers took pages, some of
    them by page faults. *)
Inductive boot_memory : vm pmm -> Prop :=
| boot_init v0 v c :
    good (frames v0) -> hhdm_range <> range_list_head kernel -> heap_range ∉ [hhdm_range; range_list_head kernel] ->
    Forall (fun e => 0 <= len e <= 2 ^ 48) es -> 0 <= kernel_bytes es 0 <= 2 ^ 48 ->
    supply (S (base.size (init_tables hhdm es kernel_virt))) (frames v0) ->
    Paging.init hhdm (range_list_head kernel) hhdm_range heap_range es kernel_phy kernel_virt v0 = Ret (kernel, v, c) ->
    boot_memory v
| boot_fault v virt b v' : boot_memory v -> handle_page_fault hhdm kernel virt v = Ret (b, v') -> boot_memory v'
| boot_pages v n p a : boot_memory v -> 0 < n -> alloc_pages n (frames v) = Ret (p, a) -> boot_memory (set_frames a v).

(** The kernel's list of ranges. *)
Definition kernel_list : list Z := [heap_range; hhdm_range].

Record boot_ok v : Prop := {
  bo_private : private hhdm (pml4 kernel) (fun _ => False) v;
  bo_ranges : ranges_ok v kernel kernel_list;
  bo_kernel : kernel_ranges hhdm v hhdm_range heap_range }.

Lemma mapped_kernel phy virt n flags f w e :
  Z.land flags PAGE_USER = 0 -> (f w = Some e -> Z.land e PAGE_USER = 0) ->
  mapped phy virt n flags f w = Some e -> Z.land e PAGE_USER = 0.
Proof.
  intros Hfl Hf. unfold mapped. cbn zeta. destruct (_ <? n); [|done]. intros [= <-].
  rewrite Z.land_lor_distr_l, Hfl, <- Z.land_assoc. by rewrite Z.land_0_r.
Qed.

Lemma entries_kernel l : forall f w e,
  (f w = Some e -> Z.land e PAGE_USER = 0) -> mapped_entries hhdm l f w = Some e -> Z.land e PAGE_USER = 0.
Proof.
  induction l as [|x l IH]; intros f w e Hf; [done|]. cbn [mapped_entries]. apply IH. destruct (in_window x); [|done].
  apply mapped_kernel; [|done]. unfold entry_flags. by repeat case_match; vm_compute.
Qed.

Lemma kernel_list_flags v r rg :
  kernel_ranges hhdm v hhdm_range heap_range -> r ∈ kernel_list -> ranges v !! r = Some rg ->
  present (page_flags rg) = true /\ Z.land (page_flags rg) PAGE_USER = 0.
Proof.
  intros [H1 H2] [->|[->|[]%not_elem_of_nil]%elem_of_cons]%elem_of_cons Hr.
  - rewrite H1 in Hr. injection Hr as <-. by vm_compute.
  - rewrite H2 in Hr. injection Hr as <-. by vm_compute.
Qed.

Lemma boot_memory_ok v : boot_memory v -> boot_ok v.
Proof.
  induction 1 as [v0 v c Hg Hne Hheap Hes Hk Hsup E|v virt b v' _ [Hp Hr Hk] E|v n p a _ [Hp Hr Hk] Hn E].
  - rewrite <- (Nat.add_0_r (base.size _)) in Hsup.
    destruct (init_builds hhdm hhdm_ok 0 v0 (range_list_head kernel) hhdm_range heap_range es kernel_phy kernel_virt
      Hg Hne Hheap Hes Hk Hsup) as (pm & v' & E' & Hinv & Htr & Hr & Hkr & _).
    rewrite E in E'. injection E' as <- <- _. split; [|done|done]. apply private_kernel; [done|]. intros w e.
    rewrite Htr. apply mapped_kernel; [by vm_compute|]. by apply entries_kernel.
  - destruct (private_kernel_fault hhdm hhdm_ok _ _ v kernel kernel_list virt b v' Hp eq_refl Hr
      (fun r rg H1 H2 => proj2 (kernel_list_flags v r rg Hk H1 H2)) E) as (Hp' & _ & Eh & Er).
    destruct Hk as [H1 H2]. split; [done| |split; by rewrite Er]. unfold ranges_ok in *. by rewrite Eh, Er.
  - destruct (pmm_alloc n (frames v) p a) as [Hg Hown];
      [exact (inv_good _ _ _ (sp_inv _ _ _ (pv_spaces _ _ _ _ Hp) _ (or_introl eq_refl)))|done|exact E|].
    destruct Hk as [H1 H2]. split; [by apply private_frames|done|by split].
Qed.

(** ** The machine *)

(** What can happen; [F], [wild] and the file of a program are its caller's. *)
Inductive reachable : ending * sched M -> Prop :=
| up_start v h c m :
    boot_memory v -> base_value IA32_GS_BASE m = 0 -> sched_list_head <> 0 ->
    sched_list_head ∉ nodes (kernel, kernel_list) ->
    List.init sched_list_head (<[sched_list_head := mkListHead 0 0]> (heads v)) = Ret h ->
    reachable (Resumed, mkSched ∅ (set_heads h v) 0 c m)
| up_task s p ip s' :
    reachable (Resumed, s) -> fresh_kernel_task junk p s ->
    new_kernel_task hhdm junk sched_list_head p kernel ip true s = Ret s' -> reachable (Resumed, s')
| up_program {D : Type} (F : FileSystem D) wild s p list_head elf_file st s' :
    reachable (Resumed, s) -> fresh_program p list_head s -> program_fits F wild elf_file st = true ->
    new_user_task hhdm junk sched_list_head F wild p list_head kernel elf_file st true s = Ret s' ->
    reachable (Resumed, s')
| up_pages s n p a :
    reachable (Resumed, s) -> 0 < n -> alloc_pages n (frames (memory s)) = Ret (p, a) ->
    reachable (Resumed, set_memory (set_frames a (memory s)) s)
| up_devices e s m :
    reachable (e, s) -> base_value IA32_GS_BASE m = current s -> reachable (e, set_machine m s)
| up_moves st st' : reachable st -> moves hhdm sched_list_head kernel reg_base timer st st' -> reachable st'.

Lemma start_system v h c m :
  boot_memory v -> base_value IA32_GS_BASE m = 0 -> sched_list_head <> 0 ->
  sched_list_head ∉ nodes (kernel, kernel_list) ->
  List.init sched_list_head (<[sched_list_head := mkListHead 0 0]> (heads v)) = Ret h ->
  system_ok hhdm sched_list_head kernel ∅ kernel_list [] (Resumed, mkSched ∅ (set_heads h v) 0 c m).
Proof.
  intros Hb Hgs Hz Hnode Ei. destruct (boot_memory_ok v Hb) as [Hp Hr Hk].
  destruct (init_ring (<[sched_list_head := mkListHead 0 0]> (heads v)) sched_list_head) as (h' & Ei' & Hring);
    [rewrite lookup_insert_eq; by eexists|]. rewrite Ei in Ei'. injection Ei' as <-.
  assert (forall p, (∅ : gmap Z Task) !! p = None) as He by apply lookup_empty.
  split; cbn [fst snd]; [split; cbn; [done|by intros p Hin%not_elem_of_nil|intros p t; by rewrite lookup_empty|done]
    |by left|by left|done| |intros t; cbn; by rewrite lookup_empty].
  split; try (intros *; cbn; rewrite ?lookup_empty; done).
  - cbn. split; [split; [|apply Hr]|intros r rg; by apply kernel_list_flags].
    apply (ring_frame (heads v) _ _ _ [sched_list_head] (proj1 Hr)).
    + apply (frame_trans _ _ _ [sched_list_head] _ (frame_fresh _ _ _) (init_frame _ _ _ Ei)). done.
    + intros z Hin ->%list_elem_of_singleton. done.
  - intros z [Hin|(p & x & Hx & _)]; [|by rewrite lookup_empty in Hx]. split; [by intros ->|]. intros q t. cbn. by rewrite lookup_empty.
  - cbn. apply (private_same hhdm _ _ v); [done|done|]. eapply private_roots; [|exact Hp]. intros r. split; [done|].
    intros (p & x & Hx & _). by rewrite lookup_empty in Hx.
Qed.

Lemma reachable_system st : reachable st -> exists P ts, system_ok hhdm sched_list_head kernel P kernel_list ts st.
Proof.
  induction 1 as [v h c m Hb Hgs Hz Hn Ei|s p ip s' _ (P & ts & Hok) Hf E|D F wild s p head elf_file st s' _ (P & ts & Hok) Hf Hfit E
    |s n p a _ (P & ts & Hok) Hn E|e s m _ (P & ts & Hok) Hm|st st' _ (P & ts & Hok) Hmv].
  - exists ∅, []. by apply start_system.
  - destruct (new_kernel_task_joins hhdm hhdm_ok junk sched_list_head kernel P _ ts Resumed s p ip s' Hok Hf E) as (sp & t & Hok' & _).
    by exists P, (ts ++ [p]).
  - destruct (user_task_joins hhdm hhdm_ok junk sched_list_head kernel F wild P _ ts Resumed s p head elf_file st s' Hok Hf Hfit E)
      as (pm & t & ip & sp & Hok' & _). by exists (<[p := (pm, [])]> P), (ts ++ [p]).
  - exists P, ts. pose proof (po_memory _ _ _ _ _ _ (sy_programs _ _ _ _ _ _ _ Hok)) as Hpv.
    apply (system_pages hhdm sched_list_head kernel P _ ts s); try done.
    destruct (pmm_alloc n (frames (memory s)) p a) as [Hg Hown];
      [exact (inv_good _ _ _ (sp_inv _ _ _ (pv_spaces _ _ _ _ Hpv) _ (or_introl eq_refl)))|done|exact E|].
    by apply private_frames.
  - exists P, ts. assert (current (set_machine m s) = current s) as Ec by exact Hm.
    destruct Hok as [Hso Hrun Hlive Hdead Hp Hc]. split; cbn [fst snd] in *; rewrite ?Ec; try done.
    + by destruct Hso.
    + unfold running. by rewrite Ec.
    + by destruct Hp.
  - destruct (moves_keeps hhdm sched_list_head kernel reg_base timer hhdm_ok P _ ts st st' Hok Hmv) as (_ & _ & P' & ts' & Hok' & _).
    by exists P', ts'.
Qed.

(** What [init] of the scheduler returns is one of these states. *)
Lemma init_reachable v c m p1 p2 ip1 ip2 s :
  boot_memory v -> base_value IA32_GS_BASE m = 0 -> sched_list_head <> 0 -> sched_list_head ∉ nodes (kernel, kernel_list) ->
  (forall h, List.init sched_list_head (<[sched_list_head := mkListHead 0 0]> (heads v)) = Ret h ->
    let s0 := mkSched ∅ (set_heads h v) 0 c m in
    fresh_kernel_task junk p1 s0 /\
    forall s1, new_kernel_task hhdm junk sched_list_head p1 kernel ip1 true s0 = Ret s1 -> fresh_kernel_task junk p2 s1) ->
  Sched.init hhdm junk sched_list_head p1 p2 kernel ip1 ip2 (mkSched ∅ v 0 c m) = Ret s -> reachable (Resumed, s).
Proof.
  intros Hb Hgs Hz Hn Hnew E. unfold Sched.init in E. apply bind_Ret in E as (h & Ei & E). apply bind_Ret in E as (s1 & E1 & E2).
  destruct (Hnew h Ei) as [Hf1 Hf2]. apply (up_task s1 p2 ip2); [|by apply Hf2|done]. eapply up_task; [by apply (up_start v h c m)|exact Hf1|exact E1].
Qed.

(** A frame that [t]'s program may use. *)
Definition usable s t (a e : Z) : Prop :=
  translate hhdm (mem (memory s)) (pml4 (pagemap t)) a = Some e /\ allows (needs true false) e = true.

Lemma usable_lower P lk ts e0 s q x t (v e : Z) :
  system_ok hhdm sched_list_head kernel P lk ts (e0, s) -> P !! q = Some x -> pagemap t = x.1 -> usable s t v e -> index4 v < 256.
Proof.
  intros Hok HP Et [Htr Ha]. rewrite Et in Htr. apply Z.nle_gt. intros Hv. apply (allows_user false e Ha).
  apply (pv_kernel _ _ _ _ (po_memory _ _ _ _ _ _ (sy_programs _ _ _ _ _ _ _ Hok)) (pml4 x.1) v e); [by apply (root_of kernel P q)|by right|done].
Qed.

Lemma task_program P lk ts st q t :
  system_ok hhdm sched_list_head kernel P lk ts st -> tasks st.2 !! q = Some t -> pagemap t <> kernel ->
  exists x, P !! q = Some x /\ pagemap t = x.1.
Proof.
  intros Hok Hq Hpm. pose proof (sy_programs _ _ _ _ _ _ _ Hok) as Hp. destruct (P !! q) as [x|] eqn:HP.
  - exists x. split; [done|]. destruct (po_program _ _ _ _ _ _ Hp q x HP) as (t' & Ht' & Epm & _). congruence.
  - by destruct Hpm; apply (po_task _ _ _ _ _ _ Hp q).
Qed.

(** C1. From boot on no memory is shared, in whatever order tasks and programs are
    started, run, fault, make system calls and end, as long as the segments of
    the programs' files lie in the lower half, no program asks mmap for more than
    is left of its half, and none gives a system call a buffer outside it: what a
    program may use lies in its half of the address space and is no page table of
    any address space, and no page of another program, nor a second page of its
    own. *)
Theorem memory_is_never_shared e0 s q t (v e : Z) :
  reachable (e0, s) -> tasks s !! q = Some t -> pagemap t <> kernel -> usable s t v e ->
  index4 v < 256 /\
  (forall p pt path, tasks s !! p = Some pt -> (length path <= 3)%nat ->
    tab hhdm (mem (memory s)) (pml4 (pagemap pt)) path <> Some (Demand.frame hhdm e)) /\
  forall p pt (v' e' : Z), tasks s !! p = Some pt -> pagemap pt <> kernel -> usable s pt v' e' ->
    Demand.frame hhdm e' = Demand.frame hhdm e -> p = q /\ page v' = page v.
Proof.
  intros Hr Hq Hpm Hv. destruct (reachable_system _ Hr) as (P & ts & Hok).
  pose proof (sy_programs _ _ _ _ _ _ _ Hok) as Hp. cbn [snd] in Hp. pose proof (po_memory _ _ _ _ _ _ Hp) as Hpv.
  destruct (task_program P _ ts _ q t Hok Hq Hpm) as (x & HP & Et). pose proof (usable_lower P _ ts e0 s q x t v e Hok HP Et Hv) as Hlow.
  destruct Hv as [Htr _]. rewrite Et in Htr. split; [done|]. split.
  - intros p pt path Hpt Hlen. destruct (pv_frame _ _ _ _ Hpv (pml4 x.1) v e) as [Hd _]; [by exists q, x|done|done|].
    assert (roots (pml4 kernel) (user_root P) (pml4 (pagemap pt))) as Hroot; [|exact (proj2 (Hd _ Hroot) path Hlen)].
    destruct (P !! p) as [y|] eqn:HPy; [right|left; f_equal; by apply (po_task _ _ _ _ _ _ Hp p)].
    destruct (po_program _ _ _ _ _ _ Hp p y HPy) as (t' & Ht' & Ey & _). exists p, y. split; [done|]. congruence.
  - intros p pt v' e' Hpt Hne Hv' Ef. destruct (task_program P _ ts (e0, s) p pt Hok Hpt Hne) as (y & HPy & Ey).
    pose proof (usable_lower P _ ts e0 s p y pt v' e' Hok HPy Ey Hv') as Hlow'. destruct Hv' as [Htr' _]. rewrite Ey in Htr'.
    destruct (pv_once _ _ _ _ Hpv (pml4 y.1) (pml4 x.1) v' v e' e) as [Eu Epg]; try done; [by exists p, y|by exists q, x|].
    split; [|done]. destruct (decide (p = q)) as [|Hpq]; [done|]. by destruct (po_distinct _ _ _ _ _ _ Hp p q y x HPy HP Hpq).
Qed.

End Reachable.

(** ** A run: boot, a task of the kernel's, two programs *)
Definition empty_space : vm pmm := mkVm ∅ (frames big_memory) ∅ ∅ [].
Definition kernel0 : Pagemap := mkPagemap (window + 0x2000) 1000.
Abbreviation vmm_init := (Paging.init window 1000 1001 1002 map0 0x100000 0xFFFFFFFF80000000 empty_space).
Definition booted : Pagemap * vm pmm * Z := result (kernel0, empty_space, 0) vmm_init.
Definition boot_space : vm pmm := booted.1.2.
Abbreviation list_init := (List.init 500 (<[500 := mkListHead 0 0]> (heads boot_space))).
Definition up0 : sched board := mkSched ∅ (set_heads (result ∅ list_init) boot_space) 0 booted.2 machine0.
Abbreviation spawn_task := (new_kernel_task window dust 500 0x10000 kernel0 0xAAAA true up0).
Definition up1 : sched board := result up0 spawn_task.
Abbreviation spawn p head s := (new_user_task window dust 500 F0 Mkfs.zero p head kernel0 7 tree_elf true s).
Definition up2 : sched board := result up0 (spawn 0x30000 6000 up1).
Definition up3 : sched board := result up0 (spawn 0x40000 7000 up2).

Abbreviation up := (reachable window dust 500 kernel0 lapic0 timer0 1001 1002 map0 0x100000 0xFFFFFFFF80000000).

Lemma boot_space_up : boot_memory window kernel0 1001 1002 map0 0x100000 0xFFFFFFFF80000000 boot_space.
Proof.
  apply (boot_init _ _ _ _ _ _ _ empty_space boot_space booted.2).
  - split; [split; [by vm_compute|split; [split; by vm_compute|by vm_compute]]|]. split; by vm_compute.
  - done.
  - cbn. set_solver by lia.
  - repeat constructor; cbn; lia.
  - vm_compute. split; discriminate.
  - apply drain_supply. vm_compute. reflexivity.
  - change (vmm_init = Ret (kernel0, boot_space, booted.2)). assert (booted.1.1 = kernel0) as E1 by (vm_compute; reflexivity). rewrite <- E1.
    assert (returns vmm_init = true) as Hr by (vm_compute; reflexivity).
    rewrite (result_spec (kernel0, empty_space, 0) _ Hr). unfold boot_space. fold booted. by destruct booted as [[??]?].
Qed.

Lemma up0_up : up (Resumed, up0).
Proof.
  apply (up_start _ _ _ _ _ _ _ _ _ _ _ boot_space); [exact boot_space_up|by vm_compute|done| |].
  - cbn. set_solver by lia.
  - apply result_spec. vm_compute. reflexivity.
Qed.

Lemma up1_up : up (Resumed, up1).
Proof.
  apply (up_task _ _ _ _ _ _ _ _ _ _ _ up0 0x10000 0xAAAA); [exact up0_up| |apply result_spec; vm_compute; reflexivity].
  split; [reflexivity|split; reflexivity|vm_compute; reflexivity|cbn; lia].
Qed.

Lemma result_pair {A B : Type} (d : A * B) (o : outcome (A * B)) a :
  returns o = true -> (result d o).1 = a -> o = Ret (a, (result d o).2).
Proof. intros Hr <-. rewrite <- surjective_pairing. by apply result_spec. Qed.

(** Nothing is at [p] and at [head] in a concrete state. *)
Lemma fresh_program_at p head (s : sched board) :
  tasks s !! p = None -> heads (memory s) !! sched_list p = None -> heads (memory s) !! head = None ->
  0 < p /\ sched_list p < 2 ^ 64 -> head <> sched_list p ->
  bool_decide (map_Forall (fun q (_ : Task) => head <> sched_list q) (tasks s)) = true -> fresh_program p head s.
Proof. intros Ht Hl Hh Hp Hne Hq%bool_decide_eq_true. by split. Qed.

Lemma up2_up : up (Resumed, up2).
Proof.
  apply (up_program _ _ _ _ _ _ _ _ _ _ _ F0 Mkfs.zero up1 0x30000 6000 7 tree_elf);
    [exact up1_up| |by vm_compute|apply result_spec; vm_compute; reflexivity].
  apply fresh_program_at; try (vm_compute; reflexivity); [split; vm_compute; reflexivity|vm_compute; discriminate].
Qed.

Lemma up3_up : up (Resumed, up3).
Proof.
  apply (up_program _ _ _ _ _ _ _ _ _ _ _ F0 Mkfs.zero up2 0x40000 7000 7 tree_elf);
    [exact up2_up| |by vm_compute|apply result_spec; vm_compute; reflexivity].
  apply fresh_program_at; try (vm_compute; reflexivity); [split; vm_compute; reflexivity|vm_compute; discriminate].
Qed.

(** The second program takes its turn, and ends. *)
Definition tick (s : sched board) : sched board :=
  (result (user_regs, s) (scheduler_isr window 500 lapic0 timer0 user_regs s)).2.
Definition in_turn : sched board := tick (tick up3).
Abbreviation program_exits := (handle window kernel0 Exit in_turn).
Definition ended : sched board := (result (Halted, up0) program_exits).2.
Lemma in_turn_up : up (Resumed, in_turn).
Proof.
  assert (forall e s, up (e, s) -> returns (scheduler_isr window 500 lapic0 timer0 user_regs s) = true -> up (Resumed, tick s)) as Htick.
  { intros e s Hup Hr. apply (up_moves _ _ _ _ _ _ _ _ _ _ _ (e, s)); [exact Hup|].
    apply (moves_tick _ _ _ _ _ e s user_regs (result (user_regs, s) (scheduler_isr window 500 lapic0 timer0 user_regs s)).1).
    by apply result_pair. }
  apply (Htick Resumed); [|vm_compute; reflexivity]. apply (Htick Resumed); [exact up3_up|vm_compute; reflexivity].
Qed.

Lemma in_turn_program : program kernel0 in_turn (current in_turn).
Proof.
  assert ((fun t => pml4 (pagemap t)) <$> tasks in_turn !! current in_turn <> None /\
    (fun t => pml4 (pagemap t)) <$> tasks in_turn !! current in_turn <> Some (pml4 kernel0)) as [H1 H2] by (vm_compute; split; discriminate).
  unfold program. destruct (tasks in_turn !! current in_turn) as [t|]; [|by destruct H1].
  exists t. split; [done|]. intros E. apply H2. cbn. by rewrite E.
Qed.

Lemma ended_up : up (Halted, ended).
Proof.
  apply (up_moves _ _ _ _ _ _ _ _ _ _ _ (Resumed, in_turn)); [exact in_turn_up|].
  apply (moves_event _ _ _ _ _ Exit).
  - exact in_turn_program.
  - apply result_pair; vm_compute; reflexivity.
Qed.

(** The program at [p] has a page for [v]. *)
Definition has_page (s : sched board) (p v : Z) : bool :=
  match tasks s !! p with
  | Some t =>
      negb (pml4 (pagemap t) =? pml4 kernel0) &&
      match translate window (mem (memory s)) (pml4 (pagemap t)) v with Some e => allows (needs true false) e | None => false end
  | None => false
  end.

Lemma has_usable (s : sched board) p v :
  has_page s p v = true -> exists t e, tasks s !! p = Some t /\ pml4 (pagemap t) <> pml4 kernel0 /\ usable window s t v e.
Proof.
  unfold has_page, usable. destruct (tasks s !! p) as [t|]; [|done]. intros [Hne%negb_true_iff%Z.eqb_neq Hp]%andb_prop.
  destruct (translate _ _ _ v) as [e|] eqn:Ee; [|done]. by exists t, e.
Qed.

(** What both programs find at their entry point is not the same page. *)
Lemma memory_is_never_shared_witness :
  exists t1 t2 e1 e2, tasks up3 !! 0x30000 = Some t1 /\ tasks up3 !! 0x40000 = Some t2 /\
    usable window up3 t1 0x400000 e1 /\ usable window up3 t2 0x400000 e2 /\ Demand.frame window e1 <> Demand.frame window e2.
Proof.
  assert (exists t1 e1, tasks up3 !! 0x30000 = Some t1 /\ pml4 (pagemap t1) <> pml4 kernel0 /\ usable window up3 t1 0x400000 e1)
    as (t1 & e1 & H1 & N1 & U1).
  { apply has_usable. vm_compute. reflexivity. }
  assert (exists t2 e2, tasks up3 !! 0x40000 = Some t2 /\ pml4 (pagemap t2) <> pml4 kernel0 /\ usable window up3 t2 0x400000 e2)
    as (t2 & e2 & H2 & N2 & U2).
  { apply has_usable. vm_compute. reflexivity. }
  exists t1, t2, e1, e2. split; [exact H1|]. split; [exact H2|]. split; [exact U1|]. split; [exact U2|]. intros Ef.
  destruct (memory_is_never_shared window window_range dust 500 kernel0 lapic0 timer0 1001 1002 map0 0x100000 0xFFFFFFFF80000000
    Resumed up3 0x30000 t1 0x400000 e1 up3_up H1) as (_ & _ & Hdiff).
  - intros E. apply N1. by rewrite E.
  - exact U1.
  - destruct (Hdiff 0x40000 t2 0x400000 e2 H2) as [Hpq _].
    + intros E. apply N2. by rewrite E.
    + exact U2.
    + symmetry. exact Ef.
    + discriminate Hpq.
Defined.

