(* ===== verification/Acpi.v ===== *)
(** * acpi/tables.cpp: the firmware's tables

    [byte] is the memory the tables are in, by address; reading where nothing
    is, is a fault.  The fields of the packed structures are read at their
    offsets.  Log lines are left out. *)
From S2P Require Import Prelude Bitmap Pmm CString Vector List Paging Machine Interrupts Timers.

(** [MADT::EntryType] *)
Definition MADT_LAPIC : Z := 0.
Definition MADT_IOAPIC : Z := 1.
Definition MADT_IRQ_SOURCE_OVERRIDE : Z := 2.
Definition MADT_LAPIC_NMI : Z := 4.

(** Sizes of the structures. *)
Definition sizeof_RSDP1 : Z := 20.
Definition sizeof_SDT : Z := 36.
Definition sizeof_MADT : Z := 44.

Section Acpi.
Context {M : Type} `{Machine M}.
Context (hhdm : Z) (byte : Z -> option Z) (kernel : Pagemap).

(** The [n] bytes at an address, and a field of [n] bytes at offset [o]. *)
Fixpoint bytes_from (a : Z) (n : nat) : outcome (list Z) :=
  match n with
  | O => Ret []
  | S n => b ← of_option (byte a); bs ← bytes_from (a + 1) n; Ret (b :: bs)
  end.
Definition field_at (a o : Z) (n : nat) : outcome Z := bs ← bytes_from (a + o) n; Ret (number bs).

Fixpoint checksum_loop (n : nat) (a sum : Z) : outcome Z :=
  match n with
  | O => Ret sum
  | S n => b ← of_option (byte a); checksum_loop n (a + 1) (u8 (sum + b))
  end.
Definition do_checksum (table size : Z) : outcome bool :=
  sum ← checksum_loop (Z.to_nat size) table 0; Ret (sum =? 0).

(** What the parsers change. *)
Record acpi := mkAcpi { irqs : irq_state; ints : idt_state; space : vm pmm; timer : hpet; board : M }.

Definition set_irqs (q : irq_state) (s : acpi) : acpi := mkAcpi q (ints s) (space s) (timer s) (board s).
Definition set_board (m : M) (s : acpi) : acpi := mkAcpi (irqs s) (ints s) (space s) (timer s) m.
Definition set_space (v : vm pmm) (s : acpi) : acpi := mkAcpi (irqs s) (ints s) v (timer s) (board s).

Definition device_flags : Z := Z.lor (Z.lor (Z.lor PAGE_PRESENT PAGE_WRITABLE) PAGE_NO_EXECUTE) PAGE_CACHE_DISABLE.

(** What is done for an enabled processor, an I/O APIC and a source override. *)
Definition add_lapic (lid pid flags : Z) (s : acpi) : outcome acpi :=
  let q := irqs s in
  if negb (Z.land flags 1 =? 0) then
    v ← push_back (lapics q) (mkLAPIC lid pid);
    Ret (set_irqs (mkIrq (ioapics q) v (irq_to_gsi q) (irq_flags q) (reg_base q)) s)
  else Ret s.

Definition add_ioapic (id a gsi : Z) (s : acpi) : outcome acpi :=
  v ← map_page hhdm kernel a (u64 (a + hhdm)) device_flags (space s);
  let '(io, m) := new_IOAPIC hhdm id a gsi (board s) in
  let q := irqs s in
  ios ← push_back (ioapics q) io;
  Ret (set_board m (set_space v (set_irqs (mkIrq ios (lapics q) (irq_to_gsi q) (irq_flags q) (reg_base q)) s))).

Definition add_override (irq gsi flags : Z) (s : acpi) : outcome acpi :=
  q ← override_irq_source irq gsi flags (irqs s); Ret (set_irqs q s).

(** The body of the first loop of [parse_madt]. *)
Definition madt_entry (entry : Z) (s : acpi) : outcome acpi :=
  type ← field_at entry 0 1;
  if type =? MADT_LAPIC then
    pid ← field_at entry 2 1; lid ← field_at entry 3 1; flags ← field_at entry 4 4;
    add_lapic lid pid flags s
  else if type =? MADT_IOAPIC then
    id ← field_at entry 2 1; a ← field_at entry 4 4; gsi ← field_at entry 8 4;
    add_ioapic id a gsi s
  else if type =? MADT_IRQ_SOURCE_OVERRIDE then
    irq ← field_at entry 3 1; gsi ← field_at entry 4 4; flags ← field_at entry 8 2;
    add_override irq gsi flags s
  else Ret s.

(** The loop over the entries, of which [parse_madt] has two.  An entry of size
    0 keeps it where it is for ever. *)
Fixpoint walk (fuel : nat) (body : Z -> acpi -> outcome acpi) (entry stop : Z) (s : acpi) : outcome acpi :=
  match fuel with
  | O => Diverge
  | S fuel =>
      if entry <? stop then
        s ← body entry s;
        size ← field_at entry 1 1;
        walk fuel body (entry + size) stop s
      else Ret s
  end.

(** The processor that runs this, or a cleared one: [read_id] is called for every
    processor looked at. *)
Fixpoint find_bsp (l : list (option LAPIC)) (reg_base : Z) (m : M) : outcome (LAPIC * M) :=
  match l with
  | [] => Ret (mkLAPIC 0 0, m)
  | p :: l =>
      p ← of_option p;
      let '(id, m) := LAPIC_read_id reg_base m in
      if lapic_id p =? id then Ret (p, m) else find_bsp l reg_base m
  end.

(** The body of the second loop. *)
Definition nmi_entry (entry : Z) (s : acpi) : outcome acpi :=
  type ← field_at entry 0 1;
  if type =? MADT_LAPIC_NMI then
    let b := reg_base (irqs s) in
    '(bsp, m) ← find_bsp (elements (lapics (irqs s))) b (board s);
    pid ← field_at entry 2 1;
    if (pid =? 0xFF) || (pid =? acpi_id bsp) then
      flags ← field_at entry 3 2;
      lint ← field_at entry 5 1;
      let m := LAPIC_set_vector b (if negb (lint =? 0) then LVT_LINT1 else LVT_LINT0) 0xFE true
                 (Z.land flags 3 =? 3) (Z.land flags 0xC =? 0xC) false m in
      let m := LAPIC_set_vector b (if negb (lint =? 0) then LVT_LINT0 else LVT_LINT1) 0 false false false true m in
      Ret (set_board m s)
    else Ret (set_board m s)
  else Ret s.

(** [spurious] is the address of the handler. *)
Definition parse_madt (spurious madt : Z) (s : acpi) : outcome acpi :=
  size ← field_at madt 4 4;
  let fuel := S (Z.to_nat size) in
  s ← walk fuel madt_entry (madt + sizeof_MADT) (madt + size) s;
  let '(phy_base, base, m) := LAPIC_prepare hhdm (board s) in
  v ← map_page hhdm kernel phy_base base device_flags (space s);
  let q := irqs s in
  let s := set_board m (set_space v (set_irqs (mkIrq (ioapics q) (lapics q) (irq_to_gsi q) (irq_flags q) base) s)) in
  s ← walk fuel nmi_entry (madt + sizeof_MADT) (madt + size) s;
  let mask reg m := LAPIC_set_vector base reg 0 false false false true m in
  let m := mask LVT_ERROR (mask LVT_THERMAL (mask LVT_PERF (mask LVT_TIMER (mask LVT_CMCI (board s))))) in
  '(ints', m) ← LAPIC_enable base spurious (ints s) m;
  Ret (mkAcpi (irqs s) ints' (space s) (timer s) m).

Definition parse_hpet (table : Z) (s : acpi) : outcome acpi :=
  sp ← field_at table 40 1; width ← field_at table 41 1; off ← field_at table 42 1;
  acc ← field_at table 43 1; a ← field_at table 44 8;
  '(h, m) ← hpet_init hhdm (mkGenericAddr sp width off acc a) (board s);
  Ret (mkAcpi (irqs s) (ints s) (space s) h m).

Definition has_signature (a : Z) (sig : cstring) : outcome bool :=
  bs ← bytes_from a (length sig); Ret (memcmp bs sig (length sig) =? 0).

Definition parse_sdt (spurious sdt : Z) (s : acpi) : outcome acpi :=
  size ← field_at sdt 4 4;
  good ← do_checksum sdt size;
  if negb good then Panic
  else
    apic ← has_signature sdt (lit "APIC");
    if apic : bool then parse_madt spurious sdt s
    else
      hpet ← has_signature sdt (lit "HPET");
      if hpet : bool then parse_hpet sdt s else Ret s.

(** The tables a root table with entries of [w] bytes lists. *)
Definition parse_root (spurious a : Z) (sig : cstring) (w : nat) (s : acpi) : outcome acpi :=
  ok ← has_signature a sig;
  if negb ok then Panic
  else
    size ← field_at a 4 4;
    good ← do_checksum a size;
    if negb good then Panic
    else
      for_range (Z.to_nat (u64 (size - sizeof_SDT) / Z.of_nat w)) 0
        (fun i s => sdt ← field_at a (sizeof_SDT + i * Z.of_nat w) w; parse_sdt spurious (u64 (sdt + hhdm)) s) s.

Definition parse_rsdp (spurious rsdp : Z) (s : acpi) : outcome acpi :=
  ok ← has_signature rsdp (lit "RSD PTR ");
  if negb ok then Panic
  else
    good ← do_checksum rsdp sizeof_RSDP1;
    if negb good then Panic
    else
      revision ← field_at rsdp 15 1;
      s ← (if revision =? 0 then
             a ← field_at rsdp 16 4; parse_root spurious (u64 (a + hhdm)) (lit "RSDT") 4 s
           else Ret s);
      if revision =? 2 then
        size ← field_at rsdp 20 4;
        good ← do_checksum (rsdp + sizeof_RSDP1) (u64 (size - sizeof_RSDP1));
        if negb good then Panic
        else a ← field_at rsdp 24 8; parse_root spurious (u64 (a + hhdm)) (lit "XSDT") 8 s
      else Ret s.

(** ** Tables in memory *)
Definition holds_at (a : Z) (bs : list Z) : Prop := forall i b, bs !! i = Some b -> byte (a + Z.of_nat i) = Some b.

Lemma holds_at_app a bs1 bs2 :
  holds_at a (bs1 ++ bs2) -> holds_at a bs1 /\ holds_at (a + Z.of_nat (length bs1)) bs2.
Proof.
  intros Hh. split; intros i b Hi.
  - apply Hh. by apply lookup_app_l_Some.
  - replace (a + Z.of_nat (length bs1) + Z.of_nat i) with (a + Z.of_nat (length bs1 + i)) by lia. apply Hh.
    rewrite lookup_app_r by lia. by replace (length bs1 + i - length bs1)%nat with i by lia.
Qed.

Lemma bytes_from_holds bs : forall a, holds_at a bs -> bytes_from a (length bs) = Ret bs.
Proof.
  induction bs as [|b bs IH]; intros a Hh; [done|]. cbn [length bytes_from].
  assert (byte a = Some b) as ->. { replace a with (a + Z.of_nat 0) by lia. by apply Hh. }
  ored. rewrite (IH (a + 1)); [done|]. apply (holds_at_app a [b] bs) in Hh as [_ Hh]. done.
Qed.

(** A field in the middle of what is known. *)
Lemma field_at_holds a bs1 bs bs2 o n :
  holds_at a (bs1 ++ bs ++ bs2) -> o = Z.of_nat (length bs1) -> n = length bs -> field_at a o n = Ret (number bs).
Proof.
  intros Hh -> ->. apply holds_at_app in Hh as [_ Hh]. apply holds_at_app in Hh as [Hh _].
  unfold field_at. by rewrite bytes_from_holds.
Qed.

(** A checksum is good when the bytes add up to 0. *)
Lemma do_checksum_spec bs : forall a,
  holds_at a bs ->
  do_checksum a (Z.of_nat (length bs)) = Ret (u8 (foldr Z.add 0 bs) =? 0).
Proof.
  intros a Hh. unfold do_checksum. rewrite Nat2Z.id.
  assert (forall sum, 0 <= sum < 256 -> checksum_loop (length bs) a sum = Ret (u8 (sum + foldr Z.add 0 bs))) as ->; [|done|lia].
  revert a Hh. induction bs as [|b bs IH]; intros a Hh sum Hsum; cbn [length checksum_loop foldr].
  - by rewrite Z.add_0_r, wrap_small.
  - assert (byte a = Some b) as ->. { replace a with (a + Z.of_nat 0) by lia. by apply Hh. }
    ored. apply (holds_at_app a [b] bs) in Hh as [_ Hh]. rewrite (IH (a + 1) Hh) by (apply (wrap_range 8); lia).
    f_equal. unfold wrap. rewrite Zplus_mod_idemp_l. f_equal. lia.
Qed.

(** ** The MADT *)
Inductive entry :=
| Lapic (pid lid flags : Z)
| Ioapic (id unused addr gsi : Z)
| Override (bus irq gsi flags : Z)
| Nmi (pid flags lint : Z)
| Other (type : Z) (payload : list Z).

Definition encode (e : entry) : list Z :=
  match e with
  | Lapic pid lid flags => [MADT_LAPIC; 8; pid; lid] ++ bytes_of 4 flags
  | Ioapic id unused addr gsi => [MADT_IOAPIC; 12; id; unused] ++ bytes_of 4 addr ++ bytes_of 4 gsi
  | Override bus irq gsi flags => [MADT_IRQ_SOURCE_OVERRIDE; 10; bus; irq] ++ bytes_of 4 gsi ++ bytes_of 2 flags
  | Nmi pid flags lint => [MADT_LAPIC_NMI; 6; pid] ++ bytes_of 2 flags ++ [lint]
  | Other type payload => [type; 2 + Z.of_nat (length payload)] ++ payload
  end.

Definition entry_ok (e : entry) : Prop :=
  match e with
  | Lapic _ _ flags => 0 <= flags < 2 ^ 32
  | Ioapic _ _ addr gsi => 0 <= addr < 2 ^ 32 /\ 0 <= gsi < 2 ^ 32
  | Override _ _ gsi flags => 0 <= gsi < 2 ^ 32 /\ 0 <= flags < 2 ^ 16
  | Nmi _ flags _ => 0 <= flags < 2 ^ 16
  | Other type payload => type ∉ [MADT_LAPIC; MADT_IOAPIC; MADT_IRQ_SOURCE_OVERRIDE; MADT_LAPIC_NMI]
  end.

(** What an entry means to each of the two loops. *)
Definition install (e : entry) (s : acpi) : outcome acpi :=
  match e with
  | Lapic pid lid flags => add_lapic lid pid flags s
  | Ioapic id _ addr gsi => add_ioapic id addr gsi s
  | Override _ irq gsi flags => add_override irq gsi flags s
  | _ => Ret s
  end.

Definition connect_nmi (e : entry) (s : acpi) : outcome acpi :=
  match e with
  | Nmi pid flags lint =>
      let b := reg_base (irqs s) in
      '(bsp, m) ← find_bsp (elements (lapics (irqs s))) b (board s);
      if (pid =? 0xFF) || (pid =? acpi_id bsp) then
        let m := LAPIC_set_vector b (if negb (lint =? 0) then LVT_LINT1 else LVT_LINT0) 0xFE true
                   (Z.land flags 3 =? 3) (Z.land flags 0xC =? 0xC) false m in
        Ret (set_board (LAPIC_set_vector b (if negb (lint =? 0) then LVT_LINT0 else LVT_LINT1) 0 false false false true m) s)
      else Ret (set_board m s)
  | _ => Ret s
  end.

Fixpoint do_all (act : entry -> acpi -> outcome acpi) (es : list entry) (s : acpi) : outcome acpi :=
  match es with [] => Ret s | e :: es => s ← act e s; do_all act es s end.

(** [field_is Hh pre mid] reads the field [mid] that follows [pre]. *)
Ltac field_is Hh pre mid :=
  match type of Hh with
  | holds_at ?a _ =>
      let o := eval lazy in (Z.of_nat (length pre)) in
      let n := eval lazy in (length mid) in
      rewrite (field_at_holds a pre mid _ o n Hh) by reflexivity;
      cbn [number]; rewrite ?Z.mul_0_r, ?Z.add_0_r, ?number_bytes_of by (cbn; lia); ored
  end.

Lemma madt_entry_spec a e s : entry_ok e -> holds_at a (encode e) -> madt_entry a s = install e s.
Proof.
  intros Hok Hh. unfold madt_entry. destruct e as [pid lid flags|id un addr gsi|bus irq gsi flags|pid flags lint|ty p];
    cbn [encode app] in Hh; cbn [entry_ok] in Hok; cbn [install].
  - field_is Hh (@nil Z) [MADT_LAPIC]. cbn [Z.eqb MADT_LAPIC].
    field_is Hh [MADT_LAPIC; 8] [pid]. field_is Hh [MADT_LAPIC; 8; pid] [lid].
    rewrite <- (app_nil_r (bytes_of 4 flags)) in Hh. field_is Hh [MADT_LAPIC; 8; pid; lid] (bytes_of 4 flags). done.
  - field_is Hh (@nil Z) [MADT_IOAPIC]. cbn [Z.eqb Pos.eqb MADT_IOAPIC MADT_LAPIC].
    field_is Hh [MADT_IOAPIC; 12] [id]. field_is Hh [MADT_IOAPIC; 12; id; un] (bytes_of 4 addr).
    rewrite <- (app_nil_r (bytes_of 4 gsi)) in Hh.
    field_is Hh ([MADT_IOAPIC; 12; id; un] ++ bytes_of 4 addr) (bytes_of 4 gsi). done.
  - field_is Hh (@nil Z) [MADT_IRQ_SOURCE_OVERRIDE].
    cbn [Z.eqb Pos.eqb MADT_IOAPIC MADT_LAPIC MADT_IRQ_SOURCE_OVERRIDE].
    field_is Hh [MADT_IRQ_SOURCE_OVERRIDE; 10; bus] [irq].
    field_is Hh [MADT_IRQ_SOURCE_OVERRIDE; 10; bus; irq] (bytes_of 4 gsi).
    rewrite <- (app_nil_r (bytes_of 2 flags)) in Hh.
    field_is Hh ([MADT_IRQ_SOURCE_OVERRIDE; 10; bus; irq] ++ bytes_of 4 gsi) (bytes_of 2 flags). done.
  - field_is Hh (@nil Z) [MADT_LAPIC_NMI]. done.
  - field_is Hh (@nil Z) [ty].
    rewrite !not_elem_of_cons in Hok. destruct Hok as (H0 & H1 & H2 & _).
    by rewrite (proj2 (Z.eqb_neq _ _) H0), (proj2 (Z.eqb_neq _ _) H1), (proj2 (Z.eqb_neq _ _) H2).
Qed.

Lemma nmi_entry_spec a e s : entry_ok e -> holds_at a (encode e) -> nmi_entry a s = connect_nmi e s.
Proof.
  intros Hok Hh. unfold nmi_entry. destruct e as [pid lid flags|id un addr gsi|bus irq gsi flags|pid flags lint|ty p];
    cbn [encode app] in Hh; cbn [entry_ok] in Hok; cbn [connect_nmi].
  - by field_is Hh (@nil Z) [MADT_LAPIC].
  - by field_is Hh (@nil Z) [MADT_IOAPIC].
  - by field_is Hh (@nil Z) [MADT_IRQ_SOURCE_OVERRIDE].
  - field_is Hh (@nil Z) [MADT_LAPIC_NMI]. cbn [Z.eqb Pos.eqb MADT_LAPIC_NMI].
    apply bind_ext; [done|]. intros [bsp m].
    field_is Hh [MADT_LAPIC_NMI; 6] [pid]. destruct ((pid =? 0xFF) || _); [|done].
    field_is Hh [MADT_LAPIC_NMI; 6; pid] (bytes_of 2 flags).
    rewrite <- (app_nil_r [lint]) in Hh.
    field_is Hh ([MADT_LAPIC_NMI; 6; pid] ++ bytes_of 2 flags) [lint]. done.
  - field_is Hh (@nil Z) [ty].
    rewrite !not_elem_of_cons in Hok. destruct Hok as (_ & _ & _ & H3 & _).
    by rewrite (proj2 (Z.eqb_neq _ _) H3).
Qed.

(** Every entry says its size. *)
Lemma entry_size a e rest : holds_at a (encode e ++ rest) ->
  field_at a 1 1 = Ret (Z.of_nat (length (encode e))) /\ (2 <= length (encode e))%nat.
Proof.
  intros Hh.
  assert (exists ty tail, encode e = ty :: Z.of_nat (length (encode e)) :: tail) as (ty & tail & E).
  { destruct e; cbn [encode app]; eexists _, _; f_equal; f_equal. cbn [length]. lia. }
  split; [|rewrite E; cbn; lia]. rewrite E in Hh. cbn [app] in Hh.
  rewrite (field_at_holds a [ty] [Z.of_nat (length (encode e))] _ 1 1 Hh) by reflexivity. cbn [number]. f_equal. lia.
Qed.

Lemma walk_spec body act es : forall fuel a s,
  (forall e a s, e ∈ es -> holds_at a (encode e) -> body a s = act e s) ->
  holds_at a (concat (encode <$> es)) -> (length es < fuel)%nat ->
  walk fuel body a (a + Z.of_nat (length (concat (encode <$> es)))) s = do_all act es s.
Proof.
  induction es as [|e es IH]; intros fuel a s Hb Hh Hf; (destruct fuel as [|fuel]; [cbn in Hf; lia|]); cbn [walk do_all].
  - cbn. by rewrite Z.add_0_r, Z.ltb_irrefl.
  - rewrite fmap_cons in Hh |- *. cbn [concat] in Hh |- *. destruct (entry_size a e _ Hh) as [Hs Hl].
    rewrite length_app. rewrite (proj2 (Z.ltb_lt _ _)) by lia.
    pose proof (holds_at_app _ _ _ Hh) as [H1 H2]. rewrite (Hb e) by (done || left).
    apply bind_ext; [done|]. intros s'. rewrite Hs. ored.
    rewrite <- (IH fuel (a + Z.of_nat (length (encode e))) s'); [f_equal; lia| |done|cbn in Hf; lia].
    intros e' a' s'' He. apply Hb. by right.
Qed.

(** What [parse_madt] does with a table of the entries [es]. *)
Definition madt_program (spurious : Z) (es : list entry) (s : acpi) : outcome acpi :=
  s ← do_all install es s;
  let '(phy_base, base, m) := LAPIC_prepare hhdm (board s) in
  v ← map_page hhdm kernel phy_base base device_flags (space s);
  let q := irqs s in
  let s := set_board m (set_space v (set_irqs (mkIrq (ioapics q) (lapics q) (irq_to_gsi q) (irq_flags q) base) s)) in
  s ← do_all connect_nmi es s;
  let mask reg m := LAPIC_set_vector base reg 0 false false false true m in
  let m := mask LVT_ERROR (mask LVT_THERMAL (mask LVT_PERF (mask LVT_TIMER (mask LVT_CMCI (board s))))) in
  '(ints', m) ← LAPIC_enable base spurious (ints s) m;
  Ret (mkAcpi (irqs s) ints' (space s) (timer s) m).

(** C26. A well-formed MADT, whatever the other fields of its header and however
    many entries of other types it has, is read entry by entry: every enabled
    processor, I/O APIC and source override is installed in the table's order,
    then the NMI lines are connected, and neither loop runs on. *)
Theorem parse_madt_reads_the_table spurious madt head tail es s :
  length head = 4%nat -> length tail = 36%nat -> Forall entry_ok es ->
  sizeof_MADT + Z.of_nat (length (concat (encode <$> es))) < 2 ^ 32 ->
  holds_at madt (head ++ bytes_of 4 (sizeof_MADT + Z.of_nat (length (concat (encode <$> es)))) ++ tail
                 ++ concat (encode <$> es)) ->
  parse_madt spurious madt s = madt_program spurious es s.
Proof.
  intros Hhead Htail Hok Hsize Hh. unfold parse_madt, madt_program.
  set (size := sizeof_MADT + Z.of_nat (length (concat (encode <$> es)))) in *.
  rewrite (field_at_holds madt head (bytes_of 4 size) _ 4 4 Hh) by (rewrite ?Hhead; reflexivity).
  rewrite number_bytes_of by (unfold size, sizeof_MADT in *; cbn; lia). ored.
  assert (holds_at (madt + sizeof_MADT) (concat (encode <$> es))) as He.
  { apply holds_at_app in Hh as [_ Hh]. apply holds_at_app in Hh as [_ Hh]. apply holds_at_app in Hh as [_ Hh].
    rewrite length_bytes_of, Hhead, Htail in Hh. unfold sizeof_MADT. by replace (madt + 44) with (madt + Z.of_nat 4 + Z.of_nat 4 + Z.of_nat 36) by lia. }
  assert (length es < S (Z.to_nat size))%nat as Hf.
  { assert (length es <= length (concat (encode <$> es)))%nat; [|unfold size, sizeof_MADT; lia].
    clear. induction es as [|e es IH]; [done|]. rewrite fmap_cons. cbn [concat length]. rewrite length_app.
    assert (2 <= length (encode e))%nat; [|lia]. destruct e; cbn; lia. }
  rewrite Forall_forall in Hok.
  replace (madt + size) with (madt + sizeof_MADT + Z.of_nat (length (concat (encode <$> es)))) by (unfold size; lia).
  rewrite (walk_spec madt_entry install es); [|intros; by apply madt_entry_spec; [apply Hok|]|done|done].
  apply bind_ext; [done|]. intros s1. destruct (LAPIC_prepare hhdm (board s1)) as [[phy base] m].
  apply bind_ext; [done|]. intros v.
  by rewrite (walk_spec nmi_entry connect_nmi es); [|intros; by apply nmi_entry_spec; [apply Hok|]|done|done].
Qed.

End Acpi.
Arguments acpi : clear implicits.

(** ** A concrete table: two processors, one I/O APIC, an override and an NMI *)
Definition image_at (base : Z) (bs : list Z) (a : Z) : option Z := zlookup bs (a - base).

Lemma image_holds base bs : holds_at (image_at base bs) base bs.
Proof.
  intros i b Hi. unfold image_at, zlookup. rewrite bool_decide_true by lia.
  by replace (Z.to_nat (base + Z.of_nat i - base)) with i by lia.
Qed.

Definition entries0 : list entry :=
  [Lapic 0 0 1; Lapic 1 7 0; Other 9 (replicate 14 0); Ioapic 2 0 0xFEC00000 0; Override 0 0 2 0; Override 0 9 9 0xF; Nmi 255 5 1].
Definition tail0 : list Z := replicate 36 0.
Definition madt0 : list Z :=
  lit "APIC" ++ bytes_of 4 (sizeof_MADT + Z.of_nat (length (concat (encode <$> entries0)))) ++ tail0
    ++ concat (encode <$> entries0).

Definition acpi0 : acpi Machine.board :=
  mkAcpi (mkIrq (Vector.new 0) (Vector.new 0) (seqZ 0 16) (replicate 16 0) 0)
    idt0 vm0 (mkHpet false 0 0 (mkGenericAddr 0 0 0 0 0))
    (mkBoard {[window + 0xFEC00010 := 0x170020]} ∅ {[IA32_APIC_BASE := 0xFEE00900]} []).

Lemma entries0_ok : Forall entry_ok entries0.
Proof.
  repeat constructor; try lia; cbn; rewrite !not_elem_of_cons;
    (split; [done|split; [done|split; [done|split; [done|apply not_elem_of_nil]]]]).
Qed.

Lemma parse_madt_reads_the_table_witness :
  parse_madt window (image_at 0x1000 madt0) the_map 0xEEEE 0x1000 acpi0
  = madt_program window the_map 0xEEEE entries0 acpi0.
Proof.
  exact (parse_madt_reads_the_table window (image_at 0x1000 madt0) the_map 0xEEEE 0x1000 (lit "APIC") tail0 entries0 acpi0
    eq_refl eq_refl entries0_ok eq_refl (image_holds 0x1000 madt0)).
Defined.

(** What it leaves: the enabled processor, the I/O APIC with its 24 lines, the
    overrides and the NMI on the second pin. *)
Example madt0_run :
  match parse_madt window (image_at 0x1000 madt0) the_map 0xEEEE 0x1000 acpi0 with
  | Ret s =>
      (elements (lapics (irqs s)), (fun io => (ioapic_id io, max_entries io)) <$> omap id (elements (ioapics (irqs s))),
       zlookup (irq_to_gsi (irqs s)) 0, zlookup (irq_flags (irqs s)) 9,
       registers (board s) !! (window + 0xFEE00000 + LVT_LINT1), registers (board s) !! (window + 0xFEE00000 + LVT_LINT0))
  | _ => ([], [], None, None, None, None)
  end = ([Some (mkLAPIC 0 0)], [(2, 24)], Some 2, Some 0xF, Some 0x4FE, Some 0x10000).
Proof. vm_compute. reflexivity. Qed.

(** An entry of size 0 hangs the loop. *)
Example empty_entry_hangs :
  parse_madt window (image_at 0x1000 (lit "APIC" ++ bytes_of 4 46 ++ tail0 ++ [9; 0])) the_map 0xEEEE 0x1000 acpi0 = Diverge.
Proof. vm_compute. reflexivity. Qed.

(** A table whose bytes do not add up is refused. *)
Example bad_checksum_panics :
  parse_sdt window (image_at 0x1000 (lit "ABCD" ++ bytes_of 4 36 ++ replicate 28 1)) the_map 0xEEEE 0x1000 acpi0 = Panic.
Proof. vm_compute. reflexivity. Qed.
