(* ===== verification/Framebuffer.v ===== *)
(** * gfx/framebuffer.cpp: drawing

    [pixels] is the memory behind [addr], byte by byte, by the offset from it. *)
From S2P Require Import Prelude.

Record Framebuffer := mkFramebuffer { fb_addr : Z; fb_width : Z; fb_height : Z; pitch : Z; pixel_width : Z }.

Abbreviation pixels := (gmap Z Z).

(** The three bytes of a colour, blue first. *)
Definition store_rgb (where_ rgb : Z) (m : pixels) : pixels :=
  <[u64 (where_ + 2) := Z.land (Z.shiftr rgb 16) 255]>
    (<[u64 (where_ + 1) := Z.land (Z.shiftr rgb 8) 255]> (<[where_ := Z.land rgb 255]> m)).

Definition put_pixel (fb : Framebuffer) (x y rgb : Z) (m : pixels) : pixels :=
  if (fb_width fb <? x) || (fb_height fb <? y) then m
  else store_rgb (u32 (u32 (x * pixel_width fb) + u32 (y * pitch fb))) rgb m.

(** The inner loop: [j] is a 16-bit counter.  It takes at most 65536 values, so
    that a loop still running after as many turns never ends. *)
Fixpoint columns (fuel : nat) (fb : Framebuffer) (line j stop rgb : Z) (m : pixels) : outcome pixels :=
  match fuel with
  | O => Diverge
  | S fuel =>
      if j <? stop then
        let m :=
          if fb_width fb <=? j then m
          else
            let o k := u64 (line + u32 (u32 (j * pixel_width fb) + k)) in
            <[o 2 := Z.land (Z.shiftr rgb 16) 255]>
              (<[o 1 := Z.land (Z.shiftr rgb 8) 255]> (<[o 0 := Z.land rgb 255]> m)) in
        columns fuel fb line (u16 (j + 1)) stop rgb m
      else Ret m
  end.

Definition turns : nat := Z.to_nat 65537.

Fixpoint rows (fuel : nat) (fb : Framebuffer) (i stop x w rgb : Z) (m : pixels) : outcome pixels :=
  match fuel with
  | O => Diverge
  | S fuel =>
      if i <? stop then
        m ← (if fb_height fb <=? i then Ret m
             else columns turns fb (u32 (pitch fb * i)) x (w + x) rgb m);
        rows fuel fb (u16 (i + 1)) stop x w rgb m
      else Ret m
  end.

Definition fill_rect (fb : Framebuffer) (x y w h rgb : Z) (m : pixels) : outcome pixels :=
  rows turns fb y (h + y) x w rgb m.

(** ** Characters *)
Record PSF := mkPSF {
  magic : Z; version : Z; header_size : Z; font_flags : Z;
  num_glyph : Z; bytes_per_glyph : Z; glyph_height : Z; glyph_width : Z
}.

Fixpoint store_list (o : Z) (bs : list Z) (m : pixels) : pixels :=
  match bs with [] => m | b :: bs => store_list (o + 1) bs (<[u64 o := b]> m) end.

Section font.
(** The font linked into the kernel: its header and its bytes. *)
Context (font : PSF) (font_byte : Z -> option Z).

(** One row of a glyph: [glyph] is its first byte. *)
Fixpoint draw_row (n : nat) (fb : Framebuffer) (glyph mask line fg bg : Z) (m : pixels) : pixels :=
  match n with
  | O => m
  | S n =>
      let m := store_list line (bytes_of 4 (u32 (if negb (Z.land glyph mask =? 0) then fg else bg))) m in
      draw_row n fb glyph (Z.shiftr mask 1) (u64 (line + pixel_width fb)) fg bg m
  end.

Fixpoint draw_rows (n : nat) (fb : Framebuffer) (glyph where_ fg bg : Z) (m : pixels) : outcome pixels :=
  match n with
  | O => Ret m
  | S n =>
      g ← of_option (font_byte glyph);
      let m := draw_row (Z.to_nat (glyph_width font)) fb g (u64 (Z.shiftl 1 (glyph_width font - 1))) where_ fg bg m in
      draw_rows n fb (glyph + (glyph_width font + 7) / 8) (u64 (where_ + pitch fb)) fg bg m
  end.

Definition draw_psf_char (fb : Framebuffer) (c cx cy offx offy fg bg : Z) (m : pixels) : outcome pixels :=
  let glyph := header_size font
    + u32 ((if (0 <? c) && (c <? num_glyph font) then c else 0) * bytes_per_glyph font) in
  let where_ := u32 (u32 (u32 (cy * glyph_height font + offy) * pitch fb)
                     + u32 (u32 (cx * glyph_width font + offx) * 4)) in
  draw_rows (Z.to_nat (glyph_height font)) fb glyph where_ fg bg m.
End font.

(** ** Lemmas *)

(** The pixel a byte belongs to, and its place in it. *)
Definition rgb_byte (rgb k : Z) : Z := Z.land (Z.shiftr rgb (8 * k)) 255.

(** A screen whose bytes fit 32-bit offsets and whose lines do not overlap. *)
Record fb_ok (fb : Framebuffer) : Prop := {
  fo_width : 0 <= fb_width fb /\ fb_width fb * pixel_width fb <= pitch fb;
  fo_pixel : 3 <= pixel_width fb < 2 ^ 16;
  fo_size : 0 <= fb_height fb /\ pitch fb * fb_height fb < 2 ^ 32;
  fo_line : pitch fb < 2 ^ 32
}.

(** Byte [k] of the pixel at [(x, y)]. *)
Definition offset (fb : Framebuffer) (x y k : Z) : Z := pitch fb * y + x * pixel_width fb + k.

Lemma pixel_order fb x x' k k' :
  3 <= pixel_width fb -> x < x' -> 0 <= k < 3 -> 0 <= k' < 3 ->
  x * pixel_width fb + k < x' * pixel_width fb + k'.
Proof.
  intros Hp Hx Hk Hk'. assert ((x + 1) * pixel_width fb <= x' * pixel_width fb) by (apply Z.mul_le_mono_nonneg_r; lia). lia.
Qed.

(** The bytes of the pixels [lo <= x < hi] of the line at [line] are the
    colour's, all others are as before. *)
Definition painted (fb : Framebuffer) (line lo hi rgb : Z) (m m' : pixels) : Prop :=
  (forall x k, lo <= x < hi -> x < fb_width fb -> 0 <= k < 3 ->
     m' !! (line + x * pixel_width fb + k) = Some (rgb_byte rgb k)) /\
  (forall a, (forall x k, lo <= x < hi -> x < fb_width fb -> 0 <= k < 3 -> a <> line + x * pixel_width fb + k) ->
     m' !! a = m !! a).

Lemma columns_spec fb line stop rgb n : forall fuel j m,
  fb_ok fb -> 0 <= line -> line + pitch fb < 2 ^ 32 -> 0 <= j -> stop <= 65535 -> stop - j <= Z.of_nat n ->
  (n < fuel)%nat ->
  exists m', columns fuel fb line j stop rgb m = Ret m' /\ painted fb line j stop rgb m m'.
Proof.
  induction n as [|n IH]; intros fuel j m Hfb Hline Hlp Hj Hstop Hn Hf; (destruct fuel as [|fuel]; [lia|]); cbn [columns].
  - rewrite (proj2 (Z.ltb_ge _ _)) by lia. exists m. split; [done|]. split; [intros; lia|done].
  - destruct (Z.ltb_spec j stop) as [Hlt|Hge].
    2: { exists m. split; [done|]. split; [intros; lia|done]. }
    rewrite wrap_small by lia. destruct (Z.leb_spec (fb_width fb) j) as [Hw|Hw].
    + destruct (IH fuel (j + 1) m) as (m' & -> & Hin & Hout); [done|lia..|]. exists m'. split; [done|]. split.
      * intros x k Hx Hxw. lia.
      * intros a Ha. apply Hout. intros x k Hx Hxw Hk. apply Ha; lia.
    + destruct (fo_width _ Hfb) as [_ Hpw]. pose proof (fo_pixel _ Hfb) as Hp.
      assert (j * pixel_width fb + pixel_width fb <= pitch fb) as Hjp.
      { replace (j * pixel_width fb + pixel_width fb) with ((j + 1) * pixel_width fb) by lia.
        transitivity (fb_width fb * pixel_width fb); [apply Z.mul_le_mono_nonneg_r; lia|done]. }
      assert (0 <= j * pixel_width fb) by (apply Z.mul_nonneg_nonneg; lia).
      pose proof (fo_line _ Hfb).
      assert (forall k, 0 <= k < 3 -> u64 (line + u32 (u32 (j * pixel_width fb) + k)) = line + j * pixel_width fb + k) as Ho.
      { intros k Hk. rewrite (wrap_small 32 (j * _)), (wrap_small 32), (wrap_small 64) by lia. lia. }
      cbv zeta. rewrite !Ho by lia.
      match goal with |- context [columns fuel fb line (j + 1) stop rgb ?m1] => set (m1' := m1) end.
      destruct (IH fuel (j + 1) m1') as (m' & -> & Hin & Hout); [done|lia..|]. exists m'. split; [done|]. split.
      * intros x k Hx Hxw Hk. destruct (decide (x = j)) as [->|Hxj]; [|apply Hin; lia].
        rewrite Hout.
        2: { intros x' k' Hx' _ Hk'. pose proof (pixel_order fb j x' k k' ltac:(lia) ltac:(lia) Hk Hk'). lia. }
        subst m1'. unfold rgb_byte. assert (k = 0 \/ k = 1 \/ k = 2) as [-> | [-> | ->]] by lia.
        -- rewrite !lookup_insert_ne, lookup_insert_eq by lia. done.
        -- rewrite lookup_insert_ne, lookup_insert_eq by lia. done.
        -- by rewrite lookup_insert_eq.
      * intros a Ha. rewrite Hout by (intros x k Hx Hxw Hk; apply Ha; lia). subst m1'.
        rewrite !lookup_insert_ne; [done|..]; apply not_eq_sym, Ha; lia.
Qed.

(** The pixels of the rectangle that are on the screen, down from line [i]. *)
Definition filled (fb : Framebuffer) (i stop x hi rgb : Z) (m m' : pixels) : Prop :=
  (forall px py k, x <= px < hi -> i <= py < stop -> px < fb_width fb -> py < fb_height fb -> 0 <= k < 3 ->
     m' !! offset fb px py k = Some (rgb_byte rgb k)) /\
  (forall a, (forall px py k, x <= px < hi -> i <= py < stop -> px < fb_width fb -> py < fb_height fb -> 0 <= k < 3 ->
       a <> offset fb px py k) -> m' !! a = m !! a).

Lemma line_order fb px px' py py' k k' :
  fb_ok fb -> 0 <= px < fb_width fb -> 0 <= px' < fb_width fb -> 0 <= k < 3 -> 0 <= k' < 3 -> py < py' ->
  offset fb px py k < offset fb px' py' k'.
Proof.
  intros Hfb Hx Hx' Hk Hk' Hy. unfold offset. destruct (fo_width _ Hfb) as [_ Hpw]. pose proof (fo_pixel _ Hfb).
  pose proof (pixel_order fb px (fb_width fb) k 0 ltac:(lia) ltac:(lia) Hk ltac:(lia)).
  assert (0 <= px' * pixel_width fb) by (apply Z.mul_nonneg_nonneg; lia).
  assert (pitch fb * (py + 1) <= pitch fb * py') by (apply Z.mul_le_mono_nonneg_l; lia). lia.
Qed.

Lemma rows_spec fb stop x w rgb n : forall fuel i m,
  fb_ok fb -> 0 <= x -> 0 <= w -> w + x <= 65535 -> 0 <= i -> stop <= 65535 -> stop - i <= Z.of_nat n -> (n < fuel)%nat ->
  exists m', rows fuel fb i stop x w rgb m = Ret m' /\ filled fb i stop x (w + x) rgb m m'.
Proof.
  induction n as [|n IH]; intros fuel i m Hfb Hx Hw Hwx Hi Hstop Hn Hf; (destruct fuel as [|fuel]; [lia|]); cbn [rows].
  - rewrite (proj2 (Z.ltb_ge _ _)) by lia. exists m. split; [done|]. split; [intros; lia|done].
  - destruct (Z.ltb_spec i stop) as [Hlt|Hge].
    2: { exists m. split; [done|]. split; [intros; lia|done]. }
    rewrite wrap_small by lia. destruct (Z.leb_spec (fb_height fb) i) as [Hh|Hh]; ored.
    + destruct (IH fuel (i + 1) m) as (m' & -> & Hin & Hout); [done|lia..|]. exists m'. split; [done|]. split.
      * intros px py k Hpx Hpy Hxw Hyh. lia.
      * intros a Ha. apply Hout. intros px py k Hpx Hpy Hxw Hyh Hk. apply Ha; lia.
    + destruct (fo_width _ Hfb) as [Hw0 Hpw]. pose proof (fo_pixel _ Hfb). destruct (fo_size _ Hfb) as [Hh0 Hsz].
      assert (0 <= pitch fb) as Hp0 by (assert (0 <= fb_width fb * pixel_width fb) by (apply Z.mul_nonneg_nonneg; lia); lia).
      assert (pitch fb * i + pitch fb < 2 ^ 32).
      { replace (pitch fb * i + pitch fb) with (pitch fb * (i + 1)) by lia.
        eapply Z.le_lt_trans; [apply Z.mul_le_mono_nonneg_l; [done|]|exact Hsz]. lia. }
      assert (0 <= pitch fb * i) by (apply Z.mul_nonneg_nonneg; lia).
      rewrite (wrap_small 32) by lia.
      destruct (columns_spec fb (pitch fb * i) (w + x) rgb (Z.to_nat 65536) turns x m Hfb) as (m1 & -> & Hin1 & Hout1);
        [lia|lia|lia|lia|lia|unfold turns; lia|]. ored.
      destruct (IH fuel (i + 1) m1) as (m' & -> & Hin & Hout); [done|lia..|]. exists m'. split; [done|]. split.
      * intros px py k Hpx Hpy Hxw Hyh Hk. destruct (decide (py = i)) as [->|Hpi]; [|apply Hin; lia].
        rewrite Hout; [by apply Hin1|]. intros px' py' k' Hpx' Hpy' Hxw' Hyh' Hk'.
        pose proof (line_order fb px px' i py' k k' Hfb ltac:(lia) ltac:(lia) Hk Hk' ltac:(lia)). lia.
      * intros a Ha. rewrite Hout by (intros px py k Hpx Hpy Hxw Hyh Hk; apply Ha; lia).
        apply Hout1. intros px k Hpx Hxw Hk. apply (Ha px i k); lia.
Qed.

(** Filling a rectangle whose edges fit 16 bits always ends: the pixels of
    the rectangle that are on the screen get the colour, whatever part of it
    lies outside, and no other byte of memory changes. *)
Theorem fill_rect_fills fb x y w h rgb m :
  fb_ok fb -> 0 <= x -> 0 <= y -> 0 <= w -> 0 <= h -> w + x <= 65535 -> h + y <= 65535 ->
  exists m', fill_rect fb x y w h rgb m = Ret m' /\
    (forall px py k, x <= px < w + x -> y <= py < h + y -> px < fb_width fb -> py < fb_height fb -> 0 <= k < 3 ->
       m' !! offset fb px py k = Some (rgb_byte rgb k)) /\
    (forall a, (forall px py k, x <= px < w + x -> y <= py < h + y -> px < fb_width fb -> py < fb_height fb -> 0 <= k < 3 ->
         a <> offset fb px py k) -> m' !! a = m !! a).
Proof.
  intros Hfb Hx Hy Hw Hh Hwx Hhy. apply (rows_spec fb (h + y) x w rgb (Z.to_nat 65536) turns y m Hfb); try lia. unfold turns. lia.
Qed.

Lemma fill_rect_returns fb x y w h rgb m :
  fb_ok fb -> 0 <= x -> 0 <= y -> 0 <= w -> 0 <= h -> w + x <= 65535 -> h + y <= 65535 ->
  exists m', fill_rect fb x y w h rgb m = Ret m'.
Proof.
  intros Hfb Hx Hy Hw Hh Hwx Hhy.
  destruct (rows_spec fb (h + y) x w rgb (Z.to_nat 65536) turns y m Hfb) as (m' & E & _); try lia; [unfold turns; lia|].
  by exists m'.
Qed.

(** With a glyph for every byte asked for, a character is always drawn. *)
Lemma draw_psf_char_returns font font_byte fb c cx cy ox oy f b m :
  (forall a, is_Some (font_byte a)) -> exists m', draw_psf_char font font_byte fb c cx cy ox oy f b m = Ret m'.
Proof.
  intros Hf. unfold draw_psf_char. set (glyph := header_size font + _). set (w := u32 _).
  clearbody glyph w. revert glyph w m. induction (Z.to_nat (glyph_height font)) as [|n IH]; intros glyph w m; [by exists m|].
  cbn [draw_rows]. destruct (Hf glyph) as [x ->]. ored. apply IH.
Qed.

(** ** A small screen *)
Definition fb0 : Framebuffer := mkFramebuffer 0 4 3 20 4.

Lemma fb0_ok : fb_ok fb0.
Proof. split; cbn; lia. Qed.

Lemma fill_rect_fills_witness :
  exists m', fill_rect fb0 2 1 9 1 0x102030 ∅ = Ret m' /\ m' !! offset fb0 3 1 0 = Some 0x30 /\ m' !! 0 = None.
Proof.
  destruct (fill_rect_fills fb0 2 1 9 1 0x102030 ∅ fb0_ok) as (m' & H1 & H2 & H3); [lia..|].
  exists m'. split; [exact H1|]. split.
  - rewrite (H2 3 1 0); [reflexivity|lia|lia|cbn; lia|cbn; lia|lia].
  - rewrite H3; [apply lookup_empty|]. unfold offset. cbn [fb0 pitch pixel_width fb_width fb_height]. lia.
Defined.

(** An edge beyond 16 bits is never reached. *)
Example fill_rect_hangs : fill_rect fb0 0 65530 1 6 0 ∅ = Diverge.
Proof. vm_compute. reflexivity. Qed.

(** [put_pixel] lets the column and the line after the last through. *)
Example put_pixel_past_the_edge : put_pixel fb0 4 0 0xFF ∅ !! offset fb0 4 0 0 = Some 0xFF.
Proof. reflexivity. Qed.
