(* ===== verification/Squares.v ===== *)
(** * sched/sched.cpp: the two kernel tasks that draw a bouncing square

    [test_task_1] and [test_task_2] are one loop with different starts and
    colours; the greeting they print is left out, and a round ends at [hlt]
    only for the scheduler to take over. *)
From S2P Require Import Prelude Framebuffer.

Record square := mkSquare { sq_x : Z; sq_y : Z; old_x : Z; old_y : Z; x_inc : bool; y_inc : bool }.

(** Where the loop has [x] and [x_inc] next, turning at [lo] and before [hi]. *)
Definition bounce (lo hi v : Z) (inc : bool) : Z * bool :=
  let v := if inc then v + 1 else v - 1 in
  let inc := if hi <=? v + 16 then false else inc in
  (v, if v <=? lo then true else inc).

(** One turn of the loop. *)
Definition draw_round (fb : Framebuffer) (colour background : Z) (q : square) (m : pixels) : outcome (square * pixels) :=
  m ← fill_rect fb (u16 (sq_x q)) (u16 (sq_y q)) 16 16 colour m;
  let '(x, xi) := bounce (fb_width fb / 2) (fb_width fb) (sq_x q) (x_inc q) in
  let '(y, yi) := bounce 0 (fb_height fb) (sq_y q) (y_inc q) in
  m ← fill_rect fb (u16 (old_x q)) (u16 (old_y q)) 16 16 background m;
  Ret (mkSquare x y x y xi yi, m).

Definition start_1 (fb : Framebuffer) : square :=
  mkSquare (fb_width fb / 2) 0 (fb_width fb / 2) 0 true true.
Definition start_2 (fb : Framebuffer) : square :=
  mkSquare (fb_width fb) (fb_height fb) (fb_width fb) (fb_height fb) false false.

Fixpoint draw_rounds (n : nat) (fb : Framebuffer) (colour background : Z) (q : square) (m : pixels) : outcome (square * pixels) :=
  match n with
  | O => Ret (q, m)
  | S n => '(q, m) ← draw_round fb colour background q m; draw_rounds n fb colour background q m
  end.

(** [n] rounds of either task *)
Definition test_task_1 (n : nat) (fb : Framebuffer) (m : pixels) := draw_rounds n fb 0x0000FF 0x6565CE (start_1 fb) m.
Definition test_task_2 (n : nat) (fb : Framebuffer) (m : pixels) := draw_rounds n fb 0xFF0000 0xBC5151 (start_2 fb) m.

(** ** Where the squares are *)

(** A coordinate that bounces between [lo] and [hi]. *)
Definition between (lo hi v : Z) (inc : bool) : Prop :=
  lo <= v <= Z.max (lo + 1) hi /\ if inc then v = lo \/ v + 16 < hi else lo < v.

Lemma bounce_between lo hi v inc :
  between lo hi v inc -> let '(v', inc') := bounce lo hi v inc in between lo hi v' inc'.
Proof.
  unfold between, bounce. intros [Hv Hi]. destruct inc.
  - destruct (Z.leb_spec hi (v + 1 + 16)), (Z.leb_spec (v + 1) lo); lia.
  - destruct (Z.leb_spec hi (v - 1 + 16)), (Z.leb_spec (v - 1) lo); lia.
Qed.

Record on_right (fb : Framebuffer) (q : square) : Prop := {
  or_x : between (fb_width fb / 2) (fb_width fb) (sq_x q) (x_inc q);
  or_y : between 0 (fb_height fb) (sq_y q) (y_inc q);
  or_old : fb_width fb / 2 <= old_x q <= Z.max (fb_width fb / 2 + 1) (fb_width fb) /\ 0 <= old_y q <= Z.max 1 (fb_height fb) }.

(** Only bytes of pixels in the right half of the screen differ. *)
Definition same_left (fb : Framebuffer) (m m' : pixels) : Prop :=
  forall a, (forall px py k, fb_width fb / 2 <= px < fb_width fb -> 0 <= py < fb_height fb -> 0 <= k < 3 ->
    a <> offset fb px py k) -> m' !! a = m !! a.

Lemma same_left_trans fb m1 m2 m3 : same_left fb m1 m2 -> same_left fb m2 m3 -> same_left fb m1 m3.
Proof. intros H1 H2 a Ha. by rewrite H2, H1. Qed.

Section squares.
Context (fb : Framebuffer) (Hfb : fb_ok fb) (small : 0 < fb_width fb <= 65519 /\ 0 < fb_height fb <= 65519).

Lemma half_width : 0 <= fb_width fb / 2 < fb_width fb.
Proof. split; [apply Z.div_pos; lia|apply Z.div_lt; lia]. Qed.

Lemma square_drawn x y rgb m :
  fb_width fb / 2 <= x <= Z.max (fb_width fb / 2 + 1) (fb_width fb) -> 0 <= y <= Z.max 1 (fb_height fb) ->
  exists m', fill_rect fb (u16 x) (u16 y) 16 16 rgb m = Ret m' /\ same_left fb m m'.
Proof.
  intros Hx Hy. pose proof half_width. rewrite !wrap_small by lia.
  destruct (fill_rect_fills fb x y 16 16 rgb m Hfb) as (m' & E & _ & Hout); [lia..|].
  exists m'. split; [done|]. intros a Ha. apply Hout. intros px py k Hpx Hpy Hw Hh Hk. apply Ha; lia.
Qed.

Lemma draw_round_spec colour background q m :
  on_right fb q ->
  exists q' m', draw_round fb colour background q m = Ret (q', m') /\ on_right fb q' /\ same_left fb m m'.
Proof.
  intros [Hx Hy [Hox Hoy]]. unfold draw_round.
  destruct (square_drawn (sq_x q) (sq_y q) colour m) as (m1 & -> & H1); [apply Hx|apply Hy|]. ored.
  pose proof (bounce_between _ _ _ _ Hx) as Hbx. pose proof (bounce_between _ _ _ _ Hy) as Hby.
  destruct (bounce _ _ (sq_x q) _) as [x xi], (bounce _ _ (sq_y q) _) as [y yi].
  destruct (square_drawn (old_x q) (old_y q) background m1) as (m2 & -> & H2); [done|done|]. ored.
  eexists _, m2. split; [done|]. split; [|by eapply same_left_trans].
  split; [done|done|]. split; [apply Hbx|apply Hby].
Qed.

Lemma draw_rounds_spec colour background n : forall q m,
  on_right fb q ->
  exists q' m', draw_rounds n fb colour background q m = Ret (q', m') /\ on_right fb q' /\ same_left fb m m'.
Proof.
  induction n as [|n IH]; intros q m Hq; cbn [draw_rounds]; [by exists q, m|].
  destruct (draw_round_spec colour background q m Hq) as (q1 & m1 & -> & Hq1 & H1). ored.
  destruct (IH q1 m1 Hq1) as (q' & m' & E & Hq' & H'). exists q', m'. split; [done|]. split; [done|]. by eapply same_left_trans.
Qed.

(** The squares keep to their half of the screen: however long the two
    tasks run, every rectangle is drawn to its end, its corner stays on the
    screen's right half and its bottom edge, and no byte changes but those of
    pixels in the right half, so that the terminal's half is left alone. *)
Theorem squares_keep_right n m :
  exists q1 m1 q2 m2, test_task_1 n fb m = Ret (q1, m1) /\ test_task_2 n fb m1 = Ret (q2, m2) /\
    on_right fb q1 /\ on_right fb q2 /\ same_left fb m m2.
Proof.
  pose proof half_width.
  destruct (draw_rounds_spec 0x0000FF 0x6565CE n (start_1 fb) m) as (q1 & m1 & E1 & H1 & S1).
  { split; cbn; unfold between; lia. }
  destruct (draw_rounds_spec 0xFF0000 0xBC5151 n (start_2 fb) m1) as (q2 & m2 & E2 & H2 & S2).
  { split; cbn; unfold between; lia. }
  exists q1, m1, q2, m2. split; [done|]. split; [done|]. split; [done|]. split; [done|]. by eapply same_left_trans.
Qed.
End squares.

(** ** A small screen *)
Definition fb1 : Framebuffer := mkFramebuffer 0 40 20 160 4.

Lemma squares_keep_right_witness :
  exists q1 m1 q2 m2, test_task_1 2 fb1 ∅ = Ret (q1, m1) /\ test_task_2 2 fb1 m1 = Ret (q2, m2) /\ m2 !! offset fb1 3 2 0 = None.
Proof.
  destruct (squares_keep_right fb1) with (n := 2%nat) (m := ∅ : pixels) as (q1 & m1 & q2 & m2 & E1 & E2 & _ & _ & Hs).
  - split; cbn; lia.
  - cbn. lia.
  - exists q1, m1, q2, m2. split; [exact E1|]. split; [exact E2|]. rewrite Hs; [apply lookup_empty|].
    unfold offset. cbn [fb1 pitch pixel_width fb_width fb_height]. intros px py k Hpx Hpy Hk.
    assert (20 <= px < 40) by (vm_compute (40 / 2) in Hpx; lia). lia.
Defined.
