(* ===== verification/Terminal.v ===== *)
(** * gfx/terminal.cpp: the text terminal

    The fields the constructor sets once are a record of their own.  Drawing is
    known by two operations on a screen of any kind: the ones of file
    Framebuffer are an instance. *)
From S2P Require Import Prelude CString Framebuffer.

Record Geometry := mkGeometry {
  x : Z; y : Z; width : Z; height : Z;
  width_chars : Z; height_chars : Z;
  actual_width : Z; actual_height : Z; actual_x : Z; actual_y : Z;
  fg : Z; bg : Z; border : Z;
  font_width : Z; font_height : Z
}.

Record Terminal := mkTerminal {
  buffer : list Z;
  cursor_x : Z; cursor_y : Z;
  old_cursor_x : Z; old_cursor_y : Z;
  cursor_needs_undrawing : bool
}.

Definition padding : Z := 4.

(** The constructor's sizes for a screen. *)
Definition geometry (fb_width fb_height : Z) : Geometry :=
  let width := fb_width / 2 in
  let height := fb_height in
  let aw := u64 (width - padding - padding) in
  let ah := u64 (height - padding - padding) in
  mkGeometry 0 0 width height (aw / 8) (ah / 16) aw ah padding padding 0xFCFCFC 0x232627 0x232627 8 16.

Section Terminal.
Context {S : Type}.
Context (draw_char : Z -> Z -> Z -> Z -> Z -> Z -> Z -> S -> outcome S).
Context (fill_rect : Z -> Z -> Z -> Z -> Z -> S -> outcome S).
Context (g : Geometry).

Definition set_buffer (b : list Z) (t : Terminal) : Terminal :=
  mkTerminal b (cursor_x t) (cursor_y t) (old_cursor_x t) (old_cursor_y t) (cursor_needs_undrawing t).
Definition set_cursor (cx cy : Z) (t : Terminal) : Terminal :=
  mkTerminal (buffer t) cx cy (old_cursor_x t) (old_cursor_y t) (cursor_needs_undrawing t).
Definition set_undrawing (b : bool) (t : Terminal) : Terminal :=
  mkTerminal (buffer t) (cursor_x t) (cursor_y t) (old_cursor_x t) (old_cursor_y t) b.

Definition cell (c_x c_y : Z) : Z := u64 (c_y * width_chars g + c_x).

Definition set_char_at (c_x c_y c : Z) (ts : Terminal * S) : outcome (Terminal * S) :=
  let '(t, s) := ts in
  old ← of_option (zlookup (buffer t) (cell c_x c_y));
  if old =? c then Ret (t, s)
  else
    s ← draw_char (u32 (i8 c)) (u16 c_x) (u16 c_y) (u16 (actual_x g)) (u16 (actual_y g)) (fg g) (bg g) s;
    Ret (set_undrawing false (set_buffer (zinsert (cell c_x c_y) c (buffer t)) t), s).

Definition set_char_at_cursor (c : Z) (ts : Terminal * S) : outcome (Terminal * S) :=
  set_char_at (cursor_x ts.1) (cursor_y ts.1) c ts.

Definition get_char_at (c_x c_y : Z) (t : Terminal) : outcome Z := of_option (zlookup (buffer t) (cell c_x c_y)).

Definition scroll (ts : Terminal * S) : outcome (Terminal * S) :=
  ts ← for_range (Z.to_nat (u64 (height_chars g - 1))) 0
    (fun y ts => for_range (Z.to_nat (width_chars g)) 0
       (fun x ts => c ← get_char_at x (y + 1) ts.1; set_char_at x y c ts) ts) ts;
  '(t, s) ← for_range (Z.to_nat (width_chars g)) 0 (fun x ts => set_char_at x (u64 (height_chars g - 1)) 32 ts) ts;
  Ret (set_undrawing true t, s).

(** The bar at a position in characters. *)
Definition fill_bar (cx cy rgb : Z) (s : S) : outcome S :=
  fill_rect (u16 (cx * font_width g + 1 + actual_x g)) (u16 (cy * font_height g + actual_y g)) 1 (u16 (font_height g)) rgb s.

Definition redraw_cursor (ts : Terminal * S) : outcome (Terminal * S) :=
  let '(t, s) := ts in
  s ← (if cursor_needs_undrawing t then fill_bar (old_cursor_x t) (old_cursor_y t) (bg g) s else Ret s);
  s ← fill_bar (cursor_x t) (cursor_y t) (fg g) s;
  Ret (mkTerminal (buffer t) (cursor_x t) (cursor_y t) (cursor_x t) (cursor_y t) (cursor_needs_undrawing t), s).

(** The constructor; the object is static, so that the fields it does not set are 0. *)
Definition new_Terminal (s : S) : outcome (Terminal * S) :=
  let t := mkTerminal (replicate (Z.to_nat (u64 (width_chars g * height_chars g))) 32) 0 0 0 0 false in
  let fill a b w h rgb := fill_rect (u16 a) (u16 b) (u16 w) (u16 h) rgb in
  s ← fill (actual_x g) (actual_y g) (actual_width g) (actual_height g) (bg g) s;
  s ← fill (x g) (y g) (width g) padding (border g) s;
  s ← fill (x g) (height g - padding) (width g) padding (border g) s;
  s ← fill (x g) padding padding (actual_height g) (border g) s;
  s ← fill (width g - padding) padding padding (actual_height g) (border g) s;
  redraw_cursor (t, s).

Definition backspace (ts : Terminal * S) : outcome (Terminal * S) :=
  let '(t, s) := ts in
  if 0 <? cursor_x t then
    '(t, s) ← set_char_at_cursor 32 (set_cursor (cursor_x t - 1) (cursor_y t) t, s);
    redraw_cursor (set_undrawing true t, s)
  else Ret (set_undrawing false t, s).

(** What [write_char] does after the switch. *)
Definition settle (ts : Terminal * S) : outcome (Terminal * S) :=
  let '(t, s) := ts in
  let t := if width_chars g <=? cursor_x t then set_cursor 0 (u64 (cursor_y t + 1)) t else t in
  '(t, s) ← (if height_chars g <=? cursor_y t then
               '(t, s) ← scroll (t, s); Ret (set_cursor (cursor_x t) (u64 (cursor_y t - 1)) t, s)
             else Ret (t, s));
  '(t, s) ← redraw_cursor (t, s);
  Ret (set_undrawing true t, s).

Definition write_char (c : Z) (ts : Terminal * S) : outcome (Terminal * S) :=
  let '(t, s) := ts in
  if c =? 8 then backspace (t, s)
  else if c =? 13 then settle (set_cursor 0 (cursor_y t) t, s)
  else if c =? 10 then settle (set_undrawing true (set_cursor 0 (u64 (cursor_y t + 1)) t), s)
  else
    '(t, s) ← set_char_at_cursor c (t, s);
    settle (set_cursor (u64 (cursor_x t + 1)) (cursor_y t) t, s).

Fixpoint write_chars (cs : list Z) (ts : Terminal * S) : outcome (Terminal * S) :=
  match cs with [] => Ret ts | c :: cs => ts ← write_char c ts; write_chars cs ts end.

(** ** What drawing is asked to do *)
Record geometry_ok : Prop := {
  go_chars : 1 <= width_chars g /\ 1 <= height_chars g;
  go_font : 0 <= font_width g /\ 0 <= font_height g /\ 0 <= actual_x g /\ 0 <= actual_y g;
  go_fits : width_chars g * font_width g + actual_x g + 2 <= 65535 /\
            height_chars g * font_height g + actual_y g <= 65535;
  go_cells : width_chars g * height_chars g < 2 ^ 32
}.

Context (Hg : geometry_ok).
Context (draw_returns : forall c cx cy ox oy f b s, exists s', draw_char c cx cy ox oy f b s = Ret s').
Context (fill_returns : forall x y w h rgb s, 0 <= x -> 0 <= y -> 0 <= w -> 0 <= h -> w + x <= 65535 -> h + y <= 65535 ->
  exists s', fill_rect x y w h rgb s = Ret s').

Abbreviation wc := (width_chars g).
Abbreviation hc := (height_chars g).

(** The parts of the terminal's state that drawing a character leaves alone. *)
Definition same_cursor (t t' : Terminal) : Prop :=
  cursor_x t' = cursor_x t /\ cursor_y t' = cursor_y t /\
  old_cursor_x t' = old_cursor_x t /\ old_cursor_y t' = old_cursor_y t.

Lemma same_cursor_trans t1 t2 t3 : same_cursor t1 t2 -> same_cursor t2 t3 -> same_cursor t1 t3.
Proof. unfold same_cursor. intros (?&?&?&?) (?&?&?&?). split_and!; congruence. Qed.

Definition sized (b : list Z) : Prop := Z.of_nat (length b) = wc * hc.

Lemma cell_spec cx cy : 0 <= cx < wc -> 0 <= cy < hc -> cell cx cy = cy * wc + cx /\ 0 <= cy * wc + cx < wc * hc.
Proof.
  intros Hx Hy. destruct (go_chars Hg). pose proof (go_cells Hg). assert (0 <= cy * wc) by (apply Z.mul_nonneg_nonneg; lia).
  assert ((cy + 1) * wc <= hc * wc) by (apply Z.mul_le_mono_nonneg_r; lia).
  split; [|lia]. unfold cell. apply wrap_small. lia.
Qed.

Lemma set_char_at_spec cx cy c t s :
  sized (buffer t) -> 0 <= cx < wc -> 0 <= cy < hc ->
  exists t' s', set_char_at cx cy c (t, s) = Ret (t', s') /\
    buffer t' = zinsert (cy * wc + cx) c (buffer t) /\ same_cursor t t'.
Proof.
  intros Hb Hx Hy. destruct (cell_spec cx cy Hx Hy) as [Hc Hr]. unfold set_char_at. rewrite Hc.
  destruct (zlookup_is_Some (buffer t) (cy * wc + cx)) as [old Hold]; [unfold sized in Hb; lia|].
  rewrite Hold. ored. destruct (Z.eqb_spec old c) as [->|Hne].
  - exists t, s. split; [done|]. split; [|done]. unfold zlookup in Hold. rewrite bool_decide_true in Hold by lia.
    unfold zinsert. by rewrite list_insert_id.
  - destruct (draw_returns (u32 (i8 c)) (u16 cx) (u16 cy) (u16 (actual_x g)) (u16 (actual_y g)) (fg g) (bg g) s) as [s' ->].
    ored. eexists _, s'. split; [done|]. done.
Qed.

(** ** Scrolling *)

(** The first [n] cells hold what is a line further in [b0], the others what
    they held. *)
Definition shifted (b0 b : list Z) (n : Z) : Prop :=
  sized b /\ forall k, 0 <= k -> zlookup b k = if k <? n then zlookup b0 (k + wc) else zlookup b0 k.

Lemma shifted_step b0 b n c :
  shifted b0 b n -> 0 <= n < wc * hc -> zlookup b0 (n + wc) = Some c -> shifted b0 (zinsert n c b) (n + 1).
Proof.
  intros [Hs Hb] Hn Hc. split; [unfold sized in *; by rewrite length_zinsert|]. intros k Hk.
  destruct (decide (k = n)) as [->|Hkn].
  - rewrite zlookup_zinsert_eq by (unfold sized in Hs; lia). by rewrite (proj2 (Z.ltb_lt _ _)) by lia.
  - rewrite zlookup_zinsert_ne, Hb by lia. destruct (Z.ltb_spec k n), (Z.ltb_spec k (n + 1)); done || lia.
Qed.

Lemma scroll_row b0 y t s :
  0 <= y < hc - 1 -> sized b0 -> shifted b0 (buffer t) (y * wc) ->
  exists t' s', for_range (Z.to_nat wc) 0
       (fun x ts => c ← get_char_at x (y + 1) ts.1; set_char_at x y c ts) (t, s) = Ret (t', s') /\
    shifted b0 (buffer t') ((y + 1) * wc) /\ same_cursor t t'.
Proof.
  intros Hy Hb0 Hsh. destruct (go_chars Hg) as [Hw Hh].
  destruct (for_range_inv (fun x (ts : Terminal * S) => shifted b0 (buffer ts.1) (y * wc + x) /\ same_cursor t ts.1)
    (Z.to_nat wc) 0 (fun x ts => c ← get_char_at x (y + 1) ts.1; set_char_at x y c ts) (t, s))
    as ([t' s'] & E & Hsh' & Hc').
  - cbn [fst]. by rewrite Z.add_0_r.
  - intros x [t1 s1] Hx [Hsh1 Hc1]. cbn [fst] in *. destruct (cell_spec x (y + 1)) as [Hcell Hr]; [lia|lia|].
    destruct (cell_spec x y) as [_ Hr']; [lia|lia|]. unfold get_char_at. rewrite Hcell.
    destruct Hsh1 as [Hs1 Hb1]. rewrite Hb1 by lia. rewrite (proj2 (Z.ltb_ge _ _)) by lia.
    destruct (zlookup_is_Some b0 ((y + 1) * wc + x)) as [c Hc]; [unfold sized in Hb0; lia|]. rewrite Hc. ored.
    destruct (set_char_at_spec x y c t1 s1 Hs1) as (t2 & s2 & -> & Hbuf & Hc2); [lia|lia|].
    eexists. split; [done|]. cbn [fst]. split; [|by eapply same_cursor_trans]. rewrite Hbuf, Z.add_assoc.
    apply shifted_step; [done|lia|]. rewrite <- Hc. f_equal. lia.
  - cbn [fst] in *. exists t', s'. split; [exact E|]. split; [|done].
    by replace ((y + 1) * wc) with (y * wc + (0 + Z.of_nat (Z.to_nat wc))) by lia.
Qed.

Lemma blank_row b t s :
  buffer t = b -> sized b ->
  exists t' s', for_range (Z.to_nat wc) 0 (fun x ts => set_char_at x (hc - 1) 32 ts) (t, s) = Ret (t', s') /\
    same_cursor t t' /\ sized (buffer t') /\
    forall k, 0 <= k < wc * hc -> zlookup (buffer t') k = if k <? (hc - 1) * wc then zlookup b k else Some 32.
Proof.
  intros Eb Hb. destruct (go_chars Hg) as [Hw Hh].
  destruct (for_range_inv (fun x (ts : Terminal * S) => same_cursor t ts.1 /\ sized (buffer ts.1) /\
      forall k, 0 <= k < (hc - 1) * wc + x -> zlookup (buffer ts.1) k = if k <? (hc - 1) * wc then zlookup b k else Some 32)
    (Z.to_nat wc) 0 (fun x ts => set_char_at x (hc - 1) 32 ts) (t, s)) as ([t' s'] & E & Hc & Hs & Hk).
  - cbn [fst]. subst b. split; [done|]. split; [done|]. intros k Hk. by rewrite (proj2 (Z.ltb_lt _ _)) by lia.
  - intros x [t1 s1] Hx (Hc1 & Hs1 & Hk1). cbn [fst] in *.
    destruct (set_char_at_spec x (hc - 1) 32 t1 s1 Hs1) as (t2 & s2 & -> & Hbuf & Hc2); [lia|lia|].
    destruct (cell_spec x (hc - 1)) as [_ Hr]; [lia|lia|].
    eexists. split; [done|]. cbn [fst]. rewrite Hbuf. split; [by eapply same_cursor_trans|].
    split; [unfold sized in *; by rewrite length_zinsert|]. intros k Hk.
    destruct (decide (k = (hc - 1) * wc + x)) as [->|Hne].
    + rewrite zlookup_zinsert_eq by (unfold sized in Hs1; lia). by rewrite (proj2 (Z.ltb_ge _ _)) by lia.
    + rewrite zlookup_zinsert_ne by lia. apply Hk1. lia.
  - cbn [fst] in *. exists t', s'. split; [exact E|]. split; [done|]. split; [done|]. intros k Hk'. apply Hk. nia.
Qed.

(** Moving the lines up one by one, cell by cell, drops the first line. *)
Lemma scroll_spec t s :
  sized (buffer t) ->
  exists t' s', scroll (t, s) = Ret (t', s') /\ same_cursor t t' /\
    buffer t' = drop (Z.to_nat wc) (buffer t) ++ replicate (Z.to_nat wc) 32.
Proof.
  intros Hb. destruct (go_chars Hg) as [Hw Hh]. pose proof (go_cells Hg). unfold scroll.
  assert (hc <= wc * hc /\ wc <= wc * hc) as [? ?] by nia. rewrite !(wrap_small 64) by lia.
  destruct (for_range_inv (fun y (ts : Terminal * S) => shifted (buffer t) (buffer ts.1) (y * wc) /\ same_cursor t ts.1)
    (Z.to_nat (hc - 1)) 0
    (fun y ts => for_range (Z.to_nat wc) 0
       (fun x ts => c ← get_char_at x (y + 1) ts.1; set_char_at x y c ts) ts) (t, s))
    as ([t1 s1] & -> & [Hs1 Hb1] & Hc1).
  - cbn [fst]. split; [|done]. split; [done|]. intros k Hk. by rewrite (proj2 (Z.ltb_ge _ _)) by lia.
  - intros y [t1 s1] Hy [Hsh Hc]. cbn [fst] in *.
    destruct (scroll_row (buffer t) y t1 s1) as (t2 & s2 & -> & Hsh2 & Hc2); [lia|done|done|].
    exists (t2, s2). split; [done|]. split; [done|by eapply same_cursor_trans].
  - cbn [fst] in *. ored. rewrite Z.add_0_l, Z2Nat.id in Hb1 by lia. destruct (blank_row (buffer t1) t1 s1 eq_refl Hs1) as (t2 & s2 & -> & Hc2 & Hs2 & Hb2). ored.
    eexists _, s2. split; [done|]. split; [by eapply same_cursor_trans|]. cbn [buffer set_undrawing].
    unfold sized in *. apply zlookup_ext. intros k Hk. destruct (Z.lt_ge_cases k (wc * hc)) as [Hlt|Hge].
    + rewrite Hb2 by lia. unfold zlookup. rewrite !bool_decide_true by lia.
      destruct (Z.ltb_spec k ((hc - 1) * wc)).
      * specialize (Hb1 k Hk). rewrite (proj2 (Z.ltb_lt _ _)) in Hb1 by lia. unfold zlookup in Hb1.
        rewrite !bool_decide_true in Hb1 by lia. rewrite Hb1, lookup_app_l by (rewrite length_drop; lia).
        rewrite lookup_drop. f_equal. lia.
      * rewrite lookup_app_r by (rewrite length_drop; lia). symmetry. apply lookup_replicate. split; [done|].
        rewrite length_drop. lia.
    + rewrite !zlookup_None; [done|rewrite length_app, length_drop, length_replicate; lia|lia].
Qed.

(** ** The text on the screen *)

(** A line of the screen, filled up with blanks; the screen shows the last
    lines there are. *)
Definition pad_row (l : list Z) : list Z := l ++ replicate (Z.to_nat wc - length l) 32.
Definition last_rows (rows : list (list Z)) : list (list Z) := drop (length rows - Z.to_nat hc) rows.
Definition screen (rows : list (list Z)) : list Z :=
  concat (pad_row <$> last_rows rows) ++ replicate ((Z.to_nat hc - length (last_rows rows)) * Z.to_nat wc) 32.

(** What a character does to a text: the lines that are complete and the one
    being written.  A line that is full is complete. *)
Definition text_step (c : Z) (p : list (list Z) * list Z) : list (list Z) * list Z :=
  let '(hist, line) := p in
  if c =? 8 then (hist, removelast line)
  else if c =? 10 then (hist ++ [line], [])
  else if wc <=? Z.of_nat (length (line ++ [c])) then (hist ++ [line ++ [c]], []) else (hist, line ++ [c]).

(** The terminal shows the text. *)
Record shows (t : Terminal) (p : list (list Z) * list Z) : Prop := {
  sh_buffer : buffer t = screen (p.1 ++ [p.2]);
  sh_x : cursor_x t = Z.of_nat (length p.2) /\ cursor_x t < wc;
  sh_y : cursor_y t = Z.min (Z.of_nat (length p.1)) (hc - 1);
  sh_old : 0 <= old_cursor_x t < wc /\ 0 <= old_cursor_y t < hc;
  sh_rows : Forall (fun l => Z.of_nat (length l) <= wc) p.1
}.

Lemma length_pad_row l : Z.of_nat (length l) <= wc -> length (pad_row l) = Z.to_nat wc.
Proof. intros Hl. unfold pad_row. rewrite length_app, length_replicate. lia. Qed.

Lemma length_concat_pad rows :
  Forall (fun l => Z.of_nat (length l) <= wc) rows -> length (concat (pad_row <$> rows)) = (length rows * Z.to_nat wc)%nat.
Proof.
  induction 1 as [|l rows Hl _ IH]; [done|]. rewrite fmap_cons. cbn [concat length]. rewrite length_app, IH, length_pad_row by done. lia.
Qed.

Lemma Forall_last_rows P rows : Forall P rows -> Forall P (last_rows rows).
Proof. apply Forall_drop. Qed.

Lemma length_last_rows rows : length (last_rows rows) = Nat.min (length rows) (Z.to_nat hc).
Proof. unfold last_rows. rewrite length_drop. lia. Qed.

Lemma length_screen rows : Forall (fun l => Z.of_nat (length l) <= wc) rows -> sized (screen rows).
Proof.
  intros Hr. unfold sized, screen. rewrite length_app, length_replicate.
  rewrite length_concat_pad by (by apply Forall_last_rows). rewrite length_last_rows.
  destruct (go_chars Hg). rewrite <- Nat.mul_add_distr_r, Nat2Z.inj_mul. rewrite Z2Nat.id by lia. lia.
Qed.

(** The line being written in the screen. *)
Lemma screen_last hist :
  Forall (fun l => Z.of_nat (length l) <= wc) hist ->
  exists A B, (forall l, screen (hist ++ [l]) = A ++ pad_row l ++ B) /\
    Z.of_nat (length A) = Z.min (Z.of_nat (length hist)) (hc - 1) * wc.
Proof.
  intros Hr. destruct (go_chars Hg) as [Hw Hh].
  set (k := (length hist + 1 - Z.to_nat hc)%nat).
  exists (concat (pad_row <$> drop k hist)), (replicate ((Z.to_nat hc - (length hist - k + 1)) * Z.to_nat wc) 32). split.
  - intros l. unfold screen, last_rows. rewrite length_app. cbn [length]. fold k.
    rewrite drop_app_le by lia. rewrite fmap_app, concat_app. cbn [fmap list_fmap concat].
    rewrite app_nil_r, length_app, length_drop, <- app_assoc. done.
  - rewrite length_concat_pad, length_drop by (by apply Forall_drop). subst k. nia.
Qed.

Lemma zinsert_middle (A l B : list Z) c x i :
  i = Z.of_nat (length A + length l)%nat -> zinsert i c (A ++ (l ++ x :: B)) = A ++ (l ++ c :: B).
Proof.
  intros ->. unfold zinsert. rewrite Nat2Z.id, insert_app_r_alt by lia.
  replace (length A + length l - length A)%nat with (length l + 0)%nat by lia. by rewrite insert_app_r.
Qed.

Lemma screen_type hist line c :
  Forall (fun l => Z.of_nat (length l) <= wc) hist -> Z.of_nat (length line) < wc ->
  zinsert (Z.min (Z.of_nat (length hist)) (hc - 1) * wc + Z.of_nat (length line)) c (screen (hist ++ [line]))
  = screen (hist ++ [line ++ [c]]).
Proof.
  intros Hr Hl. destruct (screen_last hist Hr) as (A & B & HS & HA). rewrite !HS. unfold pad_row.
  rewrite length_app. cbn [length]. replace (Z.to_nat wc - length line)%nat with (Datatypes.S (Z.to_nat wc - (length line + 1))) by lia.
  rewrite replicate_S, <- !app_assoc. cbn [app]. apply zinsert_middle. lia.
Qed.

Lemma screen_erase hist line c :
  Forall (fun l => Z.of_nat (length l) <= wc) hist -> Z.of_nat (length (line ++ [c])) <= wc ->
  zinsert (Z.min (Z.of_nat (length hist)) (hc - 1) * wc + Z.of_nat (length line)) 32 (screen (hist ++ [line ++ [c]]))
  = screen (hist ++ [line]).
Proof.
  intros Hr Hl. destruct (screen_last hist Hr) as (A & B & HS & HA). rewrite !HS. unfold pad_row.
  rewrite length_app in *. cbn [length] in *.
  replace (Z.to_nat wc - length line)%nat with (Datatypes.S (Z.to_nat wc - (length line + 1))) by lia.
  rewrite replicate_S, <- !app_assoc. cbn [app]. apply zinsert_middle. lia.
Qed.

Lemma pad_row_nil : pad_row [] = replicate (Z.to_nat wc) 32.
Proof. unfold pad_row. cbn. by rewrite Nat.sub_0_r. Qed.

(** A new line where there is room, and where there is none. *)
Lemma screen_room rows : Z.of_nat (length rows) < hc -> screen (rows ++ [[]]) = screen rows.
Proof.
  intros Hr. unfold screen, last_rows. rewrite length_app. cbn [length].
  replace (length rows + 1 - Z.to_nat hc)%nat with 0%nat by lia. replace (length rows - Z.to_nat hc)%nat with 0%nat by lia.
  rewrite !drop_0, fmap_app, concat_app, length_app. cbn [fmap list_fmap concat length].
  rewrite app_nil_r, pad_row_nil, <- app_assoc, <- replicate_add. do 2 f_equal. nia.
Qed.

Lemma screen_scrolls rows :
  Forall (fun l => Z.of_nat (length l) <= wc) rows -> hc <= Z.of_nat (length rows) ->
  drop (Z.to_nat wc) (screen rows) ++ replicate (Z.to_nat wc) 32 = screen (rows ++ [[]]).
Proof.
  intros Hr Hl. destruct (go_chars Hg) as [Hw Hh].
  assert (exists l rest, last_rows rows = l :: rest) as (l & rest & E).
  { destruct (last_rows rows) as [|l rest] eqn:E; [|by exists l, rest].
    apply (f_equal length) in E. rewrite length_last_rows in E. cbn in E. lia. }
  assert (last_rows (rows ++ [[]]) = rest ++ [[]]) as E2.
  { unfold last_rows in *. rewrite length_app. cbn [length]. rewrite drop_app_le by lia.
    replace (length rows + 1 - Z.to_nat hc)%nat with (Datatypes.S (length rows - Z.to_nat hc)) by lia.
    f_equal. rewrite <- Nat.add_1_r, <- drop_drop, E. done. }
  pose proof (length_last_rows rows) as L. pose proof (length_last_rows (rows ++ [[]])) as L2.
  rewrite length_app in L2. cbn [length] in L2. unfold screen. rewrite L, L2, E, E2.
  replace (Z.to_nat hc - length rows `min` Z.to_nat hc)%nat with 0%nat by lia.
  replace (Z.to_nat hc - (length rows + 1) `min` Z.to_nat hc)%nat with 0%nat by lia.
  cbn [Nat.mul replicate]. rewrite !app_nil_r, fmap_cons, fmap_app, concat_app. cbn [concat fmap list_fmap].
  rewrite app_nil_r, pad_row_nil. f_equal.
  apply (Forall_last_rows _ _) in Hr. rewrite E in Hr. apply Forall_cons in Hr as [Hl0 _].
  rewrite <- (length_pad_row l Hl0). apply drop_app_length.
Qed.

(** ** Writing *)
Lemma fill_bar_returns cx cy rgb s :
  0 <= cx < wc -> 0 <= cy < hc -> exists s', fill_bar cx cy rgb s = Ret s'.
Proof.
  intros Hx Hy. destruct (go_font Hg) as (?&?&?&?), (go_fits Hg) as [Hf1 Hf2]. unfold fill_bar.
  assert (0 <= cx * font_width g) by (apply Z.mul_nonneg_nonneg; lia).
  assert (0 <= cy * font_height g) by (apply Z.mul_nonneg_nonneg; lia).
  assert ((cx + 1) * font_width g <= wc * font_width g) by (apply Z.mul_le_mono_nonneg_r; lia).
  assert ((cy + 1) * font_height g <= hc * font_height g) by (apply Z.mul_le_mono_nonneg_r; lia).
  rewrite !wrap_small by lia. apply fill_returns; lia.
Qed.

Lemma redraw_spec t s :
  0 <= cursor_x t < wc -> 0 <= cursor_y t < hc -> 0 <= old_cursor_x t < wc -> 0 <= old_cursor_y t < hc ->
  exists t' s', redraw_cursor (t, s) = Ret (t', s') /\ buffer t' = buffer t /\
    cursor_x t' = cursor_x t /\ cursor_y t' = cursor_y t /\ old_cursor_x t' = cursor_x t /\ old_cursor_y t' = cursor_y t.
Proof.
  intros Hx Hy Hox Hoy. unfold redraw_cursor.
  assert (exists s1, (if cursor_needs_undrawing t then fill_bar (old_cursor_x t) (old_cursor_y t) (bg g) s else Ret s) = Ret s1)
    as [s1 ->] by (destruct (cursor_needs_undrawing t); [by apply fill_bar_returns|by eexists]).
  ored. destruct (fill_bar_returns (cursor_x t) (cursor_y t) (fg g) s1) as [s2 ->]; [done|done|]. ored.
  by eexists _, s2.
Qed.

Lemma settle_stay t s :
  0 <= cursor_x t < wc -> 0 <= cursor_y t < hc -> 0 <= old_cursor_x t < wc -> 0 <= old_cursor_y t < hc ->
  exists t' s', settle (t, s) = Ret (t', s') /\ buffer t' = buffer t /\
    cursor_x t' = cursor_x t /\ cursor_y t' = cursor_y t /\ old_cursor_x t' = cursor_x t /\ old_cursor_y t' = cursor_y t.
Proof.
  intros Hx Hy Hox Hoy. unfold settle. rewrite (proj2 (Z.leb_gt wc _)) by lia. cbv zeta.
  rewrite (proj2 (Z.leb_gt hc _)) by lia. ored.
  destruct (redraw_spec t s Hx Hy Hox Hoy) as (t' & s' & -> & ?). ored. by eexists _, s'.
Qed.

(** The end of a line, by a full line or by a newline. *)
Lemma settle_line t s hist line :
  Forall (fun l => Z.of_nat (length l) <= wc) (hist ++ [line]) ->
  buffer t = screen (hist ++ [line]) ->
  (cursor_x t = 0 /\ cursor_y t = Z.min (Z.of_nat (length hist)) (hc - 1) + 1 \/
   cursor_x t = wc /\ cursor_y t = Z.min (Z.of_nat (length hist)) (hc - 1)) ->
  0 <= old_cursor_x t < wc -> 0 <= old_cursor_y t < hc ->
  exists t' s', settle (t, s) = Ret (t', s') /\ shows t' (hist ++ [line], []).
Proof.
  intros Hr Hb Hc Hox Hoy. destruct (go_chars Hg) as [Hw Hh]. pose proof (go_cells Hg).
  assert (hc <= wc * hc) by nia. unfold settle.
  assert (exists t1, (if wc <=? cursor_x t then set_cursor 0 (u64 (cursor_y t + 1)) t else t) = t1 /\
    buffer t1 = buffer t /\ cursor_x t1 = 0 /\ cursor_y t1 = Z.min (Z.of_nat (length hist)) (hc - 1) + 1 /\
    old_cursor_x t1 = old_cursor_x t /\ old_cursor_y t1 = old_cursor_y t) as (t1 & -> & Hb1 & Hx1 & Hy1 & Hox1 & Hoy1).
  { eexists. split; [done|]. destruct Hc as [[Hx Hy]|[Hx Hy]]; rewrite Hx.
    - by rewrite (proj2 (Z.leb_gt wc 0)) by lia.
    - rewrite Z.leb_refl. cbn. rewrite wrap_small by lia. by rewrite Hy. }
  cbv zeta. rewrite Hy1. destruct (Z.leb_spec hc (Z.min (Z.of_nat (length hist)) (hc - 1) + 1)) as [Hs|Hs].
  - destruct (scroll_spec t1 s) as (t2 & s2 & -> & (Hx2 & Hy2 & Hox2 & Hoy2) & Hb2).
    { rewrite Hb1, Hb. by apply length_screen. }
    ored. rewrite Hy2, Hy1, wrap_small by lia.
    destruct (redraw_spec (set_cursor (cursor_x t2) (Z.min (Z.of_nat (length hist)) (hc - 1) + 1 - 1) t2) s2)
      as (t3 & s3 & -> & Hb3 & Hx3 & Hy3 & Hox3 & Hoy3); cbn; [lia..|]. ored.
    cbn in Hb3, Hx3, Hy3, Hox3, Hoy3. eexists _, s3. split; [done|]. split; cbn; try done.
    + rewrite Hb3, Hb2, Hb1, Hb. apply screen_scrolls; [done|]. rewrite length_app. cbn. lia.
    + rewrite Hx3, Hx2, Hx1. lia.
    + rewrite Hy3, length_app. cbn. lia.
    + rewrite Hox3, Hoy3. lia.
  - ored. destruct (redraw_spec t1 s) as (t3 & s3 & -> & Hb3 & Hx3 & Hy3 & Hox3 & Hoy3); [lia..|]. ored.
    eexists _, s3. split; [done|]. split; cbn; try done.
    + rewrite Hb3, Hb1, Hb. symmetry. apply screen_room. rewrite length_app. cbn. lia.
    + rewrite Hx3, Hx1. lia.
    + rewrite Hy3, Hy1, length_app. cbn. lia.
    + rewrite Hox3, Hoy3. lia.
Qed.

Lemma write_char_shows t s p c :
  shows t p -> c <> 13 -> exists t' s', write_char c (t, s) = Ret (t', s') /\ shows t' (text_step c p).
Proof.
  intros [Hb [Hx Hxw] Hy [Hox Hoy] Hr] Hc. destruct p as [hist line]. cbn [fst snd] in *.
  destruct (go_chars Hg) as [Hw Hh]. pose proof (go_cells Hg). assert (hc <= wc * hc /\ wc <= wc * hc) as [? ?] by nia.
  assert (Forall (fun l => Z.of_nat (length l) <= wc) (hist ++ [line])) as Hr'.
  { apply Forall_app. split; [done|]. apply Forall_singleton. lia. }
  assert (sized (buffer t)) as Hsz by (rewrite Hb; by apply length_screen).
  unfold write_char, text_step. destruct (Z.eqb_spec c 8) as [->|Hc8]; [|rewrite (proj2 (Z.eqb_neq c 13)) by done;
    destruct (Z.eqb_spec c 10) as [->|Hc10]].
  - unfold backspace. destruct (Z.ltb_spec 0 (cursor_x t)) as [Hpos|Hz].
    + destruct (exists_last (l := line)) as (line' & c' & ->); [intros ->; cbn in Hx; lia|].
      rewrite removelast_last. rewrite length_app in Hx. cbn in Hx. unfold set_char_at_cursor. cbn [fst cursor_x cursor_y set_cursor].
      destruct (set_char_at_spec (cursor_x t - 1) (cursor_y t) 32 (set_cursor (cursor_x t - 1) (cursor_y t) t) s)
        as (t1 & s1 & -> & Hb1 & (Hx1 & Hy1 & Hox1 & Hoy1)); [done|lia|lia|]. ored. cbn in Hb1, Hx1, Hy1, Hox1, Hoy1.
      destruct (redraw_spec (set_undrawing true t1) s1) as (t2 & s2 & -> & Hb2 & Hx2 & Hy2 & Hox2 & Hoy2); cbn; [lia..|].
      cbn in Hb2, Hx2, Hy2, Hox2, Hoy2. exists t2, s2. split; [done|]. split; cbn [fst snd]; try done; try lia.
      rewrite Hb2, Hb1, Hb, Hy. replace (cursor_x t - 1) with (Z.of_nat (length line')) by lia.
      apply screen_erase; [done|]. rewrite length_app. cbn. lia.
    + assert (line = []) as -> by (destruct line; [done|cbn in Hx; lia]). exists (set_undrawing false t), s.
      split; [done|]. by split.
  - apply settle_line; [done|done|left|done|done]. cbn. rewrite wrap_small by lia. lia.
  - unfold set_char_at_cursor. cbn [fst].
    destruct (set_char_at_spec (cursor_x t) (cursor_y t) c t s) as (t1 & s1 & -> & Hb1 & (Hx1 & Hy1 & Hox1 & Hoy1));
      [done|lia|lia|]. ored. rewrite wrap_small by lia.
    rewrite Hb, Hx, Hy, screen_type in Hb1 by (done || lia). rewrite length_app. cbn [length].
    destruct (Z.leb_spec wc (Z.of_nat (length line + 1)%nat)) as [Hfull|Hroom].
    + apply settle_line; cbn; [|done|right; lia|lia|lia].
      apply Forall_app. split; [done|]. apply Forall_singleton. rewrite length_app. cbn. lia.
    + destruct (settle_stay (set_cursor (cursor_x t1 + 1) (cursor_y t1) t1) s1)
        as (t2 & s2 & -> & Hb2 & Hx2 & Hy2 & Hox2 & Hoy2); cbn; [lia..|]. cbn in Hb2, Hx2, Hy2, Hox2, Hoy2.
      exists t2, s2. split; [done|]. split; cbn [fst snd]; try done; try lia.
      * by rewrite Hb2, Hb1.
      * rewrite Hx2, Hx1, length_app. cbn. lia.
Qed.

(** The terminal shows the end of the text written to it: complete lines,
    broken where they fill the screen's width, scroll up one by one, the line
    being written is where the cursor is, and a backspace takes its last
    character away; no write ever fails.  Carriage returns are not text. *)
Theorem write_chars_shows cs t s p :
  shows t p -> Forall (fun c => c <> 13) cs ->
  exists t' s', write_chars cs (t, s) = Ret (t', s') /\ shows t' (foldl (fun p c => text_step c p) p cs).
Proof.
  revert t s p. induction cs as [|c cs IH]; intros t s p Hp Hcs; [by exists t, s|].
  apply Forall_cons in Hcs as [Hc Hcs]. cbn [write_chars foldl].
  destruct (write_char_shows t s p c Hp Hc) as (t1 & s1 & -> & H1). ored. by apply IH.
Qed.

Lemma screen_blank : screen [[]] = replicate (Z.to_nat (wc * hc)) 32.
Proof.
  destruct (go_chars Hg). unfold screen, last_rows. cbn [length]. replace (1 - Z.to_nat hc)%nat with 0%nat by lia.
  cbn [drop fmap list_fmap concat length]. unfold pad_row. cbn [app length]. rewrite app_nil_r, <- replicate_add. f_equal. nia.
Qed.

End Terminal.

(** ** The constructor *)
Section fresh.
Context {S : Type} (fill_rect : Z -> Z -> Z -> Z -> Z -> S -> outcome S).
Context (fill_returns : forall x y w h rgb s, 0 <= x -> 0 <= y -> 0 <= w -> 0 <= h -> w + x <= 65535 -> h + y <= 65535 ->
  exists s', fill_rect x y w h rgb s = Ret s').
Context (fb_width fb_height : Z) (Hsize : 32 <= fb_width <= 65535 /\ 24 <= fb_height <= 65535).
Abbreviation g := (geometry fb_width fb_height).

Lemma geometry_sizes : exists w, 16 <= w < 65535 /\
  g = mkGeometry 0 0 w fb_height ((w - 8) / 8) ((fb_height - 8) / 16) (w - 8) (fb_height - 8) 4 4 0xFCFCFC 0x232627 0x232627 8 16.
Proof.
  pose proof (Z.div_le_lower_bound fb_width 2 16). pose proof (Z.div_lt fb_width 2).
  exists (fb_width / 2). split; [lia|]. unfold geometry, padding. rewrite !wrap_small by lia.
  by rewrite <- !Z.sub_add_distr.
Qed.

Lemma geometry_fits : geometry_ok g.
Proof.
  destruct geometry_sizes as (w & Hw & ->).
  assert (1 <= (w - 8) / 8 /\ (w - 8) / 8 * 8 <= w - 8) as [] by (split; [apply Z.div_le_lower_bound; lia|rewrite Z.mul_comm; apply Z.mul_div_le; lia]).
  assert (1 <= (fb_height - 8) / 16 /\ (fb_height - 8) / 16 * 16 <= fb_height - 8) as []
    by (split; [apply Z.div_le_lower_bound; lia|rewrite Z.mul_comm; apply Z.mul_div_le; lia]).
  split; cbn; nia.
Qed.

(** A new terminal shows nothing. *)
Lemma new_Terminal_shows s : exists t s', new_Terminal fill_rect g s = Ret (t, s') /\ shows g t ([], []).
Proof.
  pose proof geometry_fits as Hg. pose proof (screen_blank g Hg) as Hb. pose proof (go_cells g Hg) as Hc.
  destruct (go_chars g Hg) as [Hw1 Hh1]. assert (0 <= width_chars g * height_chars g) by nia.
  unfold new_Terminal. rewrite (wrap_small _ (width_chars g * height_chars g)) by lia. rewrite <- Hb. clear Hb.
  destruct geometry_sizes as (w & Hw & E).
  assert (x g = 0 /\ y g = 0 /\ width g = w /\ height g = fb_height /\ actual_x g = 4 /\ actual_y g = 4 /\
          actual_width g = w - 8 /\ actual_height g = fb_height - 8) as (-> & -> & -> & -> & Hax & Hay & -> & ->)
    by (by rewrite E).
  rewrite Hax, Hay. unfold padding.
  assert (forall x y w h rgb s, 0 <= x -> 0 <= y -> 0 <= w -> 0 <= h -> w + x <= 65535 -> h + y <= 65535 ->
    exists s', fill_rect (u16 x) (u16 y) (u16 w) (u16 h) rgb s = Ret s') as Hfill
    by (intros; rewrite !wrap_small by lia; by apply fill_returns).
  edestruct Hfill as [s1 ->]; cycle -1; [ored|lia..].
  edestruct Hfill as [s2 ->]; cycle -1; [ored|lia..].
  edestruct Hfill as [s3 ->]; cycle -1; [ored|lia..].
  edestruct Hfill as [s4 ->]; cycle -1; [ored|lia..].
  edestruct Hfill as [s5 ->]; cycle -1; [ored|lia..].
  edestruct (redraw_spec fill_rect g Hg fill_returns) as (t & s' & -> & Eb & Ex & Ey & Eox & Eoy); cycle -1;
    [|cbn [cursor_x cursor_y old_cursor_x old_cursor_y]; lia..].
  exists t, s'. split; [done|]. cbn [buffer cursor_x cursor_y] in Eb, Ex, Ey, Eox, Eoy.
  split; cbn [fst snd app length]; rewrite ?Ex, ?Ey, ?Eox, ?Eoy; [exact Eb|lia..|apply Forall_nil_2].
Qed.
End fresh.

(** ** A small terminal, three characters by two, on the small screen *)
Definition geometry0 : Geometry := mkGeometry 0 0 24 32 3 2 24 32 0 0 0xFCFCFC 0x232627 0x232627 8 16.
Definition font0 : PSF := mkPSF 0 0 32 0 256 16 16 8.
Definition draw0 := draw_psf_char font0 (fun a => Some (a mod 256)) fb0.
Definition blank0 : Terminal := mkTerminal (replicate 6 32) 0 0 0 0 false.

Lemma geometry0_ok : geometry_ok geometry0.
Proof. split; cbn; lia. Qed.

Lemma draw0_returns c cx cy ox oy f b m : exists m', draw0 c cx cy ox oy f b m = Ret m'.
Proof. apply draw_psf_char_returns. by eexists. Qed.

Lemma fill0_returns x y w h rgb m :
  0 <= x -> 0 <= y -> 0 <= w -> 0 <= h -> w + x <= 65535 -> h + y <= 65535 ->
  exists m', fill_rect fb0 x y w h rgb m = Ret m'.
Proof. apply fill_rect_returns, fb0_ok. Qed.

Lemma blank0_shows : shows geometry0 blank0 ([], []).
Proof. split; cbn; (done || lia || constructor). Qed.

Lemma write_chars_shows_witness :
  exists t' s', write_chars draw0 (fill_rect fb0) geometry0 (lit "ab" ++ [10] ++ lit "cdefg" ++ [8]) (blank0, ∅) = Ret (t', s') /\
    shows geometry0 t' ([lit "ab"; lit "cde"], lit "f").
Proof.
  destruct (write_chars_shows draw0 (fill_rect fb0) geometry0 geometry0_ok draw0_returns fill0_returns
    (lit "ab" ++ [10] ++ lit "cdefg" ++ [8]) blank0 ∅ ([], []) blank0_shows) as (t' & s' & H1 & H2).
  - apply (bool_decide_eq_true_1 _). vm_compute. reflexivity.
  - exists t', s'. split; [exact H1|exact H2].
Defined.

(** The constructor's terminal shows nothing, on a screen of 640 by 480. *)
Example new_terminal_is_blank :
  match new_Terminal (fun _ _ _ _ _ (_ : unit) => Ret tt) (geometry 640 480) tt with
  | Ret (t, _) => (width_chars (geometry 640 480), height_chars (geometry 640 480), cursor_x t, cursor_y t,
                   bool_decide (buffer t = screen (geometry 640 480) [[]]))
  | _ => (0, 0, 0, 0, false)
  end = (39, 29, 0, 0, true).
Proof. vm_compute. reflexivity. Qed.
