(* ===== verification/Boot.v ===== *)
(** * kernel.cpp: how _start brings up memory and the screen

    [_start] from its first line to the heap: the tests of the boot loader's
    answers, the frame buffer, the physical allocator, the segments and
    interrupt table ([early_init] of cpu/cpu.cpp), the kernel's address space,
    the terminal, and the heap on the last gigabyte but one page.  Each manager
    works on what the ones before it left.  Log lines are left out; what follows
    the heap is in file System. *)
From S2P Require Import Prelude Algorithm Framebuffer Terminal Bitmap Pmm Buddy List Machine Interrupts Paging AddressSpace.

(** ** The answers of the boot loader that [_start] asks for *)
Record limine_framebuffer := mkLimineFramebuffer { lf_address : Z; lf_width : Z; lf_height : Z; lf_pitch : Z; lf_bpp : Z }.

Record responses := mkResponses {
  framebuffers : option (list limine_framebuffer);
  hhdm_offset : option Z;
  memmap : option (list limine_memmap_entry);
  modules : option Z;
  kernel_address : option (Z * Z);
  rsdp : option Z;
  smp : option Z }.

Definition screen_fb (f : limine_framebuffer) : Framebuffer :=
  mkFramebuffer (lf_address f) (u32 (lf_width f)) (u32 (lf_height f)) (u32 (lf_pitch f)) (lf_bpp f / 8).

Definition kernel_heap_size : Z := 1024 * 1024 * 1024.
Definition kernel_heap_base : Z := u64 (2 ^ 64 - 1 - kernel_heap_size - 0x1000 + 1).

(** The segments, the interrupt table and the registers of the first processor. *)
Record cpu_state (M : Type) := mkCpu { cpu_gdt : list GDTEntry; cpu_idt : idt_state; cpu_msrs : M }.
Arguments mkCpu {M}.
Arguments cpu_gdt {M}.
Arguments cpu_idt {M}.
Arguments cpu_msrs {M}.

Section Boot.
Context {M : Type} `{Machine M}.
Context (ram : limine_memmap_entry -> list Z) (head hhdm_range heap_range : Z).
Context (wrappers : list Z) (raw_bitmap exception_handler page_fault_handler : Z).
Context (mem0 : gmap Z (list Z)) (heads0 : gmap Z ListHead) (heap0 : heap) (cpu0 : cpu_state M) (px0 : pixels).

Record kernel := mkKernel {
  kernel_fb : Framebuffer; cpu : cpu_state M; kernel_map : Pagemap; space : vm pmm; cr3 : Z;
  terminal : Terminal; screen_pixels : pixels; kernel_heap : heap }.

Definition early_init (c : cpu_state M) : outcome (cpu_state M) :=
  '(t, _) ← load_idt wrappers raw_bitmap exception_handler page_fault_handler (cpu_idt c);
  Ret (mkCpu (load_gdt (cpu_gdt c)) t (MSR_write IA32_PAT PAT (cpu_msrs c))).

(** Pages of the terminal's text. *)
Definition text_pages (g : Geometry) : Z := u64 (u64 (width_chars g * height_chars g) + 0x1000 - 1) / 0x1000.

(** The static terminal; its text has pages of its own. *)
Definition kernel_terminal (fb : Framebuffer) (s : vm pmm) (px : pixels) : outcome (Terminal * vm pmm * pixels) :=
  let g := geometry (fb_width fb) (fb_height fb) in
  '(_, a) ← alloc_pages (text_pages g) (frames s);
  '(t, px) ← new_Terminal (fill_rect fb) g px;
  Ret (t, set_frames a s, px).

Definition start_kernel (fb : Framebuffer) (hhdm : Z) (es : list limine_memmap_entry) (kernel_phy kernel_virt : Z) :
    outcome kernel :=
  a ← Pmm.init hhdm ram es Pmm.boot;
  c ← early_init cpu0;
  '(pm, v, cr) ← Paging.init hhdm head hhdm_range heap_range es kernel_phy kernel_virt (mkVm mem0 a heads0 ∅ []);
  '(t, v, px) ← kernel_terminal fb v px0;
  h ← Buddy.init kernel_heap_base kernel_heap_size heap0;
  Ret (mkKernel fb c pm v cr t px h).

Definition start (r : responses) : outcome kernel :=
  match framebuffers r, hhdm_offset r with
  | Some (f :: _), Some hhdm =>
      match memmap r, modules r, kernel_address r, rsdp r, smp r with
      | Some es, Some _, Some (kernel_phy, kernel_virt), Some _, Some _ =>
          start_kernel (screen_fb f) hhdm es kernel_phy kernel_virt
      | _, _, _, _, _ => Panic
      end
  | _, _ => Panic
  end.

(** The boot loader answered all of it. *)
Definition complete (r : responses) : bool :=
  match framebuffers r, hhdm_offset r, memmap r, modules r, kernel_address r, rsdp r, smp r with
  | Some (_ :: _), Some _, Some _, Some _, Some _, Some _, Some _ => true
  | _, _, _, _, _, _, _ => false
  end.

Lemma start_incomplete r : complete r = false -> start r = Panic.
Proof.
  unfold start, complete. intros Hc. destruct (framebuffers r) as [[|f fs]|], (hhdm_offset r); try done.
  by destruct (memmap r), (modules r), (kernel_address r) as [[]|], (rsdp r), (smp r).
Qed.
End Boot.

(** ** Free pages are a supply of pages *)
Section count.
Implicit Types (P Q : Z -> bool) (l : list Z).

Definition count (P : Z -> bool) (l : list Z) : nat := length (filter (fun j => P j = true) l).

Lemma count_cons P j l : count P (j :: l) = ((if P j then 1 else 0) + count P l)%nat.
Proof.
  unfold count. rewrite filter_cons. destruct (P j) eqn:E; [by rewrite decide_True|by rewrite decide_False by congruence].
Qed.

Lemma count_ext P Q l : (forall j, j ∈ l -> P j = Q j) -> count P l = count Q l.
Proof.
  induction l as [|j l IH]; intros Hl; [done|]. rewrite !count_cons, IH by (intros; apply Hl; by right).
  by rewrite (Hl j) by left.
Qed.

(** [k] pages from [p] on less. *)
Lemma count_but_span P Q l p k :
  NoDup l -> (forall j, j ∈ l -> ~ p <= j < p + k -> P j = Q j) -> (count P l <= Z.to_nat k + count Q l)%nat.
Proof.
  intros Hnd Hl. transitivity (count (fun j => span p k j || Q j) l).
  { clear Hnd. induction l as [|j l IH]; [done|]. rewrite !count_cons. specialize (IH ltac:(intros; apply Hl; [by right|done])).
    destruct (span p k j) eqn:E; [destruct (P j); cbn [orb]; lia|]. cbn [orb]. rewrite Hl; [destruct (Q j); lia|left|].
    unfold span in E. lia. }
  transitivity (count (span p k) l + count Q l)%nat.
  { clear Hnd Hl. induction l as [|j l IH]; [done|]. rewrite !count_cons. destruct (span p k j), (Q j); cbn [orb]; lia. }
  enough (count (span p k) l <= Z.to_nat k)%nat by lia.
  transitivity (length (seqZ p k)); [|by rewrite length_seqZ]. apply submseteq_length, NoDup_submseteq; [by apply NoDup_filter|].
  intros j [Hj _]%list_elem_of_filter. apply elem_of_seqZ. unfold span in Hj. lia.
Qed.

(** One page at least less. *)
Lemma count_less P Q l j :
  j ∈ l -> P j = true -> Q j = false -> (forall i, i ∈ l -> Q i = true -> P i = true) -> (S (count Q l) <= count P l)%nat.
Proof.
  intros Hj HP HQ Hle. assert (forall l', l' ⊆ l -> (count Q l' <= count P l')%nat) as Hsub.
  { induction l' as [|i l' IH]; intros Hs; [done|]. rewrite !count_cons. specialize (IH ltac:(set_solver)).
    specialize (Hle i ltac:(set_solver)). destruct (Q i); [rewrite Hle by done; lia|destruct (P i); lia]. }
  apply list_elem_of_split in Hj as (l1 & l2 & ->). unfold count in *. rewrite !filter_app, !length_app.
  rewrite !filter_cons. rewrite decide_False, decide_True by congruence. cbn [length].
  pose proof (Hsub l1 ltac:(set_solver)). pose proof (Hsub l2 ltac:(set_solver)). lia.
Qed.

Lemma count_pos P l : (0 < count P l)%nat -> exists j, j ∈ l /\ P j = true.
Proof.
  induction l as [|j l IH]; [cbn; lia|]. rewrite count_cons. destruct (P j) eqn:E.
  - intros _. exists j. split; [left|done].
  - intros Hc. destruct IH as (i & Hi & Hp); [lia|]. exists i. split; [by right|done].
Qed.
End count.

Definition free_page (s : pmm) (j : Z) : bool := negb (bit (page_bitmap s) j).
Definition all_pages (s : pmm) : list Z := seqZ 0 (m_size (page_bitmap s)).

Definition free_count (s : pmm) : nat := count (free_page s) (all_pages s).

(** What [alloc_pages] does to the number of free pages. *)
Lemma took_counts s s' p n :
  0 < p -> p + n <= m_size (page_bitmap s) -> 0 < n -> took s s' p n ->
  (S (free_count s') <= free_count s <= Z.to_nat n + free_count s')%nat.
Proof.
  intros Hp Hs Hn (Hrun & (_ & Hz & _ & Hbits) & _). unfold free_count, all_pages. rewrite Hz.
  assert (forall i, i ∈ seqZ 0 (m_size (page_bitmap s)) -> free_page s' i = negb (span p n i) && free_page s i) as Hfree.
  { intros i [Hi _]%elem_of_seqZ. unfold free_page. rewrite Hbits by lia. by destruct (span p n i). }
  split.
  - apply (count_less _ _ _ p); [apply elem_of_seqZ; lia| | |].
    + unfold free_page. by rewrite Hrun by lia.
    + rewrite Hfree by (apply elem_of_seqZ; lia). unfold span. by rewrite (proj2 (Z.leb_le _ _)), (proj2 (Z.ltb_lt _ _)) by lia.
    + intros i Hi. rewrite Hfree by done. by intros [_ ?]%andb_true_iff.
  - apply (count_but_span _ _ _ p); [apply NoDup_seqZ|]. intros i Hi Hni. rewrite Hfree by done.
    replace (span p n i) with false; [done|]. unfold span. symmetry. lia.
Qed.

(** While a page is free, [alloc_pages(1)] finds one, and takes just one. *)
Lemma pmm_supply n s : pmm_good s -> (n <= free_count s)%nat -> supply n s.
Proof.
  revert s. induction n as [|n IH]; intros s Hgood Hn; [done|]. pose proof Hgood as (Hwf & H0 & Hm).
  destruct (count_pos (free_page s) (all_pages s)) as (j & [Hj1 Hj2]%elem_of_seqZ & Hfree); [unfold free_count in Hn; lia|].
  pose proof (alloc_pages_result s 1 Hwf ltac:(lia) H0) as Hr.
  destruct (alloc_pages 1 s) as [[p s']| | |] eqn:Ea; [|exfalso; inversion Hr as [|Hno]|exfalso; inversion Hr..].
  - cbn [supply]. exists p, s'. split; [done|].
    destruct (@alloc_page_fresh pmm pmm_allocator s p s' Hgood Ea) as (Hgood' & _). apply IH; [done|].
    inversion Hr as [k s1 Hk Hks Htook Hwf' Ek|]. subst s1. pose proof (took_counts s s' k 1 Hk Hks ltac:(lia) Htook). lia.
  - assert (run (page_bitmap s) j 1) as Hrun.
    { intros i Hi. assert (i = j) as -> by lia. unfold free_page in Hfree. by apply negb_true_iff. }
    destruct (Hno j ltac:(lia) Hrun); lia.
Qed.

Lemma supply_free n s : pmm_good s -> supply n s -> (n <= free_count s)%nat.
Proof.
  revert s. induction n as [|n IH]; intros s Hgood; [lia|]. cbn [supply]. intros (p & s' & Ea & Hs).
  pose proof Hgood as (Hwf & H0 & Hm).
  destruct (@alloc_page_fresh pmm pmm_allocator s p s' Hgood Ea) as (Hgood' & _). specialize (IH s' Hgood' Hs).
  pose proof (alloc_pages_result s 1 Hwf ltac:(lia) H0) as Hr.
  change (alloc_pages 1 s = Ret (p, s')) in Ea. rewrite Ea in Hr.
  inversion Hr as [k s1 Hk Hks Htook Hwf' Ek|]. subst s1. pose proof (took_counts s s' k 1 Hk Hks ltac:(lia) Htook). lia.
Qed.

(** Pages for something else than tables leave the address space alone. *)
Lemma alloc_pages_keeps hhdm (v : vm pmm) root n k :
  inv hhdm v root -> 0 < n -> supply (k + Z.to_nat n) (frames v) ->
  match alloc_pages n (frames v) with
  | Ret (_, a) => inv hhdm (set_frames a v) root /\ supply k a
  | Panic => 1 < n
  | _ => False
  end.
Proof.
  intros Hinv Hn Hsup. pose proof (inv_good _ _ _ Hinv) as Hgood. pose proof Hgood as (Hwf & H0 & Hm).
  pose proof (supply_free _ _ Hgood Hsup) as Hfree.
  pose proof (alloc_pages_result (frames v) n Hwf Hn H0) as Hr.
  destruct (alloc_pages n (frames v)) as [[p a]| | |] eqn:Ea; [| |inversion Hr..].
  - destruct (pmm_alloc n (frames v) p a Hgood Hn Ea) as [Hga Hmono].
    inversion Hr as [q a1 Hq Hqs Htook Hwf' Ep|]. subst a1. pose proof (took_counts _ a q n Hq Hqs Hn Htook) as Hcount.
    split; [|apply pmm_supply; [done|lia]]. destruct Hinv as [_ Ht Hp]. split; [done| |done].
    intros p0 t Hl Htab. destruct (Ht p0 t Hl Htab) as (tb & phys & ? & ? & ? & Hown). exists tb, phys.
    split_and!; try done. by apply Hmono.
  - destruct (Z.lt_ge_cases 1 n) as [|Hn1]; [done|]. assert (n = 1) as -> by lia. exfalso.
    destruct (pmm_supply 1 (frames v) Hgood) as (p & a & E & _); [lia|]. change (alloc_pages 1 (frames v) = Ret (p, a)) in E. congruence.
Qed.

(** ** The physical allocator after init *)
Lemma for_range_keeps {S X : Type} (f : S -> X) n : forall lo body (s s' : S),
  (forall i s s', body i s = Ret s' -> f s' = f s) -> for_range n lo body s = Ret s' -> f s' = f s.
Proof.
  induction n as [|n IH]; intros lo body s s' Hb; cbn [for_range].
  - by intros [= <-].
  - intros (s1 & H1 & H2)%bind_Ret. rewrite (IH _ _ _ _ Hb H2). by eapply Hb.
Qed.

Lemma init_index hhdm ram es s s' :
  Pmm.init hhdm ram es s = Ret s' -> page_bitmap_index s' = page_bitmap_index s.
Proof.
  unfold Pmm.init. intros (b & _ & (s1 & H1 & H2)%bind_Ret)%bind_Ret.
  assert (page_bitmap_index s' = page_bitmap_index s1) as ->.
  { clear H1. revert H2. apply for_range_keeps. intros i t t' (c & _ & [= <-])%bind_Ret. done. }
  change (page_bitmap_index s) with
    (page_bitmap_index (mkPmm b (page_bitmap_index s) (find_last_usable (last_usable_mem s) es) (total_usable_size s) (total_allocated s))).
  clear H2. revert H1. generalize (mkPmm b (page_bitmap_index s) (find_last_usable (last_usable_mem s) es) (total_usable_size s) (total_allocated s)).
  induction es as [|e es' IH]; intros t; cbn [free_entries]; [by intros [= <-]|].
  intros (t1 & H1 & H2)%bind_Ret. rewrite (IH t1 H2). unfold free_entry in H1. destruct (usable e); [|by injection H1 as <-].
  revert H1. apply for_range_keeps. intros i u u' (c & _ & [= <-])%bind_Ret. done.
Qed.

Section boot_spec.
Context (ram : limine_memmap_entry -> list Z) (hhdm : Z) (es : list limine_memmap_entry) (host : limine_memmap_entry).
Let npages := find_last_usable 0 es / 0x1000.

(** A memory map as the boot loader gives it, with an entry for the bitmap, page
    0 not for use, and no more memory than the page tables' window has. *)
Hypothesis map_ok : Forall entry_ok es.
Hypothesis host_found : List.find (fun e => usable e && (npages / 8 <=? len e)) es = Some host.
Hypothesis host_ram : Z.of_nat (length (ram host)) = len host.
Hypothesis host_room : npages <= 8 * len host.
Hypothesis page_zero : in_usable es 0 = false.
Hypothesis size_range : 8 <= npages /\ npages * 0x1000 <= 2 ^ 46.

(** Pages the allocator can hand out. *)
Definition usable_pages : nat :=
  count (fun j => in_usable es j && negb (in_bitmap host npages j)) (seqZ 0 npages).

Lemma pmm_starts : exists a, Pmm.init hhdm ram es Pmm.boot = Ret a /\ pmm_good a /\
  forall n, (n <= usable_pages)%nat -> supply n a.
Proof.
  destruct (init_updates hhdm ram es host map_ok host_found host_ram host_room) as (a & b0 & b1 & b2 & E & Eb0 & Hs0 & Hu1 & Hu2 & Hu3).
  fold npages in Hs0, Hu3, Eb0. pose proof (init_index _ _ _ _ _ E) as Hidx. cbn in Hidx.
  pose proof Hu1 as (_ & Hz1 & _ & H1). pose proof Hu2 as (_ & Hz2 & _ & H2). pose proof Hu3 as (_ & Hz3 & _ & H3).
  assert (m_size (page_bitmap a) = npages) as Hsz by congruence.
  assert (forall j, 0 <= j < npages -> bit (page_bitmap a) j =
    if in_bitmap host npages j then true else if in_usable es j then false else bit b1 j) as Hbits.
  { intros j Hj. by rewrite H3, H2 by lia. }
  assert (pmm_good a) as Hgood.
  { split; [split; [|split]|split].
    - rewrite Hsz. eapply updates_covers; [exact Hu3|]. eapply updates_covers; [exact Hu2|].
      eapply updates_covers; [exact Hu1|]. rewrite Eb0. unfold place_bitmap. rewrite host_found. unfold covers; cbn. lia.
    - rewrite Hidx, Hsz. lia.
    - rewrite Hsz. lia.
    - rewrite Hbits by lia. destruct (in_bitmap host npages 0); [done|]. rewrite page_zero.
      rewrite H1 by lia. unfold Bitmap.filled. rewrite Hs0. rewrite (proj2 (Z.leb_le _ _)) by lia.
      pose proof (Z.div_str_pos npages 8 ltac:(lia)).
      by rewrite (proj2 (Z.eqb_neq _ _)) by lia.
    - rewrite Hsz. lia. }
  exists a. split; [done|]. split; [done|]. intros n Hn. apply pmm_supply; [done|].
  unfold free_count, all_pages. rewrite Hsz. etrans; [exact Hn|]. unfold usable_pages.
  clear Hn. assert (forall j, j ∈ seqZ 0 npages -> 0 <= j < npages) as Hr by (intros j [? ?]%elem_of_seqZ; lia).
  revert Hr. generalize (seqZ 0 npages). intros l Hl. induction l as [|j l IH]; [done|]. rewrite !count_cons.
  specialize (IH ltac:(intros; apply Hl; by right)). unfold free_page at 1. rewrite Hbits by (apply Hl; left).
  destruct (in_usable es j), (in_bitmap host npages j); cbn [andb negb]; try lia.
Qed.

Context {M : Type} `{Machine M}.
Context (head hhdm_range' heap_range : Z) (mem0 : gmap Z (list Z)) (heads0 : gmap Z ListHead) (heap0 : heap).
Context (wrappers : list Z) (raw_bitmap exception_handler page_fault_handler : Z) (cpu0 : cpu_state M) (px0 : pixels) (fb : Framebuffer).
Hypothesis heads_distinct : hhdm_range' <> head /\ heap_range ∉ [hhdm_range'; head].
Hypothesis window_range : 0 <= hhdm <= 2 ^ 64 - 2 ^ 46.
Hypothesis lengths : Forall (fun e => 0 <= len e <= 2 ^ 48) es.
Hypothesis image_length : 0 <= kernel_bytes es 0 <= 2 ^ 48.
Hypothesis idt_start : idt_ok (cpu_idt cpu0) /\ length wrappers = 256%nat /\ Forall (fun w => 0 <= w < 2 ^ 64) wrappers.
Hypothesis screen_ok : fb_ok fb /\ 32 <= fb_width fb <= 65535 /\ 24 <= fb_height fb <= 65535.

Abbreviation screen := (geometry (fb_width fb) (fb_height fb)).

Lemma text_pages_range : 1 <= text_pages screen.
Proof.
  pose proof (geometry_fits (fb_width fb) (fb_height fb) (proj2 screen_ok)) as Hg.
  pose proof (go_cells _ Hg). destruct (go_chars _ Hg). unfold text_pages.
  assert (1 <= width_chars screen * height_chars screen) by nia.
  rewrite (wrap_small _ (width_chars screen * height_chars screen)) by lia.
  rewrite wrap_small by lia. apply Z.div_le_lower_bound; lia.
Qed.

(** The terminal comes up and leaves the address space alone. *)
Lemma kernel_terminal_spec v root k :
  inv hhdm v root -> supply (k + Z.to_nat (text_pages screen)) (frames v) ->
  match kernel_terminal fb v px0 with
  | Ret (t, v', _) => shows screen t ([], []) /\ inv hhdm v' root /\ supply k (frames v') /\ exists a, v' = set_frames a v
  | Panic => 1 < text_pages screen
  | _ => False
  end.
Proof.
  intros Hinv Hsup. pose proof text_pages_range as Htp. unfold kernel_terminal.
  pose proof (alloc_pages_keeps hhdm v root (text_pages screen) k Hinv ltac:(lia) Hsup) as Ha.
  destruct (alloc_pages _ _) as [[p a]| | |]; ored; [|done..].
  destruct (new_Terminal_shows (fill_rect fb) ltac:(intros; apply fill_rect_returns; [apply screen_ok|done..])
    (fb_width fb) (fb_height fb) (proj2 screen_ok) px0) as (t & px & -> & Ht). ored.
  destruct Ha. split_and!; try done. by exists a.
Qed.

(** Every byte of the block [p] of [n] bytes that has no page gets a cleared one,
    writable and not executable, when it is touched. *)
Definition backed_block (v : vm pmm) (pm : Pagemap) (p n : Z) : Prop :=
  forall a, p <= a < p + n -> translate hhdm (mem v) (pml4 pm) a = None ->
    exists f v', handle_page_fault hhdm pm a v = Ret (false, v') /\
      mem v' !! (f + hhdm) = Some zero_page /\ translate hhdm (mem v') (pml4 pm) a = Some (Z.lor f heap_page).

Definition heap_backed (v : vm pmm) (pm : Pagemap) (h : heap) : Prop :=
  forall n, 0 < n -> n + 16 <= kernel_heap_size ->
    exists p h', malloc n h = Ret (p, h') /\ p <> 0 /\ backed_block v pm p n.

Lemma heap_starts_backed v pm :
  inv hhdm v (pml4 pm) -> supply 4 (frames v) -> ranges_ok v pm [heap_range; hhdm_range'] ->
  kernel_ranges hhdm v hhdm_range' heap_range ->
  exists h, Buddy.init kernel_heap_base kernel_heap_size heap0 = Ret h /\ heap_backed v pm h.
Proof.
  intros Hinv Hsup Hrok Hkr.
  destruct (malloc_fresh kernel_heap_base kernel_heap_size heap0) as (h & l & Eh & _ & _ & Hmalloc); [by vm_compute..|].
  exists h. split; [done|]. intros n Hn Hfit. destruct (Hmalloc n Hn) as (p & h' & Em & Hp & Hlo & Hhi).
  { replace (req kernel_heap_size) with kernel_heap_size by (by vm_compute). done. }
  exists p, h'. split; [done|]. split; [done|]. intros x Hx Hnone.
  destruct (init_spec kernel_heap_base kernel_heap_size heap0) as (Eh' & _); [by vm_compute..|].
  rewrite Eh in Eh'. injection Eh' as ->. cbn [Buddy.head Buddy.tail] in Hlo, Hhi.
  destruct (heap_fault hhdm window_range v pm hhdm_range' heap_range x) as (f & v' & Ef & _ & _ & Hz & Hmap); try done.
  - replace kernel_heap_base with (heap_begin + 1) in Hlo, Hhi by (by vm_compute).
    replace (req kernel_heap_size) with heap_size in Hhi by (by vm_compute). lia.
  - exists f, v'. split; [done|]. split; [done|]. rewrite Hmap. by rewrite decide_True.
Qed.

(** What [_start] leaves when it has brought the machine up. *)
Definition brought_up (kernel_phy kernel_virt : Z) (st : @kernel M) : Prop :=
  cr3 st = activate hhdm (kernel_map st) /\ inv hhdm (space st) (pml4 (kernel_map st)) /\
  idt_ok (cpu_idt (cpu st)) /\ shows screen (terminal st) ([], []) /\
  (forall v, translate hhdm (mem (space st)) (pml4 (kernel_map st)) v =
     mapped kernel_phy kernel_virt (pages (kernel_bytes es 0)) kernel_page (mapped_entries hhdm es (fun _ => None)) v) /\
  heap_backed (space st) (kernel_map st) (kernel_heap st).

(** [_start] with the answers it needs. *)
Lemma start_kernel_spec kernel_phy kernel_virt :
  (S (base.size (init_tables hhdm es kernel_virt) + (4 + Z.to_nat (text_pages screen))) <= usable_pages)%nat ->
  match start_kernel ram head hhdm_range' heap_range wrappers raw_bitmap exception_handler page_fault_handler
          mem0 heads0 heap0 cpu0 px0 fb hhdm es kernel_phy kernel_virt with
  | Ret st => brought_up kernel_phy kernel_virt st
  | Panic => 1 < text_pages screen
  | _ => False
  end.
Proof.
  intros Henough. destruct pmm_starts as (a & Ea & Hgood & Hsup). unfold start_kernel, early_init. rewrite Ea. ored.
  destruct (load_idt_installs wrappers raw_bitmap exception_handler page_fault_handler (cpu_idt cpu0)) as (t & -> & Hidt & _);
    [apply idt_start..|]. ored.
  destruct (init_builds hhdm window_range (4 + Z.to_nat (text_pages screen)) (mkVm mem0 a heads0 ∅ [])
    head hhdm_range' heap_range es kernel_phy kernel_virt)
    as (pm & v & -> & Hinv & Htr & Hrok & Hkr & Hs); [done|apply heads_distinct|apply heads_distinct|done|done|by apply Hsup|].
  ored. pose proof (kernel_terminal_spec v (pml4 pm) 4 Hinv Hs) as Hterm.
  destruct (kernel_terminal fb v px0) as [[[tm v'] px]| | |]; ored; [|done..].
  destruct Hterm as (Hshow & Hinv' & Hs' & a' & ->).
  destruct (heap_starts_backed (set_frames a' v) pm Hinv' Hs') as (h & -> & Hheap); [done|by destruct Hkr|]. ored. done.
Qed.

End boot_spec.

(** ** A small machine: 128 pages of usable memory above the first one *)
Definition boot_map : list limine_memmap_entry :=
  [mkEntry 0 0x1000 1; mkEntry 0x1000 0x10000 LIMINE_MEMMAP_USABLE;
   mkEntry 0x11000 0x2000 LIMINE_MEMMAP_KERNEL_AND_MODULES; mkEntry 0x13000 0x1000 1;
   mkEntry 0x14000 0x10000 LIMINE_MEMMAP_BOOTLOADER_RECLAIMABLE; mkEntry 0x24000 0x80000 LIMINE_MEMMAP_USABLE].
Definition boot_host : limine_memmap_entry := mkEntry 0x1000 0x10000 LIMINE_MEMMAP_USABLE.
Definition empty_heap : heap := mkHeap 0 0 ∅ ∅.

Definition boot_screen : limine_framebuffer := mkLimineFramebuffer 0x80000000 64 40 256 32.
Definition boot_wrappers : list Z := replicate 256 0xFFFFFFFF80001000.
Definition boot_cpu : cpu_state board := mkCpu (replicate 7 null_entry) idt0 board0.

Definition boot_answers : responses :=
  mkResponses (Some [boot_screen]) (Some window) (Some boot_map) (Some 0) (Some (0x11000, 0xFFFFFFFF80000000)) (Some 0) (Some 0).


(** Without one of the answers [_start] stops at once. *)
Example missing_answers_panic r :
  smp r = None -> start zero_ram 1000 1001 1002 boot_wrappers 0 1 2 ∅ ∅ empty_heap boot_cpu ∅ r = Panic.
Proof.
  unfold start. intros ->. destruct (framebuffers r) as [[|f fs]|], (hhdm_offset r); try done.
  by destruct (memmap r), (modules r), (kernel_address r) as [[]|], (rsdp r).
Qed.
