(* ===== verification/Syscall.v ===== *)
(** * cpu/syscall, klib/posix.hpp and the program's side of them

    A system call is a number in RAX and six registers; the kernel's table picks
    the handler, whose parameters the calling convention takes from the
    registers at their own widths.  A result comes back in RAX.  The program's
    side is userspace/test/src/api.cpp and syscall.hpp; its posix.hpp is the
    same text as the kernel's. *)
From S2P Require Import Prelude CString Vfs Paging.

(** ** Error numbers *)
Definition errors : list (string * Z) :=
  [("EDOM", 1); ("EILSEQ", 2); ("ERANGE", 3); ("E2BIG", 1001); ("EACCES", 1002); ("EADDRINUSE", 1003);
   ("EADDRNOTAVAIL", 1004); ("EAFNOSUPPORT", 1005); ("EAGAIN", 1006); ("EALREADY", 1007); ("EBADF", 1008);
   ("EBADMSG", 1009); ("EBUSY", 1010); ("ECANCELED", 1011); ("ECHILD", 1012); ("ECONNABORTED", 1013);
   ("ECONNREFUSED", 1014); ("ECONNRESET", 1015); ("EDEADLK", 1016); ("EDESTADDRREQ", 1017); ("EDQUOT", 1018);
   ("EEXIST", 1019); ("EFAULT", 1020); ("EFBIG", 1021); ("EHOSTUNREACH", 1022); ("EIDRM", 1023);
   ("EINPROGRESS", 1024); ("EINTR", 1025); ("EINVAL", 1026); ("EIO", 1027); ("EISCONN", 1028);
   ("EISDIR", 1029); ("ELOOP", 1030); ("EMFILE", 1031); ("EMLINK", 1032); ("EMSGSIZE", 1034);
   ("EMULTIHOP", 1035); ("ENAMETOOLONG", 1036); ("ENETDOWN", 1037); ("ENETRESET", 1038);
   ("ENETUNREACH", 1039); ("ENFILE", 1040); ("ENOBUFS", 1041); ("ENODEV", 1042); ("ENOENT", 1043);
   ("ENOEXEC", 1044); ("ENOLCK", 1045); ("ENOLINK", 1046); ("ENOMEM", 1047); ("ENOMSG", 1048);
   ("ENOPROTOOPT", 1049); ("ENOSPC", 1050); ("ENOSYS", 1051); ("ENOTCONN", 1052); ("ENOTDIR", 1053);
   ("ENOTEMPTY", 1054); ("ENOTRECOVERABLE", 1055); ("ENOTSOCK", 1056); ("ENOTSUP", 1057); ("ENOTTY", 1058);
   ("ENXIO", 1059); ("EOPNOTSUPP", 1060); ("EOVERFLOW", 1061); ("EOWNERDEAD", 1062); ("EPERM", 1063);
   ("EPIPE", 1064); ("EPROTO", 1065); ("EPROTONOSUPPORT", 1066); ("EPROTOTYPE", 1067); ("EROFS", 1068);
   ("ESPIPE", 1069); ("ESRCH", 1070); ("ESTALE", 1071); ("ETIMEDOUT", 1072); ("ETXTBSY", 1073);
   ("EWOULDBLOCK", 1006); ("EXDEV", 1075); ("ENODATA", 1076); ("ETIME", 1077); ("ENOKEY", 1078);
   ("ESHUTDOWN", 1079); ("EHOSTDOWN", 1080); ("EBADFD", 1081); ("ENOMEDIUM", 1082); ("ENOTBLK", 1083);
   ("ENONET", 1084); ("EPFNOSUPPORT", 1085); ("ESOCKTNOSUPPORT", 1086); ("ESTRPIPE", 1087);
   ("EREMOTEIO", 1088); ("ERFKILL", 1089); ("EBADR", 1090); ("EUNATCH", 1091); ("EMEDIUMTYPE", 1092);
   ("EREMOTE", 1093); ("EKEYREJECTED", 1094); ("EUCLEAN", 1095); ("EBADSLT", 1096); ("ENOANO", 1097);
   ("ENOCSI", 1098); ("ENOSTR", 1099); ("ETOOMANYREFS", 1100); ("ENOPKG", 1101); ("EKEYREVOKED", 1102);
   ("EXFULL", 1103); ("ELNRNG", 1104); ("ENOTUNIQ", 1105); ("ERESTART", 1106); ("EUSERS", 1107);
   ("ECHRNG", 1108); ("ELIBBAD", 1109); ("EL2HLT", 1110); ("EL3HLT", 1111); ("EKEYEXPIRED", 1112);
   ("ECOMM", 1113); ("EBADE", 1114); ("EHWPOISON", 1115); ("EBADRQC", 1116)].

(** The program's copy of the numbers. *)
Definition user_errors : list (string * Z) := errors.

(** ** Widths *)

(** The value of a register read as a signed number of [w] bits. *)
Definition signed (w x : Z) : Z := let y := wrap w x in if y <? 2 ^ (w - 1) then y else y - 2 ^ w.

Lemma signed_wrap v w x : 0 < v <= w -> - 2 ^ (v - 1) <= x < 2 ^ (v - 1) -> signed v (wrap w x) = x.
Proof.
  intros Hv Hx. assert (2 ^ v = 2 * 2 ^ (v - 1)) as E by (rewrite <- Z.pow_succ_r by lia; f_equal; lia).
  assert (wrap v (wrap w x) = wrap v x) as Ew.
  { unfold wrap. apply Z.mod_mod_divide. exists (2 ^ (w - v)). rewrite <- Z.pow_add_r by lia. f_equal. lia. }
  unfold signed. rewrite Ew. unfold wrap. destruct (Z.lt_ge_cases x 0).
  - replace (x mod 2 ^ v) with (x + 2 ^ v).
    + rewrite (proj2 (Z.ltb_ge _ _)) by lia. lia.
    + apply (Z.mod_unique _ _ (-1)); lia.
  - rewrite Z.mod_small by lia. rewrite (proj2 (Z.ltb_lt _ _)) by lia. done.
Qed.

(** ** Calls *)
Inductive call :=
| Exit (status : Z)
| Open (path : Z)
| Openat (dirfd path : Z)
| Close (fd : Z)
| Read (fd buf count : Z)
| Pread (fd buf count offset : Z)
| Write (fd buf count : Z)
| Pwrite (fd buf count offset : Z)
| Seek (fd offset : Z)
| Getcwd (buf size : Z)
| Chdir (path : Z)
| Mmap (hint length prot flags fd offset : Z).

Record registers := mkRegisters { rax : Z; rdi : Z; rsi : Z; rdx : Z; r10 : Z; r8 : Z; r9 : Z }.

(** *** The program's side: every argument becomes a [u64]. *)
Definition SYS_exit : Z := 0.
Definition SYS_open : Z := 1.
Definition SYS_openat : Z := 2.
Definition SYS_close : Z := 3.
Definition SYS_read : Z := 4.
Definition SYS_pread : Z := 5.
Definition SYS_write : Z := 6.
Definition SYS_pwrite : Z := 7.
Definition SYS_seek : Z := 8.
Definition SYS_getcwd : Z := 9.
Definition SYS_chdir : Z := 10.
Definition SYS_mmap : Z := 11.

(** The [syscall] stubs set the registers they have arguments for; [before] is
    what the others hold. *)
Definition syscall0 (before : registers) (sc : Z) : registers :=
  mkRegisters (u64 sc) (rdi before) (rsi before) (rdx before) (r10 before) (r8 before) (r9 before).
Definition syscall1 (b : registers) (sc a1 : Z) : registers :=
  mkRegisters (u64 sc) (u64 a1) (rsi b) (rdx b) (r10 b) (r8 b) (r9 b).
Definition syscall2 (b : registers) (sc a1 a2 : Z) : registers :=
  mkRegisters (u64 sc) (u64 a1) (u64 a2) (rdx b) (r10 b) (r8 b) (r9 b).
Definition syscall3 (b : registers) (sc a1 a2 a3 : Z) : registers :=
  mkRegisters (u64 sc) (u64 a1) (u64 a2) (u64 a3) (r10 b) (r8 b) (r9 b).
Definition syscall4 (b : registers) (sc a1 a2 a3 a4 : Z) : registers :=
  mkRegisters (u64 sc) (u64 a1) (u64 a2) (u64 a3) (u64 a4) (r8 b) (r9 b).
Definition syscall5 (b : registers) (sc a1 a2 a3 a4 a5 : Z) : registers :=
  mkRegisters (u64 sc) (u64 a1) (u64 a2) (u64 a3) (u64 a4) (u64 a5) (r9 b).
Definition syscall6 (b : registers) (sc a1 a2 a3 a4 a5 a6 : Z) : registers :=
  mkRegisters (u64 sc) (u64 a1) (u64 a2) (u64 a3) (u64 a4) (u64 a5) (u64 a6).

(** api.cpp *)
Definition request (b : registers) (c : call) : registers :=
  match c with
  | Exit status => syscall1 b SYS_exit status
  | Open path => syscall1 b SYS_open path
  | Openat dirfd path => syscall2 b SYS_openat dirfd path
  | Close fd => syscall1 b SYS_close fd
  | Read fd buf count => syscall3 b SYS_read fd buf count
  | Pread fd buf count offset => syscall4 b SYS_pread fd buf count offset
  | Write fd buf count => syscall3 b SYS_write fd buf count
  | Pwrite fd buf count offset => syscall4 b SYS_pwrite fd buf count offset
  | Seek fd offset => syscall2 b SYS_seek fd offset
  | Getcwd buf size => syscall2 b SYS_getcwd buf size
  | Chdir path => syscall1 b SYS_chdir path
  | Mmap hint length prot flags fd offset => syscall6 b SYS_mmap hint length prot flags fd offset
  end.

(** *** The kernel's side: the handlers, called by the C convention with R10 in
    the place of RCX, an [int] being the low half of its register. *)
Definition int_of (r : Z) : Z := signed 32 r.
Definition isize_of (r : Z) : Z := signed 64 r.

Definition syscall_table : list (registers -> call) :=
  [fun r => Exit (int_of (rdi r));
   fun r => Open (rdi r);
   fun r => Openat (int_of (rdi r)) (rsi r);
   fun r => Close (int_of (rdi r));
   fun r => Read (int_of (rdi r)) (rsi r) (rdx r);
   fun r => Pread (int_of (rdi r)) (rsi r) (rdx r) (r10 r);
   fun r => Write (int_of (rdi r)) (rsi r) (rdx r);
   fun r => Pwrite (int_of (rdi r)) (rsi r) (rdx r) (r10 r);
   fun r => Seek (int_of (rdi r)) (isize_of (rsi r));
   fun r => Getcwd (rdi r) (rsi r);
   fun r => Chdir (rdi r);
   fun r => Mmap (rdi r) (rsi r) (int_of (rdx r)) (int_of (r10 r)) (int_of (r8 r)) (r9 r)].

(** What the entry stub does with the number: the call, or the error in RAX. *)
Definition entry (r : registers) : call + Z :=
  if 12 <=? rax r then inr (u64 (- ENOSYS))
  else match zlookup syscall_table (rax r) with Some h => inl (h r) | None => inr 0 end.

(** The types of the parameters. *)
Definition int_range (x : Z) : Prop := - 2 ^ 31 <= x < 2 ^ 31.
Definition word_range (x : Z) : Prop := 0 <= x < 2 ^ 64.

Definition typed (c : call) : Prop :=
  match c with
  | Exit status => int_range status
  | Open path | Chdir path => word_range path
  | Openat dirfd path => int_range dirfd /\ word_range path
  | Close fd => int_range fd
  | Read fd buf count | Write fd buf count => int_range fd /\ word_range buf /\ word_range count
  | Pread fd buf count offset | Pwrite fd buf count offset =>
      int_range fd /\ word_range buf /\ word_range count /\ word_range offset
  | Seek fd offset => int_range fd /\ - 2 ^ 63 <= offset < 2 ^ 63
  | Getcwd buf size => word_range buf /\ word_range size
  | Mmap hint length prot flags fd offset =>
      word_range hint /\ word_range length /\ int_range prot /\ int_range flags /\ int_range fd /\ word_range offset
  end.

Lemma int_of_u64 x : int_range x -> int_of (u64 x) = x.
Proof. intros H. unfold int_of. apply signed_wrap; [lia|exact H]. Qed.

Lemma u64_word x : word_range x -> u64 x = x.
Proof. apply wrap_small. Qed.

#[export] Hint Rewrite int_of_u64 u64_word using assumption : fish.

Lemma entry_in_table r h :
  (12 <=? rax r) = false -> zlookup syscall_table (rax r) = Some h -> entry r = inl (h r).
Proof. intros H1 H2. unfold entry. by rewrite H1, H2. Qed.

(** C30. Every call the program makes reaches its own handler in the kernel with
    the arguments it was given, negative numbers included, whatever the other
    registers hold. *)
Theorem call_reaches_its_handler b c : typed c -> entry (request b c) = inl c.
Proof.
  intros Ht. destruct c; cbn in Ht; repeat match goal with H : _ /\ _ |- _ => destruct H end;
    cbn [request]; (etransitivity; [by eapply entry_in_table|]); cbn -[wrap]; unfold isize_of;
    rewrite ?signed_wrap by (done || lia); by autorewrite with fish.
Qed.

Lemma call_reaches_its_handler_witness :
  typed (Openat AT_FDCWD 0x401000) /\
  entry (request (mkRegisters 1 2 3 4 5 6 7) (Openat AT_FDCWD 0x401000)) = inl (Openat (-100) 0x401000).
Proof.
  split; [unfold typed, int_range, word_range, AT_FDCWD; lia|].
  apply (call_reaches_its_handler (mkRegisters 1 2 3 4 5 6 7) (Openat AT_FDCWD 0x401000)).
  unfold typed, int_range, word_range, AT_FDCWD. lia.
Defined.

(** A number past the table comes back as [-ENOSYS]. *)
Example unknown_number r : rax r = 12 -> entry r = inr (2 ^ 64 - 1051).
Proof. unfold entry. intros ->. reflexivity. Qed.

(** The error numbers the models use are the table's, and different. *)
Example errors_agree :
  (fun n => (list_to_map errors : gmap string Z) !! n) <$> ["ERANGE"; "EBADF"; "ENOENT"; "ENOSYS"; "ENOTDIR"]%string
  = [Some ERANGE; Some EBADF; Some ENOENT; Some ENOSYS; Some ENOTDIR].
Proof. vm_compute. reflexivity. Qed.
