(* ===== verification/User.v ===== *)
(** * userspace/test: the string routines and the buffered output of a program

    [m] is the memory the pointers of [memcpy] and [memmove] point into, which
    may overlap; a pointer is an offset in it.  The strings' routines and
    [vprintf] are the kernel's text again, so that files CString and Printf have
    their definitions.  What [write] does is a parameter. *)
From S2P Require Import Prelude CString Printf.

(** ** string.cpp *)
Fixpoint user_memcmp (a b : list Z) (size : nat) : Z :=
  match size with
  | O => 0
  | S n =>
      if deref a <? deref b then -1
      else if deref b <? deref a then 1
      else user_memcmp (List.tl a) (List.tl b) n
  end.

(** [dst[i] = src[i]] *)
Definition copy_byte (dst src i : Z) (m : list Z) : outcome (list Z) :=
  b ← of_option (zlookup m (src + i));
  _ ← of_option (zlookup m (dst + i));
  Ret (zinsert (dst + i) b m).

Definition user_memcpy (dst src size : Z) (m : list Z) : outcome (list Z) :=
  for_range (Z.to_nat size) 0 (copy_byte dst src) m.

(** [for (i = size; i != 0; i--)] *)
Fixpoint copy_down (n : nat) (dst src : Z) (m : list Z) : outcome (list Z) :=
  match n with
  | O => Ret m
  | S n => m ← copy_byte dst src (Z.of_nat n) m; copy_down n dst src m
  end.

Definition user_memmove (dst src size : Z) (m : list Z) : outcome (list Z) :=
  if dst <? src then for_range (Z.to_nat size) 0 (copy_byte dst src) m
  else copy_down (Z.to_nat size) dst src m.

Definition user_memset (dst value size : Z) (m : list Z) : outcome (list Z) :=
  for_range (Z.to_nat size) 0
    (fun i m => _ ← of_option (zlookup m (dst + i)); Ret (zinsert (dst + i) (u8 value) m)) m.

Definition user_strlen (str : cstring) : Z := strlen str.
Definition user_strcpy (dst : list Z) (off : Z) (src : cstring) : outcome (list Z) := strcpy dst off src.
Definition user_strcat (dst : list Z) (src : cstring) : outcome (list Z) := strcat dst src.
Definition user_strcmp (lhs rhs : cstring) : Z := strcmp lhs rhs.
Definition user_strncmp (lhs rhs : cstring) (count : nat) : Z := strncmp lhs rhs count.

(** ** memmove *)
Definition moved (dst src size : Z) (m m' : list Z) : Prop :=
  length m' = length m /\
  forall k, 0 <= k -> zlookup m' k = if (dst <=? k) && (k <? dst + size) then zlookup m (src + (k - dst)) else zlookup m k.

Lemma copy_byte_spec dst src i m b :
  0 <= dst + i < Z.of_nat (length m) -> zlookup m (src + i) = Some b ->
  copy_byte dst src i m = Ret (zinsert (dst + i) b m) /\
  (forall k, 0 <= k -> zlookup (zinsert (dst + i) b m) k = if k =? dst + i then Some b else zlookup m k).
Proof.
  intros Hd Hb. unfold copy_byte. rewrite Hb. ored. destruct (zlookup_is_Some m (dst + i) Hd) as [x ->]. ored.
  split; [done|]. intros k Hk. destruct (Z.eqb_spec k (dst + i)) as [->|Hne].
  - apply zlookup_zinsert_eq. lia.
  - apply zlookup_zinsert_ne; lia.
Qed.

Lemma copy_up_spec dst src size m :
  0 <= dst < src -> 0 <= size -> src + size <= Z.of_nat (length m) ->
  exists m', for_range (Z.to_nat size) 0 (copy_byte dst src) m = Ret m' /\ moved dst src size m m'.
Proof.
  intros Hd Hs Hr.
  destruct (for_range_inv (fun i m' => moved dst src i m m') (Z.to_nat size) 0 (copy_byte dst src) m) as (m' & E & Hm').
  - split; [done|]. intros k Hk. destruct (Z.leb_spec dst k), (Z.ltb_spec k (dst + 0)); (done || lia).
  - intros i m1 Hi [Hl Hk]. destruct (zlookup_is_Some m (src + i)) as [b Hb]; [lia|].
    assert (zlookup m1 (src + i) = Some b) as Hb1.
    { rewrite Hk by lia. by rewrite (proj2 (Z.ltb_ge (src + i) (dst + i))), andb_false_r by lia. }
    destruct (copy_byte_spec dst src i m1 b) as [-> Hz]; [lia|done|].
    eexists. split; [done|]. split; [by rewrite length_zinsert|]. intros k Hk0. rewrite Hz, Hk by done.
    destruct (Z.eqb_spec k (dst + i)) as [->|Hne].
    + rewrite (proj2 (Z.leb_le _ _)), (proj2 (Z.ltb_lt _ _)) by lia. cbn [andb]. rewrite <- Hb. f_equal. lia.
    + destruct (Z.leb_spec dst k), (Z.ltb_spec k (dst + i)), (Z.ltb_spec k (dst + (i + 1))); (done || lia).
  - exists m'. split; [done|]. by rewrite Z.add_0_l, Z2Nat.id in Hm' by lia.
Qed.

Lemma copy_down_spec dst src : forall n m m0,
  0 <= src <= dst -> dst + Z.of_nat n <= Z.of_nat (length m) -> length m = length m0 ->
  (forall k, 0 <= k < dst + Z.of_nat n -> zlookup m k = zlookup m0 k) ->
  exists m', copy_down n dst src m = Ret m' /\ length m' = length m0 /\
    forall k, 0 <= k -> zlookup m' k = if (dst <=? k) && (k <? dst + Z.of_nat n) then zlookup m0 (src + (k - dst)) else zlookup m k.
Proof.
  induction n as [|n IH]; intros m m0 Hd Hr Hl Hsame; cbn [copy_down].
  - exists m. split; [done|]. split; [done|]. intros k Hk.
    destruct (Z.leb_spec dst k), (Z.ltb_spec k (dst + Z.of_nat 0)); (done || lia).
  - destruct (zlookup_is_Some m (src + Z.of_nat n)) as [b Hb]; [lia|].
    destruct (copy_byte_spec dst src (Z.of_nat n) m b) as [-> Hz]; [lia|done|]. ored.
    destruct (IH (zinsert (dst + Z.of_nat n) b m) m0) as (m' & -> & Hl' & Hk').
    + done.
    + rewrite length_zinsert. lia.
    + by rewrite length_zinsert.
    + intros k Hk. rewrite Hz by lia. rewrite (proj2 (Z.eqb_neq _ _)) by lia. apply Hsame. lia.
    + exists m'. split; [done|]. split; [done|]. intros k Hk. rewrite Hk', Hz by done.
      destruct (Z.eqb_spec k (dst + Z.of_nat n)) as [->|Hne].
      * rewrite (proj2 (Z.ltb_ge (dst + Z.of_nat n) (dst + Z.of_nat n))), andb_false_r by lia.
        rewrite (proj2 (Z.leb_le _ _)), (proj2 (Z.ltb_lt _ _)) by lia. cbn [andb].
        rewrite <- Hb, Hsame by lia. f_equal. lia.
      * destruct (Z.leb_spec dst k), (Z.ltb_spec k (dst + Z.of_nat n)), (Z.ltb_spec k (dst + Z.of_nat (S n))); (done || lia).
Qed.

(** [memmove] copies between ranges of one memory whichever way they
    overlap: the destination holds what the source held, everything else is as
    before. *)
Theorem memmove_copies dst src size m :
  0 <= dst -> 0 <= src -> 0 <= size ->
  dst + size <= Z.of_nat (length m) -> src + size <= Z.of_nat (length m) ->
  exists m', user_memmove dst src size m = Ret m' /\ moved dst src size m m'.
Proof.
  intros Hd Hs Hz Hdr Hsr. unfold user_memmove. destruct (Z.ltb_spec dst src) as [Hlt|Hge].
  - by apply copy_up_spec.
  - destruct (copy_down_spec dst src (Z.to_nat size) m m) as (m' & E & Hl & Hk); [lia|lia|done|done|].
    rewrite Z2Nat.id in Hk by lia. by exists m'.
Qed.

(** ** print.cpp *)
Definition PRINT_BUFFER_SIZE : Z := 1024.

Section print.
Context {S : Type} (write : list Z -> S -> outcome S).

Record out := mkOut { print_buffer : list Z; print_buffer_index : Z; world : S }.

Definition flush_print_buffer (o : out) : outcome out :=
  if print_buffer_index o =? 0 then Ret o
  else
    w ← write (take (Z.to_nat (print_buffer_index o)) (print_buffer o)) (world o);
    Ret (mkOut (print_buffer o) 0 w).

Definition user_putchar (c : Z) (o : out) : outcome out :=
  _ ← of_option (zlookup (print_buffer o) (print_buffer_index o));
  let o := mkOut (zinsert (print_buffer_index o) c (print_buffer o)) (print_buffer_index o + 1) (world o) in
  if (print_buffer_index o =? PRINT_BUFFER_SIZE) || (c =? 10) then flush_print_buffer o else Ret o.

(** [puts], to the terminator, and a newline. *)
Definition user_puts (str : cstring) (o : out) : outcome out :=
  o ← puts user_putchar (take (Z.to_nat (strlen str)) str) o; user_putchar 10 o.

Definition user_vprintf (format : list Z) (args : list arg) (o : out) : outcome (out * Z) :=
  vprintf user_putchar format args o.

(** What is written and what stays in the buffer: a piece ends with a newline
    or when the buffer is full. *)
Fixpoint pieces (held cs : list Z) : list (list Z) * list Z :=
  match cs with
  | [] => ([], held)
  | c :: cs =>
      let held := held ++ [c] in
      if (Z.of_nat (length held) =? PRINT_BUFFER_SIZE) || (c =? 10)
      then let '(ps, rest) := pieces [] cs in (held :: ps, rest)
      else pieces held cs
  end.

Fixpoint write_all (ps : list (list Z)) (w : S) : outcome S :=
  match ps with [] => Ret w | p :: ps => w ← write p w; write_all ps w end.

(** The buffer holds [held]. *)
Record holds_text (o : out) (held : list Z) : Prop := {
  ht_length : Z.of_nat (length (print_buffer o)) = PRINT_BUFFER_SIZE;
  ht_index : print_buffer_index o = Z.of_nat (length held) /\ print_buffer_index o < PRINT_BUFFER_SIZE;
  ht_held : take (length held) (print_buffer o) = held
}.

Lemma pieces_concat cs : forall held, let '(ps, rest) := pieces held cs in concat ps ++ rest = held ++ cs.
Proof.
  induction cs as [|c cs IH]; intros held; cbn [pieces]; [by rewrite app_nil_r|].
  destruct (_ || _).
  - specialize (IH []). destruct (pieces [] cs) as [ps rest]. cbn [concat]. by rewrite <- app_assoc, IH, <- app_assoc.
  - specialize (IH (held ++ [c])). destruct (pieces (held ++ [c]) cs) as [ps rest]. by rewrite IH, <- app_assoc.
Qed.

Lemma pieces_short cs : forall held, Z.of_nat (length held) < PRINT_BUFFER_SIZE ->
  Forall (fun p => 0 < Z.of_nat (length p) <= PRINT_BUFFER_SIZE) (pieces held cs).1 /\
  Z.of_nat (length (pieces held cs).2) < PRINT_BUFFER_SIZE.
Proof.
  induction cs as [|c cs IH]; intros held Hh; cbn [pieces]; [by split; [constructor|]|].
  destruct (Z.eqb_spec (Z.of_nat (length (held ++ [c]))) PRINT_BUFFER_SIZE) as [He|He]; cbn [orb];
    [|destruct (c =? 10)]; rewrite length_app in He; cbn in He.
  - specialize (IH [] ltac:(done)). destruct (pieces [] cs) as [ps rest]. cbn [fst snd] in *. destruct IH as [H1 H2].
    split; [|done]. constructor; [|done]. rewrite length_app. cbn. lia.
  - specialize (IH [] ltac:(done)). destruct (pieces [] cs) as [ps rest]. cbn [fst snd] in *. destruct IH as [H1 H2].
    split; [|done]. constructor; [|done]. rewrite length_app. cbn. lia.
  - apply IH. rewrite length_app. cbn. lia.
Qed.

Lemma putchar_spec o held c :
  holds_text o held ->
  exists b, user_putchar c o =
    (let text := held ++ [c] in
     if (Z.of_nat (length text) =? PRINT_BUFFER_SIZE) || (c =? 10)
     then w ← write text (world o); Ret (mkOut b 0 w)
     else Ret (mkOut b (Z.of_nat (length text)) (world o))) /\
    Z.of_nat (length b) = PRINT_BUFFER_SIZE /\ take (length held + 1) b = held ++ [c].
Proof.
  intros [Hl [Hi Hlt] Hh]. unfold user_putchar. destruct (zlookup_is_Some (print_buffer o) (print_buffer_index o)) as [x ->]; [lia|].
  ored. exists (zinsert (print_buffer_index o) c (print_buffer o)). cbn [print_buffer print_buffer_index world].
  assert (take (length held + 1) (zinsert (print_buffer_index o) c (print_buffer o)) = held ++ [c]) as Ht.
  { unfold zinsert. rewrite Hi, Nat2Z.id, Nat.add_1_r. erewrite take_S_r.
    - by rewrite take_insert_ge, Hh by done.
    - rewrite list_lookup_insert_eq; [done|lia]. }
  split; [|split; [by rewrite length_zinsert|done]]. cbv zeta. rewrite length_app. cbn [length].
  rewrite Hi. replace (Z.of_nat (length held) + 1) with (Z.of_nat (length held + 1)%nat) by lia.
  destruct (_ || _); [|done]. unfold flush_print_buffer. cbn [print_buffer print_buffer_index world].
  rewrite (proj2 (Z.eqb_neq _ 0)) by lia. rewrite Nat2Z.id. rewrite <- Hi, Ht. done.
Qed.

Lemma puts_pieces cs : forall o held,
  holds_text o held ->
  match write_all (pieces held cs).1 (world o) with
  | Ret w => exists o', puts user_putchar cs o = Ret o' /\ holds_text o' (pieces held cs).2 /\ world o' = w
  | Panic => puts user_putchar cs o = Panic
  | Fault => puts user_putchar cs o = Fault
  | Diverge => puts user_putchar cs o = Diverge
  end.
Proof.
  induction cs as [|c cs IH]; intros o held Ho; cbn [pieces puts].
  - cbn. by exists o.
  - destruct (putchar_spec o held c Ho) as (b & -> & Hb & Ht). cbv zeta. destruct Ho as [Hl [Hi Hlt] Hh].
    destruct (_ || _) eqn:E.
    + specialize (fun w => IH (mkOut b 0 w) []). destruct (pieces [] cs) as [ps rest]. cbn [fst snd write_all] in *.
      destruct (write (held ++ [c]) (world o)) as [w| | |]; [|done..]. ored. apply IH. split; cbn; [done|unfold PRINT_BUFFER_SIZE in *; lia|done].
    + ored. apply (IH (mkOut b (Z.of_nat (length (held ++ [c]))) (world o)) (held ++ [c])).
      apply orb_false_elim in E as [E%Z.eqb_neq _]. rewrite length_app in E. cbn [length] in E.
      split; cbn [print_buffer print_buffer_index]; rewrite ?length_app; cbn [length]; [done|lia|exact Ht].
Qed.

(** What a program prints is written, nothing lost, doubled or reordered:
    printing with a format of the documented shape and then flushing writes, in
    pieces that are not empty and fit the buffer, exactly the characters the
    format prescribes, after those that were still in the buffer. *)
Theorem printed_then_flushed ps args o out0 held w' :
  forallb piece_ok ps = true -> output ps args = Some o -> holds_text out0 held ->
  let '(whole, rest) := pieces held o in
  write_all (whole ++ (if bool_decide (rest = []) then [] else [rest])) (world out0) = Ret w' ->
  concat (whole ++ (if bool_decide (rest = []) then [] else [rest])) = held ++ o /\
  Forall (fun p => 0 < Z.of_nat (length p) <= PRINT_BUFFER_SIZE) (whole ++ (if bool_decide (rest = []) then [] else [rest])) /\
  exists o1 o2, user_vprintf (render ps) args out0 = Ret (o1, Z.of_nat (length o)) /\
    flush_print_buffer o1 = Ret o2 /\ holds_text o2 [] /\ world o2 = w'.
Proof.
  intros Hok Ho Hh. pose proof (puts_pieces o out0 held Hh) as Hp. pose proof (pieces_concat o held) as Hc.
  pose proof (pieces_short o held) as Hs. destruct (pieces held o) as [whole rest] eqn:Epieces. cbn [fst snd] in *.
  intros Hw. destruct Hs as [Hs1 Hs2]; [destruct Hh as [_ [Hi ?] _]; lia|].
  split; [rewrite concat_app, <- Hc; case_bool_decide as E; [by rewrite E|cbn; by rewrite app_nil_r]|].
  split; [apply Forall_app; split; [done|]; case_bool_decide as E; constructor; [destruct rest; [done|cbn in *; lia]|constructor]|].
  assert (exists w1, write_all whole (world out0) = Ret w1 /\
    write_all (if bool_decide (rest = []) then [] else [rest]) w1 = Ret w') as (w1 & E1 & E2).
  { clear -Hw. revert Hw. generalize (world out0). induction whole as [|p whole IH]; intros w Hw; [by exists w|].
    cbn [app write_all] in *. destruct (write p w) as [w2| | |]; [|done..]. ored. by apply IH. }
  rewrite E1 in Hp. destruct Hp as (o1 & Eputs & [Hl1 [Hi1 Hlt1] Hh1] & Ew1).
  unfold user_vprintf. rewrite (vprintf_puts user_putchar ps args o) by done. rewrite Eputs. ored. exists o1.
  unfold flush_print_buffer. rewrite Hi1, Ew1. case_bool_decide as E.
  - subst rest. cbn in E2. injection E2 as ->. exists o1. split; [done|]. split; [done|]. split; [by split|done].
  - rewrite (proj2 (Z.eqb_neq _ 0)) by (destruct rest; [done|cbn; lia]). rewrite Nat2Z.id, Hh1.
    cbn [write_all] in E2. destruct (write rest w1) as [w2| | |] eqn:Ew; [|done..]. ored.
    injection E2 as ->. eexists. split; [done|]. split; [done|]. split; [|done]. split; cbn; [done|done|done].
Qed.
End print.

(** ** test.cpp: the commands of the shell *)
Inductive command := Help | ExitShell | Cwd | OpenatTest | Fd | MmapTest | Invalid.

Definition command_of (input : cstring) : command :=
  if user_strcmp input (lit "help" ++ [10]) =? 0 then Help
  else if user_strcmp input (lit "exit" ++ [10]) =? 0 then ExitShell
  else if user_strcmp input (lit "cwd" ++ [10]) =? 0 then Cwd
  else if user_strcmp input (lit "openat" ++ [10]) =? 0 then OpenatTest
  else if user_strcmp input (lit "fd" ++ [10]) =? 0 then Fd
  else if user_strcmp input (lit "mmap" ++ [10]) =? 0 then MmapTest
  else Invalid.

(** ** Concrete inputs *)
Lemma memmove_copies_witness :
  exists m', user_memmove 2 0 4 [1; 2; 3; 4; 5; 6; 7] = Ret m' /\ moved 2 0 4 [1; 2; 3; 4; 5; 6; 7] m'.
Proof. apply (memmove_copies 2 0 4 [1; 2; 3; 4; 5; 6; 7]); cbn; lia. Defined.

(** The same with [memcpy], which does not mind the overlap. *)
Example memcpy_smears : user_memcpy 2 0 4 [1; 2; 3; 4; 5; 6; 7] = Ret [1; 2; 1; 2; 1; 2; 7].
Proof. reflexivity. Qed.

Definition keep_pieces (p : list Z) (w : list (list Z)) : outcome (list (list Z)) := Ret (w ++ [p]).
Definition out0 : out := mkOut (replicate 1024 0) 0 ([] : list (list Z)).

Lemma out0_empty : holds_text out0 [].
Proof. split; [reflexivity|split; [reflexivity|reflexivity]|reflexivity]. Qed.

Lemma printed_then_flushed_witness :
  exists o1 o2, user_vprintf keep_pieces (lit "fd %d" ++ [10] ++ lit "> ") [AInt 4] out0 = Ret (o1, 7) /\
    flush_print_buffer keep_pieces o1 = Ret o2 /\ holds_text o2 [] /\ world o2 = [lit "fd 4" ++ [10]; lit "> "].
Proof.
  destruct (printed_then_flushed keep_pieces [PChar 102; PChar 100; PChar 32; PDec false 0; PChar 10; PChar 62; PChar 32]
    [AInt 4] (lit "fd 4" ++ [10] ++ lit "> ") out0 [] [lit "fd 4" ++ [10]; lit "> "] eq_refl eq_refl out0_empty eq_refl)
    as (_ & _ & o1 & o2 & H1 & H2 & H3 & H4).
  exists o1, o2. split; [exact H1|]. split; [exact H2|]. split; [exact H3|exact H4].
Defined.

Example commands : command_of (lit "cwd" ++ [10]) = Cwd /\ command_of (lit "cwd") = Invalid.
Proof. done. Qed.
