(* ===== verification/TestProgram.v ===== *)
(** * userspace/test/src/test.cpp: the test program, on the system calls

    [process] is what the system calls of one task act on: the state of file Vfs,
    the interrupts that will come while the keyboard is read, and the task's
    memory.  The program's own buffer is that of file User; its local arrays are
    lists, its mapped memory is reached through file Demand.  [new_range] is the
    address the kernel's [new] gives a range object, [main_addr] the program's
    [&main].  Arguments go from the program to the handlers as file Syscall
    shows. *)
From S2P Require Import Prelude Algorithm Bitmap Pmm CString HashMap Vector Keyboard Printf List Vfs Descriptors Tmpfs Mkfs Paging AddressSpace Demand Syscall User.

Definition line (s : string) : cstring := lit s ++ [10].

Section TestProgram.
Context {D : Type} (filesystem : Z -> option (FileSystem D)).
Context {S : Type} (putchar : Z -> S -> outcome S).
Context {A : Type} `{PageAllocator A} (hhdm : Z) (new_range : vm A -> Z) (main_addr : Z).

Record process := mkProcess {
  w_sys : sys D S;
  w_incoming : list Z;
  w_space : vm A;
  w_map : Pagemap;
  w_anon_base : Z }.

Definition set_sys (s : sys D S) (w : process) : process :=
  mkProcess s (w_incoming w) (w_space w) (w_map w) (w_anon_base w).
Definition set_task (t : Task) (w : process) : process :=
  let s := w_sys w in set_sys (mkSys (files s) t (keyboard s) (screen s)) w.
Definition set_space (v : vm A) (w : process) : process :=
  mkProcess (w_sys w) (w_incoming w) v (w_map w) (w_anon_base w).

(** ** api.cpp over the handlers *)
Definition sys_write (fd : Z) (bytes : list Z) (w : process) : outcome process :=
  s ← syscall_write filesystem putchar fd bytes (Z.of_nat (length bytes)) (w_sys w); Ret (set_sys s w).

(** [write(stdout, ...)] of [flush_print_buffer] *)
Definition stdout_write : list Z -> process -> outcome process := sys_write 1.

Abbreviation program := (@out process).
Implicit Types (o : program).

Definition with_world (w : process) o : program := mkOut (print_buffer o) (print_buffer_index o) w.

(** Calls that change the task, and those that change the whole state. *)
Definition on_task {R : Type} (f : vfs D -> Task -> outcome (Task * R)) o : outcome (R * program) :=
  let w := world o in
  '(t, r) ← f (files (w_sys w)) (task (w_sys w)); Ret (r, with_world (set_task t w) o).
Definition on_sys (f : sys D S -> outcome (sys D S)) o : outcome program :=
  s ← f (w_sys (world o)); Ret (with_world (set_sys s (world o)) o).

Definition open (path : cstring) o : outcome (Z * program) :=
  '(r, o) ← on_task (syscall_open path) o; Ret (signed 32 r, o).
Definition openat (dirfd : Z) (path : cstring) o : outcome (Z * program) :=
  '(r, o) ← on_task (syscall_openat dirfd path) o; Ret (signed 32 r, o).
Definition close (fd : Z) o : outcome program :=
  '(_, o) ← on_task (fun _ t => t ← syscall_close fd t; Ret (t, tt)) o; Ret o.
Definition seek (fd offset : Z) o : outcome program :=
  '(_, o) ← on_task (fun _ t => t ← syscall_seek fd offset t; Ret (t, tt)) o; Ret o.
Definition chdir (path : cstring) o : outcome (Z * program) := on_task (syscall_chdir path) o.
Definition write (fd : Z) (bytes : list Z) o : outcome program :=
  on_sys (syscall_write filesystem putchar fd bytes (Z.of_nat (length bytes))) o.
Definition pwrite (fd : Z) (bytes : list Z) (offset : Z) o : outcome program :=
  on_sys (syscall_pwrite filesystem fd bytes (Z.of_nat (length bytes)) offset) o.

(** Bytes stored at the start of a local array.  A byte of a file that nobody
    wrote has no value. *)
Definition overlay (bytes : list (option Z)) (buf : list Z) : outcome (list Z) :=
  bs ← mapM of_option bytes;
  if Z.of_nat (length bs) <=? Z.of_nat (length buf) then Ret (bs ++ drop (length bs) buf) else Fault.

Definition read (fd : Z) (buf : list Z) (count : Z) o : outcome (list Z * program) :=
  let w := world o in
  '(bytes, incoming, s) ← syscall_read filesystem fd count (w_incoming w) (w_sys w);
  buf ← overlay bytes buf;
  Ret (buf, with_world (mkProcess s incoming (w_space w) (w_map w) (w_anon_base w)) o).
Definition pread (fd : Z) (buf : list Z) (count offset : Z) o : outcome (list Z) :=
  bytes ← syscall_pread filesystem fd count offset (w_sys (world o)); overlay bytes buf.
Definition getcwd (buf : list Z) (size : Z) o : outcome (list Z) :=
  '(bytes, _) ← syscall_getcwd size (files (w_sys (world o))) (task (w_sys (world o)));
  overlay (Some <$> (bytes : list Z)) buf.

Definition mmap (length prot flags : Z) o : outcome (Z * program) :=
  let w := world o in
  '(r, base, v) ← syscall_mmap (new_range (w_space w)) (w_map w) (w_anon_base w) length prot flags (w_space w);
  Ret (signed 64 r, with_world (mkProcess (w_sys w) (w_incoming w) v (w_map w) base) o).

Definition printf (format : list Z) (args : list arg) o : outcome program :=
  '(o, _) ← user_vprintf stdout_write format args o; Ret o.

(** ** Integers in mapped memory: an [int] is half a word *)
Definition load_int (a : Z) o : outcome (Z * program) :=
  let w := world o in
  '(x, v) ← load hhdm true (w_map w) (8 * (a / 8)) (w_space w);
  Ret (signed 32 (half a x), with_world (set_space v w) o).
Definition store_int (a x : Z) o : outcome program :=
  let w := world o in
  v ← update hhdm true (w_map w) (8 * (a / 8)) (set_half a x) (w_space w);
  Ret (with_world (set_space v w) o).

(** ** The tests *)
Definition print_cwd o : outcome (list Z * program) :=
  cwd ← getcwd (replicate 64 0) 64 o;
  o ← printf (line "cwd: %s") [AStr cwd] o;
  Ret (cwd, o).

Definition test_cwd o : outcome program :=
  '(_, o) ← print_cwd o;
  '(_, o) ← chdir (lit "./bin/") o;
  '(cwd, o) ← print_cwd o;
  '(fd, o) ← open (lit "test") o;
  '(buf, o) ← read fd (replicate 4 0) 4 o;
  o ← (if user_memcmp buf (127 :: lit "ELF") 4 =? 0
       then printf (line "%s/test is indeed an ELF binary") [AStr cwd] o else Ret o);
  o ← close fd o;
  '(_, o) ← chdir (lit "..") o;
  '(_, o) ← print_cwd o;
  Ret o.

Definition openat_text : cstring :=
  line "hello world this is a long string that a fish will put through a file descriptor into this file that exists in this tempfs ok bye lol".

Definition test_openat o : outcome program :=
  '(hello_fd, o) ← open (lit "hello/") o;
  o ← printf (line "fd %d is the hello directory") [AInt hello_fd] o;
  '(world_fd, o) ← openat hello_fd (lit "world.txt") o;
  o ← pwrite world_fd openat_text 0 o;
  buf ← pread world_fd (replicate 6 0) 6 39 o;
  o ← printf (line "%.*s") [AInt 6; AStr buf] o;
  close world_fd o.

Definition fd_path : cstring := lit "/./hello/.././.././test.txt".

Definition test_fd o : outcome program :=
  '(test_fd, o) ← open fd_path o;
  o ← write test_fd (lit "Hello") o;
  o ← write test_fd (lit ", ") o;
  o ← write test_fd (lit "world!") o;
  o ← seek test_fd 0 o;
  '(buf, o) ← read test_fd (replicate 13 0) 13 o;
  o ← printf (line "%.*s") [AInt 13; AStr buf] o;
  close test_fd o.

(** [for (int i = first; i < last; i++) ptr[i] = i * 10;] *)
Definition fill_ints (ptr first last : Z) o : outcome program :=
  for_range (Z.to_nat (last - first)) first (fun i o => store_int (ptr + 4 * i) (i * 10) o) o.

(** The loop that looks for a wrong element; [true]: there is none. *)
Fixpoint check_ints (n : nat) (ptr i : Z) o : outcome (bool * program) :=
  match n with
  | O => Ret (true, o)
  | Datatypes.S n =>
      '(x, o) ← load_int (ptr + 4 * i) o;
      if negb (x =? i * 10) then Ret (false, o) else check_ints n ptr (i + 1) o
  end.

(** One of the two blocks of [test_mmap]; [false]: the function returns. *)
Definition mmap_block (title : cstring) (size first last : Z) o : outcome (bool * program) :=
  o ← printf title [] o;
  '(ret, o) ← mmap size 3 (Z.lor MAP_PRIVATE MAP_ANONYMOUS) o;
  if ret <? 0 then o ← printf (line "mmap fail") [] o; Ret (false, o)
  else
    o ← fill_ints ret first last o;
    o ← printf (line "checking") [] o;
    '(good, o) ← check_ints (Z.to_nat (last - first)) ret first o;
    if good : bool then o ← printf (line "done") [] o; Ret (true, o)
    else o ← printf (line "incorrect") [] o; Ret (false, o).

Definition MIB : Z := 1024 * 1024.

Definition test_mmap o : outcome program :=
  '(go_on, o) ← mmap_block (line "mmapping 64 MiB of memory and writing it") (MIB * 16 * 4) 0 (MIB * 16) o;
  if go_on : bool then
    '(_, o) ← mmap_block (line "mmapping 1 GiB of memory and writing only 4 MiB of it")
                (1024 * MIB) (MIB * 1 * 5) (MIB * 1 * 6) o;
    Ret o
  else Ret o.

(** ** The shell *)

(** The loop of [main]; [fuel] bounds the commands read. *)
Fixpoint shell (fuel : nat) o : outcome program :=
  match fuel with
  | O => Diverge
  | Datatypes.S fuel =>
      o ← printf (lit "> ") [] o;
      o ← flush_print_buffer stdout_write o;
      '(input, o) ← read 0 (replicate 256 0) 255 o;
      match command_of input with
      | Help => o ← printf (line "exit" ++ line "cwd" ++ line "openat" ++ line "fd" ++ line "mmap") [] o; shell fuel o
      | ExitShell => printf (line "goodbye") [] o
      | Cwd => o ← test_cwd o; shell fuel o
      | OpenatTest => o ← test_openat o; shell fuel o
      | Fd => o ← test_fd o; shell fuel o
      | MmapTest => o ← test_mmap o; shell fuel o
      | Invalid => o ← printf (line "invalid command") [] o; shell fuel o
      end
  end.

Definition main (fuel : nat) o : outcome program :=
  o ← printf (line "Hello from userspace!") [] o;
  o ← printf (line "Address of main: %#lX") [AInt main_addr] o;
  o ← printf (line "Type 'help' to list tests") [] o;
  shell fuel o.

(** [_start] up to its call of [exit], with the status. *)
Definition program_start (fuel : nat) o : outcome (Z * program) :=
  o ← main fuel o; o ← flush_print_buffer stdout_write o; Ret (0, o).

(** ** What the tests do

    The screen takes every character; [show] says what it makes of one. *)
Section spec.
Context (F : FileSystem D) `{!FileContents F} (show : Z -> S -> S).
Hypothesis screen_shows : forall c s, putchar c s = Ret (show c s).
Implicit Types (l : table).

Definition shown (cs : list Z) (s : S) : S := fold_left (fun s c => show c s) cs s.
Definition on_screen (cs : list Z) (w : process) : process :=
  let s := w_sys w in set_sys (mkSys (files s) (task s) (keyboard s) (shown cs (screen s))) w.

Lemma puts_shown cs s : puts putchar cs s = Ret (shown cs s).
Proof. revert s. induction cs as [|c cs IH]; intros s; cbn [puts]; [done|]. rewrite screen_shows. ored. apply IH. Qed.

(** Nothing waits in the program's buffer, the kernel's table is [l], and the
    numbers 0 and 1 are the keyboard and the screen. *)
Record ready o l : Prop := {
  rd_flushed : holds_text o [];
  rd_table : fds_ok (task (w_sys (world o))) l;
  rd_std : exists d0 d1, zlookup l 0 = Some (Some d0) /\ zlookup l 1 = Some (Some d1) }.

Lemma stdout_write_spec l bytes w :
  fds_ok (task (w_sys w)) l -> is_Some (zlookup l 1) -> 0 < Z.of_nat (length bytes) < 2 ^ 31 ->
  stdout_write bytes w = Ret (on_screen bytes w).
Proof.
  intros Hok [d Hd] Hlen. unfold stdout_write, sys_write, syscall_write.
  destruct (not_bad_fd _ _ _ _ Hok Hd) as [-> _]. cbn [Z.eqb Pos.eqb].
  rewrite (wrap_small 32), (proj2 (Z.ltb_lt _ _)) by lia.
  change (lit "%.*s") with (render [PStrN]).
  rewrite (vprintf_puts putchar [PStrN] _ bytes); [by rewrite puts_shown|done|].
  cbn [output output_piece]. rewrite wrap_small by lia. rewrite bool_decide_true by lia.
  rewrite Nat2Z.id, firstn_all. cbn. by rewrite app_nil_r.
Qed.

Lemma pieces_line t : forall held,
  (length held + length t < 1023)%nat -> 10 ∉ t -> pieces held (t ++ [10]) = ([held ++ t ++ [10]], []).
Proof.
  induction t as [|c t IH]; intros held Hl Ht; cbn [app pieces].
  - by rewrite orb_true_r.
  - apply not_elem_of_cons in Ht as [Hc Ht]. cbn [length] in Hl.
    rewrite (proj2 (Z.eqb_neq c 10)) by done. rewrite (proj2 (Z.eqb_neq _ PRINT_BUFFER_SIZE)).
    + cbn [orb]. rewrite IH; [by rewrite <- app_assoc|rewrite length_app; cbn; lia|done].
    + rewrite length_app. unfold PRINT_BUFFER_SIZE. cbn. lia.
Qed.

(** A line printed with an empty buffer is on the screen at once. *)
Lemma printf_line ps args t o l :
  ready o l -> forallb piece_ok ps = true -> output ps args = Some (t ++ [10]) -> 10 ∉ t -> (length t < 1023)%nat ->
  exists o', printf (render ps) args o = Ret o' /\ world o' = on_screen (t ++ [10]) (world o) /\ ready o' l.
Proof.
  intros [Hh Hok Hstd] Hps Hout Ht Hlen. unfold printf, user_vprintf.
  rewrite (vprintf_puts _ ps args (t ++ [10])) by done.
  pose proof (puts_pieces stdout_write (t ++ [10]) o [] Hh) as Hp.
  rewrite (pieces_line t []) in Hp by (done || (cbn; lia)). cbn [fst snd write_all app] in Hp.
  pose proof Hstd as (d0 & d1 & _ & H1).
  rewrite (stdout_write_spec l) in Hp; [|done|by rewrite H1|rewrite length_app; cbn; lia].
  destruct Hp as (o' & -> & Hh' & Ew). ored. exists o'. split; [done|]. split; [done|].
  split; [done|by rewrite Ew|done].
Qed.

Lemma ready_world o w l : ready o l -> fds_ok (task (w_sys w)) l -> ready (with_world w o) l.
Proof. intros [Hh _ Hstd] Hok. split; [by destruct Hh as [? [? ?] ?]; split|done|done]. Qed.

Lemma overlay_some bs buf :
  (length bs <= length buf)%nat -> overlay (Some <$> bs) buf = Ret (bs ++ drop (length bs) buf).
Proof.
  intros Hl. unfold overlay. assert (mapM of_option (Some <$> bs) = Ret bs) as ->.
  { clear. induction bs as [|b bs IH]; [done|]. cbn. cbn in IH. by rewrite IH. }
  ored. by rewrite (proj2 (Z.leb_le _ _)) by lia.
Qed.
(** *** Through a descriptor *)
Abbreviation the_sys o := (w_sys (world o)).
Abbreviation contents_of o := (contents (files (the_sys o))).
Abbreviation names o l := (names_file filesystem F (the_sys o) l).

Lemma std_open l l' fd d : 
  opened l l' fd d -> (exists d0 d1, zlookup l 0 = Some (Some d0) /\ zlookup l 1 = Some (Some d1)) ->
  1 < fd /\ exists d0 d1, zlookup l' 0 = Some (Some d0) /\ zlookup l' 1 = Some (Some d1).
Proof.
  intros (Hfd & Hfree & _ & Hother) (d0 & d1 & H0 & H1).
  assert (fd <> 0 /\ fd <> 1) as [??] by (split; intros ->; destruct Hfree; congruence).
  split; [lia|]. exists d0, d1. by rewrite !Hother by lia.
Qed.

Lemma std_other l fd x :
  1 < fd -> (exists d0 d1, zlookup l 0 = Some (Some d0) /\ zlookup l 1 = Some (Some d1)) ->
  exists d0 d1, zlookup (zinsert fd x l) 0 = Some (Some d0) /\ zlookup (zinsert fd x l) 1 = Some (Some d1).
Proof. intros Hfd (d0 & d1 & H0 & H1). exists d0, d1. by rewrite !zlookup_zinsert_ne by lia. Qed.

Lemma open_spec path start r o l :
  ready o l -> Vector.m_capacity (file_descriptors (task (the_sys o))) < 2 ^ 30 ->
  starting_point AT_FDCWD path (files (the_sys o)) (task (the_sys o)) = Ret (inl start) ->
  path_to_node (files (the_sys o)) path start = Ret r -> target r <> 0 ->
  exists fd t l', open path o = Ret (fd, with_world (set_task t (world o)) o) /\
    ready (with_world (set_task t (world o)) o) l' /\ opened l l' fd (mkFileDescriptor (target r) 0).
Proof.
  intros Hr Hcap Hs Hp Ht. pose proof (rd_table _ _ Hr) as Hok. unfold open, on_task, syscall_open, openat_inner.
  rewrite Hs. ored. rewrite Hp. ored. rewrite (proj2 (Z.eqb_neq _ 0)) by done.
  destruct (allocate_set_spec _ l (mkFileDescriptor (target r) 0) Hok ltac:(lia))
    as (t1 & fd & t2 & l' & -> & Hset & Hok' & Ho & _). ored. rewrite Hset. ored.
  destruct (std_open _ _ _ _ Ho (rd_std _ _ Hr)) as [Hfd Hstd'].
  exists fd, t2, l'. split; [|split; [|done]].
  - pose proof Hok as [Hv _ _ _]. pose proof (holds_size _ _ Hv). pose proof (holds_bounds _ _ Hv).
    destruct Ho as (Hrange & _). unfold signed. rewrite wrap_small by lia. by rewrite (proj2 (Z.ltb_lt _ _)) by lia.
  - split; [|done|done]. by destruct (rd_flushed _ _ Hr) as [? [? ?] ?].
Qed.

Lemma write_step o l fd p c b bytes :
  ready o l -> names o l fd p c b -> 0 <= c -> c + Z.of_nat (length bytes) < 2 ^ 64 ->
  exists o', let l' := at_cursor fd p (c + Z.of_nat (length bytes)) l in
    write fd bytes o = Ret o' /\ ready o' l' /\ names o' l' fd p (c + Z.of_nat (length bytes)) (splice b c bytes) /\
    (forall q, q <> p -> contents_of o' q = contents_of o q) /\ screen (the_sys o') = screen (the_sys o).
Proof.
  intros Hr Hn Hc Hov. cbv zeta. unfold write, on_sys.
  destruct (write_through filesystem F putchar (the_sys o) l fd p c b bytes (Z.of_nat (length bytes)) (rd_table _ _ Hr) Hn Hc
    ltac:(lia) Hov) as (s' & -> & Hok' & Hn' & Hcont & _ & Hscr & _). ored.
  rewrite Nat2Z.id, firstn_all in Hn'. eexists. split; [done|]. split; [|done].
  split; [by destruct (rd_flushed _ _ Hr) as [? [? ?] ?]|done|]. apply std_other; [apply Hn|apply Hr].
Qed.

Lemma seek_step o l fd p c c' b :
  ready o l -> names o l fd p c b -> 0 <= c' < 2 ^ 64 ->
  exists o', seek fd c' o = Ret o' /\ ready o' (at_cursor fd p c' l) /\ names o' (at_cursor fd p c' l) fd p c' b /\
    files (the_sys o') = files (the_sys o) /\ screen (the_sys o') = screen (the_sys o).
Proof.
  intros Hr Hn Hc. pose proof (rd_table _ _ Hr) as Hok. pose proof Hn as (Hfd & Hl & _). unfold seek, on_task, syscall_seek.
  rewrite (descriptor_spec _ l fd Hok), Hl. cbn [default from_option id]. ored.
  destruct (advance_spec _ l fd (c' - c) _ Hok Hl) as (t' & E & _ & Hok'). unfold advance in E. cbn [node cursor] in *.
  replace (c + (c' - c)) with c' in * by lia. rewrite E. ored. rewrite wrap_small in Hok' by lia.
  eexists. split; [done|]. split; [|split; [by apply (names_file_moved _ _ _ _ _ _ c)|done]].
  split; [by destruct (rd_flushed _ _ Hr) as [? [? ?] ?]|done|]. apply std_other; [done|apply Hr].
Qed.

Lemma read_step o l fd p b bytes buf :
  ready o l -> names o l fd p 0 b -> take (length bytes) b = Some <$> bytes -> length buf = length bytes ->
  Z.of_nat (length bytes) < 2 ^ 64 ->
  exists o', let l' := at_cursor fd p (Z.of_nat (length bytes)) l in
    read fd buf (Z.of_nat (length bytes)) o = Ret (bytes, o') /\ ready o' l' /\
    files (the_sys o') = files (the_sys o) /\ screen (the_sys o') = screen (the_sys o).
Proof.
  intros Hr Hn Hb Hbuf Hov. cbv zeta. unfold read.
  destruct (read_through filesystem F (the_sys o) l fd p 0 b (Z.of_nat (length bytes)) (w_incoming (world o)) (rd_table _ _ Hr) Hn
    ltac:(lia) ltac:(lia) Hov) as (t' & -> & Hok' & _). ored.
  change (drop (Z.to_nat 0) b) with b. rewrite Nat2Z.id, Hb, overlay_some by lia. ored. rewrite drop_ge, app_nil_r by lia.
  eexists. split; [done|]. split; [|done].
  split; [by destruct (rd_flushed _ _ Hr) as [? [? ?] ?]|done|]. apply std_other; [apply Hn|apply Hr].
Qed.

Lemma close_step o l fd d :
  ready o l -> 1 < fd -> zlookup l fd = Some (Some d) ->
  exists o', close fd o = Ret o' /\ ready o' (zinsert fd None l) /\
    files (the_sys o') = files (the_sys o) /\ screen (the_sys o') = screen (the_sys o).
Proof.
  intros Hr Hfd Hl. unfold close, on_task. destruct (close_spec _ l fd d (rd_table _ _ Hr) Hl) as (t' & -> & Hok' & _). ored.
  eexists. split; [done|]. split; [|done].
  split; [by destruct (rd_flushed _ _ Hr) as [? [? ?] ?]|done|]. apply std_other; [done|apply Hr].
Qed.
(** C18. The program, its library, the system calls and the file system work
    together: on any file system that keeps its contents, the test [fd] writes
    its three pieces through one descriptor, goes back, reads them in one
    piece and has [Hello, world!] on the screen; the file holds the text over
    what it held, no other file changes, and the descriptor is given back. *)
Theorem fd_test_says_hello o l r b n :
  ready o l -> Vector.m_capacity (file_descriptors (task (the_sys o))) < 2 ^ 30 ->
  path_to_node (files (the_sys o)) fd_path 0 = Ret r -> target r <> 0 ->
  contents_of o (target r) = Some b -> nodes (files (the_sys o)) !! target r = Some n -> filesystem (fs n) = Some F ->
  exists o' l', test_fd o = Ret o' /\ ready o' l' /\
    (forall j, default None (zlookup l' j) = default None (zlookup l j)) /\
    screen (the_sys o') = shown (line "Hello, world!") (screen (the_sys o)) /\
    contents_of o' (target r) = Some (splice b 0 (lit "Hello, world!")) /\
    (forall q, q <> target r -> contents_of o' q = contents_of o q).
Proof.
  intros Hr Hcap Hp Ht Hb Hn HF. set (p := target r) in *. unfold test_fd.
  destruct (open_spec fd_path 0 r o l Hr Hcap eq_refl Hp Ht) as (fd & t & l0 & -> & Hr0 & Hopen). ored.
  pose proof (std_open _ _ _ _ Hopen (rd_std _ _ Hr)) as [Hfd _]. destruct Hopen as (_ & Hfree & Hl0 & Hother).
  set (o0 := with_world (set_task t (world o)) o) in *.
  assert (names o0 l0 fd p 0 b) as Hn0 by (split; [done|]; split; [done|]; split; [done|]; by exists n).
  destruct (write_step o0 l0 fd p 0 b (lit "Hello") Hr0 Hn0) as (o1 & -> & Hr1 & Hn1 & Hc1 & Hs1); [lia|done|]. ored.
  destruct (write_step o1 _ fd p _ _ (lit ", ") Hr1 Hn1) as (o2 & -> & Hr2 & Hn2 & Hc2 & Hs2); [lia|done|]. ored.
  destruct (write_step o2 _ fd p _ _ (lit "world!") Hr2 Hn2) as (o3 & -> & Hr3 & Hn3 & Hc3 & Hs3); [lia|done|]. ored.
  change (0 + Z.of_nat (length (lit "Hello"))) with (Z.of_nat (length (lit "Hello"))) in Hn3.
  rewrite <- Nat2Z.inj_add, <- length_app in Hn3.
  pose proof (splice_splice b 0 (lit "Hello") (lit ", ") ltac:(lia)) as E1. rewrite Z.add_0_l in E1.
  pose proof (splice_splice b 0 (lit "Hello" ++ lit ", ") (lit "world!") ltac:(lia)) as E2. rewrite Z.add_0_l in E2.
  rewrite E1, E2 in Hn3. change ((lit "Hello" ++ lit ", ") ++ lit "world!") with (lit "Hello, world!") in Hn3.
  destruct (seek_step o3 _ fd p _ 0 _ Hr3 Hn3) as (o4 & -> & Hr4 & Hn4 & Hf4 & Hs4); [lia|]. ored.
  destruct (read_step o4 _ fd p _ (lit "Hello, world!") (replicate 13 0) Hr4 Hn4) as (o5 & E5 & Hr5 & Hf5 & Hs5);
    [by apply (take_drop_splice b 0)|done|done|].
  change (Z.of_nat (length (lit "Hello, world!"))) with 13 in E5, Hr5. rewrite E5. ored.
  destruct (printf_line [PStrN; PChar 10] [AInt 13; AStr (lit "Hello, world!")] (lit "Hello, world!") o5 _ Hr5)
    as (o6 & E6 & Hw6 & Hr6); [done|done|by apply (bool_decide_unpack _)|by cbn; lia|].
  change (render [PStrN; PChar 10]) with (line "%.*s") in E6. rewrite E6. ored.
  destruct (close_step o6 _ fd (mkFileDescriptor p 13) Hr6 Hfd) as (o7 & -> & Hr7 & Hf7 & Hs7).
  { apply zlookup_zinsert_eq. unfold at_cursor. rewrite !length_zinsert. by eapply zlookup_Some_range. }
  exists o7. eexists. split; [done|]. split; [exact Hr7|]. split; [|split; [|split]].
  - intros j. unfold at_cursor. destruct (decide (j = fd)) as [->|Hne].
    + rewrite zlookup_zinsert_eq by (rewrite !length_zinsert; by eapply zlookup_Some_range). by destruct Hfree as [->| ->].
    + rewrite !zlookup_zinsert_ne by (done || lia). by rewrite Hother.
  - rewrite Hs7, Hw6. cbn. by rewrite Hs5, Hs4, Hs3, Hs2, Hs1.
  - rewrite Hf7, Hw6. cbn. rewrite Hf5. by destruct Hn4 as (_ & _ & -> & _).
  - intros q Hq. rewrite Hf7, Hw6. cbn. rewrite Hf5, Hf4, Hc3, Hc2, Hc1 by done. done.
Qed.
(** *** Integers in mapped memory *)
Section ints.
Context (window_ok : 0 <= hhdm <= 2 ^ 64 - 2 ^ 46) (lo hi fl : Z) (k : nat) (s0 : vm A).
Abbreviation holding f v o := (backed hhdm true (w_map (world o)) lo hi fl k s0 f v).
Hypothesis Hb : bounds true lo hi fl.

Definition int_at (f : Z -> Z) (a : Z) : Z := signed 32 (half a (f (a / 8))).

Lemma word_in a : lo <= a < hi -> lo <= 8 * (a / 8) < hi.
Proof.
  intros Ha. destruct Hb as [_ [Hl Hh] _]. pose proof (Z.div_mod a 8 ltac:(lia)). pose proof (Z.mod_pos_bound a 8 ltac:(lia)).
  pose proof (Z.div_mod lo 0x1000 ltac:(lia)). lia.
Qed.

Lemma int_at_put f a b x :
  a mod 4 = 0 -> b mod 4 = 0 -> - 2 ^ 31 <= x < 2 ^ 31 ->
  int_at (put_word (a / 8) (set_half a x (f (a / 8))) f) b = if b =? a then x else int_at f b.
Proof.
  intros Ha Hb4 Hx. unfold int_at, put_word.
  pose proof (Z.div_mod a 8 ltac:(lia)). pose proof (Z.div_mod b 8 ltac:(lia)).
  pose proof (Z.mod_pos_bound a 8 ltac:(lia)). pose proof (Z.mod_pos_bound b 8 ltac:(lia)).
  pose proof (Z.div_mod a 4 ltac:(lia)). pose proof (Z.div_mod b 4 ltac:(lia)).
  destruct (Z.eqb_spec b a) as [->|Hne].
  - rewrite Z.eqb_refl, half_set. by apply signed_wrap.
  - destruct (Z.eqb_spec (b / 8) (a / 8)) as [E|E]; [|done]. rewrite half_set_other; [by rewrite E|].
    destruct (Z.eqb_spec (a mod 8) 0), (Z.eqb_spec (b mod 8) 0); (done || lia).
Qed.

Lemma store_int_spec f o a x :
  holding f (w_space (world o)) o -> lo <= a < hi ->
  exists v, store_int a x o = Ret (with_world (set_space v (world o)) o) /\
    holding (put_word (a / 8) (set_half a x (f (a / 8))) f) v o.
Proof.
  intros Hf Ha. unfold store_int.
  destruct (update_spec hhdm window_ok _ _ _ _ _ _ _ Hb f _ (a / 8) (set_half a x) Hf (word_in a Ha)) as (v & -> & Hv).
  ored. by exists v.
Qed.

Lemma load_int_spec f o a :
  holding f (w_space (world o)) o -> lo <= a < hi ->
  exists v, load_int a o = Ret (int_at f a, with_world (set_space v (world o)) o) /\ holding f v o.
Proof.
  intros Hf Ha. unfold load_int.
  destruct (load_spec hhdm window_ok _ _ _ _ _ _ _ Hb f _ (a / 8) Hf (word_in a Ha)) as (v & -> & Hv). ored. by exists v.
Qed.

Context (ptr first last : Z) (Hptr : ptr mod 4 = 0) (Hlo : lo = ptr + 4 * first) (Hhi : hi = ptr + 4 * last).
Hypothesis small : 0 <= first <= last /\ last * 10 < 2 ^ 31.

Definition filled (f : Z -> Z) (i : Z) : Prop := forall j, first <= j < i -> int_at f (ptr + 4 * j) = j * 10.

Lemma aligned4 j : (ptr + 4 * j) mod 4 = 0.
Proof. by rewrite Z.mul_comm, Z.mod_add, Hptr by lia. Qed.

Lemma fill_ints_spec f o :
  holding f (w_space (world o)) o ->
  exists v f', fill_ints ptr first last o = Ret (with_world (set_space v (world o)) o) /\ holding f' v o /\ filled f' last.
Proof.
  intros Hf. unfold fill_ints.
  destruct (for_range_inv (fun i o' => exists v f', o' = with_world (set_space v (world o)) o /\ holding f' v o /\ filled f' i)
    (Z.to_nat (last - first)) first (fun i o => store_int (ptr + 4 * i) (i * 10) o) o) as (o' & E & v & f' & -> & Hv & Hfill).
  - exists (w_space (world o)), f. split; [by destruct o as [? ? []]|]. split; [done|]. intros j Hj. lia.
  - intros i o1 Hi (v & f' & -> & Hv & Hfill).
    destruct (store_int_spec f' (with_world (set_space v (world o)) o) (ptr + 4 * i) (i * 10)) as (v' & -> & Hv'); [done|lia|].
    eexists. split; [done|]. exists v', (put_word ((ptr + 4 * i) / 8) (set_half (ptr + 4 * i) (i * 10) (f' ((ptr + 4 * i) / 8))) f').
    split; [done|]. split; [done|]. intros j Hj. rewrite int_at_put by (apply aligned4 || lia).
    destruct (Z.eqb_spec (ptr + 4 * j) (ptr + 4 * i)) as [Eji|Hji]; [f_equal; lia|]. apply Hfill. lia.
  - exists v, f'. rewrite E. split; [done|]. split; [done|]. by replace (first + Z.of_nat (Z.to_nat (last - first))) with last in Hfill by lia.
Qed.

Lemma check_ints_spec f n : forall i o,
  holding f (w_space (world o)) o -> filled f last -> first <= i -> i + Z.of_nat n = last ->
  exists v, check_ints n ptr i o = Ret (true, with_world (set_space v (world o)) o) /\ holding f v o.
Proof.
  induction n as [|n IH]; intros i o Hf Hfill Hi Hn; cbn [check_ints].
  - exists (w_space (world o)). split; [by destruct o as [? ? []]|done].
  - destruct (load_int_spec f o (ptr + 4 * i) Hf) as (v & -> & Hv); [lia|]. ored.
    rewrite Hfill by lia. rewrite Z.eqb_refl. cbn [negb].
    destruct (IH (i + 1) (with_world (set_space v (world o)) o) Hv Hfill) as (v' & -> & Hv'); [lia..|]. by exists v'.
Qed.
End ints.
(** *** mmap, fill, check *)
Section mapping.
Context (window_ok : 0 <= hhdm <= 2 ^ 64 - 2 ^ 46).

(** The kernel's [new] gives memory that is no part of the list of ranges. *)
Hypothesis new_range_fresh : forall v pm rl, ranges_ok v pm rl -> new_range v ∉ range_list_head pm :: rl.

(** The task's page tables and ranges are in order, its memory from the mmap
    base on is untouched and [n] pages can be had. *)
Record memory_ok o (rl : list Z) (n : nat) : Prop := {
  mo_inv : inv hhdm (w_space (world o)) (pml4 (w_map (world o)));
  mo_ranges : ranges_ok (w_space (world o)) (w_map (world o)) rl;
  mo_flags : forall p r, p ∈ rl -> ranges (w_space (world o)) !! p = Some r -> present (page_flags r) = true;
  mo_base : 0 <= w_anon_base (world o) /\ w_anon_base (world o) mod 0x1000 = 0;
  mo_free : forall a, w_anon_base (world o) <= a < 2 ^ 47 ->
    translate hhdm (mem (w_space (world o))) (pml4 (w_map (world o))) a = None;
  mo_supply : supply n (frames (w_space (world o))) }.

Lemma render_plain t : render (PChar <$> t) = t.
Proof. induction t as [|c t IH]; [done|]. unfold render in *. cbn. by rewrite IH. Qed.
Lemma output_plain t : output (PChar <$> t) [] = Some t.
Proof. induction t as [|c t IH]; [done|]. cbn. by rewrite IH. Qed.

Definition printable (t : list Z) : Prop :=
  forallb (fun c => negb (c =? 0) && negb (c =? 37)) t = true /\ 10 ∉ t /\ (length t < 1023)%nat.

Lemma printf_plain t o l :
  ready o l -> printable t ->
  exists o', printf (t ++ [10]) [] o = Ret o' /\ world o' = on_screen (t ++ [10]) (world o) /\ ready o' l.
Proof.
  intros Hr (Ht & H10 & Hlen). pose proof (printf_line (PChar <$> (t ++ [10])) [] t o l Hr) as Hp.
  rewrite render_plain in Hp. apply Hp; [|apply output_plain|done|done].
  rewrite fmap_app, forallb_app. apply andb_true_intro. split; [|done].
  clear -Ht. induction t as [|c t IH]; [done|]. cbn in *. apply andb_prop in Ht as [-> Ht]. by apply IH.
Qed.

Lemma shown_app x y s : shown (x ++ y) s = shown y (shown x s).
Proof. apply fold_left_app. Qed.

Lemma printable_lit t :
  forallb (fun c => negb (c =? 0) && negb (c =? 37) && negb (c =? 10)) t && (Z.of_nat (length t) <? 1023) = true -> printable t.
Proof.
  intros [Ht Hl%Z.ltb_lt]%andb_prop. split; [|split; [|lia]]; clear Hl; induction t as [|c t IH];
    cbn in *; try done; [|by apply not_elem_of_nil|].
  - apply andb_prop in Ht as [[-> _]%andb_prop Ht]. by apply IH.
  - apply andb_prop in Ht as [[_ Hc%negb_true_iff%Z.eqb_neq]%andb_prop Ht]. apply not_elem_of_cons. split; [done|by apply IH].
Qed.

Lemma first_title_printable : printable (lit "mmapping 64 MiB of memory and writing it").
Proof. by apply printable_lit. Qed.
Lemma second_title_printable : printable (lit "mmapping 1 GiB of memory and writing only 4 MiB of it").
Proof. by apply printable_lit. Qed.

Lemma screen_on cs w : screen (w_sys (on_screen cs w)) = shown cs (screen (w_sys w)).
Proof. done. Qed.

Lemma pages_apart v w : 0 <= v < 2 ^ 47 -> 0 <= w < 2 ^ 47 -> v / 0x1000 <> w / 0x1000 -> page v <> page w.
Proof.
  intros Hv Hw Hne. unfold page. change (2 ^ 12) with 0x1000.
  assert (forall x, 0 <= x < 2 ^ 47 -> 0 <= x / 0x1000 < 2 ^ 36) as Hr.
  { intros x Hx. split; [apply Z.div_pos; lia|apply Z.div_lt_upper_bound; lia]. }
  rewrite !Z.mod_small by (by apply Hr). done.
Qed.

Lemma above_apart lo hi a w :
  0 <= lo -> hi mod 0x1000 = 0 -> lo <= 8 * w < hi -> hi <= a < 2 ^ 47 -> page a <> page (8 * w).
Proof.
  intros Hlo Hhi Hw Ha. apply not_eq_sym, pages_apart; [lia|lia|].
  pose proof (Z.div_mod (8 * w) 0x1000 ltac:(lia)). pose proof (Z.div_mod a 0x1000 ltac:(lia)).
  pose proof (Z.mod_pos_bound (8 * w) 0x1000 ltac:(lia)). pose proof (Z.mod_pos_bound a 0x1000 ltac:(lia)).
  pose proof (Z.div_mod hi 0x1000 ltac:(lia)). lia.
Qed.

Lemma int_page base j : base mod 0x1000 = 0 -> j mod 1024 = 0 -> (base + 4 * j) mod 0x1000 = 0.
Proof.
  intros Hb Hj. pose proof (Z.mul_mod_distr_l j 1024 4 ltac:(lia) ltac:(lia)) as E. rewrite Hj in E.
  change (4 * 1024) with 0x1000 in E. by rewrite Z.add_mod, Hb, E by lia.
Qed.

Lemma int_pages base first last : (base + 4 * last - (base + 4 * first)) / 0x1000 = (last - first) / 1024.
Proof.
  replace (base + 4 * last - (base + 4 * first)) with (4 * (last - first)) by lia.
  change 0x1000 with (4 * 1024). by rewrite Z.div_mul_cancel_l by lia.
Qed.

Lemma page_aligned4 base : base mod 0x1000 = 0 -> base mod 4 = 0.
Proof.
  intros Hb. pose proof (Z.div_mod base 0x1000 ltac:(lia)). symmetry.
  apply (Z.mod_unique _ _ (1024 * (base / 0x1000))); lia.
Qed.

Lemma signed_small x : 0 <= x < 2 ^ 63 -> signed 64 x = x.
Proof. intros Hx. unfold signed. rewrite wrap_small by lia. by rewrite (proj2 (Z.ltb_lt _ _)) by lia. Qed.

(** A call of [mmap] by a task whose memory is in order. *)
Lemma mmap_spec size first last o l rl n :
  ready o l -> memory_ok o rl (4 * Z.to_nat ((last - first) / 1024) + n) ->
  w_anon_base (world o) + size + 0x1000 <= 2 ^ 47 -> first mod 1024 = 0 -> last mod 1024 = 0 ->
  0 <= first <= last /\ 4 * last <= size ->
  let base := w_anon_base (world o) in
  let next := base + align_up 0x1000 size in
  exists v p, mmap size 3 9 o = Ret (base, with_world (mkProcess (the_sys o) (w_incoming (world o)) v (w_map (world o)) next) o) /\
    bounds true (base + 4 * first) (base + 4 * last) (mmap_flags 3) /\
    backed hhdm true (w_map (world o)) (base + 4 * first) (base + 4 * last) (mmap_flags 3) n v (fun _ => 0) v /\
    forall o' f v', w_space (world o') = v' -> w_map (world o') = w_map (world o) -> w_anon_base (world o') = next ->
      backed hhdm true (w_map (world o)) (base + 4 * first) (base + 4 * last) (mmap_flags 3) n v f v' ->
      memory_ok o' (p :: rl) n.
Proof.
  intros Hr [Hinv Hrok Hflags Hbase Hfree Hsup] Htop Hf Hl Hfl base next. fold base in Hbase, Hfree, Htop.
  destruct (align_up_spec 0x1000 size ltac:(lia) ltac:(lia) ltac:(lia)) as [Hal Halm].
  set (v1 := w_space (world o)) in *. set (pm := w_map (world o)) in *.
  destruct (mmap_backed hhdm v1 pm rl (new_range v1) base size 3 9 (base + 4 * first) (base + 4 * last) n Hinv Hrok Hflags)
    as (Hb & v2 & Emap & Hrok2 & Hflags2 & Emem & Hback); try done; try lia.
  { by apply new_range_fresh. }
  { apply int_page; [apply Hbase|done]. }
  { apply int_page; [apply Hbase|done]. }
  { intros a Ha. apply Hfree. lia. }
  { by rewrite int_pages. }
  exists v2, (new_range v1). split; [|split; [done|split; [done|]]].
  { unfold mmap. fold v1 pm base. rewrite Emap. ored. by rewrite signed_small by lia. }
  intros o' f v' Es Em Ea Hf'. destruct (bk_rest _ _ _ _ _ _ _ _ _ _ Hf') as (Eh & Er & Etr).
  split; rewrite ?Es, ?Em, ?Ea.
  - apply (bk_inv _ _ _ _ _ _ _ _ _ _ Hf').
  - unfold ranges_ok. rewrite Eh, Er. apply Hrok2.
  - rewrite Er. apply Hflags2.
  - split; [lia|]. unfold next. by rewrite Z.add_mod, (proj2 Hbase), Halm by lia.
  - intros a Ha. rewrite Etr, Emem.
    + apply Hfree. lia.
    + intros w Hw. apply (above_apart (base + 4 * first) (base + 4 * last)); [lia|apply int_page; [apply Hbase|done]|done|lia].
  - eapply supply_le; [|apply (bk_supply _ _ _ _ _ _ _ _ _ _ Hf')]. lia.
Qed.

Lemma mmap_block_spec title size first last o l rl n :
  ready o l -> memory_ok o rl (4 * Z.to_nat ((last - first) / 1024) + n) -> printable (lit title) ->
  w_anon_base (world o) + size + 0x1000 <= 2 ^ 47 -> first mod 1024 = 0 -> last mod 1024 = 0 ->
  0 <= first <= last /\ 4 * last <= size /\ last * 10 < 2 ^ 31 ->
  exists o' p, mmap_block (line title) size first last o = Ret (true, o') /\ ready o' l /\ memory_ok o' (p :: rl) n /\
    w_anon_base (world o') = w_anon_base (world o) + align_up 0x1000 size /\
    files (the_sys o') = files (the_sys o) /\
    screen (the_sys o') = shown (line title ++ line "checking" ++ line "done") (screen (the_sys o)).
Proof.
  intros Hr Hm Ht Htop Hf Hl Hfl. unfold mmap_block.
  destruct (printf_plain (lit title) o l Hr Ht) as (o1 & E1 & Ew1 & Hr1). change (lit title ++ [10]) with (line title) in *.
  rewrite E1. ored.
  assert (memory_ok o1 rl (4 * Z.to_nat ((last - first) / 1024) + n)) as Hm1 by (destruct Hm; split; by rewrite Ew1).
  assert (w_anon_base (world o1) = w_anon_base (world o)) as Eb by (by rewrite Ew1).
  destruct (mmap_spec size first last o1 l rl n Hr1 Hm1) as (v2 & p & Emap & Hb & Hback & Hafter); [lia|done|done|lia|].
  change (Z.lor MAP_PRIVATE MAP_ANONYMOUS) with 9. rewrite Emap. ored. rewrite Eb in *.
  set (base := w_anon_base (world o)) in *. pose proof (mo_base _ _ _ Hm) as [Hb0 Hbm]. fold base in Hb0, Hbm.
  rewrite (proj2 (Z.ltb_ge base 0)) by lia.
  set (o2 := with_world _ o1). assert (ready o2 l) as Hr2 by (apply ready_world; [done|apply Hr1]).
  destruct (fill_ints_spec window_ok _ _ _ n v2 Hb base first last (page_aligned4 _ Hbm) eq_refl eq_refl ltac:(lia) (fun _ => 0) o2 Hback)
    as (v3 & f & -> & Hv3 & Hfill). ored.
  set (o3 := with_world _ o2) in *. assert (ready o3 l) as Hr3 by (apply ready_world; [done|apply Hr2]).
  destruct (printf_plain (lit "checking") o3 l Hr3) as (o4 & E4 & Ew4 & Hr4); [by apply printable_lit|].
  change (lit "checking" ++ [10]) with (line "checking") in *. rewrite E4. ored.
  destruct (check_ints_spec window_ok _ _ _ n v2 Hb base first last eq_refl eq_refl f (Z.to_nat (last - first)) first o4)
    as (v5 & -> & Hv5); [by rewrite Ew4|done|lia|lia|]. ored.
  set (o5 := with_world _ o4) in *. assert (ready o5 l) as Hr5 by (apply ready_world; [done|apply Hr4]).
  destruct (printf_plain (lit "done") o5 l Hr5) as (o6 & E6 & Ew6 & Hr6); [by apply printable_lit|].
  change (lit "done" ++ [10]) with (line "done") in *. rewrite E6. ored.
  assert (the_sys o4 = w_sys (on_screen (line "checking") (world o1))) as Esys by (by rewrite Ew4).
  assert (w_anon_base (world o6) = base + align_up 0x1000 size) as Ebase by (rewrite Ew6; change (w_anon_base (world o4) = base + align_up 0x1000 size); by rewrite Ew4).
  assert (w_map (world o4) = w_map (world o1)) as Emap4 by (by rewrite Ew4). rewrite Emap4 in Hv5.
  exists o6, p. split; [done|]. split; [done|]. split; [|split; [done|split]].
  - apply (Hafter o6 f v5); [by rewrite Ew6|by rewrite Ew6|done|done].
  - rewrite Ew6. change (files (the_sys o4) = files (the_sys o)). by rewrite Esys, Ew1.
  - rewrite Ew6, screen_on. change (the_sys o5) with (the_sys o4). by rewrite Esys, screen_on, Ew1, screen_on, !shown_app.
Qed.

(** C20. The test [mmap] passes: the 16 million integers it stores in 64 MiB of
    mapped memory, and the million it stores five million integers into a
    gigabyte of it, are all found again, every page being made when it is first
    touched; the screen shows that both blocks are done.  Pages are needed for
    what is touched, 17408 pages and their tables, not for the gigabyte. *)
Theorem mmap_test_passes o l rl n :
  ready o l -> memory_ok o rl (4 * Z.to_nat 17408 + n) -> w_anon_base (world o) + 1088 * MIB + 0x2000 <= 2 ^ 47 ->
  exists o' rl', test_mmap o = Ret o' /\ ready o' l /\ memory_ok o' rl' n /\ files (the_sys o') = files (the_sys o) /\
    w_anon_base (world o') = w_anon_base (world o) + 1088 * MIB /\
    screen (the_sys o') =
      shown (line "mmapping 64 MiB of memory and writing it" ++ line "checking" ++ line "done" ++
             line "mmapping 1 GiB of memory and writing only 4 MiB of it" ++ line "checking" ++ line "done")
        (screen (the_sys o)).
Proof.
  intros Hr Hm Htop. unfold test_mmap, MIB in *.
  pose (n1 := (1024 * 1024 * 16 - 0) / 1024). pose (n2 := (1024 * 1024 * 1 * 6 - 1024 * 1024 * 1 * 5) / 1024).
  replace (4 * Z.to_nat 17408 + n)%nat with (4 * Z.to_nat n1 + (4 * Z.to_nat n2 + n))%nat in Hm
    by (change n1 with 16384; change n2 with 1024; lia).
  destruct (mmap_block_spec _ (1024 * 1024 * 16 * 4) 0 (1024 * 1024 * 16) o l rl _ Hr Hm first_title_printable)
    as (o1 & p1 & -> & Hr1 & Hm1 & Eb1 & Ef1 & Es1); [lia|done|done|lia|]. ored.
  change (align_up 0x1000 (1024 * 1024 * 16 * 4)) with (1024 * 1024 * 16 * 4) in Eb1.
  destruct (mmap_block_spec _ (1024 * (1024 * 1024)) (1024 * 1024 * 1 * 5) (1024 * 1024 * 1 * 6) o1 l _ n Hr1 Hm1 second_title_printable)
    as (o2 & p2 & -> & Hr2 & Hm2 & Eb2 & Ef2 & Es2); [rewrite Eb1; lia|done|done|lia|]. ored.
  change (align_up 0x1000 (1024 * (1024 * 1024))) with (1024 * (1024 * 1024)) in Eb2.
  exists o2, (p2 :: p1 :: rl). split; [done|]. split; [done|]. split; [done|]. split; [congruence|].
  split; [rewrite Eb2, Eb1; lia|]. rewrite Es2, Es1, <- shown_app. by rewrite <- !app_assoc.
Qed.
End mapping.
End spec.
End TestProgram.

(** ** A concrete system: tmpfs with the files the tests use, and pages handed
    out one after the other *)
#[export] Instance bump_allocator : PageAllocator Z.
Proof.
  refine {| alloc_page := fun a => if a <? 2 ^ 46 then Ret (a, a + 0x1000) else Panic;
            good := fun a => 0 < a /\ a mod 0x1000 = 0; owned := fun a p => p < a |}.
  intros a p a' [Ha Hm] E. destruct (Z.ltb_spec a (2 ^ 46)); [|done]. injection E as <- <-.
  split; [split; [lia|by rewrite <- Z.add_mod_idemp_l, Hm by lia]|]. split; [lia|]. split; [done|].
  split; [lia|]. split; [lia|]. intros q Hq. lia.
Defined.

Lemma bump_supply n : forall a, 0 < a -> a + Z.of_nat n * 0x1000 <= 2 ^ 46 -> supply n a.
Proof.
  induction n as [|n IH]; intros a Ha Hn; [done|]. exists a, (a + 0x1000). split; [|apply IH; lia].
  cbn. by rewrite (proj2 (Z.ltb_lt _ _)) by lia.
Qed.

Definition tree_bin : vfs NodeData := run_fs (create zero 99 1 (lit "bin") DIRECTORY tree0).
Definition tree_test : vfs NodeData := run_fs (create zero 99 4 (lit "test") FILE tree_bin).
Definition tree_elf : vfs NodeData :=
  match Tmpfs.write 7 (127 :: lit "ELF, and the rest") 0 tree_test with Ret st => st | _ => empty_vfs end.
Definition tree_hello : vfs NodeData := run_fs (create zero 99 1 (lit "hello") DIRECTORY tree_elf).
Definition tree_world : vfs NodeData := run_fs (create zero 99 8 (lit "world.txt") FILE tree_hello).
Definition tree_files : vfs NodeData := run_fs (create zero 99 1 (lit "test.txt") FILE tree_world).

Definition std_table : table := [std; std; std].
Definition std_task : Task := mkTask (Vector.mkVector (Some <$> std_table) 3 3) 3 3 1.

Definition space0 : vm Z := mkVm {[window + 0x1000 := zero_page]} 0x2000 {[1000 := mkListHead 1000 1000]} ∅ [].
Definition new_range0 (v : vm Z) : Z := fresh (dom (heads v)).

Definition process0 (incoming : list Z) : @process NodeData (list Z) Z :=
  mkProcess (mkSys tree_files std_task Keyboard.init []) incoming space0 the_map 0x400000.
Definition start0 (incoming : list Z) : @out (@process NodeData (list Z) Z) := mkOut (replicate 1024 0) 0 (process0 incoming).

Lemma start0_ready incoming : ready (start0 incoming) std_table.
Proof.
  split.
  - split; [reflexivity|split; reflexivity|reflexivity].
  - by repeat split.
  - eexists _, _. split; reflexivity.
Qed.

Lemma fd_test_says_hello_witness :
  exists o' l', test_fd (filesystems zero 99) log (start0 []) = Ret o' /\ ready o' l' /\
    screen (w_sys (world o')) = line "Hello, world!" /\
    file_contents (files (w_sys (world o'))) 12 = Some (Some <$> lit "Hello, world!").
Proof.
  destruct (nodes tree_files !! 12) as [n|] eqn:En; [|vm_compute in En; discriminate En].
  destruct (fd_test_says_hello (filesystems zero 99) log (instantiate zero) (fun c s => s ++ [c]) (fun c s => eq_refl)
    (start0 []) std_table (mkPathToNodeResult 1 12 (Some (lit "test.txt"))) [] n (start0_ready []))
    as (o' & l' & E & Hr & _ & Hs & Hc & _).
  - vm_compute. reflexivity.
  - vm_compute. reflexivity.
  - discriminate.
  - vm_compute. reflexivity.
  - exact En.
  - vm_compute in En. injection En as <-. reflexivity.
  - exists o', l'. split; [exact E|]. split; [exact Hr|]. split; [exact Hs|exact Hc].
Defined.

Lemma space0_inv : inv window space0 (pml4 the_map) /\ forall v, translate window (mem space0) (pml4 the_map) v = None.
Proof.
  apply (inv_cleared window space0 (pml4 the_map) 0x1000).
  - split; reflexivity.
  - reflexivity.
  - reflexivity.
  - apply lookup_insert_eq.
Qed.

Lemma start0_memory n : 0x2000 + Z.of_nat n * 0x1000 <= 2 ^ 46 -> memory_ok window (start0 []) [] n.
Proof.
  intros Hn. split; cbn [start0 world process0 w_space w_map w_anon_base].
  - apply space0_inv.
  - split; [split; [apply NoDup_singleton|by vm_compute]|]. intros p Hp. by apply not_elem_of_nil in Hp.
  - intros p r Hp. by apply not_elem_of_nil in Hp.
  - split; [lia|reflexivity].
  - intros a _. apply space0_inv.
  - apply bump_supply; [reflexivity|exact Hn].
Qed.

Lemma new_range0_fresh (v : vm Z) (pm : Pagemap) (rl : list Z) : ranges_ok v pm rl -> new_range0 v ∉ range_list_head pm :: rl.
Proof.
  intros [Hring _] Hin. apply (is_fresh (dom (heads v))), elem_of_dom. by eapply ring_dom.
Qed.

Lemma mmap_test_passes_witness :
  exists o', test_mmap (filesystems zero 99) log window new_range0 (start0 []) = Ret o' /\
    screen (w_sys (world o')) =
      line "mmapping 64 MiB of memory and writing it" ++ line "checking" ++ line "done" ++
      line "mmapping 1 GiB of memory and writing only 4 MiB of it" ++ line "checking" ++ line "done".
Proof.
  destruct (mmap_test_passes (filesystems zero 99) log window new_range0 (fun c s => s ++ [c]) (fun c s => eq_refl)
    window_range new_range0_fresh (start0 []) std_table [] 0 (start0_ready [])) as (o' & rl' & E & _ & _ & _ & _ & Hs).
  - apply start0_memory. rewrite Nat.add_0_r, Nat2Z.inj_mul, Z2Nat.id by lia. vm_compute. discriminate.
  - vm_compute. discriminate.
  - exists o'. split; [exact E|exact Hs].
Defined.

(** A session: what is typed, by scan codes, and what is on the screen. *)
Definition typed : list Z :=
  [46; 17; 32; 28] ++ [24; 25; 18; 49; 30; 20; 28] ++ [33; 32; 28] ++ [18; 45; 23; 20; 28].

Example session :
  ('(status, o) ← program_start (filesystems zero 99) log window new_range0 0x401000 4 (start0 typed);
   Ret (status, screen (w_sys (world o)))) =
  Ret (0, line "Hello from userspace!" ++ line "Address of main: 0x401000" ++ line "Type 'help' to list tests" ++
       lit "> " ++ line "cwd: /" ++ line "cwd: /bin" ++ line "/bin/test is indeed an ELF binary" ++ line "cwd: /" ++
       lit "> " ++ line "fd 3 is the hello directory" ++ line "a fish" ++
       lit "> " ++ line "Hello, world!" ++
       lit "> " ++ line "goodbye").
Proof. vm_compute. reflexivity. Qed.
