(* ===== verification/Console.v ===== *)
(** * klib::putchar, printf and the allocation functions

    A character goes to the serial port and to the screen: the kernel's terminal
    once it is ready, before that straight to the frame buffer.  The spinlock
    around printing is in file Report. *)
From S2P Require Import Prelude Algorithm Bitmap Pmm Buddy CString Printf Machine Framebuffer Terminal.

Section Console.
Context {M : Type} `{Machine M}.
Context (font : PSF) (font_byte : Z -> option Z) (fb : Framebuffer) (g : Geometry).

Record console := mkConsole {
  serial : M; ready : bool; terminal : Terminal; screen_pixels : pixels; early_x : Z; early_y : Z }.

Definition draw := draw_psf_char font font_byte fb.

(** The early terminal. *)
Definition early_putchar (c : Z) (s : console) : outcome console :=
  if fb_addr fb =? 0 then Ret s
  else
    let '(x, y) := if fb_width fb / 8 <? early_x s then (0, early_y s + 1) else (early_x s, early_y s) in
    let y := if fb_height fb / 16 <? y then 0 else y in
    if c =? 10 then Ret (mkConsole (serial s) (ready s) (terminal s) (screen_pixels s) 0 (y + 1))
    else
      px ← draw (u32 (i8 c)) (u16 x) (u16 y) 4 4 0xFFFFFFFF 0 (screen_pixels s);
      Ret (mkConsole (serial s) (ready s) (terminal s) px (x + 1) y).

Definition putchar (c : Z) (s : console) : outcome console :=
  let s := mkConsole (out8 0x3F8 (u8 c) (serial s)) (ready s) (terminal s) (screen_pixels s) (early_x s) (early_y s) in
  if ready s then
    '(t, px) ← write_char draw (fill_rect fb) g c (terminal s, screen_pixels s);
    Ret (mkConsole (serial s) (ready s) t px (early_x s) (early_y s))
  else early_putchar c s.

Definition printf (format : list Z) (args : list arg) (s : console) : outcome (console * Z) :=
  vprintf putchar format args s.

(** ** The characters reach the terminal *)
Context (Hg : geometry_ok g) (Hfb : fb_ok fb) (Hfont : forall a, is_Some (font_byte a)).

Lemma putchar_shows c s p :
  ready s = true -> shows g (terminal s) p -> c <> 13 ->
  exists s', putchar c s = Ret s' /\ ready s' = true /\ shows g (terminal s') (text_step g c p) /\
    serial s' = out8 0x3F8 (u8 c) (serial s).
Proof.
  destruct s as [m r t px x y]. cbn. intros -> Hp Hc. unfold putchar. cbn zeta.
  cbn [ready terminal screen_pixels serial early_x early_y].
  destruct (write_char_shows draw (fill_rect fb) g Hg
    ltac:(intros; by apply draw_psf_char_returns) ltac:(intros; by apply fill_rect_returns)
    t px p c Hp Hc) as (t' & px' & -> & Hp'). ored. by eexists.
Qed.

Lemma puts_shows cs : forall s p,
  ready s = true -> shows g (terminal s) p -> Forall (fun c => c <> 13) cs ->
  exists s', puts putchar cs s = Ret s' /\ ready s' = true /\
    shows g (terminal s') (foldl (fun p c => text_step g c p) p cs) /\
    serial s' = foldl (fun m c => out8 0x3F8 (u8 c) m) (serial s) cs.
Proof.
  induction cs as [|c cs IH]; intros s p Hr Hp Hcs; [by exists s|]. apply Forall_cons in Hcs as [Hc Hcs].
  cbn [puts foldl]. destruct (putchar_shows c s p Hr Hp Hc) as (s1 & -> & Hr1 & Hp1 & <-). ored.
  by apply IH.
Qed.

(** C29. What the kernel prints is what the screen shows and the serial port gets:
    [printf] with a format of the documented shape on a ready terminal returns
    the number of characters the format prescribes, the terminal's text is
    continued by exactly those, and the port receives them in order. *)
Theorem printf_shows ps args o s p :
  forallb piece_ok ps = true -> output ps args = Some o -> Forall (fun c => c <> 13) o ->
  ready s = true -> shows g (terminal s) p ->
  exists s', printf (render ps) args s = Ret (s', Z.of_nat (length o)) /\ ready s' = true /\
    shows g (terminal s') (foldl (fun p c => text_step g c p) p o) /\
    serial s' = foldl (fun m c => out8 0x3F8 (u8 c) m) (serial s) o.
Proof.
  intros Hok Ho Hcr Hr Hp. unfold printf. rewrite (vprintf_puts putchar ps args o) by done.
  destruct (puts_shows o s p Hr Hp Hcr) as (s' & -> & ?). ored. by exists s'.
Qed.

End Console.
Arguments console : clear implicits.

(** ** A ready console on the small screen *)
Definition console0 : console board := mkConsole board0 true blank0 ∅ 0 0.

Lemma printf_shows_witness :
  exists s', printf font0 (fun a => Some (a mod 256)) fb0 geometry0 (lit "ab" ++ [10] ++ lit "%s%d") [AStr (lit "c" ++ [0]); AInt 7] console0
    = Ret (s', 5) /\ ready s' = true /\ shows geometry0 (terminal s') ([lit "ab"], lit "c7") /\
    trace (serial s') = (fun c => Port 1 0x3F8 c) <$> rev (lit "ab" ++ [10] ++ lit "c7").
Proof.
  destruct (printf_shows font0 (fun a => Some (a mod 256)) fb0 geometry0 geometry0_ok fb0_ok (fun a => ltac:(by eexists))
    [PChar 97; PChar 98; PChar 10; PStr; PDec false 0] [AStr (lit "c" ++ [0]); AInt 7] (lit "ab" ++ [10] ++ lit "c7") console0 ([], [])
    eq_refl eq_refl) as (s' & H1 & H2 & H3 & H4).
  - apply (bool_decide_eq_true_1 _). vm_compute. reflexivity.
  - reflexivity.
  - exact blank0_shows.
  - exists s'. split; [exact H1|]. split; [exact H2|]. split; [exact H3|]. rewrite H4. vm_compute. reflexivity.
Defined.

(** ** klib/cstdlib.cpp, on the kernel's heap

    [calloc] clears what it was given without looking whether it was given
    anything: with no memory left it writes to the null page, a fault. *)
Definition klib_malloc (size : Z) (h : heap) : outcome (Z * heap) := Buddy.malloc size h.

Fixpoint clear_bytes (n : nat) (dst : Z) (d : gmap Z Z) : gmap Z Z :=
  match n with O => d | Datatypes.S n => clear_bytes n (dst + 1) (<[dst := 0]> d) end.

Definition calloc (size : Z) (h : heap) : outcome (Z * heap) :=
  '(ptr, h) ← Buddy.malloc size h;
  if (ptr =? 0) && negb (size =? 0) then Fault
  else Ret (ptr, mkHeap (Buddy.head h) (Buddy.tail h)
    (filter (fun p : Z * Block => p.1 + sizeof_Block <= ptr \/ ptr + size <= p.1) (Buddy.hdrs h))
    (clear_bytes (Z.to_nat size) ptr (Buddy.data h))).

Definition klib_realloc (ptr size : Z) (h : heap) : outcome (Z * heap) := Buddy.realloc ptr size h.
Definition klib_free (ptr : Z) (h : heap) : outcome heap := Buddy.free ptr h.

Example calloc_clears :
  match calloc 40 (Buddy.fresh 0x1000 256) with
  | Ret (p, h) => (p, bool_decide (map (fun i => Buddy.data h !! (p + i)) (seqZ 0 40) = replicate 40 (Some 0)), Buddy.data h !! (p + 40))
  | _ => (0, false, None)
  end = (0x10D0, true, None).
Proof. vm_compute. reflexivity. Qed.

Example calloc_without_memory : calloc 4096 (Buddy.fresh 0x1000 256) = Fault.
Proof. vm_compute. reflexivity. Qed.
