(* ===== verification/Kernel.v ===== *)
(** * kernel.cpp: panic and the first kernel thread

    [panic] prints its message and walks the chain of stack frames; [frames]
    holds the two words of each frame by address.  [kernel_thread] goes from the
    keyboard over the archive to the first user task, each step by the
    component that does it; then it waits for the task's end and resets the
    machine three seconds after it.  Log lines, the lock that [panic_printf]
    breaks (file Report) and the final halt are left out. *)
From S2P Require Import Prelude Algorithm Bitmap Pmm CString Keyboard Printf Vector List Vfs Descriptors Tmpfs Mkfs Paging Initramfs Machine Interrupts Elf Timers Sched.

(** ** panic *)
Section panic.
Context {S : Type} (putchar : Z -> S -> outcome S).

(** [StackFrame]: the caller's frame and the return address. *)
Abbreviation stack_frames := (gmap Z (Z * Z)).

Definition banner : list Z := 10 :: lit "Kernel Panic: ".
Definition trace_title : list Z := 10 :: lit "Stacktrace: ".
Definition frame_format : list Z := lit "%#lX" ++ [10] ++ lit "            ".

Fixpoint stacktrace (fuel : nat) (frames : stack_frames) (frame : Z) (s : S) : outcome S :=
  match fuel with
  | O => Diverge
  | Datatypes.S fuel =>
      if frame =? 0 then Ret s
      else
        '(next, ip) ← of_option (frames !! frame);
        if ip =? 0 then Ret s
        else '(s, _) ← vprintf putchar frame_format [AInt ip] s; stacktrace fuel frames next s
  end.

(** What happens before [abort]. *)
Definition panic (fuel : nat) (format : list Z) (args : list arg) (frames : stack_frames) (frame : Z) (s : S) : outcome S :=
  '(s, _) ← vprintf putchar banner [] s;
  '(s, _) ← vprintf putchar format args s;
  '(s, _) ← vprintf putchar trace_title [] s;
  stacktrace fuel frames frame s.

(** The frames from [frame] on return to [ips]: the chain ends at a null frame
    or at a frame without a return address. *)
Inductive returns_to (frames : stack_frames) : Z -> list Z -> Prop :=
| returns_null : returns_to frames 0 []
| returns_bottom frame next : frame <> 0 -> frames !! frame = Some (next, 0) -> returns_to frames frame []
| returns_step frame next ip ips :
    frame <> 0 -> frames !! frame = Some (next, ip) -> ip <> 0 -> returns_to frames next ips ->
    returns_to frames frame (ip :: ips).

(** A return address in the trace. *)
Definition address_line (ip : Z) : list Z :=
  lit "0x" ++ (hex_digit true <$> numeral 65 16 (u64 ip)) ++ [10] ++ lit "            ".

(** Everything [panic] prints about a message and a trace. *)
Definition report (message : list Z) (ips : list Z) : list Z :=
  banner ++ message ++ trace_title ++ concat (address_line <$> ips).

Lemma puts_app xs : forall ys s, puts putchar (xs ++ ys) s = (s ← puts putchar xs s; puts putchar ys s).
Proof.
  induction xs as [|x xs IH]; intros ys s; [done|]. cbn [app puts].
  destruct (putchar x s); cbn [mbind outcome_bind]; [apply IH|done..].
Qed.

Lemma print_literal cs s :
  forallb (fun c => negb (c =? 0) && negb (c =? 37)) cs = true ->
  vprintf putchar cs [] s = (s ← puts putchar cs s; Ret (s, Z.of_nat (length cs))).
Proof.
  intros Hcs. rewrite <- (vprintf_puts putchar (PChar <$> cs) [] cs s).
  - f_equal. clear Hcs. induction cs as [|c cs IH]; [done|]. cbn. by f_equal.
  - induction cs as [|c cs IH]; [done|]. cbn in *. apply andb_true_iff in Hcs as [-> Hcs]. by apply IH.
  - clear Hcs. induction cs as [|c cs IH]; [done|]. cbn. by rewrite IH.
Qed.

Lemma print_address ip s :
  vprintf putchar frame_format [AInt ip] s = (s ← puts putchar (address_line ip) s; Ret (s, Z.of_nat (length (address_line ip)))).
Proof.
  apply (vprintf_puts putchar ([PHex true true true 0; PChar 10] ++ replicate 12 (PChar 32)) [AInt ip] (address_line ip)); done.
Qed.

Lemma stacktrace_spec frames frame ips :
  returns_to frames frame ips ->
  forall fuel s, (length ips < fuel)%nat -> stacktrace fuel frames frame s = puts putchar (concat (address_line <$> ips)) s.
Proof.
  induction 1 as [|frame next Hf Hl|frame next ip ips Hf Hl Hip Hr IH]; intros [|fuel] s Hfuel; cbn [length] in Hfuel; try lia;
    cbn [stacktrace]; [done|..]; rewrite (proj2 (Z.eqb_neq _ _) Hf), Hl; ored; [done|].
  rewrite (proj2 (Z.eqb_neq _ _) Hip), print_address. cbn [fmap list_fmap concat]. rewrite puts_app.
  destruct (puts putchar (address_line ip) s); ored; [|done..]. apply IH. lia.
Qed.

Lemma panic_spec fuel ps args o frames frame ips s :
  forallb piece_ok ps = true -> output ps args = Some o ->
  returns_to frames frame ips -> (length ips < fuel)%nat ->
  panic fuel (render ps) args frames frame s = puts putchar (report o ips) s.
Proof.
  intros Hok Ho Hr Hfuel. unfold panic, report. rewrite print_literal, puts_app by done.
  destruct (puts putchar banner s) as [s1| | |]; ored; [|done..]. rewrite (vprintf_puts putchar ps args o), puts_app by done.
  destruct (puts putchar o s1) as [s2| | |]; ored; [|done..]. rewrite print_literal, puts_app by done.
  destruct (puts putchar trace_title s2) as [s3| | |]; ored; [|done..]. by apply stacktrace_spec.
Qed.

(** A panic says what happened and where: for a message of the documented
    shape and a chain of stack frames that ends, [panic] prints exactly the
    banner, the formatted message and every return address of the chain, the
    innermost first, in capital hexadecimal, and comes to its end. *)
Theorem panic_reports fuel ps args o frames frame ips s :
  forallb piece_ok ps = true -> output ps args = Some o ->
  returns_to frames frame ips -> (length ips < fuel)%nat ->
  panic fuel (render ps) args frames frame s = puts putchar (report o ips) s.
Proof. apply panic_spec. Qed.
End panic.

(** ** The first kernel thread *)
Section thread.
Context {M : Type} `{Machine M} {D : Type} (filesystem : Z -> option (FileSystem D)).
Context (hhdm : Z) (junk : Z -> Sched.Task) (sched_list_head : Z) (irqs : irq_state) (kernel : Pagemap).
Context (kbd_irq : Z) (wild : Z -> Z) (new_task new_list : Z).

(** The state [kernel_thread] works on: the interrupt table, the keyboard, the
    file system, and the scheduler with memory and the devices. *)
Record world := mkWorld { table : idt_state; keyboard : kbd; tree : vfs D; tasks_of : sched M }.

Definition kbd_init (w : world) : outcome world :=
  '(t, m) ← register_irq 1 kbd_irq irqs (table w) (machine (tasks_of w));
  let '(_, m) := in8 0x60 m in
  Ret (mkWorld t Keyboard.init (tree w) (set_machine m (tasks_of w))).

(** [modules] are the boot loader's modules: where each is and its bytes. *)
Definition kernel_thread (modules : list (Z * list Z)) (w : world) : outcome world :=
  w ← kbd_init w;
  match modules with
  | [(address, bytes)] =>
      st ← load_into filesystem (root_dir (tree w)) address (Z.of_nat (length bytes)) bytes (tree w);
      result ← path_to_node st (lit "/bin/test") 0;
      if target result =? 0 then Panic
      else
        n ← Vfs.deref st (target result);
        F ← of_option (filesystem (fs n));
        s ← new_user_task hhdm junk sched_list_head F wild new_task new_list kernel (target result) st true (tasks_of w);
        Ret (mkWorld (table w) (keyboard w) st s)
  | _ => Panic
  end.

(** One turn of the loop at its end: whether the task is still in the list;
    otherwise the machine is rebooted. *)
Definition test_task_alive (w : world) : outcome bool :=
  h ← of_option (heads (memory (tasks_of w)) !! sched_list new_task);
  Ret (negb (List.next h =? 0)).

(** One turn of that loop, up to its [hlt]; [h] is the HPET and [fuel] bounds how
    often it is read.  Page tables at address 0 reset the machine. *)
Definition watch_test_task (fuel : nat) (h : hpet) (w : world) : outcome world :=
  alive ← test_task_alive w;
  if alive : bool then Ret w
  else
    let s := tasks_of w in
    m ← stall_ms hhdm fuel h 3000 (machine s);
    Ret (mkWorld (table w) (keyboard w) (tree w) (mkSched (Sched.tasks s) (memory s) (last_tid s) 0 m)).
End thread.

(** ** From an archive with a program to a task that is its turn *)
Definition test_image : list Z := program 4 5000 ++ code.
Definition boot_archive : list Z :=
  archive [small_member "./" 53 []; small_member "./bin/" 53 []; small_member "./bin/test" 48 test_image].
Definition world0 : @world board NodeData := mkWorld loaded0 Keyboard.init tree0 sched0.
Definition thread0 (modules : list (Z * list Z)) : outcome (@world board NodeData) :=
  kernel_thread (filesystems zero 99) window dust 500 irq0 kernel_map 0x7000 Mkfs.zero 0x30000 3000 modules world0.

(** The program is loaded and waits in the scheduler's list behind the kernel's
    tasks: its third turn starts it at its entry, in its own address space. *)
Example first_program_starts :
  match thread0 [(4096, boot_archive)] with
  | Ret w =>
      match test_task_alive 0x30000 w, run window 500 lapic0 timer0 [regs0 1; regs0 2; regs0 3] (tasks_of w) with
      | Ret alive, Ret (outs, s) =>
          (alive, rip <$> outs, current s,
           t ← tasks s !! 0x30000; (fun e => Z.land e 0xFFF) <$> translate window (mem (memory s)) (pml4 (Sched.pagemap t)) 0x400000)
      | _, _ => (false, [], 0, None)
      end
  | _ => (false, [], 0, None)
  end = (true, [0xAAAA; 0xBBBB; 0x400000], 0x30000, Some (Z.lor PAGE_PRESENT PAGE_USER)).
Proof. vm_compute. reflexivity. Qed.

Example no_module : thread0 [] = Panic /\ thread0 [(0, []); (0, [])] = Panic.
Proof. split; vm_compute; reflexivity. Qed.

(** An archive without the program stops the kernel. *)
Example no_program : thread0 [(4096, archive [small_member "./" 53 []])] = Panic.
Proof. vm_compute. reflexivity. Qed.

Lemma panic_reports_witness :
  panic (fun c s => Ret (s ++ [c])) 9 (lit "IRQ %d") [AInt 7] {[64 := (32, 0xFFFFFFFF80001234); 32 := (0, 0xAB)]} 64 []
  = Ret ([10] ++ lit "Kernel Panic: IRQ 7" ++ [10] ++ lit "Stacktrace: 0xFFFFFFFF80001234" ++ [10] ++
      lit "            0xAB" ++ [10] ++ lit "            ").
Proof.
  change (lit "IRQ %d") with (render [PChar 73; PChar 82; PChar 81; PChar 32; PDec false 0]).
  rewrite (panic_reports _ 9 _ [AInt 7] (lit "IRQ 7") _ 64 [0xFFFFFFFF80001234; 0xAB]); [vm_compute; reflexivity|reflexivity|reflexivity| |].
  - eapply returns_step; [lia|reflexivity|lia|]. eapply returns_step; [lia|reflexivity|lia|]. apply returns_null.
  - cbn. lia.
Defined.
