(* ===== verification/Report.v ===== *)
(** * What the kernel says at its end: the print lock, exceptions, the C++ runtime

    klib/cstdio.cpp prints under a lock, which a panic breaks; the handler of
    exceptions in cpu/interrupts/idt.cpp prints the registers; the checks the
    compiler puts into the code end in klib/cppruntime.cpp. *)
From S2P Require Import Prelude Lock Algorithm Bitmap Pmm Buddy CString Keyboard Printf Vector List Vfs Descriptors Tmpfs Mkfs Paging Initramfs Machine Interrupts Elf Timers Sched Traps Console Kernel.

Section Report.
Context {S : Type} (putchar : Z -> S -> outcome S).

(** ** Printing under [print_lock]

    The lock, the processor's interrupt flag and the screen. *)
Abbreviation printer := (Spinlock * bool * S)%type.

Definition locked_vprintf (fuel : nat) (format : list Z) (args : list arg) (p : printer) : outcome (Z * printer) :=
  let '(l, flag, s) := p in
  '(n, s, l, flag) ← guarded fuel (fun s => '(s, n) ← vprintf putchar format args s; Ret (n, s)) l flag s;
  Ret (n, (l, flag, s)).

Definition panic_vprintf (fuel : nat) (format : list Z) (args : list arg) (p : printer) : outcome printer :=
  let '(l, flag, s) := p in
  let '(l, flag) := unlock l flag in
  '(_, p) ← locked_vprintf fuel format args (l, flag, s);
  Ret p.

(** A panic is printed whoever holds the lock, and leaves it free. *)
Lemma panic_vprintf_prints fuel format args l flag s :
  panic_vprintf (Datatypes.S fuel) format args (l, flag, s)
  = ('(s, _) ← vprintf putchar format args s; Ret (mkSpinlock false 0, true, s)).
Proof.
  unfold panic_vprintf, locked_vprintf, guarded, lock. cbn [unlock lock_loop locked spins]. ored.
  by destruct (vprintf putchar format args s) as [[s' n]| | |].
Qed.

(** Any other text waits for it, and panics when it is never released. *)
Lemma printf_under_a_held_lock fuel format args i flag s :
  0 <= i < spin_limit -> fuel = Z.to_nat (spin_limit - i) ->
  locked_vprintf fuel format args (mkSpinlock true i, flag, s) = Panic.
Proof.
  intros Hi ->. unfold locked_vprintf, guarded, lock. destruct (Z.to_nat (spin_limit - i)) as [|n] eqn:En; [lia|].
  by rewrite lock_loop_spins by lia.
Qed.

Lemma printf_under_a_free_lock fuel format args i flag s :
  locked_vprintf (Datatypes.S fuel) format args (mkSpinlock false i, flag, s)
  = ('(s, n) ← vprintf putchar format args s; Ret (n, (mkSpinlock false 0, true, s))).
Proof.
  unfold locked_vprintf, guarded, lock. cbn [unlock lock_loop locked spins]. ored.
  by destruct (vprintf putchar format args s) as [[s' n]| | |].
Qed.

(** ** What the exception handler prints *)
Fixpoint print_lines (ls : list (list Z * list arg)) (s : S) : outcome S :=
  match ls with
  | [] => Ret s
  | (format, args) :: ls => '(s, _) ← vprintf putchar format args s; print_lines ls s
  end.

Definition register_lines (regs : InterruptState) : list (list Z * list arg) :=
  [(lit "RAX=%016lX RBX=%016lX RCX=%016lX RDX=%016lX" ++ [10], AInt <$> [rax regs; rbx regs; rcx regs; rdx regs]);
   (lit "RSI=%016lX RDI=%016lX RBP=%016lX RSP=%016lX" ++ [10], AInt <$> [rsi regs; rdi regs; rbp regs; rsp regs]);
   (lit " R8=%016lX  R9=%016lX R10=%016lX R11=%016lX" ++ [10], AInt <$> [r8 regs; r9 regs; r10 regs; r11 regs]);
   (lit "R12=%016lX R13=%016lX R14=%016lX R15=%016lX" ++ [10], AInt <$> [r12 regs; r13 regs; r14 regs; r15 regs]);
   (lit "RIP=%016lX RFLAGS=%016lX" ++ [10], AInt <$> [rip regs; rflags regs])].

Definition exception_lines (name : list Z) (vec cr2 : Z) (regs : InterruptState) : list (list Z * list arg) :=
  [([10] ++ lit "CPU Exception: %s (%#lX)" ++ [10], [AStr (name ++ [0]); AInt vec])] ++
  (if negb (err regs =? 0) then [(lit "Error code: %#04lX" ++ [10], [AInt (err regs)])] else []) ++
  (if vec =? 0xE then [(lit "CR2=%016lX" ++ [10], [AInt cr2])] else []) ++ register_lines regs.

Definition last_words : list Z := lit "Cannot recover from CPU exception that happened in the kernel".

(** The output of [exception_handler], for the task of this number. *)
Definition exception_output (fuel : nat) (vec cr2 tid : Z) (regs : InterruptState) (frames : gmap Z (Z * Z)) (frame : Z) (s : S) : outcome S :=
  name ← err_name vec;
  if user_mode regs then
    '(s, _) ← vprintf putchar ([10] ++ lit "User task (tid: %d) crashed (%s)" ++ [10]) [AInt tid; AStr (name ++ [0])] s; Ret s
  else
    s ← print_lines (exception_lines name vec cr2 regs) s;
    panic putchar fuel last_words [] frames frame s.

(** ** The text of the report *)
Definition hex16 (v : Z) : list Z := hex_digit true <$> padded 16 16 (u64 v).
Definition hex_short (v : Z) : list Z := lit "0x" ++ (hex_digit true <$> numeral 65 16 (u64 v)).
Definition named (name : list Z) (v : Z) : list Z := name ++ lit "=" ++ hex16 v.
Definition four (x y z w : list Z) : list Z := x ++ [32] ++ y ++ [32] ++ z ++ [32] ++ w ++ [10].

Definition register_text (regs : InterruptState) : list Z :=
  four (named (lit "RAX") (rax regs)) (named (lit "RBX") (rbx regs)) (named (lit "RCX") (rcx regs)) (named (lit "RDX") (rdx regs)) ++
  four (named (lit "RSI") (rsi regs)) (named (lit "RDI") (rdi regs)) (named (lit "RBP") (rbp regs)) (named (lit "RSP") (rsp regs)) ++
  four (named (lit " R8") (r8 regs)) (named (lit " R9") (r9 regs)) (named (lit "R10") (r10 regs)) (named (lit "R11") (r11 regs)) ++
  four (named (lit "R12") (r12 regs)) (named (lit "R13") (r13 regs)) (named (lit "R14") (r14 regs)) (named (lit "R15") (r15 regs)) ++
  named (lit "RIP") (rip regs) ++ [32] ++ named (lit "RFLAGS") (rflags regs) ++ [10].

(** Four registers in a line. *)
Definition four_pieces (n1 n2 n3 n4 : list Z) : list piece :=
  (PChar <$> (n1 ++ [61])) ++ PHex false true true 16 :: (PChar <$> ([32] ++ n2 ++ [61])) ++ PHex false true true 16 ::
  (PChar <$> ([32] ++ n3 ++ [61])) ++ PHex false true true 16 :: (PChar <$> ([32] ++ n4 ++ [61])) ++ [PHex false true true 16; PChar 10].

Lemma four_line n1 n2 n3 n4 v1 v2 v3 v4 s :
  plain (n1 ++ n2 ++ n3 ++ n4) = true ->
  vprintf putchar (render (four_pieces n1 n2 n3 n4)) (AInt <$> [v1; v2; v3; v4]) s
  = (s ← puts putchar (four (named n1 v1) (named n2 v2) (named n3 v3) (named n4 v4)) s;
     Ret (s, Z.of_nat (length (four (named n1 v1) (named n2 v2) (named n3 v3) (named n4 v4))))).
Proof.
  unfold plain. rewrite !forallb_app, !andb_true_iff. intros (H1 & H2 & H3 & H4). apply vprintf_puts.
  - unfold four_pieces. cbn [app]. rewrite plain_ok; [|by unfold plain; rewrite forallb_app, H1].
    cbn [forallb piece_ok]. rewrite plain_ok; [|cbn; by unfold plain; rewrite forallb_app, H2].
    cbn [forallb piece_ok]. rewrite plain_ok; [|cbn; by unfold plain; rewrite forallb_app, H3].
    cbn [forallb piece_ok]. rewrite plain_ok; [done|cbn; by unfold plain; rewrite forallb_app, H4].
  - unfold four_pieces. rewrite output_chars. cbn [fmap list_fmap]. cbn [output output_piece].
    rewrite output_chars. cbn [output output_piece]. rewrite output_chars. cbn [output output_piece].
    rewrite output_chars. cbn [output output_piece]. cbn [fmap option_fmap option_map].
    unfold four, named, hex16. cbn [app]. by rewrite <- !app_assoc.
Qed.

Lemma two_line n1 n2 v1 v2 s :
  plain (n1 ++ n2) = true ->
  vprintf putchar (render ((PChar <$> (n1 ++ [61])) ++ PHex false true true 16 :: (PChar <$> ([32] ++ n2 ++ [61])) ++ [PHex false true true 16; PChar 10]))
    (AInt <$> [v1; v2]) s
  = (s ← puts putchar (named n1 v1 ++ [32] ++ named n2 v2 ++ [10]) s;
     Ret (s, Z.of_nat (length (named n1 v1 ++ [32] ++ named n2 v2 ++ [10])))).
Proof.
  unfold plain. rewrite !forallb_app, !andb_true_iff. intros (H1 & H2). apply vprintf_puts.
  - cbn [app]. rewrite plain_ok; [|by unfold plain; rewrite forallb_app, H1].
    cbn [forallb piece_ok]. rewrite plain_ok; [done|cbn; by unfold plain; rewrite forallb_app, H2].
  - rewrite output_chars. cbn [fmap list_fmap output output_piece].
    rewrite output_chars. cbn [output output_piece]. cbn [fmap option_fmap option_map].
    unfold named, hex16. cbn [app]. by rewrite <- !app_assoc.
Qed.

(** A line, and the rest. *)
Lemma print_lines_cons format args ls t t' :
  (forall s, vprintf putchar format args s = (s ← puts putchar t s; Ret (s, Z.of_nat (length t)))) ->
  (forall s, print_lines ls s = puts putchar t' s) ->
  forall s, print_lines ((format, args) :: ls) s = puts putchar (t ++ t') s.
Proof.
  intros Hf Hls s. cbn [print_lines]. rewrite Hf, puts_app. destruct (puts putchar t s); ored; [|done..]. apply Hls.
Qed.

Lemma registers_printed regs s : print_lines (register_lines regs) s = puts putchar (register_text regs) s.
Proof.
  revert s. unfold register_lines, register_text.
  apply print_lines_cons; [intros s; by apply (four_line (lit "RAX") (lit "RBX") (lit "RCX") (lit "RDX"))|].
  apply print_lines_cons; [intros s; by apply (four_line (lit "RSI") (lit "RDI") (lit "RBP") (lit "RSP"))|].
  apply print_lines_cons; [intros s; by apply (four_line (lit " R8") (lit " R9") (lit "R10") (lit "R11"))|].
  apply print_lines_cons; [intros s; by apply (four_line (lit "R12") (lit "R13") (lit "R14") (lit "R15"))|].
  rewrite <- (app_nil_r (named (lit "RIP") _ ++ _)).
  apply print_lines_cons; [intros s; by apply (two_line (lit "RIP") (lit "RFLAGS"))|done].
Qed.

(** The whole report: the exception's name and number, the error code when
    there is one, the faulting address of a page fault, every register. *)
Definition exception_text (name : list Z) (vec cr2 : Z) (regs : InterruptState) : list Z :=
  ([10] ++ lit "CPU Exception: " ++ name ++ lit " (" ++ hex_short vec ++ lit ")" ++ [10]) ++
  (if decide (err regs = 0) then [] else lit "Error code: 0x" ++ (hex_digit true <$> padded 4 16 (u64 (err regs))) ++ [10]) ++
  (if decide (vec = 14) then named (lit "CR2") cr2 ++ [10] else []) ++ register_text regs.

Lemma is_cstring_nonzero cs : is_cstring cs = true -> Forall (fun c => c <> 0) cs.
Proof.
  induction cs as [|c cs IH]; [by constructor|]. intros [Hc Hcs]%is_cstring_cons. constructor; [lia|by apply IH].
Qed.

Lemma exception_printed name vec cr2 regs s :
  is_cstring name = true -> print_lines (exception_lines name vec cr2 regs) s = puts putchar (exception_text name vec cr2 regs) s.
Proof.
  intros Hname. revert s. unfold exception_lines, exception_text. cbn [app].
  apply (print_lines_cons _ _ _ (10 :: lit "CPU Exception: " ++ name ++ lit " (" ++ hex_short vec ++ lit ")" ++ [10])).
  { intros s. change (10 :: lit "CPU Exception: %s (%#lX)" ++ [10])
      with (render ((PChar <$> ([10] ++ lit "CPU Exception: ")) ++ PStr :: (PChar <$> lit " (") ++ [PHex true true true 0; PChar 41; PChar 10])).
    apply vprintf_puts; [done|].
    rewrite output_chars, output_str, output_chars by (by apply is_cstring_nonzero).
    cbn [output output_piece fmap option_fmap option_map]. unfold hex_short. done. }
  assert (forall ls t, (forall s, print_lines ls s = puts putchar t s) -> forall s,
    print_lines ((if negb (err regs =? 0) then [(lit "Error code: %#04lX" ++ [10], [AInt (err regs)])] else []) ++ ls) s
    = puts putchar ((if decide (err regs = 0) then [] else lit "Error code: 0x" ++ (hex_digit true <$> padded 4 16 (u64 (err regs))) ++ [10]) ++ t) s) as Herr.
  { intros ls t Ht. destruct (Z.eqb_spec (err regs) 0) as [E|E]; [rewrite decide_True by done; exact Ht|].
    rewrite decide_False by done. cbn [negb]. apply print_lines_cons; [|done]. intros s.
    change (lit "Error code: %#04lX" ++ [10]) with (render ((PChar <$> lit "Error code: ") ++ [PHex true true true 4; PChar 10])).
    apply vprintf_puts; [done|].
    rewrite output_chars. cbn [output output_piece fmap option_fmap option_map]. done. }
  assert (forall ls t, (forall s, print_lines ls s = puts putchar t s) -> forall s,
    print_lines ((if vec =? 0xE then [(lit "CR2=%016lX" ++ [10], [AInt cr2])] else []) ++ ls) s
    = puts putchar ((if decide (vec = 14) then named (lit "CR2") cr2 ++ [10] else []) ++ t) s) as Hcr2.
  { intros ls t Ht. destruct (Z.eqb_spec vec 0xE) as [E|E]; [rewrite decide_True by done|rewrite decide_False by done; exact Ht].
    apply print_lines_cons; [|done]. intros s.
    change (lit "CR2=%016lX" ++ [10]) with (render ((PChar <$> lit "CR2=") ++ [PHex false true true 16; PChar 10])).
    apply vprintf_puts; [done|].
    rewrite output_chars. cbn [output output_piece fmap option_fmap option_map]. unfold named, hex16. by rewrite <- !app_assoc. }
  apply Herr, Hcr2, registers_printed.
Qed.

Lemma err_name_cstring vec name : err_name vec = Ret name -> is_cstring name = true.
Proof.
  unfold err_name. destruct (vec <? 19); [|by intros [= <-]]. intros Hn%of_option_Ret.
  apply zlookup_elem_of in Hn. assert (forallb is_cstring exception_strings = true) as Hall by (vm_compute; reflexivity).
  rewrite forallb_forall in Hall. by apply Hall, list_elem_of_In.
Qed.

(** An exception in the kernel is reported in full before the panic. *)
Lemma exception_reports fuel vec cr2 tid regs frames frame ips name s :
  err_name vec = Ret name -> user_mode regs = false -> returns_to frames frame ips -> (length ips < fuel)%nat ->
  exception_output fuel vec cr2 tid regs frames frame s
  = puts putchar (exception_text name vec cr2 regs ++ report last_words ips) s.
Proof.
  intros Hname Hmode Hr Hfuel. unfold exception_output. rewrite Hname. ored. rewrite Hmode.
  rewrite exception_printed by (by eapply err_name_cstring). rewrite puts_app.
  destruct (puts putchar _ s) as [s'| | |]; ored; [|done..].
  change last_words with (render ((PChar <$> last_words) ++ [])) at 1.
  apply panic_spec; [done| |done|done]. rewrite output_chars. cbn [output fmap option_fmap option_map]. by rewrite app_nil_r.
Qed.

(** One in a program names the task and ends there. *)
Lemma crash_reports fuel vec cr2 tid regs frames frame name s :
  err_name vec = Ret name -> user_mode regs = true -> 0 <= tid < 2 ^ 16 ->
  exception_output fuel vec cr2 tid regs frames frame s
  = puts putchar ([10] ++ lit "User task (tid: " ++ (Z.add 48 <$> numeral 65 10 tid) ++ lit ") crashed (" ++ name ++ lit ")" ++ [10]) s.
Proof.
  intros Hname Hmode Htid. unfold exception_output. rewrite Hname. ored. rewrite Hmode.
  pose proof (err_name_cstring vec name Hname) as Hcs.
  change ([10] ++ lit "User task (tid: %d) crashed (%s)" ++ [10]) with
    (render ((PChar <$> ([10] ++ lit "User task (tid: ")) ++ PDec false 0 :: (PChar <$> lit ") crashed (") ++ [PStr; PChar 41; PChar 10])).
  erewrite vprintf_puts; [|done|].
  2: { rewrite output_chars. cbn [output output_piece]. rewrite output_chars, output_str by (by apply is_cstring_nonzero).
       cbn [output output_piece fmap option_fmap option_map]. rewrite wrap_small by lia. done. }
  cbn [app]. destruct (puts putchar _ s) eqn:E; cbn [mbind outcome_bind]; done.
Qed.

(** ** klib/cppruntime.cpp: checks that end in a panic *)
Definition __stack_chk_guard : Z := 0xED1A449A97A8154E.
Definition __stack_chk_fail (fuel : nat) : gmap Z (Z * Z) -> Z -> S -> outcome S :=
  panic putchar fuel (lit "Stack smashing detected") [].
Definition __cxa_guard_abort (fuel : nat) : gmap Z (Z * Z) -> Z -> S -> outcome S :=
  panic putchar fuel (lit "__cxa_guard_abort called") [].
Definition __cxa_pure_virtual (fuel : nat) : gmap Z (Z * Z) -> Z -> S -> outcome S :=
  panic putchar fuel (lit "__cxa_pure_virtual called") [].
End Report.

(** Operators [new] and [delete], with and without brackets or a size, and
    [atexit]. *)
Definition operator_new (size : Z) (h : heap) : outcome (Z * heap) := klib_malloc size h.
Definition operator_delete (ptr : Z) (h : heap) : outcome heap := klib_free ptr h.
Definition atexit (func : Z) : Z := 0.

(** A panic opens the interrupts: [unlock] does, whoever locked. *)
Example panic_enables_interrupts :
  panic_vprintf (fun c s => Ret (s ++ [c])) 1 (lit "x") [] (mkSpinlock true 77, false, [])
  = Ret (mkSpinlock false 0, true, lit "x").
Proof. vm_compute. reflexivity. Qed.

Example division_report :
  match exception_output (fun c s => Ret (s ++ [c])) 1 0 0 0 (regs0 1) ∅ 0 [] with
  | Ret s => take 57 s
  | _ => []
  end = [10] ++ lit "CPU Exception: Division by 0 (0x0)" ++ [10] ++ lit "RAX=0000000000000000 ".
Proof. vm_compute. reflexivity. Qed.
