(* ===== verification/Ubsan.v ===== *)
(** * ubsan.cpp: reports of undefined behaviour

    A handler gets the place in the source where the compiler's check failed,
    and panics with a message.  The descriptors of types are not read. *)
From S2P Require Import Prelude Algorithm Bitmap Pmm CString Keyboard Printf Vector List Vfs Descriptors Tmpfs Mkfs Paging Initramfs Machine Interrupts Elf Timers Sched Kernel.

(** [Error]: [file] is the memory from the name on, its terminator included. *)
Record Error := mkError { file : list Z; line : Z; column : Z }.
Record TypeMismatchV1 := mkTypeMismatchV1 { mismatch : Error; log_alignment : Z; type_check_kind : Z }.
Record InvalidBuiltin := mkInvalidBuiltin { builtin : Error; builtin_kind : Z }.

Definition error_format : list Z := lit "UBSan Error: %s at %s:%d:%d".

Section handlers.
Context {S : Type} (putchar : Z -> S -> outcome S) (fuel : nat) (frames : gmap Z (Z * Z)) (frame : Z).

Definition handle_error (message : list Z) (err : Error) (s : S) : outcome S :=
  panic putchar fuel error_format [AStr (message ++ [0]); AStr (file err); AInt (line err); AInt (column err)] frames frame s.

Definition __ubsan_handle_add_overflow : Error -> S -> outcome S := handle_error (lit "addition overflow").
Definition __ubsan_handle_sub_overflow : Error -> S -> outcome S := handle_error (lit "subtraction overflow").
Definition __ubsan_handle_mul_overflow : Error -> S -> outcome S := handle_error (lit "multiplication overflow").
Definition __ubsan_handle_divrem_overflow : Error -> S -> outcome S := handle_error (lit "division overflow").
Definition __ubsan_handle_negate_overflow : Error -> S -> outcome S := handle_error (lit "negation overflow").
Definition __ubsan_handle_pointer_overflow : Error -> S -> outcome S := handle_error (lit "pointer overflow").
Definition __ubsan_handle_shift_out_of_bounds : Error -> S -> outcome S := handle_error (lit "shift out of bounds").
Definition __ubsan_handle_load_invalid_value : Error -> S -> outcome S := handle_error (lit "invalid load value").
Definition __ubsan_handle_out_of_bounds : Error -> S -> outcome S := handle_error (lit "array out of bounds").
Definition __ubsan_handle_vla_bound_not_positive : Error -> S -> outcome S :=
  handle_error (lit "variable-length argument is negative").
Definition __ubsan_handle_nonnull_return : Error -> S -> outcome S := handle_error (lit "non-null return is null").
Definition __ubsan_handle_nonnull_arg : Error -> S -> outcome S := handle_error (lit "non-null argument is null").
Definition __ubsan_handle_builtin_unreachable : Error -> S -> outcome S := handle_error (lit "unreachable code reached").
Definition __ubsan_handle_invalid_builtin (err : InvalidBuiltin) : S -> outcome S :=
  handle_error (lit "invalid builtin") (builtin err).

(** [(1 << log_alignment) - 1] is an [int]: a shift by 31 or more has no
    meaning; converted to the width of [ptr] below that it is the same number. *)
Definition __ubsan_handle_type_mismatch_v1 (err : TypeMismatchV1) (ptr : Z) (s : S) : outcome S :=
  if ptr =? 0 then handle_error (lit "use of null pointer") (mismatch err) s
  else if 31 <=? log_alignment err then Fault
  else if negb (Z.land ptr (Z.shiftl 1 (log_alignment err) - 1) =? 0) then
    handle_error (lit "use of misaligned pointer") (mismatch err) s
  else handle_error (lit "no space for object") (mismatch err) s.

(** ** What is printed *)
Definition decimal (v : Z) : list Z := Z.add 48 <$> numeral 65 10 v.
Definition error_text (message name : list Z) (line column : Z) : list Z :=
  lit "UBSan Error: " ++ message ++ lit " at " ++ name ++ lit ":" ++ decimal line ++ lit ":" ++ decimal column.
Definition error_pieces : list piece :=
  (PChar <$> lit "UBSan Error: ") ++ [PStr] ++ (PChar <$> lit " at ") ++ [PStr; PChar 58; PDec false 0; PChar 58; PDec false 0].

Lemma error_format_render : error_format = render error_pieces.
Proof. reflexivity. Qed.

Lemma error_output message name rest line column :
  Forall (fun c => c <> 0) message -> Forall (fun c => c <> 0) name -> 0 <= line < 2 ^ 32 -> 0 <= column < 2 ^ 32 ->
  output error_pieces [AStr (message ++ [0]); AStr (name ++ 0 :: rest); AInt line; AInt column]
  = Some (error_text message name line column).
Proof.
  intros Hm Hn Hl Hc. unfold error_pieces. rewrite output_chars. cbn [app]. rewrite output_str, output_chars, output_str by done.
  cbn [output output_piece app fmap option_fmap option_map]. rewrite !wrap_small by lia. unfold error_text. f_equal.
  by rewrite app_nil_r.
Qed.

(** A report names the error and its place, and the callers. *)
Lemma handle_error_reports message name rest line column ips s :
  Forall (fun c => c <> 0) message -> Forall (fun c => c <> 0) name -> 0 <= line < 2 ^ 32 -> 0 <= column < 2 ^ 32 ->
  returns_to frames frame ips -> (length ips < fuel)%nat ->
  handle_error message (mkError (name ++ 0 :: rest) line column) s
  = puts putchar (report (error_text message name line column) ips) s.
Proof.
  intros Hm Hn Hl Hc Hr Hf. unfold handle_error. rewrite error_format_render.
  by apply panic_spec; [|apply error_output| |].
Qed.

(** A pointer is null, or no multiple of the alignment, or else the object does
    not fit. *)
Lemma type_mismatch_spec err k kind ptr s :
  0 <= k < 31 -> 0 <= ptr ->
  __ubsan_handle_type_mismatch_v1 (mkTypeMismatchV1 err k kind) ptr s
  = handle_error (if decide (ptr = 0) then lit "use of null pointer"
                  else if decide (ptr mod 2 ^ k = 0) then lit "no space for object"
                  else lit "use of misaligned pointer") err s.
Proof.
  intros Hk Hp. unfold __ubsan_handle_type_mismatch_v1. cbn [log_alignment mismatch].
  rewrite (proj2 (Z.leb_gt _ _)) by lia. change (Z.shiftl 1 k - 1) with (Z.pred (Z.shiftl 1 k)).
  change (Z.pred (Z.shiftl 1 k)) with (Z.ones k). rewrite Z.land_ones by lia.
  destruct (Z.eqb_spec ptr 0) as [E|E]; [by rewrite (decide_True _ _ E)|]. rewrite (decide_False _ _ E).
  destruct (Z.eqb_spec (ptr mod 2 ^ k) 0) as [E'|E']; cbn [negb].
  - by rewrite (decide_True _ _ E').
  - by rewrite (decide_False _ _ E').
Qed.
End handlers.

Example overflow_report :
  __ubsan_handle_add_overflow (fun c s => Ret (s ++ [c])) 9 ∅ 0 (mkError (lit "src/mem/pmm.cpp" ++ [0]) 117 22) []
  = Ret ([10] ++ lit "Kernel Panic: UBSan Error: addition overflow at src/mem/pmm.cpp:117:22" ++ [10] ++ lit "Stacktrace: ").
Proof. vm_compute. reflexivity. Qed.
