(* ===== verification/System.v ===== *)
(** * kernel.cpp: the whole of _start

    What [_start] does after the heap: the processors, the firmware's tables, the
    file system, the timer, the scheduler and its first three tasks, on what the
    first half (file Boot) left.  [byte] is the memory the firmware's tables are
    in and [cpus_at] what the boot loader's answer about the processors holds;
    the others of them run [init] of file Cpu on their own.  The table of system
    calls is the constant one of file Syscall, the table of file system drivers
    is in file Drivers.  Interrupts are off until the end of [_start], so that
    the calibration of the timer gets none from the PIT. *)
From S2P Require Import Prelude Algorithm Bitmap Pmm CString Keyboard Vector List Vfs Tmpfs Tree Mkfs Archive Paging AddressSpace Machine Interrupts Cpu Elf Timers Acpi Framebuffer Terminal Boot Sched Traps Kernel.

Section System.
Context {M : Type} `{Machine M}.
Context (hhdm : Z) (byte : Z -> option Z) (new_local : cpus -> Z).
Context (wrappers : list Z) (raw_bitmap exception_handler page_fault_handler : Z).
Context (syscall_entry spurious timer_interrupt test_task_1 test_task_2 kernel_thread : Z).
Context (file_junk : Z -> Z) (root_fs first_node : Z).
Context (junk : Z -> Sched.Task) (sched_list_head p1 p2 p3 : Z).

(** What the static variables of the components hold before. *)
Definition static_irqs : irq_state := mkIrq (Vector.new 0) (Vector.new 0) (seqZ 0 16) (replicate 16 0) 0.
Definition static_hpet : hpet := mkHpet false 0 0 (mkGenericAddr 0 0 0 0 0).
Definition static_pit : pit := mkPit false 0.

(** From the APIC timer to the start of the scheduler. *)
Record scheduling := mkScheduling {
  sc_irqs : irq_state; sc_ints : idt_state; sc_hpet : hpet; sc_timer : apic_timer; sc_pit : pit;
  sc_tree : vfs NodeData; sc_sched : sched M }.

Definition start_scheduling (fuel : nat) (kernel : Pagemap) (cr3 : Z) (ac : acpi M) : outcome scheduling :=
  st ← Tmpfs.init file_junk root_fs first_node;
  let h := Acpi.timer ac in
  '(t, ints, p, m) ← timer_init hhdm (irqs ac) timer_interrupt h static_pit (if initialized h then fuel else O)
                       (Acpi.ints ac) (board ac);
  s ← Sched.init hhdm junk sched_list_head p1 p2 kernel test_task_1 test_task_2 (mkSched ∅ (Acpi.space ac) 0 cr3 m);
  s ← new_kernel_task hhdm junk sched_list_head p3 kernel kernel_thread true s;
  Ret (mkScheduling (irqs ac) ints h t p st (Sched.start (reg_base (irqs ac)) t s)).

(** The first processor and the firmware's tables. *)
Definition start_devices (bsp : Z) (infos : list smp_info) (rsdp : Z) (k : kernel) :
    outcome (list smp_info * list (processor M) * cpus * acpi M) :=
  '(infos, ps, m, c) ←
    smp_init hhdm (Boot.cr3 k) syscall_entry wrappers raw_bitmap exception_handler page_fault_handler new_local bsp infos
      (cpu_msrs (cpu k)) (mkCpus (frames (Boot.space k)) ∅ (cpu_gdt (cpu k)) (cpu_idt (cpu k)));
  ac ← parse_rsdp hhdm byte (Boot.kernel_map k) spurious rsdp
         (mkAcpi static_irqs (tables c) (set_frames (cpu_frames c) (Boot.space k)) static_hpet m);
  Ret (infos, ps, c, ac).

(** What [_start] leaves to the first timer interrupt. *)
Record system := mkSystem {
  sy_kernel : @kernel M; sy_infos : list smp_info; sy_processors : list (processor M); sy_cpus : cpus;
  sy_scheduling : scheduling }.

Definition bring_up (fuel : nat) (bsp : Z) (infos : list smp_info) (rsdp : Z) (k : kernel) : outcome system :=
  '(infos, ps, c, ac) ← start_devices bsp infos rsdp k;
  sc ← start_scheduling fuel (Boot.kernel_map k) (Boot.cr3 k) ac;
  Ret (mkSystem k infos ps c sc).

(** The world the first kernel thread finds. *)
Definition first_world (sc : scheduling) : @world M NodeData :=
  mkWorld (sc_ints sc) Keyboard.init (sc_tree sc) (sc_sched sc).
End System.

(** The whole of [_start]: [cpus_at] is what the answer about the processors holds. *)
Definition _start {M : Type} `{Machine M} (ram : limine_memmap_entry -> list Z) (byte : Z -> option Z)
    (cpus_at : Z -> Z * list smp_info) (head hhdm_range heap_range : Z) (new_local : cpus -> Z)
    (wrappers : list Z) (raw_bitmap exception_handler page_fault_handler : Z)
    (syscall_entry spurious timer_interrupt test_task_1 test_task_2 kernel_thread : Z)
    (file_junk : Z -> Z) (root_fs first_node : Z) (junk : Z -> Sched.Task) (sched_list_head p1 p2 p3 : Z)
    (fuel : nat) (r : responses) (cpu0 : cpu_state M) : outcome (@system M) :=
  k ← Boot.start ram head hhdm_range heap_range wrappers raw_bitmap exception_handler page_fault_handler
        ∅ ∅ empty_heap cpu0 ∅ r;
  hhdm ← of_option (hhdm_offset r);
  rsdp ← of_option (Boot.rsdp r);
  smp ← of_option (Boot.smp r);
  bring_up hhdm byte new_local wrappers raw_bitmap exception_handler page_fault_handler
    syscall_entry spurious timer_interrupt test_task_1 test_task_2 kernel_thread file_junk root_fs first_node
    junk sched_list_head p1 p2 p3 fuel (cpus_at smp).1 (cpus_at smp).2 rsdp k.

(** ** The scheduler comes up *)
Section starts.
Context {M : Type} `{BaseRegisters M}.
Context (hhdm : Z).

(** Waiting for the HPET leaves the base registers alone. *)
Lemma stall_base r fuel h ns m m' :
  is_base r = true -> address_space (regs h) = SYSTEM_MEM ->
  stall_ns hhdm fuel h ns m = Ret m' -> base_value r m' = base_value r m.
Proof.
  intros Hr Hs. unfold stall_ns. destruct (negb (initialized h)); [done|].
  assert (forall m, exists v, generic_read hhdm (regs h) 8 MAIN_COUNTER m = Ret (v, (mmio_read 8 (u64 (addr (regs h) + MAIN_COUNTER + hhdm)) m).2)) as Hread.
  { intros m0. unfold generic_read. rewrite Hs. cbn [Z.eqb]. exists (mmio_read 8 (u64 (addr (regs h) + MAIN_COUNTER + hhdm)) m0).1.
    f_equal. by destruct (mmio_read _ _ _). }
  assert (forall target m, wait_loop hhdm fuel h target m = Ret m' -> base_value r m' = base_value r m) as Hloop.
  { intros target. induction fuel as [|fuel IH]; intros m0; cbn [wait_loop]; [done|].
    destruct (Hread m0) as (v & ->). ored. destruct (v <? target).
    - intros E%IH. by rewrite E, base_value_mmio_read.
    - intros [= <-]. by rewrite base_value_mmio_read. }
  destruct (Hread m) as (v & ->). ored. intros E%Hloop. by rewrite E, base_value_mmio_read.
Qed.

Lemma rising_in_memory (h : hpet) `{!RisingCounter hhdm h} (m : M) : address_space (regs h) = SYSTEM_MEM.
Proof.
  destruct (counter_read hhdm (h := h) m) as (m' & E & _). unfold generic_read, cpu_in in E.
  destruct (Z.eqb_spec (address_space (regs h)) SYSTEM_MEM); [done|]. by destruct (_ =? _).
Qed.

(** The LAPIC as [timer_init] leaves it to the wait. *)
Definition counting (b vector : Z) (m : M) : M :=
  LAPIC_write_reg b TIMER_INITIAL 0xFFFFFFFF (LAPIC_write_reg b TIMER_DIVIDE 3
    (LAPIC_set_vector b LVT_TIMER vector false false false true (timer_stop b m))).

Lemma base_counting r b vector m : is_base r = true -> base_value r (counting b vector m) = base_value r m.
Proof. intros Hr. unfold counting, LAPIC_set_vector. by rewrite !base_write_reg, base_stop. Qed.

(** An HPET that can time 100 ms from [m] on. *)
Record can_time (h : hpet) (b : Z) (m : M) : Prop := {
  ct_on : initialized h = true;
  ct_period : 0 < period h;
  ct_counter : forall vector now m', generic_read hhdm (regs h) 8 MAIN_COUNTER (counting b vector m) = Ret (now, m') ->
    0 <= now /\ now + 10 ^ 14 / period h < 2 ^ 64 }.

Definition enough_reads (h : hpet) : nat := Datatypes.S (Z.to_nat (10 ^ 14 / period h)).

Lemma timer_init_spec (h : hpet) `{!RisingCounter hhdm h} q interrupt p s m :
  can_time h (reg_base q) m -> idt_ok s -> (exists v, 32 <= v < 256 /\ bit (idt_bitmap s) v = false) -> interrupt <> 0 ->
  exists t s' p' m', timer_init hhdm q interrupt h p (enough_reads h) s m = Ret (t, s', p', m') /\ idt_ok s' /\
    32 <= timer_vector t < 256 /\ idt_handler_common (timer_vector t) s' = Ret interrupt /\
    base_value IA32_GS_BASE m' = base_value IA32_GS_BASE m.
Proof.
  intros [Hon Hper Hct] Hok (v0 & Hv0 & Hfree) Hint. unfold timer_init.
  pose proof (allocate_vector_spec s Hok) as Hal. destruct (allocate_vector s) as [[v s1]| | |]; [|exfalso..]; try done.
  2: { rewrite Hal in Hfree by done. done. }
  destruct Hal as (Hv & _ & _ & Hup & Hid & Hhs). ored. unfold load_idt_handler. rewrite Hhs.
  destruct (zlookup_is_Some (idt_handlers s) v) as [x ->]; [rewrite (ok_handlers _ Hok); lia|]. ored. rewrite Hon.
  fold (counting (reg_base q) v m). destruct (counter_read hhdm (h := h) (counting (reg_base q) v m)) as (m0 & E0 & _).
  destruct (Hct v _ m0 E0) as [Ht0 Ht1].
  destruct (stall_ends hhdm h (u64 (100 * 1000000)) (counting (reg_base q) v m) (counter hhdm (h := h) m0) m0 (Z.to_nat (10 ^ 14 / period h)) Hon Hper) as (m1 & E1 & _);
    [by vm_compute|by vm_compute|exact E0|done|exact Ht1|reflexivity|].
  unfold stall_ms, enough_reads. rewrite E1. ored. apply stall_base with (r := IA32_GS_BASE) in E1; [|done|by apply rising_in_memory].
  unfold LAPIC_read_reg. destruct (mmio_read _ _ m1) as [cur m2] eqn:E2. eexists _, _, _, _. split; [done|].
  split; [|split; [done|split]].
  - split; cbn [idt idt_handlers idt_bitmap]; [by rewrite Hid, (ok_idt _ Hok)|by rewrite length_zinsert, (ok_handlers _ Hok)|].
    eapply updates_covers; [exact Hup|apply Hok].
  - unfold idt_handler_common. cbn [timer_vector idt_handlers].
    rewrite zlookup_zinsert_eq by (rewrite (ok_handlers _ Hok); lia). ored. by rewrite (proj2 (Z.eqb_neq interrupt 0)).
  - rewrite base_stop by done. change m2 with (cur, m2).2. rewrite <- E2, base_value_mmio_read, E1 by done. by apply base_counting.
Qed.

(** One more stack, where there is room for it. *)
Lemma stack_room f qs k :
  Cpu.frames_ok f -> stacks_ok f qs -> 0 <= k -> room f (16 + k) ->
  exists q f', alloc_stack_top hhdm f = Ret (top hhdm q, f') /\ Cpu.frames_ok f' /\ stacks_ok f' (q :: qs) /\ room f' k.
Proof.
  intros Hf Hqs Hk Hroom. pose proof (alloc_stack_spec hhdm f qs Hf Hqs) as Hspec. destruct Hf as [Hwf Hbit].
  destruct (alloc_pages_room f 16 k Hwf ltac:(lia) Hk Hbit Hroom) as (p & f' & E & Hroom').
  unfold alloc_stack_top in *. change (Cpu.stack_size / 0x1000) with 16 in *. rewrite E in *. ored. cbn [mbind outcome_bind] in Hspec.
  destruct Hspec as (q & -> & Hf' & Hqs'). by exists q, f'.
Qed.

Context (junk : Z -> Sched.Task) (sched_list_head : Z).

(** An address for a new task: not one of the list [ts]. *)
Record fresh_task (p : Z) (ts : list Z) : Prop := {
  ft_range : 0 < p /\ sched_list p < 2 ^ 64;
  ft_new : p ∉ ts /\ sched_list p <> sched_list_head;
  ft_junk : 0 <= gs_base (junk p) < 2 ^ 64 /\ 0 <= fs_base (junk p) < 2 ^ 64 }.

(** The task at [p] is about to run [ip] on the stack [q]. *)
Definition starts_at (s : sched M) (kernel : Pagemap) (p ip q : Z) : Prop :=
  exists t, Sched.tasks s !! p = Some t /\ Sched.pagemap t = kernel /\
    gpr_state t = initial_state KERNEL_CODE_64 KERNEL_DATA_64 ip (top hhdm q).

(** Tasks [ts] with stacks [qs], and room for [k] pages more. *)
Record tasks_ok (s : sched M) (ts qs : list Z) (k : Z) : Prop := {
  to_sched : sched_ok sched_list_head s ts;
  to_frames : Cpu.frames_ok (frames (memory s));
  to_stacks : stacks_ok (frames (memory s)) qs;
  to_room : room (frames (memory s)) k }.

Lemma linked_task (s : sched M) ts p h :
  fresh_task p ts -> sched_ok sched_list_head s ts -> ring (<[sched_list p := h]> (heads (memory s))) sched_list_head (sched_list <$> ts).
Proof.
  intros [_ [Hp Hh] _] [[Hnd Hl] _ _ _]. split; [done|].
  assert (forall z, z ∈ sched_list_head :: (sched_list <$> ts) -> <[sched_list p := h]> (heads (memory s)) !! z = heads (memory s) !! z) as Hz.
  { intros z Hz. rewrite lookup_insert_ne; [done|]. intros <-. apply elem_of_cons in Hz as [?|Hz]; [done|].
    apply list_elem_of_fmap in Hz as (p' & E & Hin). unfold sched_list in E. by replace p with p' in Hp by lia. }
  eapply linked_ext; [| |exact Hl]; intros z Hin; unfold nxt, prv; rewrite Hz; set_solver.
Qed.

Lemma new_kernel_task_spec (s : sched M) ts qs k p kernel ip :
  tasks_ok s ts qs (16 + k) -> 0 <= k -> fresh_task p ts ->
  exists q s', new_kernel_task hhdm junk sched_list_head p kernel ip true s = Ret s' /\ tasks_ok s' (ts ++ [p]) (q :: qs) k /\
    starts_at s' kernel p ip q /\ (forall r, r <> p -> Sched.tasks s' !! r = Sched.tasks s !! r) /\ machine s' = machine s.
Proof.
  intros [Hok Hf Hqs Hroom] Hk Hp. unfold new_kernel_task, alloc_stack.
  destruct (stack_room _ qs k Hf Hqs Hk Hroom) as (q & f' & Eq & Hf' & Hqs' & Hroom').
  unfold new_Task, set_heads. cbn [memory frames]. unfold alloc_stack_top in Eq. change (Cpu.stack_size / 0x1000) with (Sched.stack_size / 0x1000) in Eq.
  destruct (alloc_pages _ _) as [[phy f1]| | |]; [|done..]. ored. cbn [mbind outcome_bind] in Eq. injection Eq as Eq ->.
  change Cpu.stack_size with Sched.stack_size in Eq. rewrite Eq. unfold task_at, set_memory. cbn [Sched.tasks]. rewrite lookup_insert_eq. ored.
  unfold enqueue_task, set_task, set_frames, set_memory. cbn [Sched.tasks memory last_tid Sched.cr3 machine heads mem frames ranges flushed].
  destruct (add_before_entry (<[sched_list p := mkListHead 0 0]> (heads (memory s))) sched_list_head (sched_list <$> ts) (sched_list p))
    as (h & -> & Hring & _).
  1: { by apply linked_task. }
  1: { destruct Hp as [_ [Hp Hh] _]. apply not_elem_of_cons. split; [done|]. intros (p' & E & Hin)%list_elem_of_fmap.
    unfold sched_list in E. by replace p with p' in Hp by lia. }
  1: { rewrite lookup_insert_eq. by eexists. }
  ored. eexists q, _. split; [done|]. cbn [Sched.tasks memory machine].
  split; [split|split; [|split; [|done]]]; cbn [memory frames]; try done.
  - destruct Hok as [_ Ht Hrg Hhd]. destruct Hp as [Hp1 Hp2 Hp3]. split; cbn [memory heads Sched.tasks].
    + by rewrite fmap_app.
    + intros r Hr. destruct (decide (r = p)) as [->|]; [rewrite lookup_insert_eq; by eexists|].
      rewrite !lookup_insert_ne by done. apply Ht. set_solver.
    + intros r t. destruct (decide (r = p)) as [->|]; [rewrite lookup_insert_eq; intros [= <-]; exact (conj (proj1 Hp1) (conj (proj2 Hp1) Hp3))|].
      rewrite !lookup_insert_ne by done. apply Hrg.
    + done.
  - eexists. split; [apply lookup_insert_eq|]. done.
  - intros r Hr. by rewrite !lookup_insert_ne.
Qed.

Lemma starts_at_kept (s s' : sched M) kernel p ip q :
  Sched.tasks s' !! p = Sched.tasks s !! p -> starts_at s kernel p ip q -> starts_at s' kernel p ip q.
Proof. intros E (t & Ht & Hrest). exists t. by rewrite E. Qed.

(** The turn of a task that has not run yet. *)
Lemma first_turn b timer (s : sched M) ts regs n kernel ip q :
  sched_ok sched_list_head s ts -> running s ts -> successor (current s) ts = Some n -> starts_at s kernel n ip q ->
  n <> current s ->
  exists s', scheduler_isr hhdm sched_list_head b timer regs s = Ret (initial_state KERNEL_CODE_64 KERNEL_DATA_64 ip (top hhdm q), s') /\
    sched_ok sched_list_head s' ts /\ running s' ts /\ current s' = n /\ Sched.cr3 s' = activate hhdm kernel /\
    forall r, r <> current s -> Sched.tasks s' !! r = Sched.tasks s !! r.
Proof.
  intros Hok Hrun Hn (t & Ht & Hpm & Hregs) Hne.
  destruct (isr_spec hhdm sched_list_head b timer s ts regs n Hok Hrun Hn) as (t' & s' & -> & Etk & Ht' & Ecur & _ & _ & Ecr3 & _ & _ & Hok').
  assert (forall r, r <> current s -> Sched.tasks s' !! r = Sched.tasks s !! r) as Hother.
  { intros r Hr. rewrite Etk. case_decide; [done|]. by rewrite lookup_alter_ne by congruence. }
  rewrite Hother, Ht in Ht' by done. injection Ht' as <-. rewrite Hregs. exists s'. split; [done|]. split; [done|].
  split; [|split; [done|split; [by rewrite Ecr3, Hpm|done]]]. right. rewrite Ecur.
  pose proof (successor_in _ _ _ Hn) as Hin. split; [by apply (so_tasks _ _ _ Hok')|by left].
Qed.

Lemma sched_init_spec p1 p2 kernel ip1 ip2 (s : sched M) qs k :
  Cpu.frames_ok (frames (memory s)) -> stacks_ok (frames (memory s)) qs -> room (frames (memory s)) (32 + k) -> 0 <= k ->
  Sched.tasks s = ∅ -> sched_list_head <> 0 -> fresh_task p1 [] -> fresh_task p2 [p1] ->
  exists q1 q2 s', Sched.init hhdm junk sched_list_head p1 p2 kernel ip1 ip2 s = Ret s' /\
    tasks_ok s' [p1; p2] (q2 :: q1 :: qs) k /\ starts_at s' kernel p1 ip1 q1 /\ starts_at s' kernel p2 ip2 q2 /\ machine s' = machine s.
Proof.
  intros Hf Hqs Hroom Hk Hempty Hhead H1 H2. unfold Sched.init.
  destruct (init_ring (<[sched_list_head := mkListHead 0 0]> (heads (memory s))) sched_list_head) as (h & -> & Hring);
    [rewrite lookup_insert_eq; by eexists|]. ored.
  set (s0 := Sched.set_memory _ s).
  assert (tasks_ok s0 [] qs (16 + (16 + k))) as Hok0.
  { split; [split|exact Hf|exact Hqs|]; [exact Hring|by intros ? ?%not_elem_of_nil| |done|].
    - intros p t Hp. subst s0. cbn in Hp. by rewrite Hempty, lookup_empty in Hp.
    - subst s0. cbn. by replace (16 + (16 + k)) with (32 + k) by lia. }
  destruct (new_kernel_task_spec s0 [] qs (16 + k) p1 kernel ip1 Hok0) as (q1 & s1 & -> & Hok1 & Hs1 & _ & Em1); [lia|done|]. ored.
  destruct (new_kernel_task_spec s1 [p1] (q1 :: qs) k p2 kernel ip2 Hok1) as (q2 & s2 & -> & Hok2 & Hs2 & Ho2 & Em2); [lia|done|].
  exists q1, q2, s2. split; [done|]. split; [done|]. split; [|split; [done|by rewrite Em2, Em1]].
  eapply starts_at_kept; [|exact Hs1]. apply Ho2. intros ->. destruct H2 as [_ [Hp _] _]. apply Hp. left.
Qed.

Context (file_junk : Z -> Z) (zeroed : forall p, file_junk p = 0).
Context (timer_interrupt test_task_1 test_task_2 kernel_thread root_fs first_node p1 p2 p3 : Z).

(** The addresses that [new] and the linker give. *)
Hypothesis tasks_fresh : fresh_task p1 [] /\ fresh_task p2 [p1] /\ fresh_task p3 [p1; p2].
Hypothesis addresses : sched_list_head <> 0 /\ timer_interrupt <> 0 /\ 0 < first_node.

Abbreviation interrupts sc := (Sched.run hhdm sched_list_head (reg_base (sc_irqs sc)) (sc_timer sc)).
Abbreviation thread_state ip q := (initial_state KERNEL_CODE_64 KERNEL_DATA_64 ip (top hhdm q)).

(** C11. [start_scheduling], what [_start] does from the file system on, ends with
    a machine that runs.  With an HPET that was found and counts, a
    free interrupt vector, 48 free pages in a row, task and list addresses that
    are not in use, and memory from [new] that reads zero where the file system's
    nodes go ([zeroed]), it returns (without the HPET it does not, example
    [no_hpet_hangs]), with the scheduler's handler installed on the timer's vector, an empty root
    directory, and three tasks whose stacks overlap neither each other nor those
    of the processors; and the first three timer interrupts, whatever they
    interrupt, start the two drawing tasks and then [kernel_thread], each at its
    first instruction on its own stack, in the kernel's address space. *)
Theorem start_scheduling_runs_tasks kernel cr3 (ac : acpi M) qs (h : hpet) `{!RisingCounter hhdm h} :
  Acpi.timer ac = h -> can_time h (reg_base (irqs ac)) (board ac) ->
  idt_ok (Acpi.ints ac) -> (exists v, 32 <= v < 256 /\ bit (idt_bitmap (Acpi.ints ac)) v = false) ->
  Cpu.frames_ok (frames (Acpi.space ac)) -> stacks_ok (frames (Acpi.space ac)) qs -> room (frames (Acpi.space ac)) 48 ->
  base_value IA32_GS_BASE (board ac) = 0 ->
  exists sc q1 q2 q3,
    start_scheduling hhdm timer_interrupt test_task_1 test_task_2 kernel_thread file_junk root_fs first_node junk
      sched_list_head p1 p2 p3 (enough_reads h) kernel cr3 ac = Ret sc /\
    idt_handler_common (timer_vector (sc_timer sc)) (sc_ints sc) = Ret timer_interrupt /\
    (forall nm, nm <> lit "." -> nm <> lit ".." -> Tree.entry (sc_tree sc) (root (sc_tree sc)) nm = None) /\
    stacks_ok (frames (memory (sc_sched sc))) (q3 :: q2 :: q1 :: qs) /\
    forall r1 r2 r3, exists s',
      interrupts sc [r1; r2; r3] (sc_sched sc)
      = Ret ([thread_state test_task_1 q1; thread_state test_task_2 q2; thread_state kernel_thread q3], s') /\
      sched_ok sched_list_head s' [p1; p2; p3] /\ current s' = p3 /\ Sched.cr3 s' = activate hhdm kernel.
Proof.
  intros <- Htime Hidt Hvec Hf Hqs Hroom Hgs. destruct addresses as (Hhead & Hint & Hnode). destruct tasks_fresh as (F1 & F2 & F3).
  unfold start_scheduling. destruct (init_root_spec file_junk zeroed root_fs first_node Hnode) as (st & -> & _ & _ & _ & _ & Hempty & _). ored.
  rewrite (ct_on _ _ _ Htime).
  destruct (timer_init_spec (Acpi.timer ac) (irqs ac) timer_interrupt static_pit (Acpi.ints ac) (board ac) Htime Hidt Hvec Hint)
    as (t & ints & pt & m & -> & _ & _ & Hhand & Hm). ored.
  destruct (sched_init_spec p1 p2 kernel test_task_1 test_task_2 (mkSched ∅ (Acpi.space ac) 0 cr3 m) qs 16) as (q1 & q2 & s2 & -> & Hok2 & S1 & S2 & Em2);
    [done..|]. ored.
  destruct (new_kernel_task_spec s2 [p1; p2] (q2 :: q1 :: qs) 0 p3 kernel kernel_thread Hok2) as (q3 & s3 & -> & Hok3 & S3 & O3 & Em3); [lia|done|].
  ored. eexists _, q1, q2, q3. split; [done|]. cbn [sc_timer sc_ints sc_tree sc_sched sc_irqs].
  split; [done|]. split; [done|]. split; [apply Hok3|]. intros r1 r2 r3.
  assert (p2 <> p1 /\ p3 <> p1 /\ p3 <> p2 /\ 0 < p1 /\ 0 < p2 /\ 0 < p3) as (N1 & N2 & N3 & P1 & P2 & P3).
  { destruct F1 as [[? _] _ _], F2 as [[? _] [X2 _] _], F3 as [[? _] [X3 _] _]. set_solver. }
  set (s4 := Sched.start (reg_base (irqs ac)) t s3).
  assert (current s4 = 0) as C0.
  { unfold current. subst s4. cbn. rewrite base_oneshot by done. by rewrite Em3, Em2, <- Hgs. }
  assert (sched_ok sched_list_head s4 [p1; p2; p3]) as K4 by (destruct Hok3 as [[? ? ? ?] _ _ _]; done).
  assert (forall p ip q, p <> p3 -> starts_at s2 kernel p ip q -> starts_at s4 kernel p ip q) as H24.
  { intros p ip q Hp. apply starts_at_kept. by apply O3. }
  cbn [Sched.run].
  destruct (first_turn (reg_base (irqs ac)) t s4 [p1; p2; p3] r1 p1 kernel test_task_1 q1) as (s5 & -> & K5 & R5 & C5 & _ & O5);
    [done|by left|rewrite C0; unfold successor; cbn [after]; rewrite !decide_False by lia; done|by apply H24|lia|]. ored.
  destruct (first_turn (reg_base (irqs ac)) t s5 [p1; p2; p3] r2 p2 kernel test_task_2 q2) as (s6 & -> & K6 & R6 & C6 & _ & O6);
    [done|done|rewrite C5; unfold successor; cbn [after]; by rewrite decide_True|apply (starts_at_kept s4); [apply O5; lia|by apply H24]|lia|]. ored.
  destruct (first_turn (reg_base (irqs ac)) t s6 [p1; p2; p3] r3 p3 kernel kernel_thread q3) as (s7 & -> & K7 & R7 & C7 & E7 & O7);
    [done|done|rewrite C6; unfold successor; cbn [after]; rewrite decide_False by lia; by rewrite decide_True| |lia|].
  { apply (starts_at_kept s4); [rewrite O6, O5 by lia; done|done]. }
  ored. by exists s7.
Qed.
End starts.

(** ** The end of the test program *)
Section ends.
Context {M : Type} `{BaseRegisters M}.
Context (hhdm sched_list_head : Z).

Lemma alive_spec (p : Z) (w : @world M NodeData) n :
  nxt (heads (memory (tasks_of w))) (sched_list p) = Some n -> test_task_alive p w = Ret (negb (n =? 0)).
Proof. intros (q & E)%nxt_Some. unfold test_task_alive. by rewrite E. Qed.

(** While the task is in the list [kernel_thread] waits. *)
Lemma watch_waits fuel h p (w : @world M NodeData) ts :
  sched_ok sched_list_head (tasks_of w) ts -> p ∈ ts -> watch_test_task hhdm p fuel h w = Ret w.
Proof.
  intros Hok Hp. unfold watch_test_task. destruct (so_ring _ _ _ Hok) as [Hnd Hl]. apply NoDup_cons in Hnd as [Hh Hnd].
  pose proof (linked_after _ _ _ _ _ Hl Hnd (list_elem_of_fmap_2 sched_list _ _ Hp)) as Hx.
  rewrite (alive_spec _ _ _ Hx), after_fmap. ored. rewrite (proj2 (Z.eqb_neq _ _)); [done|].
  destruct (after p ts) as [x|] eqn:Ha; cbn; [|apply (so_head _ _ _ Hok)].
  destruct (so_tasks _ _ _ Hok x (after_in _ _ _ Ha)) as [t Ht]. destruct (so_range _ _ _ Hok x t Ht). unfold sched_list. lia.
Qed.

(** Once it took itself out, the machine is reset after three seconds of the HPET. *)
Lemma watch_resets (h : hpet) `{!RisingCounter hhdm h} p table keyboard tree (s s' : sched M) ts1 ts2 now m :
  sched_ok sched_list_head s (ts1 ++ p :: ts2) -> current s = p -> dequeue_and_die s = Ret s' ->
  initialized h = true -> 0 < period h ->
  generic_read hhdm (regs h) 8 MAIN_COUNTER (machine s') = Ret (now, m) -> 0 <= now -> now + 3 * 10 ^ 15 / period h < 2 ^ 64 ->
  exists w, watch_test_task hhdm p (Datatypes.S (Z.to_nat (3 * 10 ^ 15 / period h))) h
      (mkWorld table keyboard (tree : vfs NodeData) s') = Ret w /\
    Sched.cr3 (tasks_of w) = 0.
Proof.
  intros Hok Hcur E Hon Hper Hread Hnow Htop.
  destruct (dequeue_spec sched_list_head s ts1 p ts2 Hok Hcur) as (s1 & E1 & Hok1 & _ & Hcur1 & Hrun & _).
  rewrite E in E1. injection E1 as <-. assert (p ∉ ts1 ++ ts2) as Hp.
  { pose proof (sched_ok_nodup _ _ _ Hok) as Hnd. rewrite <- Permutation_middle in Hnd. by apply NoDup_cons in Hnd as [? _]. }
  assert (nxt (heads (memory s')) (sched_list p) = Some 0) as Hnull.
  { destruct Hrun as [Hz0|[_ [Hin|[_ Hz]]]]; rewrite Hcur1 in *; [|done|done].
    destruct (so_tasks _ _ _ Hok p ltac:(set_solver)) as [t Ht]. destruct (so_range _ _ _ Hok p t Ht). lia. }
  unfold watch_test_task. rewrite (alive_spec p (mkWorld table keyboard tree s') 0 Hnull). ored. cbn [Z.eqb negb tasks_of].
  destruct (stall_ends hhdm h (u64 (3000 * 1000000)) (machine s') now m (Z.to_nat (3 * 10 ^ 15 / period h)) Hon Hper) as (m1 & E1 & _);
    [by vm_compute|by vm_compute|done|done|exact Htop|reflexivity|].
  unfold stall_ms. rewrite E1. ored. eexists. split; [done|]. done.
Qed.
End ends.

(** ** A small PC: the registers of file Machine and an HPET that counts *)
Record pc := mkPc { devices : Machine.board }.
Definition counter_at : Z := window + 0xFED00000 + MAIN_COUNTER.
Definition step : Z := 1000000.
Definition ticks (c : pc) : Z := default 0 (registers (devices c) !! counter_at).

#[export] Instance pc_machine : Machine pc := {
  mmio_read w a c :=
    if a =? counter_at then (ticks c + step, mkPc (mmio_write 8 a (ticks c + step) (devices c)))
    else let '(v, b) := mmio_read w a (devices c) in (v, mkPc b);
  mmio_write w a v c := mkPc (mmio_write w a v (devices c));
  port_in w p c := let '(v, b) := port_in w p (devices c) in (v, mkPc b);
  port_out w p v c := mkPc (port_out w p v (devices c));
  rdmsr r c := let '(lo, hi, b) := rdmsr r (devices c) in (lo, hi, mkPc b);
  wrmsr r lo hi c := mkPc (wrmsr r lo hi (devices c))
}.

#[export] Instance pc_base : BaseRegisters pc.
Proof.
  split.
  - intros r [b] Hr. exact (base_read_range r b Hr).
  - intros r [b] Hr. cbn. done.
  - intros r r' lo hi [b] Hr Hlo Hhi. exact (base_read_write r r' lo hi b Hr Hlo Hhi).
  - intros r w a v [b] Hr. exact (base_mmio_write r w a v b Hr).
  - intros r w a [b] Hr. cbn. destruct (a =? counter_at); done.
  - intros r w p [b] Hr. exact (base_port_in r w p b Hr).
Qed.

(** The firmware's tables: a root table with the processors' and the HPET's,
    with the byte that makes the sum of each 0. *)
Definition sealed (i : Z) (bs : list Z) : list Z := zinsert i (u8 (- fold_left Z.add bs 0)) bs.
Definition hpet_table : list Z :=
  sealed 9 (lit "HPET" ++ bytes_of 4 56 ++ replicate 28 0 ++ replicate 4 0 ++ [SYSTEM_MEM; 64; 0; 0] ++ bytes_of 8 0xFED00000 ++ replicate 4 0).
Definition rsdt (tables : list Z) : list Z :=
  sealed 9 (lit "RSDT" ++ bytes_of 4 (36 + 4 * Z.of_nat (length tables)) ++ replicate 28 0 ++ concat (bytes_of 4 <$> tables)).
Definition rsdp20 : list Z := sealed 8 (lit "RSD PTR " ++ replicate 8 0 ++ bytes_of 4 0x600).
Definition firmware (tables : list Z) (a : Z) : option Z :=
  head (omap (fun '(base, bs) => image_at (window + base) bs a)
    [(0x500, rsdp20); (0x600, rsdt tables); (0x700, sealed 9 madt0); (0x900, hpet_table)]).

Definition pc0 : pc :=
  mkPc (mkBoard {[window + 0xFEC00010 := 0x170020; window + 0xFED00000 := 10000000 * 2 ^ 32]} ∅ {[IA32_APIC_BASE := 0xFEE00900]} []).
Definition big_map : list limine_memmap_entry :=
  [mkEntry 0 0x1000 1; mkEntry 0x1000 0x1000 LIMINE_MEMMAP_USABLE;
   mkEntry 0x11000 0x2000 LIMINE_MEMMAP_KERNEL_AND_MODULES; mkEntry 0x13000 0x1000 1;
   mkEntry 0x24000 0x200000 LIMINE_MEMMAP_USABLE].
Definition answers : responses :=
  mkResponses (Some [boot_screen]) (Some window) (Some big_map) (Some 0x380) (Some (0x11000, 0xFFFFFFFF80000000))
    (Some (window + 0x500)) (Some 0x400).
Definition pc_cpus : list smp_info := [mkSmpInfo 0 0 false; mkSmpInfo 1 0 false].
Definition pc_starts (tables : list Z) : outcome (@system pc) :=
  _start zero_ram (firmware tables) (fun _ => (0, pc_cpus))
    1000 1001 1002 fresh_local boot_wrappers 0 1 2 0xFFFFFFFF80002000 0xFFFFFFFF80002100 0xFFFFFFFF80002200
    0xAAAA 0xBBBB 0xCCCC Mkfs.zero 99 1 dust 500 0x10000 0x20000 0x30000 20 answers
    (mkCpu (replicate 7 null_entry) idt0 pc0).

(** The turns of the first three tasks, then [kernel_thread], then the next turn. *)
Definition pc_runs (modules : list (Z * list Z)) (s : @system pc) : outcome (list Z * @world pc NodeData) :=
  let sc := sy_scheduling s in
  let interrupts := Sched.run window 500 (reg_base (sc_irqs sc)) (sc_timer sc) in
  '(outs, sd) ← interrupts [regs0 1; regs0 2; regs0 3] (sc_sched sc);
  let w := first_world sc in
  w ← Kernel.kernel_thread (filesystems Mkfs.zero 99) window dust 500 (sc_irqs sc) (Boot.kernel_map (sy_kernel s)) 0x7000
        Mkfs.zero 0x40000 3000 modules (mkWorld (table w) (keyboard w) (tree w) sd);
  '(outs', sd) ← interrupts [regs0 4] (tasks_of w);
  Ret (rip <$> outs ++ outs', mkWorld (table w) (keyboard w) (tree w) sd).

(** From the boot loader's answers to the first instruction of the program. *)
Example boots_to_the_program :
  match (s ← pc_starts [0x700; 0x900]; '(ips, w) ← pc_runs [(4096, boot_archive)] s; Ret (sy_infos s, ips, w)) with
  | Ret (infos, ips, w) =>
      (goto_init <$> infos, ips, current (tasks_of w),
       t ← Sched.tasks (tasks_of w) !! 0x40000;
       (fun e => Z.land e 0xFFF) <$> translate window (mem (memory (tasks_of w))) (pml4 (Sched.pagemap t)) 0x400000)
  | _ => ([], [], 0, None)
  end
  = ([false; true], [0xAAAA; 0xBBBB; 0xCCCC; 0x400000], 0x40000, Some (Z.lor PAGE_PRESENT PAGE_USER)).
Proof. vm_compute. reflexivity. Qed.

(** Without an HPET [_start] waits for ever: nothing has connected the PIT's
    interrupt. *)
Example no_hpet_hangs : pc_starts [0x700] = Diverge.
Proof. vm_compute. reflexivity. Qed.

(** ** The theorem on this PC *)

(** The PC when the firmware's tables are read. *)
Definition pc_devices : outcome (acpi pc) :=
  k ← Boot.start zero_ram 1000 1001 1002 boot_wrappers 0 1 2 ∅ ∅ empty_heap (mkCpu (replicate 7 null_entry) idt0 pc0) ∅ answers;
  '(_, _, _, ac) ← start_devices window (firmware [0x700; 0x900]) fresh_local boot_wrappers 0 1 2 0xFFFFFFFF80002000
    0xFFFFFFFF80002100 0 pc_cpus (window + 0x500) k;
  Ret ac.

Lemma pc_reads_counter (c : pc) :
  generic_read window (regs hpet0) 8 MAIN_COUNTER c = Ret (ticks c + step, mkPc (mmio_write 8 counter_at (ticks c + step) (devices c))).
Proof. unfold generic_read. change (u64 (addr (regs hpet0) + MAIN_COUNTER + window)) with counter_at. cbn. by rewrite Z.eqb_refl. Qed.

#[export] Instance pc_rises : RisingCounter window hpet0.
Proof.
  refine {| counter := ticks |}. intros c. eexists. rewrite pc_reads_counter.
  assert (ticks (mkPc (mmio_write 8 counter_at (ticks c + step) (devices c))) = ticks c + step) as E.
  { unfold ticks at 1. cbn. by rewrite lookup_insert_eq. }
  split; [by rewrite E|]. rewrite E. unfold step. lia.
Qed.

(** Bits of a run, checked one by one. *)
Lemma bits_in_range b v p n :
  forallb (fun j => Bool.eqb (bit b j) v) (seqZ p n) = true -> forall j, p <= j < p + n -> bit b j = v.
Proof.
  intros Hall j Hj. rewrite forallb_forall in Hall. apply Bool.eqb_prop, Hall, list_elem_of_In, elem_of_seqZ. lia.
Qed.

Definition all_bits (b : Bitmap) (v : bool) (p n : Z) : bool := forallb (fun j => Bool.eqb (bit b j) v) (seqZ p n).

(** What the theorem asks for, computed: the HPET and the registers, the
    interrupt table, and the pages, with the first processor's two stacks. *)
Definition summary (ac : acpi pc) :=
  let t := Acpi.ints ac in
  let b := page_bitmap (frames (Acpi.space ac)) in
  (Acpi.timer ac, reg_base (irqs ac), ticks (board ac), base_value IA32_GS_BASE (board ac),
   (length (idt t), length (idt_handlers t), length (Bitmap.m_buffer (idt_bitmap t)), bit (idt_bitmap t) 200),
   (Bitmap.m_size b, page_bitmap_index (frames (Acpi.space ac)), Z.of_nat (length (Bitmap.m_buffer b))),
   (bit b 0, all_bits b true 45 16, all_bits b true 61 16, all_bits b false 80 48)).

Lemma pc_summary :
  (ac ← pc_devices; Ret (summary ac)) =
  Ret (hpet0, lapic0, 0, 0, (256%nat, 256%nat, 32%nat, false), (548, 80, 4096), (true, true, true, true)).
Proof. vm_compute. reflexivity. Qed.

(** The LAPIC is not where the counter is. *)
Lemma ticks_write reg v (c : pc) : u64 (lapic0 + reg) <> counter_at -> ticks (LAPIC_write_reg lapic0 reg v c) = ticks c.
Proof. intros Hne. unfold ticks, LAPIC_write_reg. cbn. by rewrite lookup_insert_ne. Qed.

Lemma ticks_counting vector c : ticks (counting lapic0 vector c) = ticks c.
Proof.
  unfold counting, LAPIC_set_vector, timer_stop, LAPIC_mask_vector, LAPIC_read_reg.
  destruct (mmio_read _ _ _) as [v c'] eqn:E. rewrite !ticks_write by (vm_compute; discriminate).
  cbn [mmio_read pc_machine] in E. rewrite (proj2 (Z.eqb_neq _ _)) in E by (vm_compute; discriminate).
  cbn [mmio_read board_machine] in E. injection E as _ <-. transitivity (ticks (LAPIC_write_reg lapic0 TIMER_INITIAL 0 c)); [done|].
  by rewrite ticks_write by (vm_compute; discriminate).
Qed.

Lemma pc_short_wait c now m' :
  ticks c = 0 -> generic_read window (regs hpet0) 8 MAIN_COUNTER c = Ret (now, m') -> 0 <= now /\ now + 10 ^ 14 / period hpet0 < 2 ^ 64.
Proof. intros Hc. rewrite pc_reads_counter, Hc. intros [= <- _]. unfold step. split; [lia|by vm_compute]. Qed.

(** What follows from the summary. *)
Record pc_ready (ac : acpi pc) : Prop := {
  pr_time : can_time window hpet0 (reg_base (irqs ac)) (board ac);
  pr_idt : idt_ok (Acpi.ints ac) /\ exists v, 32 <= v < 256 /\ bit (idt_bitmap (Acpi.ints ac)) v = false;
  pr_frames : Cpu.frames_ok (frames (Acpi.space ac)) /\ stacks_ok (frames (Acpi.space ac)) [61; 45] /\ room (frames (Acpi.space ac)) 48 }.

Lemma summary_ready ac :
  Ret (summary ac) = Ret (hpet0, lapic0, 0, 0, (256%nat, 256%nat, 32%nat, false), (548, 80, 4096), (true, true, true, true)) ->
  Acpi.timer ac = hpet0 /\ base_value IA32_GS_BASE (board ac) = 0 /\ pc_ready ac.
Proof.
  unfold summary. intros [= Et Eb Ek Eg Ei Eh Ebm Ev Es Ex El E0 Hb1 Hb2 Hb3]. split; [done|]. split; [done|]. split.
  - rewrite Eb. split; [done|done|]. intros vector now m'. apply pc_short_wait. by rewrite ticks_counting.
  - split; [split; [done|done|unfold covers; rewrite Ebm; lia]|]. exists 200. split; [lia|done].
  - split; [split; [|done]|split; [split|]].
    + unfold Pmm.wf, covers. rewrite Es, Ex, El. lia.
    + repeat constructor; lia.
    + rewrite Es. constructor; [|constructor; [|constructor]]; (split; [lia|split; [lia|by apply bits_in_range]]).
    + exists 80. rewrite Es, Ex. split; [lia|split; [lia|]]. unfold Pmm.run. by apply bits_in_range.
Qed.

Lemma dust_fresh p ts : 0 < p < 2 ^ 60 -> p ∉ ts -> p <> 468 -> fresh_task dust 500 p ts.
Proof. intros Hp Hts Hh. split; unfold sched_list; cbn; split; done || lia. Qed.

Lemma pc_fresh : fresh_task dust 500 0x10000 [] /\ fresh_task dust 500 0x20000 [0x10000] /\ fresh_task dust 500 0x30000 [0x10000; 0x20000].
Proof. split; [|split]; (apply dust_fresh; [lia|set_solver|lia]). Qed.

Lemma start_scheduling_runs_tasks_witness :
  exists ac sc outs s', pc_devices = Ret ac /\
    start_scheduling window 0xFFFFFFFF80002200 0xAAAA 0xBBBB 0xCCCC Mkfs.zero 99 1 dust 500 0x10000 0x20000 0x30000
      (enough_reads hpet0) kernel_map 0x1000 ac = Ret sc /\
    Sched.run window 500 (reg_base (sc_irqs sc)) (sc_timer sc) [regs0 1; regs0 2; regs0 3] (sc_sched sc) = Ret (outs, s') /\
    rip <$> outs = [0xAAAA; 0xBBBB; 0xCCCC] /\ current s' = 0x30000.
Proof.
  destruct (proj1 (bind_Ret _ _ _) pc_summary) as (ac & Eac & Esum).
  destruct (summary_ready ac Esum) as (Et & Hgs & [Htime [Hidt Hvec] (Hf & Hqs & Hroom)]).
  destruct (start_scheduling_runs_tasks window dust 500 Mkfs.zero zero_spec 0xFFFFFFFF80002200 0xAAAA 0xBBBB 0xCCCC 99 1
    0x10000 0x20000 0x30000 pc_fresh ltac:(split; [|split]; lia) kernel_map 0x1000 ac [61; 45] hpet0 Et Htime Hidt Hvec Hf Hqs Hroom Hgs)
    as (sc & q1 & q2 & q3 & E & _ & _ & _ & Hrun).
  destruct (Hrun (regs0 1) (regs0 2) (regs0 3)) as (s' & Er & _ & Ecur & _).
  exists ac, sc, [initial_state KERNEL_CODE_64 KERNEL_DATA_64 0xAAAA (top window q1); initial_state KERNEL_CODE_64 KERNEL_DATA_64 0xBBBB (top window q2);
    initial_state KERNEL_CODE_64 KERNEL_DATA_64 0xCCCC (top window q3)], s'.
  split; [exact Eac|]. split; [exact E|split; [exact Er|split; [reflexivity|exact Ecur]]].
Defined.
