(* ===== verification/FirstProgram.v ===== *)
(** * From the archive to the first program: kernel.cpp's [kernel_thread]

    The components put together: in any state the machine can be in (file
    Reachable), with an archive that has a program at [/bin/test], the first
    kernel thread connects the keyboard, unpacks the archive (file Archive),
    finds the program's file (file Tree) and starts it (file Launch). *)
From S2P Require Import Prelude Algorithm Bitmap Pmm CString HashMap Vector Keyboard Printf List Vfs Descriptors Tmpfs Tree Mkfs Paging AddressSpace Spaces Demand Initramfs Archive Machine Interrupts Cpu Timers Elf Program Sched Traps Processes Spawn Launch Reachable Kernel System.

Section FirstProgram.
Context {M : Type} `{BaseRegisters M}.
Context (hhdm : Z) (hhdm_ok : 0 <= hhdm <= 2 ^ 64 - 2 ^ 46).
Context (dust : Z -> Task) (sched_list_head : Z) (kernel : Pagemap) (reg_base : Z) (timer : apic_timer).
Context (hhdm_range heap_range : Z) (es : list limine_memmap_entry) (kernel_phy kernel_virt : Z).
Context (junk : Z -> Z) (junk_zero : forall p, junk p = 0) (root_fs : Z).
Context (irqs : irq_state) (kbd_irq : Z) (wild : Z -> Z) (Hwild : forall o, byte (wild o)) (new_task new_list : Z).
Implicit Types (w : @world M NodeData) (s : sched M).

Abbreviation up := (reachable hhdm dust sched_list_head kernel reg_base timer hhdm_range heap_range es kernel_phy kernel_virt).
Abbreviation thread := (kernel_thread (filesystems junk root_fs) hhdm dust sched_list_head irqs kernel kbd_irq wild new_task new_list).

(** A free vector for the keyboard's line. *)
Record line_ready (t : idt_state) : Prop := {
  lr_table : idt_ok t;
  lr_gsi : is_Some (zlookup (irq_to_gsi irqs) 1);
  lr_flags : is_Some (zlookup (irq_flags irqs) 1);
  lr_ioapics : Forall is_Some (elements (ioapics irqs));
  lr_vector : exists v, 32 <= v < 256 /\ bit (idt_bitmap t) v = false }.

(** The keyboard comes up and leaves everything but the devices alone. *)
Lemma kbd_init_returns w :
  line_ready (table w) ->
  exists t m, kbd_init irqs kbd_irq w = Ret (mkWorld t Keyboard.init (tree w) (set_machine m (tasks_of w))) /\
    base_value IA32_GS_BASE m = current (tasks_of w).
Proof.
  intros [Ht Hg Hf Hi Hv]. destruct (register_irq_returns irqs (table w) (machine (tasks_of w)) 1 kbd_irq Ht Hg Hf Hi Hv) as (t & m & E).
  unfold kbd_init. rewrite E. ored. pose proof (base_value_port_in IA32_GS_BASE 1 0x60 m eq_refl) as Hb. unfold in8.
  destruct (port_in 1 0x60 m) as [x m']. exists t, m'. split; [done|]. cbn in Hb. rewrite Hb.
  by rewrite (register_irq_base IA32_GS_BASE _ _ _ _ _ _ _ eq_refl E).
Qed.

(** Where [/bin/test] leads in the tree. *)
Lemma find_program k T st bytes :
  represents root_fs k T st -> T !! [lit "bin"; lit "test"] = Some (File bytes) ->
  exists r n, path_to_node st (lit "/bin/test") 0 = Ret r /\ target r <> 0 /\
    Vfs.deref st (target r) = Ret n /\ fs n = root_fs /\ file_contents st (target r) = Some (Some <$> bytes).
Proof.
  intros Hr HT. destruct (rp_path _ _ _ _ Hr _ _ HT) as (_ & p & Hw & Hc & (n & Hn & Hf)).
  destruct (path_to_node_spec st [lit "bin"; lit "test"] false (rp_wf _ _ _ _ Hr) (rp_root _ _ _ _ Hr) eq_refl ltac:(done))
    as (_ & E & Htgt). specialize (Htgt (root st)). rewrite Hw in Htgt. cbn [default from_option id] in Htgt.
  exists (resolve st (root st) [lit "bin"; lit "test"]), n. rewrite Htgt.
  split; [exact E|]. split; [|unfold Vfs.deref; by rewrite Hn].
  assert (0 < p) by (apply (wf_range _ (rp_wf _ _ _ _ Hr)); by exists n). lia.
Qed.

(** C6. The kernel reaches its first program.  From any state the machine can be
    in ([up]: file Reachable, with programs whose segments lie in the lower half,
    that mmap no more than is left of it and pass buffers inside it), with a free
    vector for the keyboard, a new file system whose nodes [new] makes on memory
    that reads zero ([junk_zero]), one module that is a well-formed archive with
    an ELF file at [/bin/test] whose segments lie on pages of their own in the
    lower half ([runnable]), and pages enough, [kernel_thread] starts the program
    and waits for it: the files are those of the archive, the machine is in a
    state it can be in, and has a task that starts in user mode at the file's
    entry point; its address space shows what the loader reads for each segment,
    which is the file's bytes and then zeros for a [well_placed] one, and a stack
    of zeros. *)
Theorem kernel_thread_starts_the_program w a address ms T bytes fuel h :
  let c := Some <$> bytes in
  up (Resumed, tasks_of w) -> line_ready (table w) ->
  0 < a -> Tmpfs.init junk root_fs a = Ret (tree w) ->
  0 <= address -> address + Z.of_nat (length (archive ms)) < 2 ^ 64 -> Forall member_ok ms -> Z.of_nat (length ms) < 2 ^ 38 ->
  unpacked {[ [] := Dir ]} ms T -> T !! [lit "bin"; lit "test"] = Some (File bytes) -> runnable wild c ->
  fresh_program new_task new_list (tasks_of w) -> room (frames (memory (tasks_of w))) (launch_pages wild c) ->
  exists w' k t sp,
    thread [(address, archive ms)] w = Ret w' /\ watch_test_task hhdm new_task fuel h w' = Ret w' /\
    represents root_fs k T (tree w') /\ up (Resumed, tasks_of w') /\
    tasks (tasks_of w') = <[new_task := t]> (tasks (tasks_of w)) /\
    gpr_state t = initial_state (Z.lor USER_CODE_64 3) (Z.lor USER_DATA_64 3) (entry_addr (elf_header wild c)) sp /\
    (forall ph j, ph ∈ segments wild c -> 0 <= j < mem_size ph ->
      sees hhdm (memory (tasks_of w')) (pml4 (pagemap t)) (virt_addr ph + j) (segment_flags (ph_flags ph)) (Elf.image wild c ph j) /\
      (well_placed c ph -> Elf.image wild c ph j = elf_image wild c ph j)) /\
    forall j, 0 <= j < stack_size -> sees hhdm (memory (tasks_of w')) (pml4 (pagemap t)) (sp + j) stack_flags 0.
Proof.
  intros c Hup Hline Ha Einit Haddr Hov Hok Hlen Hu HT Hru Hfr Hroom.
  destruct (kbd_init_returns w Hline) as (tbl & m & Ek & Hgs).
  destruct (load_represents junk junk_zero root_fs a address ms T Ha Haddr Hov Hok Hlen Hu) as (st0 & st & k & E0 & El & Hr).
  rewrite Einit in E0. injection E0 as <-.
  destruct (find_program k T st bytes Hr HT) as (r & n & Ep & Hnz & En & Hfs & Hc).
  assert (up (Resumed, set_machine m (tasks_of w))) as Hup1 by (by apply up_devices).
  destruct (reachable_system _ hhdm_ok _ _ _ _ _ _ _ _ _ _ _ Hup1) as (P & ts & Hsys).
  destruct (launch_spec hhdm hhdm_ok dust sched_list_head kernel (instantiate junk) wild Hwild P _ ts Resumed
    (set_machine m (tasks_of w)) new_task new_list (target r) st c Hsys) as (s' & pm & t & sp & E & Hsys' & Et & Epm & Eg & Hseg & Hst & _);
    [by destruct Hfr; split|exact Hc|done|done|].
  exists (mkWorld tbl Keyboard.init st s'), k, t, sp.
  split; [|split; [|split; [done|split; [|split; [done|split; [done|]]]]]].
  - unfold kernel_thread. rewrite Ek. ored. cbn [tree tasks_of table keyboard]. unfold root_dir. rewrite El. ored. rewrite Ep. ored.
    rewrite (proj2 (Z.eqb_neq _ _)) by done. rewrite En. ored. rewrite Hfs. unfold filesystems. rewrite Z.eqb_refl. ored.
    rewrite E. by ored.
  - apply (watch_waits hhdm sched_list_head _ _ _ (mkWorld tbl Keyboard.init st s') (ts ++ [new_task])); [apply (sy_sched _ _ _ _ _ _ _ Hsys')|].
    apply elem_of_app. right. by left.
  - cbn [tasks_of]. apply (up_program _ _ _ _ _ _ _ _ _ _ _ (instantiate junk) wild (set_machine m (tasks_of w)) new_task new_list (target r) st s' Hup1);
      [by destruct Hfr; split| |exact E]. eapply runnable_fits; [exact Hc|exact Hru].
  - rewrite Epm. by split.
Qed.
End FirstProgram.

(** ** The archive of file Kernel, with one of the kernel's tasks running before *)
Definition boot_members : list member :=
  [small_member "./" 53 []; small_member "./bin/" 53 []; small_member "./bin/test" 48 test_image].
Definition boot_layout : layout :=
  <[[lit "bin"; lit "test"] := File test_image]> (<[[lit "bin"] := Dir]> {[ [] := Dir ]}).
Definition world1 : @world board NodeData := mkWorld loaded0 Keyboard.init tree0 up1.
Abbreviation thread1 :=
  (kernel_thread (filesystems zero 99) window dust 500 irq0 kernel0 0x7000 Mkfs.zero 0x30000 6000 [(4096, archive boot_members)] world1).

Lemma boot_members_unpack : unpacked {[ [] := Dir ]} boot_members boot_layout.
Proof.
  apply unpacked_root; [reflexivity|].
  apply (unpacked_member _ _ _ [] (lit "bin") Dir); [split; [by exists true|done]|reflexivity..|].
  apply (unpacked_member _ _ _ [lit "bin"] (lit "test") (File test_image)); [split; [by exists false|split; [by left|done]]|reflexivity..|].
  constructor.
Qed.

Lemma line_ready_loaded0 : line_ready irq0 loaded0.
Proof.
  split; [exact loaded0_ok|by eexists|by eexists|by repeat constructor|]. exists 32. split; [lia|]. vm_compute. reflexivity.
Qed.

Lemma kernel_thread_starts_the_program_witness :
  exists w' t, thread1 = Ret w' /\ watch_test_task window 0x30000 1 static_hpet w' = Ret w' /\ up (Resumed, tasks_of w') /\
    tasks (tasks_of w') !! 0x30000 = Some t /\ rip (gpr_state t) = 0x400000 /\
    sees window (memory (tasks_of w')) (pml4 (pagemap t)) 0x400003 0x5 5.
Proof.
  destruct (kernel_thread_starts_the_program (M := board) window window_range dust 500 kernel0 lapic0 timer0 1001 1002 map0 0x100000 0xFFFFFFFF80000000
    zero zero_spec 99 irq0 0x7000 Mkfs.zero ltac:(vm_compute; done) 0x30000 6000 world1 1 4096 boot_members boot_layout test_image
    1%nat static_hpet up1_up line_ready_loaded0) as (w' & k & t & sp & E & Ew & _ & Hup & Et & Eg & Hseg & _).
  - clear. lia.
  - vm_compute. reflexivity.
  - clear. lia.
  - vm_compute. reflexivity.
  - repeat constructor.
  - vm_compute. reflexivity.
  - exact boot_members_unpack.
  - vm_compute. reflexivity.
  - exact code_runnable.
  - apply fresh_program_at; try (vm_compute; reflexivity); [split; vm_compute; reflexivity|vm_compute; discriminate].
  - apply has_room_spec. vm_compute. reflexivity.
  - exists w', t. split; [exact E|]. split; [exact Ew|]. split; [exact Hup|]. split; [rewrite Et; apply lookup_insert_eq|].
    assert (entry_addr (elf_header Mkfs.zero (Some <$> test_image)) = 0x400000) as Ee by (vm_compute; reflexivity).
    split; [rewrite Eg, Ee; reflexivity|].
    assert (virt_addr code_segment + 3 = 0x400003 /\ segment_flags (ph_flags code_segment) = 0x5 /\
      Elf.image Mkfs.zero (Some <$> test_image) code_segment 3 = 5) as (Ea & Ef & Ei) by (clear; vm_compute; done).
    pose proof (Hseg code_segment 3 ltac:(change (Some <$> test_image) with code_file; rewrite code_segments; left) ltac:(clear; cbn; lia)) as Hs.
    rewrite Ea, Ef, Ei in Hs. exact (proj1 Hs).
Defined.
