(* ===== verification/Structures.v ===== *)
(** * The structures the kernel shares with others

    The declarations of the structures that the firmware, the processor, program
    files, archives and the assembler fix, and that the offsets and sizes in the
    models of their readers are those of the declarations. *)
From S2P Require Import Prelude Layout Algorithm Bitmap Pmm Buddy CString Vector List Vfs Tmpfs Paging Machine Interrupts Cpu Elf Initramfs Timers Acpi Sched.
From stdpp Require Import strings.
Local Open Scope Z_scope.

(** ** acpi/tables.hpp *)
Definition RSDP1 : ctype :=
  Struct true [("signature", Chars 8); ("checksum", U8); ("oem_id", Chars 6); ("revision", U8); ("rsdt_addr", U32)].
Definition RSDP2 : ctype := derive RSDP1 [("size", U32); ("xsdt_addr", U64); ("ext_checksum", U8); ("reserved", Arr U8 3)].
Definition SDT : ctype :=
  Struct true [("signature", Chars 4); ("size", U32); ("revision", U8); ("checksum", U8); ("oem_id", Chars 6);
    ("oem_table_id", Chars 8); ("oem_revision", U32); ("creator_id", Chars 4); ("creator_revision", U32)].
Definition GenericAddr_t : ctype :=
  Struct true (each U8 ["address_space"; "bit_width"; "bit_offset"; "access_size"] ++ [("addr", U64)]).
Definition RSDT : ctype := derive SDT [("sdt_array", Arr U32 0)].
Definition XSDT : ctype := derive SDT [("sdt_array", Arr U64 0)].
Definition HPET : ctype :=
  derive SDT [("hardware_rev_id", U8); ("info", U8); ("pci_vendor_id", U16); ("address", GenericAddr_t);
    ("hpet_number", U8); ("minimum_tick", U16); ("page_protection", U8)].
Definition MADT : ctype := derive SDT (each U32 ["lapic_addr"; "flags"]).
Definition Entry : ctype := Struct true (each U8 ["type"; "size"]).
Definition EntryLAPIC : ctype := derive Entry (each U8 ["processor_id"; "lapic_id"] ++ [("flags", U32)]).
Definition EntryIOAPIC : ctype := derive Entry (each U8 ["ioapic_id"; "reserved"] ++ each U32 ["ioapic_addr"; "gsi_base"]).
Definition EntryIOAPICIRQSourceOverride : ctype :=
  derive Entry (each U8 ["bus_source"; "irq_source"] ++ [("gsi", U32); ("flags", U16)]).
Definition EntryLAPICNMI : ctype := derive Entry [("processor_id", U8); ("flags", U16); ("lint", U8)].

Definition EntryIOAPICNMISource : ctype := derive Entry (each U8 ["nmi_source"; "reserved"] ++ [("flags", U16); ("gsi", U32)]).
Definition EntryLAPICAddressOverride : ctype := derive Entry [("reserved", U16); ("lapic_addr", U64)].
Definition EntryLX2APIC : ctype := derive Entry ([("reserved", U16)] ++ each U32 ["lx2apic_id"; "flags"; "acpi_id"]).

(** Reading a member of the object of type [t] at [a]. *)
Definition member (byte : Z -> option Z) (t : ctype) (path : list string) (a : Z) : outcome Z :=
  match member_at t path with
  | Some (o, m) => field_at byte a o (Z.to_nat (size_of m))
  | None => Fault
  end.

Lemma acpi_sizes : size_of RSDP1 = sizeof_RSDP1 /\ size_of SDT = sizeof_SDT /\ size_of MADT = sizeof_MADT.
Proof. by vm_compute. Qed.

(** The tables and entries have the sizes that the ACPI specification gives them. *)
Lemma acpi_specified :
  size_of <$> [RSDP2; GenericAddr_t; HPET; EntryLAPIC; EntryIOAPIC; EntryIOAPICIRQSourceOverride; EntryIOAPICNMISource;
    EntryLAPICNMI; EntryLAPICAddressOverride; EntryLX2APIC]
  = [36; 12; 56; 8; 12; 10; 10; 6; 12; 16].
Proof. by vm_compute. Qed.

(** The readers of file Acpi in the words of the declarations. *)
Section acpi_members.
Context {M : Type} `{Machine M}.
Context (hhdm : Z) (byte : Z -> option Z) (kernel : Pagemap).
Abbreviation get := (member byte).

Lemma madt_entry_members entry s :
  madt_entry hhdm byte kernel entry s =
  (type ← get Entry ["type"] entry;
   if type =? MADT_LAPIC then
     pid ← get EntryLAPIC ["processor_id"] entry; lid ← get EntryLAPIC ["lapic_id"] entry; flags ← get EntryLAPIC ["flags"] entry;
     add_lapic lid pid flags s
   else if type =? MADT_IOAPIC then
     id ← get EntryIOAPIC ["ioapic_id"] entry; a ← get EntryIOAPIC ["ioapic_addr"] entry; gsi ← get EntryIOAPIC ["gsi_base"] entry;
     add_ioapic hhdm kernel id a gsi s
   else if type =? MADT_IRQ_SOURCE_OVERRIDE then
     irq ← get EntryIOAPICIRQSourceOverride ["irq_source"] entry; gsi ← get EntryIOAPICIRQSourceOverride ["gsi"] entry;
     flags ← get EntryIOAPICIRQSourceOverride ["flags"] entry;
     add_override irq gsi flags s
   else Ret s).
Proof. reflexivity. Qed.

Lemma parse_hpet_members table s :
  parse_hpet hhdm byte table s =
  (sp ← get HPET ["address"; "address_space"] table; width ← get HPET ["address"; "bit_width"] table;
   off ← get HPET ["address"; "bit_offset"] table; acc ← get HPET ["address"; "access_size"] table;
   a ← get HPET ["address"; "addr"] table;
   '(h, m) ← hpet_init hhdm (mkGenericAddr sp width off acc a) (board s);
   Ret (mkAcpi (irqs s) (ints s) (space s) h m)).
Proof. reflexivity. Qed.

Lemma parse_rsdp_members spurious rsdp s :
  parse_rsdp hhdm byte kernel spurious rsdp s =
  (ok ← has_signature byte rsdp (lit "RSD PTR ");
   if negb ok then Panic
   else
     good ← do_checksum byte rsdp (size_of RSDP1);
     if negb good then Panic
     else
       revision ← get RSDP1 ["revision"] rsdp;
       s ← (if revision =? 0 then
              a ← get RSDP1 ["rsdt_addr"] rsdp; parse_root hhdm byte kernel spurious (u64 (a + hhdm)) (lit "RSDT") 4 s
            else Ret s);
       if revision =? 2 then
         size ← get RSDP2 ["size"] rsdp;
         good ← do_checksum byte (rsdp + size_of RSDP1) (u64 (size - size_of RSDP1));
         if negb good then Panic
         else a ← get RSDP2 ["xsdt_addr"] rsdp; parse_root hhdm byte kernel spurious (u64 (a + hhdm)) (lit "XSDT") 8 s
       else Ret s).
Proof. reflexivity. Qed.

(** Where the walks over the MADT begin, and the array of a root table. *)
Lemma tables_begin : offset_of RSDT ["sdt_array"] = sizeof_SDT /\ offset_of XSDT ["sdt_array"] = sizeof_SDT /\
  member_at SDT ["size"] = Some (4, U32) /\ member_at Entry ["size"] = Some (1, U8) /\
  member_at EntryLAPICNMI ["processor_id"] = Some (2, U8) /\ member_at EntryLAPICNMI ["flags"] = Some (3, U16) /\
  member_at EntryLAPICNMI ["lint"] = Some (5, U8).
Proof. by vm_compute. Qed.
End acpi_members.

(** Computes the offsets and sizes in a goal. *)
Ltac closed_numbers :=
  repeat match goal with
  | |- context [Z.to_nat ?z] => let n := eval vm_compute in (Z.to_nat z) in change (Z.to_nat z) with n
  | |- context [round_up ?a ?o] => let n := eval vm_compute in (round_up a o) in change (round_up a o) with n
  end.

Lemma byte_one v : u8 v = v -> bytes_of 1 v = [v].
Proof. unfold wrap. change (2 ^ 8) with 256. cbn. by intros ->. Qed.

(** The bytes of file Acpi's entries are those of the structures. *)
Lemma encode_objects pid lid flags id unused addr gsi bus irq lint :
  u8 pid = pid -> u8 lid = lid -> u8 id = id -> u8 unused = unused -> u8 bus = bus -> u8 irq = irq -> u8 lint = lint ->
  encode (Lapic pid lid flags) = object EntryLAPIC [MADT_LAPIC; size_of EntryLAPIC; pid; lid; flags] /\
  encode (Ioapic id unused addr gsi) = object EntryIOAPIC [MADT_IOAPIC; size_of EntryIOAPIC; id; unused; addr; gsi] /\
  encode (Override bus irq gsi flags) =
    object EntryIOAPICIRQSourceOverride [MADT_IRQ_SOURCE_OVERRIDE; size_of EntryIOAPICIRQSourceOverride; bus; irq; gsi; flags] /\
  encode (Nmi pid flags lint) = object EntryLAPICNMI [MADT_LAPIC_NMI; size_of EntryLAPICNMI; pid; flags; lint].
Proof.
  intros E1 E2 E3 E4 E5 E6 E7. cbn -[bytes_of]. closed_numbers. cbn [replicate app].
  rewrite !(byte_one _ E1), !(byte_one _ E2), !(byte_one _ E3), !(byte_one _ E4),
    !(byte_one _ E5), !(byte_one _ E6), !(byte_one _ E7), !byte_one by done. cbn [app]. by rewrite !app_nil_r.
Qed.

(** ** userland/elf.hpp *)
Definition Header_t : ctype :=
  Struct true ([("identifier", Arr U8 16); ("type", U16); ("arch", U16); ("version", U32)] ++
    each U64 ["entry_addr"; "ph_table_offset"; "sh_table_offset"] ++ [("flags", U32)] ++
    each U16 ["eh_size"; "ph_entry_size"; "ph_count"; "sh_entry_size"; "sh_count"; "sh_str_table_index"]).
Definition ProgramHeader_t : ctype :=
  Struct true (each U32 ["type"; "flags"] ++ each U64 ["offset"; "virt_addr"; "phy_addr"; "file_size"; "mem_size"; "alignment"]).

(** A member of the object whose bytes are [bs]. *)
Definition part (t : ctype) (nm : string) (bs : list Z) : Z :=
  match member_at t [nm] with Some (o, m) => field (Z.to_nat o) (Z.to_nat (size_of m)) bs | None => 0 end.

Lemma headers_members bs :
  header_of bs =
    mkHeader (take 16 bs) (part Header_t "type" bs) (part Header_t "arch" bs) (part Header_t "version" bs)
      (part Header_t "entry_addr" bs) (part Header_t "ph_table_offset" bs) (part Header_t "sh_table_offset" bs)
      (part Header_t "flags" bs) (part Header_t "eh_size" bs) (part Header_t "ph_entry_size" bs) (part Header_t "ph_count" bs)
      (part Header_t "sh_entry_size" bs) (part Header_t "sh_count" bs) (part Header_t "sh_str_table_index" bs) /\
  program_header_of bs =
    mkProgramHeader (part ProgramHeader_t "type" bs) (part ProgramHeader_t "flags" bs) (part ProgramHeader_t "offset" bs)
      (part ProgramHeader_t "virt_addr" bs) (part ProgramHeader_t "phy_addr" bs) (part ProgramHeader_t "file_size" bs)
      (part ProgramHeader_t "mem_size" bs) (part ProgramHeader_t "alignment" bs) /\
  size_of Header_t = 64 /\ size_of ProgramHeader_t = 56.
Proof. split_and!; reflexivity. Qed.

(** ** fs/initramfs.hpp *)
Definition USTARHeader : ctype :=
  Struct true [("name", Chars 100); ("mode", Chars 8); ("uid", Chars 8); ("gid", Chars 8); ("size", Chars 12); ("mtime", Chars 12);
    ("chksum", Chars 8); ("typeflag", U8); ("linkname", Chars 100); ("magic", Chars 6); ("version", Chars 2);
    ("uname", Chars 32); ("gname", Chars 32); ("devmajor", Chars 8); ("devminor", Chars 8); ("prefix", Chars 155)].

Lemma ustar_offsets :
  offset_of USTARHeader ["name"] = name_offset /\ offset_of USTARHeader ["size"] = size_offset /\
  offset_of USTARHeader ["typeflag"] = typeflag_offset /\ offset_of USTARHeader ["magic"] = magic_offset /\
  size_of USTARHeader <= 512.
Proof. vm_compute. repeat split. discriminate. Qed.

(** ** What the processor and the assembler read *)
Definition IDTR : ctype := Struct true [("limit", U16); ("base", U64)].
Definition IDTEntry_t : ctype :=
  Struct true (each U16 ["offset1"; "selector"; "attributes"; "offset2"] ++ each U32 ["offset3"; "reserved"]).
Definition GDTR : ctype := Struct true [("limit", U16); ("base", U64)].
Definition GDTEntry_t : ctype :=
  Struct true (each U16 ["limit"; "base_low"] ++ each U8 ["base_mid"; "access"; "granularity"; "base_high"]).
Definition TSS : ctype :=
  Struct true ([("reserved0", U32)] ++ each U64 ["rsp0"; "rsp1"; "rsp2"; "reserved1"; "ist1"; "ist2"; "ist3"; "ist4"; "ist5"; "ist6"; "ist7"; "reserved2"] ++
    each U16 ["reserved3"; "io_map_base"]).
Definition Local_t : ctype :=
  Struct true [("cpu_number", U64); ("is_bsp", Bool); ("tss", TSS); ("lapic_id", U64); ("lapic_timer_freq", U64)].
Definition InterruptState_t : ctype :=
  Struct true (each U64 ["ds"; "es"; "r15"; "r14"; "r13"; "r12"; "r11"; "r10"; "r9"; "r8"; "rbp"; "rdi"; "rsi"; "rdx"; "rcx"; "rbx"; "rax";
    "err"; "rip"; "cs"; "rflags"; "rsp"; "ss"]).

(** The sizes the processor asks for: descriptors of 8 and 16 bytes, a task
    segment of 104 with its stacks where it looks for them, and a frame that
    ends with the five words an interrupt pushes. *)
Lemma hardware_structures :
  size_of IDTEntry_t = 16 /\ size_of GDTEntry_t = 8 /\ size_of IDTR = 10 /\ size_of GDTR = 10 /\ size_of TSS = 104 /\
  offset_of TSS ["rsp0"] = 4 /\ offset_of TSS ["ist1"] = 36 /\ offset_of TSS ["io_map_base"] = 102 /\
  size_of InterruptState_t = 23 * 8 /\ offset_of InterruptState_t ["rip"] = size_of InterruptState_t - 40.
Proof. by vm_compute. Qed.

(** ** The kernel's own *)
Definition ListHead_t : ctype := Struct false (each Ptr ["next"; "prev"]).
Definition Vector_t : ctype := Struct false [("m_buffer", Ptr); ("m_size", U64); ("m_capacity", U64)].
Definition Task_t : ctype :=
  Struct false ([("running_on", U64); ("kernel_stack", U64); ("user_stack", U64); ("tid", U16); ("sched_list", ListHead_t);
    ("pagemap", Ptr); ("gpr_state", Ptr)] ++ each U64 ["gs_base"; "fs_base"; "stack"] ++
    [("blocked", Bool); ("file_descriptors", Vector_t)] ++ each U64 ["num_file_descriptors"; "first_free_fdnum"; "cwd"; "mmap_anon_base"]).
Definition Spinlock_t : ctype := Struct false [("locked", Bool); ("i", U32)].
Definition MappedRange_t : ctype :=
  Struct false [("range_list", ListHead_t); ("base", U64); ("length", U64); ("page_flags", U64); ("type", CEnum)].
Definition Pagemap_t : ctype := Struct false [("pml4", Ptr); ("lock", Spinlock_t); ("range_list_head", ListHead_t)].
Definition Block_t : ctype := Struct false [("size", U64); ("is_free", Bool)].

(** The scheduler's list is found from a task and back by its link's offset, the
    stacks of a system call where the assembler looks for them, the heap's
    blocks begin with 16 bytes, and a range's link is its first member. *)
Lemma kernel_structures :
  (forall task, sched_list task = task + offset_of Task_t ["sched_list"]) /\
  (forall link, list_entry link = link - offset_of Task_t ["sched_list"]) /\
  offset_of Task_t ["kernel_stack"] = 8 /\ offset_of Task_t ["user_stack"] = 16 /\
  (forall local, tss_of local = local + offset_of Local_t ["tss"]) /\
  size_of Block_t = sizeof_Block /\ offset_of MappedRange_t ["range_list"] = 0.
Proof. split_and!; reflexivity. Qed.

(** ** ubsan.cpp *)
Definition Error_t : ctype := Struct false [("file", Ptr); ("line", U32); ("column", U32)].
Definition TypeDescriptor : ctype := Struct false [("kind", U16); ("info", U16); ("name", Chars 0)].
Definition Overflow : ctype := derive Error_t [("type", Ptr)].
Definition ShiftOutOfBounds : ctype := derive Error_t (each Ptr ["left_type"; "right_type"]).
Definition InvalidValue : ctype := derive Error_t [("type", Ptr)].
Definition ArrayOutOfBounds : ctype := derive Error_t (each Ptr ["array_type"; "index_type"]).
Definition TypeMismatchV1_t : ctype := derive Error_t [("type", Ptr); ("log_alignment", U8); ("type_check_kind", U8)].
Definition NegativeVLA : ctype := derive Error_t [("type", Ptr)].
Definition InvalidBuiltin_t : ctype := derive Error_t [("kind", U8)].

(** The location that a handler passes on is the first part of each of them. *)
Lemma error_comes_first :
  Forall (fun t => take 3 (members_of t) = members_of Error_t)
    [Overflow; ShiftOutOfBounds; InvalidValue; ArrayOutOfBounds; TypeMismatchV1_t; NegativeVLA; InvalidBuiltin_t].
Proof. repeat constructor. Qed.
