(* ===== verification/Limine.v ===== *)
(** * limine.hpp: the boot loader's answers in memory

    The structures of the boot protocol that the kernel reads, and how [_start]
    gets from the requests in its image to the answers of file Boot: through the
    pointers that the boot loader stored.  [byte] is memory by address; the
    kernel's own objects [fb_req] and so on are at given addresses. *)
From S2P Require Import Prelude Layout Algorithm Bitmap Pmm CString Vector List Tmpfs Paging Machine Interrupts Cpu Timers Acpi Framebuffer Boot Sched Structures Kernel System.
From stdpp Require Import strings.
Local Open Scope Z_scope.

(** ** The structures *)
Definition limine_hhdm_request : ctype := Struct false [("id", Arr U64 4); ("revision", U64); ("response", Ptr)].
Definition limine_framebuffer_request : ctype := Struct false [("id", Arr U64 4); ("revision", U64); ("response", Ptr)].
Definition limine_smp_request : ctype := Struct false [("id", Arr U64 4); ("revision", U64); ("response", Ptr); ("flags", U64)].
Definition limine_memmap_request : ctype := Struct false [("id", Arr U64 4); ("revision", U64); ("response", Ptr)].
Definition limine_rsdp_request : ctype := Struct false [("id", Arr U64 4); ("revision", U64); ("response", Ptr)].
Definition limine_kernel_address_request : ctype := Struct false [("id", Arr U64 4); ("revision", U64); ("response", Ptr)].
Definition limine_module_request : ctype :=
  Struct false [("id", Arr U64 4); ("revision", U64); ("response", Ptr); ("internal_module_count", U64); ("internal_modules", Ptr)].
Definition limine_hhdm_response : ctype := Struct false (each U64 ["revision"; "offset"]).
Definition limine_framebuffer_t : ctype :=
  Struct false ([("address", Ptr)] ++ each U64 ["width"; "height"; "pitch"] ++ [("bpp", U16)] ++
    each U8 ["memory_model"; "red_mask_size"; "red_mask_shift"; "green_mask_size"; "green_mask_shift"; "blue_mask_size"; "blue_mask_shift"] ++
    [("unused", Arr U8 7); ("edid_size", U64); ("edid", Ptr); ("mode_count", U64); ("modes", Ptr)]).
Definition limine_framebuffer_response : ctype :=
  Struct false [("revision", U64); ("framebuffer_count", U64); ("framebuffers", Ptr)].
Definition limine_smp_info : ctype :=
  Struct false [("processor_id", U32); ("lapic_id", U32); ("reserved", U64); ("goto_address", Ptr); ("extra_argument", U64)].
Definition limine_smp_response : ctype :=
  Struct false [("revision", U64); ("flags", U32); ("bsp_lapic_id", U32); ("cpu_count", U64); ("cpus", Ptr)].
Definition limine_memmap_entry_t : ctype := Struct false (each U64 ["base"; "length"; "type"]).
Definition limine_memmap_response : ctype := Struct false [("revision", U64); ("entry_count", U64); ("entries", Ptr)].
Definition limine_uuid : ctype := Struct false [("a", U32); ("b", U16); ("c", U16); ("d", Arr U8 8)].
Definition limine_file : ctype :=
  Struct false ([("revision", U64); ("address", Ptr); ("size", U64); ("path", Ptr); ("cmdline", Ptr)] ++
    each U32 ["media_type"; "unused"; "tftp_ip"; "tftp_port"; "partition_index"; "mbr_disk_id"] ++
    each limine_uuid ["gpt_disk_uuid"; "gpt_part_uuid"; "part_uuid"]).
Definition limine_module_response : ctype := Struct false [("revision", U64); ("module_count", U64); ("modules", Ptr)].
Definition limine_rsdp_response : ctype := Struct false [("revision", U64); ("address", Ptr)].
Definition limine_kernel_address_response : ctype := Struct false (each U64 ["revision"; "physical_base"; "virtual_base"]).

Section Limine.
Context (byte : Z -> option Z).
Context (fb_req hhdm_req memmap_req module_req kernel_addr_req rsdp_req smp_req : Z).
Abbreviation get := (member byte).

(** [request.response], null when the boot loader did not answer. *)
Definition response {A} (t : ctype) (req : Z) (read : Z -> outcome A) : outcome (option A) :=
  r ← get t ["response"] req;
  if r =? 0 then Ret None else x ← read r; Ret (Some x).

(** [p[0]], ..., [p[n - 1]] of an array of pointers. *)
Fixpoint pointers (n : nat) (p : Z) : outcome (list Z) :=
  match n with O => Ret [] | S n => x ← field_at byte p 0 8; xs ← pointers n (p + 8); Ret (x :: xs) end.

Fixpoint read_all {A} (read : Z -> outcome A) (ps : list Z) : outcome (list A) :=
  match ps with [] => Ret [] | p :: ps => x ← read p; xs ← read_all read ps; Ret (x :: xs) end.

Definition read_framebuffer (p : Z) : outcome limine_framebuffer :=
  address ← get limine_framebuffer_t ["address"] p;
  width ← get limine_framebuffer_t ["width"] p;
  height ← get limine_framebuffer_t ["height"] p;
  pitch ← get limine_framebuffer_t ["pitch"] p;
  bpp ← get limine_framebuffer_t ["bpp"] p;
  Ret (mkLimineFramebuffer address width height pitch bpp).

(** The first of the frame buffers, when there is one. *)
Definition read_framebuffers (r : Z) : outcome (list limine_framebuffer) :=
  count ← get limine_framebuffer_response ["framebuffer_count"] r;
  if count =? 0 then Ret []
  else
    array ← get limine_framebuffer_response ["framebuffers"] r;
    ps ← pointers 1 array;
    read_all read_framebuffer ps.

Definition read_memmap_entry (p : Z) : outcome limine_memmap_entry :=
  base ← get limine_memmap_entry_t ["base"] p;
  length ← get limine_memmap_entry_t ["length"] p;
  type ← get limine_memmap_entry_t ["type"] p;
  Ret (mkEntry base length type).

Definition read_memmap (r : Z) : outcome (list limine_memmap_entry) :=
  count ← get limine_memmap_response ["entry_count"] r;
  array ← get limine_memmap_response ["entries"] r;
  ps ← pointers (Z.to_nat count) array;
  read_all read_memmap_entry ps.

Definition read_kernel_address (r : Z) : outcome (Z * Z) :=
  phy ← get limine_kernel_address_response ["physical_base"] r;
  virt ← get limine_kernel_address_response ["virtual_base"] r;
  Ret (phy, virt).

(** What [_start] finds in its requests. *)
Definition read_answers : outcome responses :=
  fb ← response limine_framebuffer_request fb_req read_framebuffers;
  hhdm ← response limine_hhdm_request hhdm_req (get limine_hhdm_response ["offset"]);
  memmap ← response limine_memmap_request memmap_req read_memmap;
  modules ← response limine_module_request module_req Ret;
  kernel ← response limine_kernel_address_request kernel_addr_req read_kernel_address;
  rsdp ← response limine_rsdp_request rsdp_req (get limine_rsdp_response ["address"]);
  smp ← response limine_smp_request smp_req Ret;
  Ret (mkResponses fb hhdm memmap modules kernel rsdp smp).

(** The processors, [init] being the address of the function they are sent to. *)
Definition read_cpu (init p : Z) : outcome smp_info :=
  lapic_id ← get limine_smp_info ["lapic_id"] p;
  extra ← get limine_smp_info ["extra_argument"] p;
  goto ← get limine_smp_info ["goto_address"] p;
  Ret (mkSmpInfo lapic_id extra (goto =? init)).

Definition read_cpus (init r : Z) : outcome (Z * list smp_info) :=
  bsp ← get limine_smp_response ["bsp_lapic_id"] r;
  count ← get limine_smp_response ["cpu_count"] r;
  array ← get limine_smp_response ["cpus"] r;
  ps ← pointers (Z.to_nat count) array;
  infos ← read_all (read_cpu init) ps;
  Ret (bsp, infos).

(** The module of [kernel_thread], which looks into none when there is not
    exactly one. *)
Definition read_module (p : Z) : outcome (Z * list Z) :=
  address ← get limine_file ["address"] p;
  size ← get limine_file ["size"] p;
  bs ← bytes_from byte address (Z.to_nat size);
  Ret (address, bs).

Definition read_modules (r : Z) : outcome (list (Z * list Z)) :=
  count ← get limine_module_response ["module_count"] r;
  if count =? 1 then
    array ← get limine_module_response ["modules"] r;
    ps ← pointers 1 array;
    read_all read_module ps
  else Ret (replicate (Z.to_nat count) (0, [])).
End Limine.

(** ** The answers are what the boot loader stored *)
Section answered.
Context (byte : Z -> option Z).
Abbreviation get := (member byte).
Abbreviation holds := (holds_at byte).

(** An object of integers at [a]; reading a member gives its value. *)
Definition is_object (t : ctype) (vs : list Z) (a : Z) : Prop := length vs = length (members_of t) /\ holds a (object t vs).

Lemma length_members packed fs : forall o, length (members packed o fs) = length fs.
Proof. induction fs as [|[nm t] fs IH]; intros o; [done|]. cbn. by rewrite IH. Qed.

Lemma member_reads t vs nm a i b m v :
  is_object t vs a -> sized t = true -> members_of t !! i = Some (nm, b, m) -> find_member nm (members_of t) = Some (b, m) ->
  vs !! i = Some v -> 0 <= v < 2 ^ (8 * size_of m) -> get t [nm] a = Ret v.
Proof.
  destruct t as [n|t n|packed fs]; [done..|]. cbn [members_of]. intros [Hl Hh] Hs Hm Hf Hv Hr. apply sized_struct in Hs. cbn [members_of] in Hl. rewrite length_members in Hl.
  destruct (object_member packed fs vs 0 i nm b m v Hs Hl Hm Hv) as (bs1 & bs2 & E & Hb).
  unfold member. cbn [member_at members_of]. rewrite Hf. cbn [mbind option_bind]. rewrite Z.add_0_r.
  change (object (Struct packed fs) vs) with (object_from packed 0 fs vs) in Hh. rewrite E in Hh.
  destruct (proj1 (Forall_forall _ _) (proj2 (members_apart packed fs Hs)) (nm, b, m)) as (Hb0 & Hsz & _);
    [by eapply list_elem_of_lookup_2|]. cbn [fst snd] in Hb0, Hsz.
  rewrite (field_at_holds byte a bs1 (bytes_of (Z.to_nat (size_of m)) v) bs2); [|done|lia|by rewrite length_bytes_of].
  assert (0 <= size_of m) as Hm0.
  { destruct (Z.lt_ge_cases (size_of m) 0); [|done]. rewrite Z.pow_neg_r in Hr by lia. lia. }
  f_equal. apply number_bytes_of. rewrite Z2Nat.id by done. change 256 with (2 ^ 8). by rewrite <- Z.pow_mul_r by lia.
Qed.

(** [reads n]: the read that is next is of the [n]th member of the object [H]. *)
Ltac reads H i :=
  rewrite (member_reads _ _ _ _ i _ _ _ H eq_refl eq_refl eq_refl eq_refl) by assumption; ored.

(** A request of type [t] that was answered at [r]. *)
Definition is_request (t : ctype) : Prop :=
  members_of t !! 2%nat = Some ("response", 40, Ptr) /\ find_member "response" (members_of t) = Some (40, Ptr) /\ sized t = true.
Definition answered (t : ctype) (req r : Z) : Prop :=
  is_request t /\ (exists id revision rest, is_object t (id :: revision :: r :: rest) req) /\ 0 < r < 2 ^ 64.

Lemma response_read t req id revision r rest :
  is_request t -> is_object t (id :: revision :: r :: rest) req -> 0 <= r < 2 ^ 64 -> get t ["response"] req = Ret r.
Proof. intros (H1 & H2 & H3) Ho Hr. by apply (member_reads t _ "response" req 2%nat 40 Ptr r Ho). Qed.

Lemma response_answered {A} t req r (read : Z -> outcome A) x :
  answered t req r -> read r = Ret x -> response byte t req read = Ret (Some x).
Proof.
  intros (Ht & (id & rev & rest & Ho) & Hr) E. unfold response. rewrite (response_read t req id rev r rest Ht Ho) by lia. ored.
  rewrite (proj2 (Z.eqb_neq r 0)) by lia. by rewrite E.
Qed.

(** The objects at [ps], in an array at [a]. *)
Definition is_array (ps : list Z) (a : Z) : Prop := holds a (concat (bytes_of 8 <$> ps)) /\ Forall (fun p => 0 <= p < 2 ^ 64) ps.

Lemma pointers_read ps : forall a, is_array ps a -> pointers byte (length ps) a = Ret ps.
Proof.
  induction ps as [|p ps IH]; intros a [Hh Hps]; [done|]. apply Forall_cons in Hps as [Hp Hps]. cbn [length pointers fmap list_fmap concat] in *.
  rewrite (field_at_holds byte a [] (bytes_of 8 p) (concat (bytes_of 8 <$> ps))) by done. rewrite number_bytes_of by done. ored.
  apply holds_at_app in Hh as [_ Hh]. rewrite length_bytes_of in Hh. by rewrite (IH (a + 8) (conj Hh Hps)).
Qed.

Lemma read_all_spec {A} (read : Z -> outcome A) ps xs : Forall2 (fun p x => read p = Ret x) ps xs -> read_all read ps = Ret xs.
Proof. induction 1 as [|p x ps xs E _ IH]; [done|]. cbn [read_all]. rewrite E. ored. by rewrite IH. Qed.

Abbreviation word v := (0 <= v < 2 ^ 64).

(** What stands at an address for the value that the model has for it. *)
Definition is_framebuffer (f : limine_framebuffer) (p : Z) : Prop :=
  (exists rest, is_object limine_framebuffer_t ([lf_address f; lf_width f; lf_height f; lf_pitch f; lf_bpp f] ++ rest) p) /\
  word (lf_address f) /\ word (lf_width f) /\ word (lf_height f) /\ word (lf_pitch f) /\ 0 <= lf_bpp f < 2 ^ 16.

Definition is_entry (e : limine_memmap_entry) (p : Z) : Prop :=
  is_object limine_memmap_entry_t [Pmm.base e; len e; Pmm.type e] p /\ word (Pmm.base e) /\ word (len e) /\ word (Pmm.type e).

Definition is_cpu (init : Z) (c : smp_info) (p : Z) : Prop :=
  exists id reserved goto, is_object limine_smp_info [id; smp_lapic_id c; reserved; goto; extra_argument c] p /\
    0 <= smp_lapic_id c < 2 ^ 32 /\ word (extra_argument c) /\ word goto /\ goto_init c = (goto =? init).

Definition is_module (m : Z * list Z) (p : Z) : Prop :=
  exists revision rest, is_object limine_file ([revision; m.1; Z.of_nat (length m.2)] ++ rest) p /\
    word m.1 /\ word (Z.of_nat (length m.2)) /\ holds m.1 m.2.

Lemma read_framebuffer_spec f p : is_framebuffer f p -> read_framebuffer byte p = Ret f.
Proof.
  intros ([rest Ho] & ? & ? & ? & ? & ?). unfold read_framebuffer. reads Ho 0%nat. reads Ho 1%nat. reads Ho 2%nat. reads Ho 3%nat. reads Ho 4%nat.
  by destruct f.
Qed.

Lemma read_memmap_entry_spec e p : is_entry e p -> read_memmap_entry byte p = Ret e.
Proof. intros (Ho & ? & ? & ?). unfold read_memmap_entry. reads Ho 0%nat. reads Ho 1%nat. reads Ho 2%nat. by destruct e. Qed.

Lemma read_cpu_spec init c p : is_cpu init c p -> read_cpu byte init p = Ret c.
Proof.
  intros (id & res & goto & Ho & ? & ? & ? & E). unfold read_cpu. reads Ho 1%nat. reads Ho 4%nat. reads Ho 3%nat. rewrite <- E. by destruct c.
Qed.

Lemma read_module_spec m p : is_module m p -> read_module byte p = Ret m.
Proof.
  intros (rev & rest & Ho & ? & ? & Hm). unfold read_module. reads Ho 1%nat. reads Ho 2%nat. rewrite Nat2Z.id, bytes_from_holds by done. ored. by destruct m.
Qed.

(** The responses with their arrays. *)
Definition are_framebuffers (f : limine_framebuffer) (r : Z) : Prop :=
  exists revision count array p, is_object limine_framebuffer_response [revision; count; array] r /\
    0 < count < 2 ^ 64 /\ word array /\ is_array [p] array /\ is_framebuffer f p.

Definition is_memmap (es : list limine_memmap_entry) (r : Z) : Prop :=
  exists revision array ps, is_object limine_memmap_response [revision; Z.of_nat (length es); array] r /\
    word (Z.of_nat (length es)) /\ word array /\ is_array ps array /\ Forall2 (fun p e => is_entry e p) ps es.

Definition are_cpus (init bsp : Z) (cs : list smp_info) (r : Z) : Prop :=
  exists revision flags array ps, is_object limine_smp_response [revision; flags; bsp; Z.of_nat (length cs); array] r /\
    0 <= bsp < 2 ^ 32 /\ word (Z.of_nat (length cs)) /\ word array /\ is_array ps array /\ Forall2 (fun p c => is_cpu init c p) ps cs.

Definition is_kernel_address (phy virt r : Z) : Prop :=
  exists revision, is_object limine_kernel_address_response [revision; phy; virt] r /\ word phy /\ word virt.

Lemma read_framebuffers_spec f r : are_framebuffers f r -> read_framebuffers byte r = Ret [f].
Proof.
  intros (rev & count & array & p & Ho & ? & ? & Ha & Hf). unfold read_framebuffers. assert (word count) by lia. reads Ho 1%nat.
  rewrite (proj2 (Z.eqb_neq count 0)) by lia. reads Ho 2%nat. rewrite (pointers_read [p] array Ha : pointers byte 1 array = Ret [p]). ored.
  apply read_all_spec. repeat constructor. by apply read_framebuffer_spec.
Qed.

Lemma read_list_spec {A} (read : Z -> outcome A) (P : A -> Z -> Prop) ps xs array n :
  (forall x p, P x p -> read p = Ret x) -> is_array ps array -> Forall2 (fun p x => P x p) ps xs -> n = Z.of_nat (length xs) ->
  (ps ← pointers byte (Z.to_nat n) array; read_all read ps) = Ret xs.
Proof.
  intros HP Ha Hps ->. rewrite Nat2Z.id. rewrite <- (Forall2_length _ _ _ Hps), (pointers_read ps array Ha). ored.
  apply read_all_spec. eapply Forall2_impl; [exact Hps|]. intros p x. apply HP.
Qed.

Lemma read_memmap_spec es r : is_memmap es r -> read_memmap byte r = Ret es.
Proof.
  intros (rev & array & ps & Ho & ? & ? & Ha & Hes). unfold read_memmap. reads Ho 1%nat. reads Ho 2%nat.
  by apply (read_list_spec (read_memmap_entry byte) is_entry ps es); [apply read_memmap_entry_spec|..].
Qed.

Lemma read_cpus_spec init bsp cs r : are_cpus init bsp cs r -> read_cpus byte init r = Ret (bsp, cs).
Proof.
  intros (rev & flags & array & ps & Ho & ? & ? & ? & Ha & Hcs). unfold read_cpus. reads Ho 2%nat. reads Ho 3%nat. reads Ho 4%nat.
  rewrite <- bind_assoc. rewrite (read_list_spec (read_cpu byte init) (is_cpu init) ps cs); [done|apply read_cpu_spec|done..].
Qed.

Lemma read_kernel_address_spec phy virt r : is_kernel_address phy virt r -> read_kernel_address byte r = Ret (phy, virt).
Proof. intros (rev & Ho & ? & ?). unfold read_kernel_address. reads Ho 1%nat. by reads Ho 2%nat. Qed.


Lemma read_modules_spec m r revision array p :
  is_object limine_module_response [revision; 1; array] r -> word array -> is_array [p] array -> is_module m p ->
  read_modules byte r = Ret [m].
Proof.
  intros Ho ? Ha Hm. unfold read_modules. assert (word 1) by lia. reads Ho 1%nat. cbn [Z.eqb Pos.eqb]. reads Ho 2%nat.
  rewrite (pointers_read [p] array Ha : pointers byte 1 array = Ret [p]). ored. apply read_all_spec. repeat constructor. by apply read_module_spec.
Qed.

(** A response of one number besides its revision. *)
Definition is_number (t : ctype) (v r : Z) : Prop := (exists revision, is_object t [revision; v] r) /\ word v.

(** When the boot loader answered every request, [_start] finds just what it
    stored, whatever the addresses, the identifiers, the members nobody reads
    and the rest of memory. *)
Lemma answers_are_read fb_req hhdm_req memmap_req module_req kernel_addr_req rsdp_req smp_req
    f hhdm es m phy virt rsdp s r1 r2 r3 r4 r5 :
  answered limine_framebuffer_request fb_req r1 -> are_framebuffers f r1 ->
  answered limine_hhdm_request hhdm_req r2 -> is_number limine_hhdm_response hhdm r2 ->
  answered limine_memmap_request memmap_req r3 -> is_memmap es r3 ->
  answered limine_module_request module_req m ->
  answered limine_kernel_address_request kernel_addr_req r4 -> is_kernel_address phy virt r4 ->
  answered limine_rsdp_request rsdp_req r5 -> is_number limine_rsdp_response rsdp r5 ->
  answered limine_smp_request smp_req s ->
  read_answers byte fb_req hhdm_req memmap_req module_req kernel_addr_req rsdp_req smp_req
  = Ret (mkResponses (Some [f]) (Some hhdm) (Some es) (Some m) (Some (phy, virt)) (Some rsdp) (Some s)).
Proof.
  intros A1 H1 A2 [[rev2 H2] W2] A3 H3 A4 A5 H5 A6 [[rev6 H6] W6] A7. unfold read_answers.
  rewrite (response_answered _ _ _ _ _ A1 (read_framebuffers_spec _ _ H1)). ored.
  rewrite (response_answered _ _ _ (get limine_hhdm_response ["offset"]) hhdm A2); [|by reads H2 1%nat]. ored.
  rewrite (response_answered _ _ _ _ _ A3 (read_memmap_spec _ _ H3)). ored.
  rewrite (response_answered _ _ _ (@Ret Z) m A4 eq_refl). ored.
  rewrite (response_answered _ _ _ _ _ A5 (read_kernel_address_spec _ _ _ H5)). ored.
  rewrite (response_answered _ _ _ (get limine_rsdp_response ["address"]) rsdp A6); [|by reads H6 1%nat]. ored.
  by rewrite (response_answered _ _ _ (@Ret Z) s A7 eq_refl).
Qed.

(** Without an answer there is none of its values. *)
Lemma no_answer {A} t req (read : Z -> outcome A) id revision rest :
  is_request t -> is_object t (id :: revision :: 0 :: rest) req -> response byte t req read = Ret None.
Proof. intros Ht Ho. unfold response. by rewrite (response_read t req id revision 0 rest Ht Ho). Qed.

Lemma requests : Forall is_request
  [limine_hhdm_request; limine_framebuffer_request; limine_smp_request; limine_memmap_request; limine_rsdp_request;
   limine_kernel_address_request; limine_module_request].
Proof. repeat constructor. Qed.
End answered.

(** ** The small PC's memory *)
Definition memory_of (os : list (Z * list Z)) (a : Z) : option Z := head (omap (fun '(base, bs) => image_at base bs a) os).
Definition asked (r : Z) : list Z := object limine_hhdm_request [0; 0; r].
Definition array (ps : list Z) : list Z := concat (bytes_of 8 <$> ps).

Definition init_address : Z := 0xFFFFFFFF80003000.

Definition pc_memory : Z -> option Z :=
  memory_of (
    [(0x100, asked 0x280); (0x130, asked 0x2C0); (0x160, asked 0x300); (0x190, asked 0x380); (0x1C0, asked 0x3C0);
     (0x1F0, asked 0x3E0); (0x220, asked 0x400);
     (0x280, object limine_framebuffer_response [1; 1; 0x2A0]); (0x2A0, array [0x500]);
     (0x500, object limine_framebuffer_t [0x80000000; 64; 40; 256; 32; 1; 8; 16; 8; 8; 8; 0; 0; 0; 0; 0; 0]);
     (0x2C0, object limine_hhdm_response [0; window]);
     (0x300, object limine_memmap_response [0; Z.of_nat (length big_map); 0x340]); (0x340, array ((fun i => 0x600 + 0x20 * i) <$> seqZ 0 (Z.of_nat (length big_map))));
     (0x380, object limine_module_response [1; 1; 0x3A0]); (0x3A0, array [0x800]);
     (0x800, object limine_file [0; 0x1000; 4; 0; 0; 0; 0; 0; 0; 0; 0; 0; 0; 0]); (0x1000, lit "tape");
     (0x3C0, object limine_kernel_address_response [0; 0x11000; 0xFFFFFFFF80000000]);
     (0x3E0, object limine_rsdp_response [0; window + 0x500]);
     (0x400, object limine_smp_response [0; 0; 0; 2; 0x420]); (0x420, array [0x440; 0x480]);
     (0x440, object limine_smp_info [0; 0; 0; 0; 0]); (0x480, object limine_smp_info [1; 1; 0; 0; 0])] ++
    imap (fun i e => (0x600 + 0x20 * Z.of_nat i, object limine_memmap_entry_t [Pmm.base e; len e; Pmm.type e])) big_map).

(** Its answers and processors are those with which it boots in file System. *)
Example pc_memory_read :
  read_answers pc_memory 0x100 0x130 0x160 0x190 0x1C0 0x1F0 0x220 = Ret answers /\
  read_cpus pc_memory init_address 0x400 = Ret (0, pc_cpus) /\
  read_modules pc_memory 0x380 = Ret [(4096, lit "tape")].
Proof. split; [|split]; vm_compute; reflexivity. Qed.
